(* ===== verification/_CoqProject ===== *)
-Q . S2P
Prelude.v
RustStd.v
RustNet.v
AsyncIo.v
RustF64.v
Framing.v
Ktp.v
TunnelSession.v
CodecBuffer.v
KtpStream.v
KtpCrypto.v
KtpRecord.v
KtpRelay.v
Transport.v
TunnelControl.v
TunnelPreflight.v
TunnelStats.v
TunnelCore.v
TunnelReady.v
TunnelRuntime.v
TunnelWire.v
TunnelDiag.v
TunnelSocket.v
TunnelLaws.v
TunnelData.v
TunnelAuth.v
Config.v
ConfigLaws.v
Report.v
SmokeSummary.v
ReportLoop.v
ReportLaws.v
AutoDiscovery.v
Task.v
Terminal.v
Dns.v
NetStatic.v
HostMetrics.v
HostLaws.v
HostNames.v
HostAddrs.v
Gpu.v
ProcSample.v
System.v
CnConnectivity.v
Main.v
CarrierSummary.v
PolicySummary.v
BackendMatrix.v
TunnelMatrix.v
