(* ===== verification/Prelude.v ===== *)
(** * A verification of the kelicloud agent

    The agent ([src/src/], Rust) runs on a server and talks to a panel: it reports metrics,
    and it carries TCP tunnels for the panel.  A tunnel rule makes one agent listen (the
    ingress side) and another dial (the egress side); the bytes of the connections travel as
    KTP frames over a data connection to a relay, either a web socket or an encrypted TCP or
    TLS stream.  This library models the tunnel part of the agent from the wire format up to
    the session loop, and the part that configures it, measures the host, reports to the panel
    and carries out its messages, up to the entry point, and proves what makes them correct.  All definitions are executable; the
    proofs use stdpp.

    ** Conventions

    A fallible function returns [result E A]: [Ok], [Err], or [Panic] where the Rust code
    would panic (indexing, [expect], arithmetic overflow in a checked build).  A method on
    [&mut self], or an [async fn], is an action [act S E A] ([AsyncIo]): it returns the new
    state and [Done], [Fail], [Wait] (input has not arrived) or [Crash].  [wp], [keeps] and
    [never] are the logic of actions.  Integers of a fixed width are [N] with the overflow
    behaviour of the operation written out ([saturating_add], [wrapping_add], [checked_add]);
    strings are byte strings, with Unicode white space for [trim]; a hash map is a [gmap];
    an [f64] is a value of the standard library's executable floating-point numbers.  One
    counter wraps as in a release build, that of failed connections in [ReportLoop]: it
    matters only to an agent told to retry 2^32 - 1 times.
    Comments of the form [file.rs [item]] name the source of a definition.

    ** The parts

    - [Prelude], [RustStd], [RustNet], [AsyncIo], [RustF64], [Framing]: results, bytes,
      big-endian integers, slices; the string, sorting and address-parsing functions of the
      Rust library the code uses; actions; floating-point numbers and when their arithmetic
      is exact; cutting a byte stream into pieces.
    - [Ktp] ([ktp.rs]): frames, their validation, encoder and decoder.
    - [TunnelSession] ([tunnel_session.rs]): the payloads of session frames.
    - [CodecBuffer], [KtpStream], [KtpCrypto], [KtpRecord], [KtpRelay] ([ktp_transport.rs]): the
      receive buffer, the plain stream codec, sealing and opening records, the record codec,
      encrypted streams and the relay.  The AEAD cipher is a class [Aead] with its laws.
    - [Transport] ([transport.rs], [protocol.rs]): URLs, tokens, response classification.
    - [TunnelControl] ([tunnel_control.rs]): the control session, generic in the rule sink
      (class [TunnelRuleStateSink]); JSON decoding is a parameter.
    - [TunnelPreflight] ([tunnel_preflight.rs]): validation of rules, source allowlists.
    - [TunnelStats], [TunnelCore] ([tunnel_async_runtime.rs]): counters, dwell statistics and
      batch sizes; the session core.
    - [TunnelReady], [TunnelRuntime] ([tunnel_runtime.rs], ready state of [tunnel_data.rs]): the
      shared rule state, which is a rule sink, the listener plan and its health, readiness;
      the TCP runtime that refreshes listeners and answers server frames.
    - [TunnelWire], [TunnelDiag], [TunnelSocket], [TunnelLaws], [TunnelData], [TunnelAuth]
      ([tunnel_data.rs]): HELLO and READY payloads; diagnostics; the classes
      [TunnelDataSocket] and [TunnelSessionRuntime] with the implementations of the agent;
      what they promise to the loop; the session loop; authentication and connecting.
    - [Config], [ConfigLaws] ([config.rs]): the arguments, the environment and the
      configuration file as three passes over a draft; what an accepted configuration is.
    - [Report], [ReportLoop], [ReportLaws] ([report.rs], [ping.rs], [runtime.rs]): the records
      of a report, measuring a ping; the report cycle over a world of scripted answers that
      logs every call; bounds, sleeps, messages and giving up.  Handlers of messages are
      instances of the class [ReportLoop.ControlMessageHandler].
    - [AutoDiscovery] ([auto_discovery.rs], [token.rs]): registration, the token cache, the
      recovery of a rejected token, which the report loop calls, and the shared token.
    - [Task] ([task.rs]): commands of the panel, a handler of messages; scripts in a modelled
      file system; the upload of results.
    - [SmokeSummary] ([smoke_summary.rs]): event lines and the summary of a log.
    - [Terminal] ([terminal.rs]): a web terminal: the session loop and the output thread as a
      transition system with the lock of the socket, and the handler that starts it.
    - [Dns], [HostMetrics], [HostLaws] ([linux_proc.rs]): the DNS client; memory, disks,
      counters, sockets, mount points and the start of the traffic month.
    - [HostNames], [HostAddrs], [Gpu], [ProcSample] ([linux_proc.rs]): names of the processor, the
      system, the container or hypervisor and the graphics card; local and public addresses;
      the metrics of graphics cards; load, uptime, ticks and processes, and the readers.
      Files and commands are a record [HostNames.Host].
    - [NetStatic] ([net_static.rs], interface filter of [linux_proc.rs]): traffic accounting, over
      a class [F64] of numbers.
    - [System] ([system.rs]): the snapshot, collected from all these readers, and the report; it
      instantiates the class [F64] with binary64.
    - [CnConnectivity] ([cn_connectivity.rs]): the connectivity probe.
    - [Main] ([main.rs]): what the program prints and starts, its exit status, and the delays
      of the tunnel threads.
    - [CarrierSummary], [PolicySummary], [BackendMatrix], [TunnelMatrix] ([bin/]): the gates on
      the tables of the benchmarks.

    The control session feeds the rule state; the runtime reads it, starts listeners and
    writes their health back; the ready state computed from both is what the data loop
    announces; the loop moves frames between its socket and the runtime, and the runtime
    between frames and TCP connections through the core.  The configuration goes to all of
    them; the report loop replaces its token through auto discovery and hands messages to
    the task handler, the terminal handler and the connectivity probe; what it reports is a
    snapshot of the system.  [Main.main] composes them.

    ** What is proved

    - Formats: frames, session payloads, READY payloads, tokens in URLs and data URLs round
      trip or are unambiguous; decoders accept only canonical bytes.
    - Streams: however the network cuts the bytes, codecs deliver what was sent; buffers stay
      within their limits; nonces are never reused and records never accepted twice; the relay
      forwards exactly the frames it opened.
    - Authentication: a token connection sends the 84-byte preface and both ends can derive
      the key from it; keys and tags bind what they are made of.
    - Sessions: over every interleaving of the tasks of the core, limits hold and the bytes of
      a connection are written in order without loss or repetition.  The steps of
      [TunnelCore.core_step] are the critical sections of the code: one per call, per task
      iteration and, where a call awaits, per part between the awaits.
    - Rules: readiness is exact; after a refresh the listeners are those of the plan; the source
      check agrees with the meaning of the allowlist; every egress open is answered.
    - The control and data sessions are well-formed conversations whatever the peer sends and
      whichever sends fail; a drain ends and sends the whole queue; a session that is over
      leaves nothing behind.  The data loop is proved against the two classes, and both
      sockets and the TCP runtime satisfy their laws.
    - An accepted configuration is well formed, loading one never panics, and the file wins
      over the environment, which wins over the command line.
    - The report loop makes a bounded number of calls per cycle, never panics, sleeps exactly
      the time asked for, handles every message once and in order, and gives up after the
      configured number of retries.
    - A recovered token is usable and reaches the tunnel; a task's script runs as sent and is
      removed; its result is uploaded up to the first answer that decides.
    - DNS responses are read without a panic whatever their bytes, and exactly when well
      formed; a disk is counted once; the traffic month starts at the latest reset date.
    - Traffic accounts equal the growth of the counters; the connectivity status follows the
      probes.
    - A terminal session carries input and output in order and without gaps, and its socket is
      used by one thread at a time; it can always go on, but for one deadlock.
    - A snapshot reports the traffic of the month from the sampler it has just fed; the message
      of a report names exactly the sources that failed; the scanner of public addresses is
      the pattern it stands for; of the interfaces the first usable address is reported; the
      cards of an [nvidia-smi] document are found and their text read back.
    - The program starts only what its configuration asks for; the tunnel threads back off alike
      between 5 and 60 seconds; a gate passes a table exactly when its rows meet the demands,
      reports the true extremes of a table, and ranks two policies by the Pareto order.
    - Theorems about errors show, on the model, where the code does not do what it means to: a
      failed batch desynchronises the stream, a full queue leaks sessions and drops data,
      one slow session ends the connection, a session id in use is not refused, a failed
      registration leaves the agent without a token for good, a terminal whose browser vanishes
      deadlocks, a throughput that is not a number passes a gate, only one row is held against a limit,
      and others.

    ** Bounds

    Loops over input that is at hand recurse on it.  [TunnelData.data_loop] and
    [TunnelData.drain_loop] take fuel: the first is the endless loop of a session, and the
    theorems hold for every fuel; for the second, [TunnelData.drain_sends_queue] shows that more
    fuel than queued frames is enough.  [ReportLoop]'s sleep takes fuel, and
    [ReportLaws.sleep_terminates] gives how much is enough; its cycles are the number of
    cycles to run.  A DNS name is skipped in at most as many turns as the packet has bytes.
    Splitting and trimming use the length of the string as fuel, and so do the scanners of
    [Gpu]; loops over arguments use their number.  The clock, the ready source,
    the prober, the panel's answers and the operating system are sequences of values or
    functions over which the theorems quantify.

    ** Not modelled

    The web socket, TLS, HTTP, JSON and IDNA libraries, [sysinfo], the pseudo terminal, the printing
    of [f64] values and Unicode case mapping are libraries: what the code gets from them is a
    parameter.  Sockets are opened, TLS configurations built and threads spawned by library
    calls, whose results are parameters too; the branches for systems other than Linux are not
    compiled in.  Methods and constructors that only forward are not repeated.  The smoke test
    drivers and the benchmarks ([ktp-*-bench.rs]) are not part of the agent: they drive the code
    modelled here over real sockets and time it. *)
From stdpp Require Export base tactics list gmap strings numbers.
From Stdlib Require Export NArith ZArith Lia.
From Stdlib Require Import Strings.Byte.

(** ** Results: [Ok], [Err], and the panic a Rust program can reach *)
Inductive result (E A : Type) : Type :=
  | Ok (a : A)
  | Err (e : E)
  | Panic.
Arguments Ok {E A} a.
Arguments Err {E A} e.
Arguments Panic {E A}.

#[export] Instance result_ret {E} : MRet (result E) := fun A a => Ok a.
#[export] Instance result_bind {E} : MBind (result E) := fun A B f m =>
  match m with Ok a => f a | Err e => Err e | Panic => Panic end.
#[export] Instance result_fmap {E} : FMap (result E) := fun A B f m =>
  match m with Ok a => Ok (f a) | Err e => Err e | Panic => Panic end.

(** [Result::map_err] *)
Definition map_err {E F A} (f : E → F) (m : result E A) : result F A :=
  match m with Ok a => Ok a | Err e => Err (f e) | Panic => Panic end.

(** [Option::ok_or] *)
Definition ok_or {E A} (o : option A) (e : E) : result E A :=
  match o with Some a => Ok a | None => Err e end.

(** [Option::expect] and out-of-range indexing: [None] is a panic *)
Definition expect {E A} (o : option A) : result E A :=
  match o with Some a => Ok a | None => Panic end.

#[export] Instance result_eq_dec {E A} `{EqDecision E, EqDecision A} :
  EqDecision (result E A).
Proof.
  refine (fun x y => match x, y with
    | Ok a, Ok b => cast_if (decide (a = b))
    | Err e, Err f => cast_if (decide (e = f))
    | Panic, Panic => left eq_refl
    | _, _ => right _
    end); abstract congruence.
Defined.

(** Case analysis on a monadic hypothesis: [m ≫= f = Ok b] *)
Lemma bind_Ok {E A B} (m : result E A) (f : A → result E B) b :
  m ≫= f = Ok b ↔ ∃ a, m = Ok a ∧ f a = Ok b.
Proof. destruct m; simpl; naive_solver. Qed.

#[export] Instance Ok_inj {E A} : Inj (=) (=) (@Ok E A).
Proof. by intros a b [= ->]. Qed.

Lemma map_err_Ok {E F A} (g : E → F) (m : result E A) a :
  map_err g m = Ok a ↔ m = Ok a.
Proof. destruct m; simpl; naive_solver. Qed.

Ltac inv_ok :=
  repeat match goal with
  | H : (_ ≫= _) = Ok _ |- _ => apply bind_Ok in H as (? & ? & ?)
  | H : map_err _ _ = Ok _ |- _ => apply map_err_Ok in H
  | H : Ok _ = Ok _ |- _ => injection H as H; try subst
  | H : Ok _ = Err _ |- _ => discriminate H
  | H : Err _ = Ok _ |- _ => discriminate H
  | H : Panic = Ok _ |- _ => discriminate H
  | H : Ok _ = Panic |- _ => discriminate H
  | H : Err _ = Panic |- _ => discriminate H
  end.

(** One step of a [result] computation whose head is known *)
Ltac step_ok := cbn [mbind result_bind]; cbv beta iota zeta.

(** Splits every [if]/[match] of the hypotheses and the goal. *)
Ltac case_all :=
  repeat (case_match; simplify_eq/=; try done).

(** The elements of the concrete lists of the context, one case each *)
Ltac list_cases :=
  repeat match goal with
  | H : _ ∈ _ :: _ |- _ => apply elem_of_cons in H as [->|H]
  | H : _ ∈ [] |- _ => by apply elem_of_nil in H
  end.

(** Closed decidable goals, by evaluation *)
Ltac by_decide := apply (bool_decide_unpack _); vm_compute; exact I.

(** ** Bytes *)
#[export] Instance byte_eq_dec : EqDecision byte := Byte.byte_eq_dec.
#[export] Instance byte_inhabited : Inhabited byte := populate x00.

(** Lengths are [usize] values: [N]. *)
Definition len {A} (l : list A) : N := N.of_nat (length l).
Definition u8 (b : byte) : N := Byte.to_N b.
Definition byte_of_N (x : N) : byte := default x00 (Byte.of_N (x mod 256)).

Definition U8_MAX : N := 2 ^ 8 - 1.
Definition U16_MAX : N := 2 ^ 16 - 1.
Definition U32_MAX : N := 2 ^ 32 - 1.
Definition U64_MAX : N := 2 ^ 64 - 1.
Definition USIZE_MAX : N := U64_MAX.

(** Machine-width arithmetic on unsigned values held in [N] *)
Definition saturating_add (max a b : N) : N := N.min (a + b) max.
Definition saturating_mul (max a b : N) : N := N.min (a * b) max.
Definition wrapping_add (max a b : N) : N := (a + b) mod (max + 1).
Definition checked_add (max a b : N) : option N :=
  if bool_decide (a + b ≤ max)%N then Some (a + b)%N else None.

(** ** Slices *)
Section slices.
Context {E A : Type}.

(** [&l[i..j]], a panic when out of range *)
Definition slice (l : list A) (i j : N) : result E (list A) :=
  if bool_decide (i ≤ j ∧ j ≤ len l)%N
  then Ok (take (N.to_nat (j - i)) (drop (N.to_nat i) l)) else Panic.

(** [l[i]], a panic when out of range *)
Definition index (l : list A) (i : N) : result E A := expect (l !! N.to_nat i).
End slices.

(** ** Big-endian encodings: [to_be_bytes] and [from_be_bytes] *)
Fixpoint be_bytes (n : nat) (x : N) : list byte :=
  match n with
  | O => []
  | S m => byte_of_N (x / 256 ^ N.of_nat m) :: be_bytes m x
  end.

Definition be_value (bs : list byte) : N :=
  foldl (fun acc b => acc * 256 + u8 b)%N 0%N bs.

(** ** Lemmas on bytes and integers *)
Lemma u8_lt b : (u8 b < 256)%N.
Proof. pose proof (Byte.to_N_bounded b). unfold u8. lia. Qed.

Lemma byte_of_u8 b : byte_of_N (u8 b) = b.
Proof.
  unfold byte_of_N. rewrite N.mod_small by apply u8_lt.
  unfold u8. by rewrite Byte.of_to_N.
Qed.

Lemma u8_byte_of_N x : u8 (byte_of_N x) = (x mod 256)%N.
Proof.
  unfold byte_of_N, u8. destruct (Byte.of_N _) eqn:Hb; simpl.
  - by apply Byte.to_of_N in Hb.
  - apply Byte.of_N_None_iff in Hb.
    pose proof (N.mod_upper_bound x 256). lia.
Qed.

Lemma u8_inj b c : u8 b = u8 c → b = c.
Proof. intros H. by rewrite <- (byte_of_u8 b), H, byte_of_u8. Qed.

Lemma pow256_S n : (256 ^ N.of_nat (S n) = 256 * 256 ^ N.of_nat n)%N.
Proof. by rewrite Nat2N.inj_succ, N.pow_succ_r'. Qed.

Lemma pow256_pos n : (0 < 256 ^ N.of_nat n)%N.
Proof. apply N.neq_0_lt_0, N.pow_nonzero. lia. Qed.

Lemma length_be_bytes n x : length (be_bytes n x) = n.
Proof. induction n; simpl; congruence. Qed.

Lemma be_value_acc bs acc :
  foldl (fun a b => a * 256 + u8 b)%N acc bs
  = (acc * 256 ^ N.of_nat (length bs) + be_value bs)%N.
Proof.
  unfold be_value. revert acc. induction bs as [|b bs IH]; intros acc.
  - cbn. lia.
  - cbn [foldl length]. rewrite (IH (acc * 256 + u8 b)%N), (IH (0 * 256 + u8 b)%N).
    rewrite pow256_S. lia.
Qed.

Lemma be_value_cons b bs :
  be_value (b :: bs) = (u8 b * 256 ^ N.of_nat (length bs) + be_value bs)%N.
Proof. unfold be_value at 1. cbn [foldl]. rewrite be_value_acc. lia. Qed.

Lemma be_value_lt bs : (be_value bs < 256 ^ N.of_nat (length bs))%N.
Proof.
  induction bs as [|b bs IH]; [done|].
  rewrite be_value_cons. cbn [length]. rewrite pow256_S.
  pose proof (u8_lt b). nia.
Qed.

Lemma be_value_bytes_mod n x : be_value (be_bytes n x) = (x mod 256 ^ N.of_nat n)%N.
Proof.
  induction n as [|n IH]; cbn [be_bytes].
  - by rewrite N.mod_1_r.
  - rewrite be_value_cons, IH, u8_byte_of_N, length_be_bytes, pow256_S.
    pose proof (pow256_pos n). set (p := (256 ^ N.of_nat n)%N) in *.
    rewrite (N.mul_comm 256 p), N.Div0.mod_mul_r, (N.mul_comm p), N.add_comm. done.
Qed.

(** Decoding an encoding gives the value back when it fits its width. *)
Lemma be_value_bytes n x :
  (x < 256 ^ N.of_nat n)%N → be_value (be_bytes n x) = x.
Proof. intros Hx. rewrite be_value_bytes_mod. by apply N.mod_small. Qed.

Lemma be_value_bytes_8 x : (x ≤ U64_MAX)%N → be_value (be_bytes 8 x) = x.
Proof.
  intros H. apply be_value_bytes. change (256 ^ N.of_nat 8)%N with (U64_MAX + 1)%N. lia.
Qed.
Lemma be_value_bytes_4 x : (x ≤ U32_MAX)%N → be_value (be_bytes 4 x) = x.
Proof.
  intros H. apply be_value_bytes. change (256 ^ N.of_nat 4)%N with (U32_MAX + 1)%N. lia.
Qed.
Lemma be_value_bytes_2 x : (x ≤ U16_MAX)%N → be_value (be_bytes 2 x) = x.
Proof.
  intros H. apply be_value_bytes. change (256 ^ N.of_nat 2)%N with (U16_MAX + 1)%N. lia.
Qed.
Lemma be_value_8_le bs : len bs = 8%N → (be_value bs ≤ U64_MAX)%N.
Proof.
  intros H. pose proof (be_value_lt bs) as Hlt. fold (len bs) in Hlt. rewrite H in Hlt.
  change (256 ^ 8)%N with (U64_MAX + 1)%N in Hlt. lia.
Qed.
Lemma be_value_4_le bs : len bs = 4%N → (be_value bs ≤ U32_MAX)%N.
Proof.
  intros H. pose proof (be_value_lt bs) as Hlt. fold (len bs) in Hlt. rewrite H in Hlt.
  change (256 ^ 4)%N with (U32_MAX + 1)%N in Hlt. lia.
Qed.
Lemma be_value_2_le bs : len bs = 2%N → (be_value bs ≤ U16_MAX)%N.
Proof.
  intros H. pose proof (be_value_lt bs) as Hlt. fold (len bs) in Hlt. rewrite H in Hlt.
  change (256 ^ 2)%N with (U16_MAX + 1)%N in Hlt. lia.
Qed.

Lemma be_bytes_mod n x y :
  (x mod 256 ^ N.of_nat n = y mod 256 ^ N.of_nat n)%N → be_bytes n x = be_bytes n y.
Proof.
  induction n as [|n IH]; [done|]. cbn [be_bytes]. rewrite pow256_S. intros H.
  pose proof (pow256_pos n). set (p := (256 ^ N.of_nat n)%N) in *.
  rewrite (N.mul_comm 256 p), !N.Div0.mod_mul_r in H.
  destruct (N.div_mod_unique p ((x / p) mod 256) ((y / p) mod 256) (x mod p) (y mod p))
    as [Hd Hm]; [apply N.mod_upper_bound; lia..|lia|].
  f_equal; [|by apply IH].
  apply u8_inj. by rewrite !u8_byte_of_N.
Qed.

Lemma be_bytes_add_mul n k b x :
  (x < 256 ^ N.of_nat n)%N → (k ≤ n)%nat →
  be_bytes k (b * 256 ^ N.of_nat n + x) = be_bytes k x.
Proof.
  intros Hx Hk. apply be_bytes_mod.
  replace (256 ^ N.of_nat n)%N with (256 ^ N.of_nat (n - k) * 256 ^ N.of_nat k)%N.
  - by rewrite N.mul_assoc, (N.add_comm _ x), N.Div0.mod_add.
  - rewrite <- N.pow_add_r. f_equal. lia.
Qed.

(** Encoding a decoded value gives the bytes back. *)
Lemma be_bytes_value bs : be_bytes (length bs) (be_value bs) = bs.
Proof.
  induction bs as [|b bs IH]; [done|].
  cbn [length be_bytes]. rewrite be_value_cons.
  pose proof (be_value_lt bs) as Hlt. pose proof (u8_lt b).
  f_equal.
  - rewrite N.div_add_l by (pose proof (pow256_pos (length bs)); lia).
    rewrite N.div_small by done. rewrite N.add_0_r. apply byte_of_u8.
  - by rewrite be_bytes_add_mul.
Qed.

Lemma be_bytes_value_n n bs : length bs = n → be_bytes n (be_value bs) = bs.
Proof. intros <-. apply be_bytes_value. Qed.

(** ** Lemmas on lists and slices *)
Lemma len_app {A} (l k : list A) : len (l ++ k) = (len l + len k)%N.
Proof. unfold len. rewrite length_app. lia. Qed.
Lemma len_nil {A} : len (@nil A) = 0%N.
Proof. done. Qed.
Lemma len_cons {A} (x : A) l : len (x :: l) = (1 + len l)%N.
Proof. unfold len. simpl length. lia. Qed.
Lemma len_be_bytes n x : len (be_bytes n x) = N.of_nat n.
Proof. unfold len. by rewrite length_be_bytes. Qed.
Lemma len_0 {A} (l : list A) : len l = 0%N → l = [].
Proof. destruct l; [done|]. rewrite len_cons. lia. Qed.
Lemma len_drop {A} (l : list A) n : len (drop (N.to_nat n) l) = (len l - n)%N.
Proof. unfold len. rewrite length_drop. lia. Qed.
Lemma len_take {A} (l : list A) n : len (take (N.to_nat n) l) = N.min n (len l).
Proof. unfold len. rewrite length_take. lia. Qed.

Create HintDb len discriminated.
#[export] Hint Rewrite @len_app @len_nil @len_cons @len_be_bytes @len_drop @len_take : len.

(** Normalises lengths everywhere, then calls [lia]. *)
Ltac len_lia := autorewrite with len in *; lia.

(** Cuts a list whose [len] is a known numeral [n] into its elements. *)
Ltac explode_list l n :=
  lazymatch n with
  | O => destruct l; [|exfalso; len_lia]
  | S ?m => destruct l as [|? l]; [exfalso; len_lia|explode_list l m]
  | _ => let n' := eval compute in n in explode_list l n'
  end.

Lemma slice_ok {E A} (l : list A) i j :
  (i ≤ j)%N → (j ≤ len l)%N →
  slice (E:=E) l i j = Ok (take (N.to_nat (j - i)) (drop (N.to_nat i) l)).
Proof. intros ??. unfold slice. by rewrite bool_decide_true. Qed.

Lemma slice_length {E A} (l : list A) i j s :
  slice (E:=E) l i j = Ok s → len s = (j - i)%N.
Proof.
  unfold slice. case_bool_decide; [|done]. intros [= <-]. len_lia.
Qed.

(** The three-part split behind every successful slice *)
Lemma slice_app {E A} (a b c : list A) i j :
  len a = i → len b = (j - i)%N → (i ≤ j)%N → slice (E:=E) (a ++ b ++ c) i j = Ok b.
Proof.
  intros Ha Hb Hij. rewrite slice_ok by len_lia. f_equal.
  rewrite drop_app_length' by (unfold len in *; lia).
  by rewrite take_app_length' by (unfold len in *; lia).
Qed.

Lemma slice_app_0 {E A} (b c : list A) j : len b = j → slice (E:=E) (b ++ c) 0 j = Ok b.
Proof. intros Hb. apply (slice_app []); [done|lia..]. Qed.

Lemma index_app {E A} (a : list A) x c i :
  len a = i → index (E:=E) (a ++ x :: c) i = Ok x.
Proof.
  intros <-. unfold index, len. rewrite Nat2N.id, list_lookup_middle by done. done.
Qed.

#[global] Arguments be_bytes : simpl never.
#[global] Arguments be_value : simpl never.
#[global] Arguments len : simpl never.

(** A filter that nothing passes *)
Lemma filter_none {A} (P : A → Prop) `{!∀ x, Decision (P x)} (l : list A) :
  (∀ x, x ∈ l → ¬ P x) → filter P l = [].
Proof.
  intros Hn. apply elem_of_nil_inv. intros x [HP Hx]%list_elem_of_filter. by apply (Hn x).
Qed.

(** ** Sums *)
Definition sumN (l : list N) : N := foldr N.add 0%N l.
#[global] Arguments sumN : simpl never.

Lemma sumN_cons x l : sumN (x :: l) = (x + sumN l)%N.
Proof. done. Qed.
Lemma sumN_app l k : sumN (l ++ k) = (sumN l + sumN k)%N.
Proof. induction l as [|x l IH]; [done|]. cbn [app]. rewrite !sumN_cons. lia. Qed.
