(* ===== verification/RustStd.v ===== *)
(** * The parts of the Rust standard library the agent uses

    A Rust [str] is a sequence of UTF-8 bytes; here it is a [string], whose
    characters are bytes.  The operations below act on the bytes, and agree with
    Rust's character-wise operations on every valid UTF-8 string: the separators
    and White_Space characters searched for are matched as whole encodings, whose
    first byte is never a continuation byte.  Also here: integer parsing, UTF-8
    validation, stable sorting and [Vec::dedup]. *)
From S2P Require Import Prelude.
From stdpp Require Export sorting pretty.
From Stdlib Require Import Strings.Byte.
From Stdlib Require Strings.String.
Local Open Scope N_scope.

Definition bytes_of (s : string) : list byte := String.list_byte_of_string s.
Definition str_of (bs : list byte) : string := String.string_of_list_byte bs.
#[global] Arguments bytes_of : simpl never.
#[global] Arguments str_of : simpl never.
Definition str_len (s : string) : N := len (bytes_of s).

(** ** Prefixes *)
Fixpoint strip_bytes (p l : list byte) : option (list byte) :=
  match p, l with
  | [], _ => Some l
  | b :: p', c :: l' => if bool_decide (b = c) then strip_bytes p' l' else None
  | _ :: _, [] => None
  end.

Fixpoint strip_any (pats : list (list byte)) (l : list byte) : option (list byte) :=
  match pats with
  | [] => None
  | p :: ps => match strip_bytes p l with Some r => Some r | None => strip_any ps l end
  end.

Definition strip_prefix (p s : string) : option string :=
  str_of <$> strip_bytes (bytes_of p) (bytes_of s).

Definition starts_with (p s : string) : bool :=
  match strip_prefix p s with Some _ => true | None => false end.

(** ** White space ([char::is_whitespace], Unicode White_Space) in UTF-8 *)
Definition white_space : list (list byte) :=
  [[x09]; [x0a]; [x0b]; [x0c]; [x0d]; [x20]; [xc2; x85]; [xc2; xa0];
   [xe1; x9a; x80]; [xe2; x80; x80]; [xe2; x80; x81]; [xe2; x80; x82];
   [xe2; x80; x83]; [xe2; x80; x84]; [xe2; x80; x85]; [xe2; x80; x86];
   [xe2; x80; x87]; [xe2; x80; x88]; [xe2; x80; x89]; [xe2; x80; x8a];
   [xe2; x80; xa8]; [xe2; x80; xa9]; [xe2; x80; xaf]; [xe2; x81; x9f];
   [xe3; x80; x80]].

(** Strips leading encodings while one is there; [fuel] is the length. *)
Fixpoint trim_pats (fuel : nat) (pats : list (list byte)) (l : list byte) : list byte :=
  match fuel with
  | O => l
  | S f => match strip_any pats l with Some r => trim_pats f pats r | None => l end
  end.

Definition trim_front (pats : list (list byte)) (l : list byte) : list byte :=
  trim_pats (length l) pats l.
Definition trim_back (pats : list (list byte)) (l : list byte) : list byte :=
  reverse (trim_front (reverse <$> pats) (reverse l)).

Definition trim_bytes (l : list byte) : list byte :=
  trim_back white_space (trim_front white_space l).

Definition trim (s : string) : string := str_of (trim_bytes (bytes_of s)).
Definition trim_start (s : string) : string :=
  str_of (trim_front white_space (bytes_of s)).
Definition trim_end_matches (c : byte) (s : string) : string :=
  str_of (trim_back [[c]] (bytes_of s)).

Definition is_empty (s : string) : bool := bool_decide (s = ""%string).

(** ** Splitting *)
Fixpoint split_once_bytes (pat l : list byte) : option (list byte * list byte) :=
  match strip_bytes pat l with
  | Some r => Some ([], r)
  | None =>
      match l with
      | [] => None
      | b :: l' => prod_map (cons b) id <$> split_once_bytes pat l'
      end
  end.

Definition split_once (pat s : string) : option (string * string) :=
  prod_map str_of str_of <$> split_once_bytes (bytes_of pat) (bytes_of s).

Definition contains (pat s : string) : bool :=
  match split_once pat s with Some _ => true | None => false end.

(** [rsplit_once] on one byte *)
Definition rsplit_once (c : byte) (s : string) : option (string * string) :=
  (fun '(a, b) => (str_of (reverse b), str_of (reverse a)))
    <$> split_once_bytes [c] (reverse (bytes_of s)).

(** The pieces between separators; [fuel] above the length is enough. *)
Fixpoint split_pats (fuel : nat) (seps : list (list byte)) (cur l : list byte)
    : list (list byte) :=
  match fuel with
  | O => [reverse cur]
  | S f =>
      match strip_any seps l with
      | Some r => reverse cur :: split_pats f seps [] r
      | None =>
          match l with
          | [] => [reverse cur]
          | b :: l' => split_pats f seps (b :: cur) l'
          end
      end
  end.

Definition split (seps : list (list byte)) (s : string) : list string :=
  str_of <$> split_pats (S (length (bytes_of s))) seps [] (bytes_of s).

Fixpoint join (sep : string) (l : list string) : string :=
  match l with
  | [] => ""
  | [s] => s
  | s :: l' => s +:+ sep +:+ join sep l'
  end.

(** [str::split_whitespace]: the pieces between white space that are not empty *)
Definition split_whitespace (s : string) : list string :=
  filter (fun p => is_empty p = false) (split white_space s).

(** [str::lines]: without the line ends, and without the empty piece after the last one; a
    carriage return goes only with the line feed after it *)
Definition strip_cr (s : string) : string :=
  match reverse (bytes_of s) with
  | x0d :: r => str_of (reverse r)
  | _ => s
  end.
Definition lines (s : string) : list string :=
  let pieces := split [[x0a]] s in
  (strip_cr <$> take (length pieces - 1) pieces)
  ++ match last pieces with
     | Some ""%string | None => []
     | Some rest => [rest]
     end.

(** [str::replace] of a one-byte pattern *)
Definition replace_byte (c : byte) (r : string) (s : string) : string :=
  str_of (mbind (fun b => if bool_decide (b = c) then bytes_of r else [b]) (bytes_of s)).

(** ** ASCII case *)
Definition lower_byte (b : byte) : byte :=
  if (65 <=? u8 b) && (u8 b <=? 90) then byte_of_N (u8 b + 32) else b.
Definition to_ascii_lowercase (s : string) : string :=
  str_of (lower_byte <$> bytes_of s).
Definition eq_ignore_ascii_case (a b : string) : bool :=
  bool_decide (to_ascii_lowercase a = to_ascii_lowercase b).

(** ** Integer parsing: [str::parse::<uN>] *)
Definition digit_val (radix : N) (b : byte) : option N :=
  let c := u8 b in
  let d := if (48 <=? c) && (c <=? 57) then Some (c - 48)
           else if (97 <=? c) && (c <=? 122) then Some (c - 87)
           else if (65 <=? c) && (c <=? 90) then Some (c - 55) else None in
  match d with Some v => if v <? radix then Some v else None | None => None end.

Fixpoint parse_digits (max acc : N) (l : list byte) : option N :=
  match l with
  | [] => Some acc
  | b :: l' =>
      match digit_val 10 b with
      | Some d => if acc * 10 + d <=? max then parse_digits max (acc * 10 + d) l' else None
      | None => None
      end
  end.

Definition parse_uint (max : N) (s : string) : option N :=
  match bytes_of s with
  | [] => None
  | b :: l' =>
      if bool_decide (b = x2b) then
        match l' with [] => None | _ => parse_digits max 0 l' end
      else parse_digits max 0 (b :: l')
  end.

(** ** UTF-8 validation ([str::from_utf8]) *)
Definition in_range (lo hi : N) (b : byte) : bool := (lo <=? u8 b) && (u8 b <=? hi).
Definition is_cont (b : byte) : bool := in_range 128 191 b.

Definition utf8_second3 (a b : byte) : bool :=
  (in_range 224 224 a && in_range 160 191 b)
  || (in_range 225 236 a && is_cont b)
  || (in_range 237 237 a && in_range 128 159 b)
  || (in_range 238 239 a && is_cont b).
Definition utf8_second4 (a b : byte) : bool :=
  (in_range 240 240 a && in_range 144 191 b)
  || (in_range 241 243 a && is_cont b)
  || (in_range 244 244 a && in_range 128 143 b).

Fixpoint utf8_valid (l : list byte) : bool :=
  match l with
  | [] => true
  | a :: l1 =>
      if u8 a <? 128 then utf8_valid l1
      else match l1 with
      | [] => false
      | b :: l2 =>
          if in_range 194 223 a then is_cont b && utf8_valid l2
          else match l2 with
          | [] => false
          | c :: l3 =>
              if utf8_second3 a b then is_cont c && utf8_valid l3
              else match l3 with
              | [] => false
              | d :: l4 => utf8_second4 a b && is_cont c && is_cont d && utf8_valid l4
              end
          end
      end
  end.

Definition from_utf8 (bs : list byte) : option string :=
  if utf8_valid bs then Some (str_of bs) else None.

(** [str::chars]: a character is a byte with the continuation bytes that follow it. *)
Fixpoint char_groups (l : list byte) : list (list byte) :=
  match l with
  | [] => []
  | b :: l' =>
      match char_groups l' with
      | (c :: g) :: gs => if is_cont c then (b :: c :: g) :: gs else [b] :: (c :: g) :: gs
      | gs => [b] :: gs
      end
  end.
Definition chars (s : string) : list (list byte) := char_groups (bytes_of s).

(** [Iterator::collect::<String>] *)
Definition from_chars (cs : list (list byte)) : string := str_of (concat cs).

(** [String::from_utf8_lossy]: every maximal ill-formed piece becomes U+FFFD. *)
Definition replacement : list byte := [xef; xbf; xbd].

Fixpoint lossy_bytes (l : list byte) : list byte :=
  match l with
  | [] => []
  | a :: l1 =>
      if u8 a <? 128 then a :: lossy_bytes l1
      else match l1 with
      | [] => replacement
      | b :: l2 =>
          if in_range 194 223 a then
            if is_cont b then a :: b :: lossy_bytes l2 else replacement ++ lossy_bytes l1
          else if utf8_second3 a b then
            match l2 with
            | [] => replacement
            | c :: l3 =>
                if is_cont c then a :: b :: c :: lossy_bytes l3 else replacement ++ lossy_bytes l2
            end
          else if utf8_second4 a b then
            match l2 with
            | [] => replacement
            | c :: l3 =>
                if is_cont c then
                  match l3 with
                  | [] => replacement
                  | d :: l4 =>
                      if is_cont d then a :: b :: c :: d :: lossy_bytes l4
                      else replacement ++ lossy_bytes l3
                  end
                else replacement ++ lossy_bytes l2
            end
          else replacement ++ lossy_bytes l1
      end
  end.

Definition from_utf8_lossy (bs : list byte) : string := str_of (lossy_bytes bs).

(** The type invariant of Rust's [String] *)
Definition str_wf (s : string) : Prop := utf8_valid (bytes_of s) = true.

(** ** Sorting and deduplication *)
Section sort.
Context {A : Type} (leb : A → A → bool).

(** Stable: an element goes before its equals that came after it. *)
Fixpoint insert_by (x : A) (l : list A) : list A :=
  match l with
  | [] => [x]
  | y :: l' => if leb x y then x :: l else y :: insert_by x l'
  end.
Definition sort_by (l : list A) : list A := foldr insert_by [] l.
End sort.

Fixpoint dedup {A} `{EqDecision A} (l : list A) : list A :=
  match l with
  | x :: ((y :: _) as l') => if bool_decide (x = y) then dedup l' else x :: dedup l'
  | _ => l
  end.

(** ** Lemmas: strings *)
Lemma bytes_of_str_of bs : bytes_of (str_of bs) = bs.
Proof. apply String.list_byte_of_string_of_list_byte. Qed.
Lemma str_of_bytes_of s : str_of (bytes_of s) = s.
Proof. apply String.string_of_list_byte_of_string. Qed.
Lemma bytes_of_inj s t : bytes_of s = bytes_of t → s = t.
Proof. intros H. by rewrite <- (str_of_bytes_of s), H, str_of_bytes_of. Qed.

Lemma bytes_of_app s t : bytes_of (s +:+ t) = bytes_of s ++ bytes_of t.
Proof.
  unfold bytes_of, String.list_byte_of_string. rewrite <- map_app. f_equal.
  induction s as [|c s IH]; [done|]. cbn. by rewrite <- IH.
Qed.

Lemma strip_bytes_Some p l r : strip_bytes p l = Some r ↔ l = p ++ r.
Proof.
  revert l. induction p as [|b p IH]; intros [|c l]; simpl; try naive_solver.
  case_bool_decide; rewrite ?IH; naive_solver.
Qed.

Lemma strip_any_Some pats l r :
  strip_any pats l = Some r → ∃ p, p ∈ pats ∧ l = p ++ r.
Proof.
  induction pats as [|p ps IH]; simpl; [done|].
  destruct (strip_bytes p l) as [r'|] eqn:Hp.
  - intros [= <-]. exists p. split; [left|]. by apply strip_bytes_Some.
  - intros (q & ? & ?)%IH. exists q. split; [by right|done].
Qed.

Lemma strip_any_None pats l :
  strip_any pats l = None ↔ ∀ p r, p ∈ pats → l ≠ p ++ r.
Proof.
  split.
  - induction pats as [|p ps IH]; simpl; intros H q r Hq; [by apply elem_of_nil in Hq|].
    destruct (strip_bytes p l) eqn:Hp; [done|].
    apply elem_of_cons in Hq as [->|Hq]; [|by apply IH].
    intros ->. by rewrite (proj2 (strip_bytes_Some p _ r)) in Hp.
  - intros H. destruct (strip_any pats l) as [r|] eqn:E; [|done].
    apply strip_any_Some in E as (p & Hp & ->). by destruct (H p r Hp).
Qed.

(** [trim_front] removes a prefix and leaves no strippable prefix. *)
Lemma trim_pats_suffix fuel pats l : ∃ p, l = p ++ trim_pats fuel pats l.
Proof.
  revert l. induction fuel as [|f IH]; intros l; simpl; [by exists []|].
  destruct (strip_any pats l) as [r|] eqn:E; [|by exists []].
  apply strip_any_Some in E as (p & _ & ->). destruct (IH r) as [q Hq].
  exists (p ++ q). by rewrite <- app_assoc, <- Hq.
Qed.

Lemma trim_pats_done fuel pats l :
  [] ∉ pats → (length l ≤ fuel)%nat → strip_any pats (trim_pats fuel pats l) = None.
Proof.
  intros Hne. revert l. induction fuel as [|f IH]; intros l Hl; simpl.
  - destruct l; simpl in Hl; [|lia]. apply strip_any_None.
    intros [|??] r Hp; [done|]. done.
  - destruct (strip_any pats l) as [r|] eqn:E; [|done].
    apply IH. apply strip_any_Some in E as (p & Hp & ->).
    destruct p; [done|]. simpl in Hl. rewrite length_app in Hl. lia.
Qed.

Lemma trim_pats_id fuel pats l : strip_any pats l = None → trim_pats fuel pats l = l.
Proof. intros H. destruct fuel; simpl; by rewrite ?H. Qed.

Lemma strip_any_prefix_None pats l k :
  strip_any pats (l ++ k) = None → strip_any pats l = None.
Proof.
  rewrite !strip_any_None. intros H p r Hp ->. apply (H p (r ++ k) Hp).
  by rewrite app_assoc.
Qed.

Lemma trim_back_prefix pats l : ∃ q, l = trim_back pats l ++ q.
Proof.
  unfold trim_back, trim_front.
  destruct (trim_pats_suffix (length (reverse l)) (reverse <$> pats) (reverse l)) as [p Hp].
  exists (reverse p). rewrite <- reverse_app, <- Hp. by rewrite reverse_involutive.
Qed.

Lemma trim_front_done pats l :
  [] ∉ pats → strip_any pats (trim_front pats l) = None.
Proof. intros H. by apply trim_pats_done. Qed.

Lemma trim_front_id pats l : strip_any pats l = None → trim_front pats l = l.
Proof. apply trim_pats_id. Qed.

Lemma trim_back_id pats l :
  strip_any (reverse <$> pats) (reverse l) = None → trim_back pats l = l.
Proof. intros H. unfold trim_back. by rewrite trim_front_id, reverse_involutive. Qed.

Lemma trim_back_idem pats l :
  [] ∉ (reverse <$> pats) → trim_back pats (trim_back pats l) = trim_back pats l.
Proof.
  intros H. unfold trim_back. rewrite reverse_involutive.
  by rewrite (trim_front_id _ (trim_front _ _)) by by apply trim_front_done.
Qed.

Lemma white_space_nonempty : [] ∉ white_space ∧ [] ∉ (reverse <$> white_space).
Proof. split; unfold white_space; cbn; set_solver. Qed.

Lemma trim_bytes_idem l : trim_bytes (trim_bytes l) = trim_bytes l.
Proof.
  destruct white_space_nonempty as [Hn Hn']. unfold trim_bytes.
  rewrite (trim_front_id white_space (trim_back _ _)); [by apply trim_back_idem|].
  destruct (trim_back_prefix white_space (trim_front white_space l)) as [q Hq].
  apply strip_any_prefix_None with q. rewrite <- Hq. by apply trim_front_done.
Qed.

Lemma trim_idem s : trim (trim s) = trim s.
Proof. unfold trim. by rewrite bytes_of_str_of, trim_bytes_idem. Qed.

Lemma lower_byte_idem b : lower_byte (lower_byte b) = lower_byte b.
Proof. by destruct b. Qed.

Lemma to_ascii_lowercase_idem s :
  to_ascii_lowercase (to_ascii_lowercase s) = to_ascii_lowercase s.
Proof.
  unfold to_ascii_lowercase. rewrite bytes_of_str_of. f_equal.
  rewrite <- list_fmap_compose. apply list_fmap_ext.
  intros ?? _. apply lower_byte_idem.
Qed.

Lemma eq_ignore_ascii_case_refl s : eq_ignore_ascii_case s s = true.
Proof. unfold eq_ignore_ascii_case. by rewrite bool_decide_true. Qed.

Lemma is_empty_true s : is_empty s = true ↔ s = ""%string.
Proof. unfold is_empty. by rewrite bool_decide_eq_true. Qed.

Lemma from_utf8_bytes s : str_wf s → from_utf8 (bytes_of s) = Some s.
Proof. unfold str_wf, from_utf8. intros ->. by rewrite str_of_bytes_of. Qed.

Lemma from_utf8_Some bs s : from_utf8 bs = Some s → bytes_of s = bs ∧ str_wf s.
Proof.
  unfold from_utf8, str_wf. destruct (utf8_valid bs) eqn:E; [|done].
  intros [= <-]. by rewrite bytes_of_str_of.
Qed.

(** Splitting at the first occurrence of one byte *)
Lemma concat_char_groups l : concat (char_groups l) = l.
Proof.
  induction l as [|b l IH]; [done|]. cbn [char_groups].
  destruct (char_groups l) as [|[|c g] gs]; [|cbn in *; by rewrite IH|].
  - cbn in *. by rewrite <-IH.
  - destruct (is_cont c); cbn in *; by rewrite IH.
Qed.

Lemma from_chars_chars s : from_chars (chars s) = s.
Proof. unfold from_chars, chars. by rewrite concat_char_groups, str_of_bytes_of. Qed.

Lemma split_once_bytes_single c a b :
  c ∉ a → split_once_bytes [c] (a ++ c :: b) = Some (a, b).
Proof.
  induction a as [|x a IH]; intros Hc; cbn.
  - by rewrite bool_decide_true.
  - rewrite bool_decide_false by set_solver. cbn. rewrite IH by set_solver. done.
Qed.

Lemma split_once_single c s t :
  c ∉ bytes_of s → split_once (str_of [c]) (s +:+ str_of [c] +:+ t) = Some (s, t).
Proof.
  intros Hc. unfold split_once. rewrite !bytes_of_app, !bytes_of_str_of. cbn [app].
  rewrite split_once_bytes_single by done. cbn. by rewrite !str_of_bytes_of.
Qed.

Lemma split_pats_none fuel c cur l :
  c ∉ l → (length l < fuel)%nat → split_pats fuel [[c]] cur l = [reverse cur ++ l].
Proof.
  revert cur l. induction fuel as [|fuel IH]; intros cur [|b l] Hc Hf; cbn in *; try lia.
  - by rewrite app_nil_r.
  - rewrite bool_decide_false by set_solver. rewrite IH by (set_solver || lia).
    by rewrite reverse_cons, <- app_assoc.
Qed.

Lemma split_none c s : c ∉ bytes_of s → split [[c]] s = [s].
Proof.
  intros Hc. unfold split. rewrite split_pats_none by (done || lia).
  cbn. by rewrite str_of_bytes_of.
Qed.

Lemma split_once_bytes_Some c l a b :
  split_once_bytes [c] l = Some (a, b) → l = a ++ c :: b ∧ c ∉ a.
Proof.
  revert a b. induction l as [|x l IH]; intros a b H; cbn in H; [done|].
  case_bool_decide as Hx.
  - injection H as <- <-. subst. split; [done|set_solver].
  - destruct (split_once_bytes [c] l) as [[a' b']|]; [|done]. cbn in H. injection H as <- <-.
    destruct (IH a' b') as [-> ?]; [done|]. split; [done|set_solver].
Qed.

Lemma split_once_clean c s a b :
  split_once (str_of [c]) s = Some (a, b) → c ∉ bytes_of a.
Proof.
  unfold split_once. rewrite bytes_of_str_of.
  destruct (split_once_bytes [c] (bytes_of s)) as [[x y]|] eqn:H; [|done].
  apply split_once_bytes_Some in H as [_ ?]. intros [= <- <-]. by rewrite bytes_of_str_of.
Qed.

(** Splitting at one byte *)
Lemma split_pats_step fuel c cur b l :
  (length (b :: l) < fuel)%nat →
  split_pats fuel [[c]] cur (b :: l)
  = if bool_decide (c = b) then reverse cur :: split_pats (pred fuel) [[c]] [] l
    else split_pats (pred fuel) [[c]] (b :: cur) l.
Proof. destruct fuel; cbn; [lia|]. intros _. by case_bool_decide. Qed.

Lemma split_pats_one_clean fuel c cur l :
  (length l < fuel)%nat → c ∉ cur → Forall (fun p => c ∉ p) (split_pats fuel [[c]] cur l).
Proof.
  revert fuel cur. induction l as [|b l IH]; intros fuel cur Hf Hc.
  - destruct fuel; cbn; constructor; try constructor; by rewrite elem_of_reverse.
  - rewrite split_pats_step by done. destruct fuel as [|fuel]; [cbn in Hf; lia|]. cbn [pred] in *.
    cbn in Hf. case_bool_decide.
    + constructor; [by rewrite elem_of_reverse|]. apply IH; [lia|set_solver].
    + apply IH; [lia|set_solver].
Qed.

Lemma split_clean c s : Forall (fun p => c ∉ bytes_of p) (split [[c]] s).
Proof.
  unfold split. apply Forall_fmap.
  eapply Forall_impl; [apply (split_pats_one_clean _ c []); [lia|set_solver]|].
  intros p Hp. cbn. by rewrite bytes_of_str_of.
Qed.

Lemma split_pats_nonempty fuel seps cur l : split_pats fuel seps cur l ≠ [].
Proof.
  revert cur l. induction fuel as [|fuel IH]; intros cur l; cbn; [done|].
  destruct (strip_any seps l); [done|]. destruct l; [done|]. apply IH.
Qed.

Lemma split_nonempty seps s : split seps s ≠ [].
Proof. unfold split. intros H%fmap_nil_inv. by apply split_pats_nonempty in H. Qed.

Lemma split_pats_app fuel c cur p l :
  c ∉ p → (length (p ++ c :: l) < fuel)%nat →
  split_pats fuel [[c]] cur (p ++ c :: l)
  = (reverse cur ++ p) :: split_pats (fuel - length p - 1) [[c]] [] l.
Proof.
  revert fuel cur. induction p as [|b p IH]; intros fuel cur Hp Hf; cbn [app] in *.
  - rewrite split_pats_step by done. rewrite bool_decide_true by done. rewrite app_nil_r.
    do 2 f_equal. cbn. lia.
  - rewrite split_pats_step by done. rewrite bool_decide_false by set_solver.
    destruct fuel as [|fuel]; [cbn in Hf; lia|]. cbn in Hf.
    rewrite IH by (set_solver || (cbn; lia)). rewrite reverse_cons, <- app_assoc. done.
Qed.

Lemma split_pats_fuel fuel fuel' c cur l :
  (length l < fuel)%nat → (length l < fuel')%nat →
  split_pats fuel [[c]] cur l = split_pats fuel' [[c]] cur l.
Proof.
  revert fuel fuel' cur. induction l as [|b l IH]; intros fuel fuel' cur Hf Hf'.
  - destruct fuel, fuel'; cbn in *; try lia. done.
  - rewrite !split_pats_step by done. destruct fuel, fuel'; cbn in *; try lia.
    case_bool_decide; [f_equal|]; apply IH; lia.
Qed.

Lemma split_app c s t :
  c ∉ bytes_of s → split [[c]] (s +:+ str_of [c] +:+ t) = s :: split [[c]] t.
Proof.
  intros Hc. unfold split. rewrite !bytes_of_app, bytes_of_str_of. cbn [app].
  rewrite split_pats_app by (done || lia). rewrite fmap_cons. f_equal.
  - cbn. apply str_of_bytes_of.
  - f_equal. apply split_pats_fuel; rewrite ?length_app; cbn; lia.
Qed.

Lemma split_join c (l : list string) :
  l ≠ [] → Forall (fun p => c ∉ bytes_of p) l → split [[c]] (join (str_of [c]) l) = l.
Proof.
  intros Hne Hl. induction Hl as [|p l Hp Hl IH]; [done|].
  destruct l as [|q l]; [by apply split_none|].
  change (join (str_of [c]) (p :: q :: l)) with (p +:+ str_of [c] +:+ join (str_of [c]) (q :: l))%string.
  rewrite split_app by done. f_equal. by apply IH.
Qed.

(** On well-formed UTF-8 the lossy conversion changes nothing. *)
Lemma lossy_bytes_valid l : utf8_valid l = true → lossy_bytes l = l.
Proof.
  remember (length l) as n eqn:Hn. revert l Hn.
  induction n as [n IH] using lt_wf_ind; intros [|a l1] -> H; [done|].
  cbn [lossy_bytes utf8_valid] in *. destruct (u8 a <? 128).
  { f_equal. eapply IH; [|done|done]. cbn. lia. }
  destruct l1 as [|b l2]; [done|]. destruct (in_range 194 223 a).
  { apply andb_true_iff in H as [-> H]. do 2 f_equal. eapply IH; [|done|done]. cbn. lia. }
  destruct l2 as [|c l3]; [done|]. destruct (utf8_second3 a b).
  { apply andb_true_iff in H as [-> H]. do 3 f_equal. eapply IH; [|done|done]. cbn. lia. }
  destruct l3 as [|d l4]; [done|]. rewrite !andb_true_iff in H.
  destruct H as [[[-> ->] ->] H]. do 4 f_equal. eapply IH; [|done|done]. cbn. lia.
Qed.

(** ** Lemmas: sorting *)
Section sort_lemmas.
Context {A : Type} (leb : A → A → bool).
Definition le_rel (x y : A) : Prop := leb x y = true.

Lemma insert_by_perm x l : insert_by leb x l ≡ₚ x :: l.
Proof.
  induction l as [|y l IH]; simpl; [done|]. destruct (leb x y); [done|].
  rewrite IH. apply Permutation_swap.
Qed.

Lemma sort_by_perm l : sort_by leb l ≡ₚ l.
Proof.
  induction l as [|x l IH]; simpl; [done|]. by rewrite insert_by_perm, IH.
Qed.

Lemma elem_of_sort_by x l : x ∈ sort_by leb l ↔ x ∈ l.
Proof. by rewrite sort_by_perm. Qed.

Hypothesis leb_total : ∀ x y, leb x y = true ∨ leb y x = true.
Hypothesis leb_trans : ∀ x y z, leb x y = true → leb y z = true → leb x z = true.

Lemma insert_by_sorted x l :
  StronglySorted le_rel l → StronglySorted le_rel (insert_by leb x l).
Proof.
  induction 1 as [|y l Hl IH Hy]; simpl; [by repeat constructor|].
  destruct (leb x y) eqn:Hxy.
  - constructor; [by constructor|]. constructor; [done|].
    eapply Forall_impl; [exact Hy|]. intros z Hz. by eapply leb_trans.
  - constructor; [done|]. rewrite insert_by_perm. constructor; [|done].
    destruct (leb_total x y); [congruence|done].
Qed.

Lemma sort_by_sorted l : StronglySorted le_rel (sort_by leb l).
Proof. induction l; simpl; [constructor|by apply insert_by_sorted]. Qed.
End sort_lemmas.

Lemma sort_by_key_filter {A} (leb : A → A → bool) (f : A → bool) l :
  (∀ x y, f x = true → f y = true → leb x y = true) →
  (∀ x y, leb x y = true ∨ leb y x = true) →
  (∀ x y z, leb x y = true → leb y z = true → leb x z = true) →
  filter (λ x, f x = true) (sort_by leb l) = filter (λ x, f x = true) l.
Proof.
  intros Hff Htot Htr. induction l as [|x l IH]; simpl; [done|].
  rewrite filter_cons, <- IH. pose proof (sort_by_sorted leb Htot Htr l) as Hs.
  revert Hs. generalize (sort_by leb l). clear IH l. intros l.
  induction 1 as [|y l Hl IH Hy]; simpl.
  - rewrite filter_cons. done.
  - destruct (leb x y) eqn:Hxy; [by rewrite filter_cons|].
    rewrite !filter_cons, IH. case_decide as Hfx; case_decide as Hfy; try done.
    by rewrite (Hff x y) in Hxy.
Qed.

Lemma dedup_cons {A} `{EqDecision A} (x : A) l :
  dedup (x :: l) = match l with
                   | y :: _ => if bool_decide (x = y) then dedup l else x :: dedup l
                   | [] => [x]
                   end.
Proof. by destruct l. Qed.

Lemma elem_of_dedup {A} `{EqDecision A} (x : A) l : x ∈ dedup l ↔ x ∈ l.
Proof.
  induction l as [|y l IH]; [done|]. rewrite dedup_cons. destruct l as [|z l]; [done|].
  case_bool_decide; set_solver.
Qed.

(** A sorted list of integers becomes strictly increasing. *)
Lemma dedup_sorted (l : list N) :
  StronglySorted N.le l → StronglySorted N.lt (dedup l).
Proof.
  induction 1 as [|x l Hl IH Hx]; [constructor|].
  rewrite dedup_cons. destruct l as [|y l]; [by repeat constructor|].
  case_bool_decide; [done|]. constructor; [done|].
  apply Forall_forall. intros z Hz. apply (proj1 (elem_of_dedup z (y :: l))) in Hz.
  inversion Hl as [|? ? ? Hy]; subst. rewrite Forall_forall in Hx, Hy.
  assert (x ≤ y) by (apply Hx; left).
  apply elem_of_cons in Hz as [->|Hz]; [lia|]. specialize (Hy z Hz). lia.
Qed.

Lemma StronglySorted_weaken {A} (R S : relation A) l :
  (∀ x y, R x y → S x y) → StronglySorted R l → StronglySorted S l.
Proof.
  intros H. induction 1; constructor; [done|]. eapply Forall_impl; eauto.
Qed.

(** [v.sort_unstable(); v.dedup()] on a vector of [u64] *)
Definition sort_dedup (l : list N) : list N := dedup (sort_by N.leb l).

Lemma elem_of_sort_dedup x l : x ∈ sort_dedup l ↔ x ∈ l.
Proof. unfold sort_dedup. by rewrite elem_of_dedup, elem_of_sort_by. Qed.

Lemma sort_dedup_sorted l : StronglySorted N.lt (sort_dedup l).
Proof.
  apply dedup_sorted. eapply StronglySorted_weaken; [|apply sort_by_sorted].
  - intros x y H. by apply N.leb_le.
  - intros x y. rewrite !N.leb_le. lia.
  - intros x y z. rewrite !N.leb_le. lia.
Qed.

(** ** Orderings

    A comparison as [Ord::cmp] gives it, and what makes sorting by it meaningful. *)
Record good_cmp {A} (cmp : A → A → comparison) : Prop := {
  cmp_opp x y : cmp y x = CompOpp (cmp x y);
  cmp_lt x y z : cmp x y = Lt → cmp y z = Lt → cmp x z = Lt;
  cmp_eq x y z : cmp x y = Eq → cmp x z = cmp y z;
}.

(** [Ordering::then_with] *)
Definition then_with (c d : comparison) : comparison := match c with Eq => d | _ => c end.

(** The order [sort_by] sorts by *)
Definition leb_of {A} (cmp : A → A → comparison) (x y : A) : bool :=
  match cmp x y with Gt => false | _ => true end.

(** [str::cmp]: byte by byte *)
Fixpoint bytes_cmp (a b : list byte) : comparison :=
  match a, b with
  | [], [] => Eq
  | [], _ => Lt
  | _, [] => Gt
  | x :: a, y :: b => then_with (u8 x ?= u8 y) (bytes_cmp a b)
  end.
Definition str_cmp (a b : string) : comparison := bytes_cmp (bytes_of a) (bytes_of b).

Lemma good_N : good_cmp N.compare.
Proof.
  split; intros x y; [apply N.compare_antisym|intros z; rewrite !N.compare_lt_iff; lia|].
  by intros z ->%N.compare_eq_iff.
Qed.

Lemma good_on {A B} (f : A → B) cmp : good_cmp cmp → good_cmp (fun x y => cmp (f x) (f y)).
Proof. intros [Ho Hl He]. split; intros x y; [apply Ho|intros z; apply Hl|intros z; apply He]. Qed.

Lemma good_then {A} (c d : A → A → comparison) :
  good_cmp c → good_cmp d → good_cmp (fun x y => then_with (c x y) (d x y)).
Proof.
  intros [Ho Hl He] [Ho' Hl' He']. split; intros x y; cbn.
  - rewrite Ho. destruct (c x y); [apply Ho'|done|done].
  - intros z. destruct (c x y) eqn:Hxy; [|destruct (c y z) eqn:Hyz|]; cbn; intros H1 H2; try done.
    + rewrite (He x y z Hxy). revert H2. destruct (c y z); cbn; [by apply Hl'|done|done].
    + assert (c x z = Lt) as ->; [|done].
      pose proof (He y z x Hyz) as H. rewrite (Ho x y), Hxy in H. rewrite (Ho z x), <- H. done.
    + by rewrite (Hl x y z Hxy Hyz).
  - intros z. destruct (c x y) eqn:Hxy; cbn; intros H; try done.
    rewrite (He x y z Hxy). destruct (c y z); [by apply He'|done|done].
Qed.

Lemma good_bytes : good_cmp bytes_cmp.
Proof.
  destruct good_N as [Ho Hl He]. split.
  - induction x as [|a x IH]; intros [|b y]; try done. cbn.
    rewrite Ho. destruct (u8 a ?= u8 b); [apply IH|done|done].
  - induction x as [|a x IH]; intros [|b y] [|d z]; cbn; try done.
    destruct (u8 a ?= u8 b) eqn:Hab; cbn; [|destruct (u8 b ?= u8 d) eqn:Hbd|]; intros H1 H2; try done.
    + rewrite (He _ _ _ Hab). revert H2. destruct (u8 b ?= u8 d); cbn; [by apply IH|done|done].
    + apply N.compare_eq_iff in Hbd. by rewrite <- Hbd, Hab.
    + by rewrite (Hl _ _ _ Hab Hbd).
  - induction x as [|a x IH]; intros [|b y] [|d z]; cbn; try done.
    destruct (u8 a ?= u8 b) eqn:Hab; cbn; intros H; try done.
    rewrite (He _ _ _ Hab). destruct (u8 b ?= u8 d); [by apply IH|done|done].
Qed.

Lemma good_str : good_cmp str_cmp.
Proof. apply (good_on bytes_of), good_bytes. Qed.

Section leb_of.
Context {A : Type} (cmp : A → A → comparison) (Hgood : good_cmp cmp).

Lemma leb_of_total x y : leb_of cmp x y = true ∨ leb_of cmp y x = true.
Proof. unfold leb_of. rewrite (cmp_opp _ Hgood x y). destruct (cmp x y); auto. Qed.

Lemma leb_of_trans x y z : leb_of cmp x y = true → leb_of cmp y z = true → leb_of cmp x z = true.
Proof.
  unfold leb_of. intros H1 H2. destruct (cmp x y) eqn:Hxy; [|clear H1|done].
  - by rewrite (cmp_eq _ Hgood x y z Hxy).
  - destruct (cmp y z) eqn:Hyz; [| |done].
    + pose proof (cmp_eq _ Hgood y z x Hyz) as H. rewrite (cmp_opp _ Hgood x y), Hxy in H.
      by rewrite (cmp_opp _ Hgood z x), <- H.
    + by rewrite (cmp_lt _ Hgood x y z).
Qed.

Lemma sort_leb_of_sorted l : StronglySorted (le_rel (leb_of cmp)) (sort_by (leb_of cmp) l).
Proof. apply sort_by_sorted; [apply leb_of_total|apply leb_of_trans]. Qed.
End leb_of.

(** Removing elements keeps a list sorted. *)
Lemma StronglySorted_filter {A} (R : relation A) (P : A → Prop) `{!∀ x, Decision (P x)} l :
  StronglySorted R l → StronglySorted R (filter P l).
Proof.
  induction 1 as [|x l Hl IH Hx]; [constructor|]. rewrite filter_cons. case_decide; [|done].
  constructor; [done|]. rewrite Forall_forall in *. intros y [_ Hy]%list_elem_of_filter. auto.
Qed.
