(* ===== verification/RustNet.v ===== *)
(** * Internet addresses of the Rust standard library ([core::net])

    [IpAddr] and [SocketAddr] values and their [FromStr] parsers, written after the
    library's recursive-descent [Parser]: each reader takes the bytes left and returns
    the value with the rest, or [None] with nothing consumed.  An IPv4 address is its
    32-bit value, an IPv6 address its 128-bit value, most significant group first. *)
From S2P Require Import Prelude RustStd.
From Stdlib Require Import Strings.Byte.
Local Open Scope N_scope.

Inductive IpAddr := V4 (bits : N) | V6 (bits : N).
#[export] Instance IpAddr_eq_dec : EqDecision IpAddr.
Proof. solve_decision. Defined.

Record SocketAddr := mkSocketAddr { sock_ip : IpAddr; sock_port : N }.

(** The type invariant: 32 and 128 bits *)
Definition ip_wf (ip : IpAddr) : Prop :=
  match ip with V4 b => b < 2 ^ 32 | V6 b => b < 2 ^ 128 end.

Definition reader (A : Type) : Type := list byte → option (A * list byte).

Definition read_given_char (c : byte) : reader unit := fun l =>
  match l with b :: l' => if bool_decide (b = c) then Some (tt, l') else None | [] => None end.

(** Digits up to the first non-digit; overflow or a digit too many is a failure. *)
Fixpoint read_digits (radix max : N) (limit : option nat) (count : nat) (acc : N) (l : list byte)
    : option (N * nat * list byte) :=
  match l with
  | b :: l' =>
      match digit_val radix b with
      | Some d =>
          if bool_decide (max < acc * radix + d) then None
          else if match limit with Some m => bool_decide (m < S count)%nat | None => false end then None
          else read_digits radix max limit (S count) (acc * radix + d) l'
      | None => Some (acc, count, l)
      end
  | [] => Some (acc, count, [])
  end.

Definition read_number (radix max : N) (limit : option nat) (allow_zero_prefix : bool)
    : reader N := fun l =>
  let leading_zero := match l with b :: _ => bool_decide (b = x30) | [] => false end in
  '(v, count, r) ← read_digits radix max limit 0 0 l;
  if bool_decide (count = 0%nat) then None
  else if negb allow_zero_prefix && leading_zero && bool_decide (1 < count)%nat then None
  else Some (v, r).

(** [read_separator]: the separator comes before every element but the first. *)
Definition read_separator {A} (sep : byte) (i : nat) (inner : reader A) : reader A := fun l =>
  match i with
  | O => inner l
  | S _ => '(_, l) ← read_given_char sep l; inner l
  end.

Definition read_octet (i : nat) : reader N :=
  read_separator x2e i (read_number 10 U8_MAX (Some 3%nat) false).

Definition read_ipv4 : reader N := fun l =>
  '(a, l) ← read_octet 0 l;
  '(b, l) ← read_octet 1 l;
  '(c, l) ← read_octet 2 l;
  '(d, l) ← read_octet 3 l;
  Some (((a * 256 + b) * 256 + c) * 256 + d, l).

(** [read_groups]: up to [limit] 16-bit groups, the last two possibly as an IPv4
    address; the groups read, and whether they end in an IPv4 address. *)
Fixpoint read_groups (limit i : nat) (l : list byte) : list N * bool * list byte :=
  match limit with
  | O => ([], false, l)
  | S more =>
      let v4 := match more with O => None | S _ => read_separator x3a i read_ipv4 l end in
      match v4 with
      | Some (v, r) => ([v / 65536; v mod 65536], true, r)
      | None =>
          match read_separator x3a i (read_number 16 U16_MAX (Some 4%nat) true) l with
          | Some (g, r) => let '(gs, v4, r) := read_groups more (S i) r in (g :: gs, v4, r)
          | None => ([], false, l)
          end
      end
  end.

Definition groups_value (gs : list N) : N := foldl (fun acc g => acc * 65536 + g) 0 gs.

Definition read_ipv6 : reader N := fun l =>
  let '(head, head_ipv4, r) := read_groups 8 0 l in
  if bool_decide (length head = 8%nat) then Some (groups_value head, r)
  else if head_ipv4 then None
  else
    '(_, r) ← read_given_char x3a r;
    '(_, r) ← read_given_char x3a r;
    let '(tail, _, r) := read_groups (8 - (length head + 1)) 0 r in
    Some (groups_value (head ++ replicate (8 - length head - length tail) 0 ++ tail), r).

Definition read_ip : reader IpAddr := fun l =>
  match read_ipv4 l with
  | Some (v, r) => Some (V4 v, r)
  | None => match read_ipv6 l with Some (v, r) => Some (V6 v, r) | None => None end
  end.

Definition read_port : reader N := fun l =>
  '(_, l) ← read_given_char x3a l;
  read_number 10 U16_MAX None true l.

Definition read_scope_id : reader N := fun l =>
  '(_, l) ← read_given_char x25 l;
  read_number 10 U32_MAX None true l.

Definition read_socket_v4 : reader SocketAddr := fun l =>
  '(ip, l) ← read_ipv4 l;
  '(port, l) ← read_port l;
  Some (mkSocketAddr (V4 ip) port, l).

Definition read_socket_v6 : reader SocketAddr := fun l =>
  '(_, l) ← read_given_char x5b l;
  '(ip, l) ← read_ipv6 l;
  let l := match read_scope_id l with Some (_, l) => l | None => l end in
  '(_, l) ← read_given_char x5d l;
  '(port, l) ← read_port l;
  Some (mkSocketAddr (V6 ip) port, l).

Definition read_socket : reader SocketAddr := fun l =>
  match read_socket_v4 l with Some x => Some x | None => read_socket_v6 l end.

(** [parse_with]: the whole input must be consumed. *)
Definition parse_all {A} (p : reader A) (s : string) : option A :=
  match p (bytes_of s) with Some (a, []) => Some a | _ => None end.

(** [str::parse::<IpAddr>] and [str::parse::<SocketAddr>] *)
Definition parse_ip (s : string) : option IpAddr := parse_all read_ip s.
Definition parse_socket_addr (s : string) : option SocketAddr := parse_all read_socket s.

Example parse_v4 : parse_ip "10.1.2.255" = Some (V4 0x0a0102ff).
Proof. reflexivity. Qed.
Example parse_v4_zero_prefix : parse_ip "10.01.2.3" = None.
Proof. reflexivity. Qed.
Example parse_v6 : parse_ip "fe80::1:2" = Some (V6 0xfe800000000000000000000000010002).
Proof. reflexivity. Qed.
Example parse_v6_mapped : parse_ip "::ffff:1.2.3.4" = Some (V6 0xffff01020304).
Proof. reflexivity. Qed.
Example parse_sock_v6 : parse_socket_addr "[::1%2]:443" = Some (mkSocketAddr (V6 1) 443).
Proof. reflexivity. Qed.

#[global] Arguments read_separator : simpl never.
#[global] Arguments read_number : simpl never.

(** ** Parsed addresses are within their width *)
Lemma read_digits_max radix max limit count acc l v c r :
  read_digits radix max limit count acc l = Some (v, c, r) → acc ≤ max → v ≤ max.
Proof.
  revert count acc. induction l as [|b l IH]; intros count acc H Hacc; cbn in H.
  { by injection H as <- <- <-. }
  destruct (digit_val radix b) as [d|]; [|by injection H as <- <- <-].
  case_bool_decide; [done|]. case_match; [done|]. eapply IH; [done|lia].
Qed.

Lemma read_number_max radix max limit z l v r :
  read_number radix max limit z l = Some (v, r) → v ≤ max.
Proof.
  unfold read_number. intros H.
  destruct (read_digits _ _ _ _ _ l) as [[[v' c] r']|] eqn:Hd; cbn in H; [|done].
  case_bool_decide; [done|]. destruct (_ && _); [done|]. injection H as <- <-.
  eapply read_digits_max; [done|lia].
Qed.

Lemma read_separator_inv {A} sep i (p : reader A) l x :
  read_separator sep i p l = Some x → ∃ l', p l' = Some x.
Proof.
  unfold read_separator. destruct i; [eauto|].
  destruct (read_given_char sep l) as [[]|]; cbn; [eauto|done].
Qed.

Lemma read_ipv4_lt l v r : read_ipv4 l = Some (v, r) → v < 2 ^ 32.
Proof.
  unfold read_ipv4, read_octet. intros H.
  repeat match type of H with
  | (read_separator ?s ?i ?p ?l ≫= _) = _ =>
      let E := fresh in destruct (read_separator s i p l) as [[? ?]|] eqn:E; cbn in H; [|done];
      apply read_separator_inv in E as [? ?%read_number_max]
  end.
  injection H as <- <-. unfold U8_MAX in *. lia.
Qed.

Lemma read_groups_spec limit i l gs v4 r :
  read_groups limit i l = (gs, v4, r) → (length gs ≤ limit)%nat ∧ Forall (fun g => g ≤ U16_MAX) gs.
Proof.
  revert i l gs v4 r. induction limit as [|more IH]; intros i l gs v4 r H; cbn in H.
  { injection H as <- <- <-. split; [done|constructor]. }
  destruct (match more with O => None | S _ => _ end) as [[v r']|] eqn:Hv.
  - injection H as <- <- <-. destruct more; [done|].
    apply read_separator_inv in Hv as [? Hv%read_ipv4_lt]. split; [cbn; lia|].
    repeat constructor; unfold U16_MAX.
    + assert (v / 65536 < 65536) by (apply N.Div0.div_lt_upper_bound; lia). lia.
    + assert (v mod 65536 < 65536) by (apply N.mod_lt; lia). lia.
  - destruct (read_separator x3a i (read_number 16 U16_MAX (Some 4%nat) true) l)
      as [[g r']|] eqn:Hg.
    + destruct (read_groups more (S i) r') as [[gs' v4'] r''] eqn:Hr. injection H as <- <- <-.
      apply IH in Hr as [? ?]. apply read_separator_inv in Hg as [? Hg%read_number_max].
      split; [cbn; lia|by constructor].
    + injection H as <- <- <-. split; [cbn; lia|constructor].
Qed.

Lemma groups_value_lt gs n :
  (length gs ≤ n)%nat → Forall (fun g => g ≤ U16_MAX) gs → groups_value gs < 65536 ^ N.of_nat n.
Proof.
  intros Hn Hgs. unfold groups_value.
  assert (∀ acc k, acc < 65536 ^ N.of_nat k →
    foldl (fun a g => a * 65536 + g) acc gs < 65536 ^ N.of_nat (k + length gs)) as H.
  { clear Hn. induction Hgs as [|g gs Hg Hgs IH]; intros acc k Hacc; cbn [foldl length].
    - by rewrite Nat.add_0_r.
    - rewrite <- Nat.add_succ_comm. apply IH. rewrite Nat2N.inj_succ, N.pow_succ_r'.
      unfold U16_MAX in Hg. lia. }
  eapply N.lt_le_trans; [apply (H 0 0%nat); done|]. apply N.pow_le_mono_r; lia.
Qed.

Lemma read_ipv6_lt l v r : read_ipv6 l = Some (v, r) → v < 2 ^ 128.
Proof.
  change (2 ^ 128) with (65536 ^ N.of_nat 8). unfold read_ipv6.
  destruct (read_groups 8 0 l) as [[head v4] r1] eqn:Hh. apply read_groups_spec in Hh as [Hl Hf].
  case_bool_decide.
  { intros [= <- <-]. by apply groups_value_lt. }
  destruct v4; [done|].
  destruct (read_given_char x3a r1) as [[]|]; cbn; [|done].
  destruct (read_given_char x3a _) as [[]|]; cbn; [|done].
  destruct (read_groups _ 0 _) as [[tail v4] r2] eqn:Ht. apply read_groups_spec in Ht as [Hl2 Hf2].
  intros [= <- <-]. apply groups_value_lt.
  - rewrite !length_app, length_replicate. lia.
  - rewrite !Forall_app. split_and!; [done| |done]. by apply Forall_replicate.
Qed.

Lemma parse_ip_wf s ip : parse_ip s = Some ip → ip_wf ip.
Proof.
  unfold parse_ip, parse_all, read_ip.
  destruct (read_ipv4 _) as [[v r]|] eqn:H4.
  { destruct r; intros [= <-]. by eapply read_ipv4_lt. }
  destruct (read_ipv6 _) as [[v r]|] eqn:H6; [|done].
  destruct r; intros [= <-]. by eapply read_ipv6_lt.
Qed.

Lemma read_socket_wf l a r : read_socket l = Some (a, r) → ip_wf (sock_ip a).
Proof.
  unfold read_socket, read_socket_v4, read_socket_v6. intros H.
  destruct (_ ≫= _) as [[a' r']|] eqn:H4 in H.
  - injection H as -> ->. destruct (read_ipv4 l) as [[v l1]|] eqn:Hv; cbn in H4; [|done].
    destruct (read_port l1) as [[p l2]|]; cbn in H4; [|done]. injection H4 as <- <-.
    by eapply read_ipv4_lt.
  - clear H4. destruct (read_given_char x5b l) as [[[] l0]|]; cbn in H; [|done].
    destruct (read_ipv6 l0) as [[v l1]|] eqn:Hv; cbn in H; [|done].
    destruct (read_given_char x5d _) as [[[] l2]|]; cbn in H; [|done].
    destruct (read_port l2) as [[p l3]|]; cbn in H; [|done]. injection H as <- <-.
    by eapply read_ipv6_lt.
Qed.

Lemma parse_socket_addr_wf s a : parse_socket_addr s = Some a → ip_wf (sock_ip a).
Proof.
  unfold parse_socket_addr, parse_all. destruct (read_socket _) as [[a' r]|] eqn:H; [|done].
  destruct r; intros [= <-]. by eapply read_socket_wf.
Qed.
