(* ===== verification/AsyncIo.v ===== *)
(** * Asynchronous, fallible, stateful code

    An [async fn(&mut self)] of the agent is an [act]: it takes the state to the new
    state and an outcome: a value, an error, [Wait] when the awaited input has not
    arrived (the future is still pending), or [Crash] on a panic.  The state after an
    error is kept: Rust code that returns [Err] has made its earlier writes.
    [Io] is the part of a byte stream such code sees: the results of the next reads,
    the fate of the next writes, and the bytes written so far. *)
From S2P Require Import Prelude.
From Stdlib Require Import Strings.Byte.
Local Open Scope N_scope.

Inductive outcome (E A : Type) : Type :=
  | Done (a : A)
  | Fail (e : E)
  | Wait
  | Crash.
Arguments Done {E A} a.
Arguments Fail {E A} e.
Arguments Wait {E A}.
Arguments Crash {E A}.

Definition act (S E A : Type) : Type := S → S * outcome E A.

#[export] Instance act_ret {S E} : MRet (act S E) := fun A a s => (s, Done a).
#[export] Instance act_bind {S E} : MBind (act S E) := fun A B f m s =>
  match m s with
  | (s', Done a) => f a s'
  | (s', Fail e) => (s', Fail e)
  | (s', Wait) => (s', Wait)
  | (s', Crash) => (s', Crash)
  end.

Section acts.
Context {S E : Type}.

Definition get : act S E S := fun s => (s, Done s).
Definition put (s : S) : act S E unit := fun _ => (s, Done tt).
Definition modify (f : S → S) : act S E unit := fun s => (f s, Done tt).
Definition fail {A} (e : E) : act S E A := fun s => (s, Fail e).

(** The awaited input has not arrived. *)
Definition wait {A} : act S E A := fun s => (s, Wait).

(** [?] on a [Result] *)
Definition try_ {A} (r : result E A) : act S E A := fun s =>
  (s, match r with Ok a => Done a | Err e => Fail e | Panic => Crash end).

(** [for x in l { f(x)?; }] *)
Fixpoint for_each {A} (l : list A) (f : A → act S E unit) : act S E unit :=
  match l with
  | [] => mret tt
  | x :: l => _ ← f x; for_each l f
  end.

(** [match m { Ok(a) => …, Err(e) => … }]: the error as a value *)
Definition catch {A} (m : act S E A) : act S E (E + A) := fun s =>
  match m s with
  | (s', Done a) => (s', Done (inr a))
  | (s', Fail e) => (s', Done (inl e))
  | (s', Wait) => (s', Wait)
  | (s', Crash) => (s', Crash)
  end.

(** [for _ in 0..n { m?; }] *)
Fixpoint repeat_n (n : nat) (m : act S E unit) : act S E unit :=
  match n with O => mret tt | Datatypes.S n => _ ← m; repeat_n n m end.

Lemma act_bind_Done {A B} (m : act S E A) (f : A → act S E B) s s' b :
  (m ≫= f) s = (s', Done b) ↔ ∃ s1 a, m s = (s1, Done a) ∧ f a s1 = (s', Done b).
Proof.
  unfold mbind, act_bind. destruct (m s) as [s1 [a|e| |]]; naive_solver.
Qed.
End acts.

(** [?] with [From] on the error, and a [match] on the result of other code *)
Definition err_into {S E F A} (f : E → F) (m : act S E A) : act S F A := fun s =>
  match m s with
  | (s', Done a) => (s', Done a)
  | (s', Fail e) => (s', Fail (f e))
  | (s', Wait) => (s', Wait)
  | (s', Crash) => (s', Crash)
  end.

(** ** Reasoning about actions

    [wp m Q F s]: from [s], [m] ends with a value and a state that satisfy [Q], or in any
    other way in a state that satisfies [F]. *)
Definition wp {S E A} (m : act S E A) (Q : A → S → Prop) (F : S → Prop) (s : S) : Prop :=
  match m s with (s', Done a) => Q a s' | (s', _) => F s' end.

Section wp.
Context {S E : Type}.
Implicit Types F : S → Prop.

Lemma wp_bind {A B} (m : act S E A) (f : A → act S E B) Q F s :
  wp m (fun a s => wp (f a) Q F s) F s → wp (m ≫= f) Q F s.
Proof. unfold wp, mbind, act_bind. by destruct (m s) as [s1 [a|e| |]]. Qed.

Lemma wp_mono {A} (m : act S E A) (P Q : A → S → Prop) G F s :
  wp m P G s → (∀ a s', P a s' → Q a s') → (∀ s', G s' → F s') → wp m Q F s.
Proof. unfold wp. destruct (m s) as [s1 [a|e| |]]; eauto. Qed.

Lemma wp_try {A} (r : result E A) Q F s :
  (∀ a, r = Ok a → Q a s) → (¬ (∃ a, r = Ok a) → F s) → wp (try_ r) Q F s.
Proof. unfold wp, try_. destruct r; naive_solver. Qed.

Lemma wp_for_each {A} (P : list A → S → Prop) F (f : A → act S E unit) l s :
  (∀ x l s, P (x :: l) s → wp (f x) (fun _ s => P l s) F s) →
  P l s → wp (for_each l f) (fun _ s => P [] s) F s.
Proof.
  intros Hf. revert s. induction l as [|x l IH]; intros s Hs; [done|].
  cbn [for_each]. apply wp_bind. eapply wp_mono; [by apply Hf| |done]. auto.
Qed.
End wp.

(** An action that keeps [P], however it ends *)
Definition keeps {S E A} (P : S → Prop) (m : act S E A) : Prop := ∀ s, P s → P (m s).1.

Section keeps.
Context {S E : Type} (P : S → Prop).
Lemma keeps_bind {A B} (m : act S E A) (f : A → act S E B) :
  keeps P m → (∀ a, keeps P (f a)) → keeps P (m ≫= f).
Proof.
  intros Hm Hf s Hs. unfold mbind, act_bind. apply Hm in Hs.
  destruct (m s) as [s1 [a|e| |]]; cbn in *; [by apply Hf|done..].
Qed.
Lemma keeps_mret {A} (a : A) : keeps P (mret (M:=act S E) a).
Proof. by intros s. Qed.
Lemma keeps_get : keeps P (get (E:=E)).
Proof. by intros s. Qed.
Lemma keeps_fail {A} e : keeps P (fail (S:=S) (E:=E) (A:=A) e).
Proof. by intros s. Qed.
Lemma keeps_try {A} (r : result E A) : keeps P (try_ r).
Proof. by intros s. Qed.
Lemma keeps_modify (f : S → S) : (∀ s, P s → P (f s)) → keeps P (modify (E:=E) f).
Proof. intros Hf s. apply Hf. Qed.
Lemma keeps_for_each {A} (l : list A) (f : A → act S E unit) :
  (∀ x, keeps P (f x)) → keeps P (for_each l f).
Proof. intros Hf. induction l; cbn [for_each]; [apply keeps_mret|by apply keeps_bind]. Qed.
Lemma keeps_catch {A} (m : act S E A) : keeps P m → keeps P (catch m).
Proof.
  intros Hm s Hs. unfold catch. apply Hm in Hs. by destruct (m s) as [s1 [a|e| |]].
Qed.
Lemma keeps_err_into {F A} (f : E → F) (m : act S E A) : keeps P m → keeps P (err_into f m).
Proof.
  intros Hm s Hs. unfold err_into. apply Hm in Hs. by destruct (m s) as [s1 [a|e| |]].
Qed.
Lemma keeps_wp {A} (m : act S E A) s : keeps P m → P s → wp m (fun _ => P) P s.
Proof. intros Hm Hs. apply Hm in Hs. unfold wp. by destruct (m s) as [s1 [a|e| |]]. Qed.
End keeps.
Create HintDb keeps.
#[export] Hint Resolve keeps_bind keeps_mret keeps_get keeps_fail keeps_try keeps_modify
  keeps_for_each keeps_catch keeps_err_into : keeps.

(** Run an action on one field of a larger state. *)
Definition on_field {S T E A} (get : S → T) (set : T → S → S) (m : act T E A) : act S E A :=
  fun s => let '(t, r) := m (get s) in (set t s, r).

Lemma wp_on_field {S T E A} (get : S → T) (set : T → S → S) (m : act T E A) Q F s :
  wp m (fun a t => Q a (set t s)) (fun t => F (set t s)) (get s) ↔ wp (on_field get set m) Q F s.
Proof. unfold wp, on_field. by destruct (m (get s)) as [t [a|e| |]]. Qed.

(** An action that never ends with the error [e] *)
Definition never {S E A} (e : E) (m : act S E A) : Prop := ∀ s, (m s).2 ≠ Fail e.

Section never.
Context {S E : Type} (e : E).
Lemma never_bind {A B} (m : act S E A) (f : A → act S E B) :
  never e m → (∀ a, never e (f a)) → never e (m ≫= f).
Proof.
  intros Hm Hf s. unfold mbind, act_bind. specialize (Hm s).
  destruct (m s) as [s1 [a|e'| |]]; cbn in *; [apply Hf|congruence..].
Qed.
Lemma never_mret {A} (a : A) : never e (mret (M:=act S E) a).
Proof. by intros s. Qed.
Lemma never_get : never e (get (S:=S)).
Proof. by intros s. Qed.
Lemma never_put s0 : never e (put (S:=S) s0).
Proof. by intros s. Qed.
Lemma never_modify (f : S → S) : never e (modify f).
Proof. by intros s. Qed.
Lemma never_try {A} (r : result E A) : r ≠ Err e → never e (try_ (S:=S) r).
Proof. intros Hr s. cbn. destruct r; congruence. Qed.
Lemma never_for_each {A} (l : list A) (f : A → act S E unit) :
  (∀ x, never e (f x)) → never e (for_each l f).
Proof. intros Hf. induction l; cbn [for_each]; [apply never_mret|by apply never_bind]. Qed.
Lemma never_field {T A} (g : T → S) (h : S → T → T) (m : act S E A) :
  never e m → never e (on_field g h m).
Proof. intros Hm t. unfold on_field. specialize (Hm (g t)). by destruct (m (g t)). Qed.
End never.
Create HintDb never.
#[export] Hint Resolve never_bind never_mret never_get never_put never_modify never_try
  never_for_each never_field : never.

(** ** Byte streams *)
Inductive io_read := ReadBytes (bs : list byte) | ReadFail (error : string).
(** What happens to one [write_all] and its [flush]: [WriteFail n] after [n] bytes *)
Inductive io_write := WriteOk | WriteFail (n : N) (error : string) | FlushFail (error : string).

Record Io := mkIo {
  io_reads : list io_read;
  io_writes : list io_write;
  io_written : list byte;
}.

(** [write_all] then [flush]; with no fate listed the write succeeds. *)
Definition write_flush {E} (io_error : string → E) (bs : list byte) : act Io E unit := fun io =>
  match io_writes io with
  | [] => (mkIo (io_reads io) [] (io_written io ++ bs), Done tt)
  | WriteOk :: ws => (mkIo (io_reads io) ws (io_written io ++ bs), Done tt)
  | WriteFail n e :: ws =>
      (mkIo (io_reads io) ws (io_written io ++ take (N.to_nat n) bs), Fail (io_error e))
  | FlushFail e :: ws => (mkIo (io_reads io) ws (io_written io ++ bs), Fail (io_error e))
  end.
