(* ===== verification/RustF64.v ===== *)
(** * Rust's [f64]

    A binary64 number is a [spec_float] of the Standard Library at precision 53 and
    maximal exponent 1024; addition, subtraction, multiplication and division are the library's
    correctly rounded ones.  Comparison, [min], [max], [ceil], the conversion of an
    integer and the saturating cast [as usize] are written out here.  The lemmas show that
    subtracting 1.0 from a number below 2^53 is exact, which the loop that sleeps in slices
    of a second depends on. *)
From S2P Require Import Prelude RustStd.
From Stdlib Require Import ZArith.
From Stdlib Require Import Strings.Byte.
From Stdlib Require Import SpecFloat.
Local Open Scope Z_scope.

Abbreviation float64 := spec_float.
Abbreviation F_PREC := 53%Z.
Abbreviation F_EMAX := 1024%Z.
(** The exponent of the smallest subnormal number *)
Abbreviation F_EMIN := (-1074)%Z.

(** ** Operations *)

(** [n as f64] *)
Definition f_of_N (n : N) : float64 := binary_normalize F_PREC F_EMAX (Z.of_N n) 0 false.
Definition f_zero : float64 := S754_zero false.
Definition f_one : float64 := f_of_N 1.

(** [f64::is_finite] *)
Definition f_is_finite (x : float64) : bool :=
  match x with S754_zero _ | S754_finite _ _ _ => true | _ => false end.

(** The value of a finite number in units of [2 ^ F_EMIN] *)
Definition f_units (x : float64) : Z :=
  match x with
  | S754_finite s m e => cond_Zopp s (Z.pos m) * 2 ^ (e - F_EMIN)
  | _ => 0
  end.

(** [PartialOrd::partial_cmp] *)
Definition f_cmp (x y : float64) : option comparison :=
  match x, y with
  | S754_nan, _ | _, S754_nan => None
  | S754_infinity s, S754_infinity t =>
      Some (if s then (if t then Eq else Lt) else (if t then Gt else Eq))
  | S754_infinity s, _ => Some (if s then Lt else Gt)
  | _, S754_infinity t => Some (if t then Gt else Lt)
  | _, _ => Some (f_units x ?= f_units y)
  end.

Definition f_lt (x y : float64) : bool := bool_decide (f_cmp x y = Some Lt).
Definition f_gt (x y : float64) : bool := bool_decide (f_cmp x y = Some Gt).
Definition f_le (x y : float64) : bool := f_lt x y || bool_decide (f_cmp x y = Some Eq).

(** [f64::min] and [f64::max]: a NaN gives the other argument *)
Definition f_min (x y : float64) : float64 :=
  match x, y with
  | S754_nan, _ => y
  | _, S754_nan => x
  | _, _ => if f_lt y x then y else x
  end.
Definition f_max (x y : float64) : float64 :=
  match x, y with
  | S754_nan, _ => y
  | _, S754_nan => x
  | _, _ => if f_lt x y then y else x
  end.

Definition f_add (x y : float64) : float64 := SFadd F_PREC F_EMAX x y.
Definition f_sub (x y : float64) : float64 := SFsub F_PREC F_EMAX x y.
Definition f_mul (x y : float64) : float64 := SFmul F_PREC F_EMAX x y.
Definition f_div (x y : float64) : float64 := SFdiv F_PREC F_EMAX x y.

(** [f64::ceil] *)
Definition f_ceil (x : float64) : float64 :=
  match x with
  | S754_finite s m e =>
      if 0 <=? e then x
      else
        match - ((- cond_Zopp s (Z.pos m)) / 2 ^ (- e)) with
        | 0 => S754_zero s
        | q => binary_normalize F_PREC F_EMAX q 0 s
        end
  | _ => x
  end.

(** [x as u64] or [x as usize]: truncation that saturates, NaN to 0 *)
Definition f_as_uint (max : N) (x : float64) : N :=
  match x with
  | S754_finite false m e => N.min (Z.to_N (Z.pos m * 2 ^ (e - F_EMIN) / 2 ^ (- F_EMIN))) max
  | S754_infinity false => max
  | _ => 0%N
  end.

(** ** [str::parse::<f64>] *)

(** The decimal digits at the front of [l], appended to [acc], and how many there are *)
Fixpoint take_digits (acc : N) (n : Z) (l : list byte) : N * Z * list byte :=
  match l with
  | b :: l' =>
      match digit_val 10 b with
      | Some d => take_digits (acc * 10 + d) (n + 1) l'
      | None => (acc, n, l)
      end
  | [] => (acc, n, l)
  end.

Definition take_sign (l : list byte) : bool * list byte :=
  match l with
  | x2d :: l' => (true, l')
  | x2b :: l' => (false, l')
  | _ => (false, l)
  end.

(** Digits with an optional point and an optional exponent: significand and power of ten *)
Definition parse_decimal (l : list byte) : option (N * Z) :=
  let '(d, n, l) := take_digits 0 0 l in
  let '(d, k, l) := match l with x2e :: l' => take_digits d 0 l' | _ => (d, 0, l) end in
  if n + k =? 0 then None
  else
    match l with
    | [] => Some (d, - k)
    | b :: l' =>
        if bool_decide (b = x65) || bool_decide (b = x45) then
          let '(neg, l') := take_sign l' in
          let '(x, j, l') := take_digits 0 0 l' in
          match l' with
          | [] => if j =? 0 then None
                  else Some (d, (if neg : bool then - Z.of_N x else Z.of_N x) - k)
          | _ => None
          end
        else None
    end.

(** The number nearest to [± d * 10 ^ x]; far outside the range it is infinite or zero *)
Definition f_of_decimal (neg : bool) (d : N) (x : Z) : float64 :=
  match d with
  | 0%N => S754_zero neg
  | N.pos p =>
      if 400 <? x then S754_infinity neg
      else if x <? - (401 + Z.log2 (Z.pos p)) then S754_zero neg
      else if 0 <=? x
      then binary_round F_PREC F_EMAX neg (p * Z.to_pos (10 ^ x)) 0
      else SFdiv F_PREC F_EMAX (S754_finite neg p 0) (S754_finite false (Z.to_pos (10 ^ (- x))) 0)
  end.

Definition f_parse (s : string) : option float64 :=
  let '(neg, l) := take_sign (bytes_of s) in
  match parse_decimal l with
  | Some (d, x) => Some (f_of_decimal neg d x)
  | None =>
      let word := to_ascii_lowercase (str_of l) in
      if bool_decide (word = "inf"%string) || bool_decide (word = "infinity"%string)
      then Some (S754_infinity neg)
      else if bool_decide (word = "nan"%string) then Some S754_nan
      else None
  end.

(** The representations the hardware has: [valid_binary] of the library *)
Definition f_valid (x : float64) : Prop := valid_binary F_PREC F_EMAX x = true.

Example f_30_div_7 : f_as_uint U64_MAX (f_ceil (f_div (f_of_N 30) (f_of_N 7))) = 5%N.
Proof. vm_compute. reflexivity. Qed.
Example f_5_min_in_2s :
  f_as_uint U64_MAX (f_ceil (f_div (f_mul (f_of_N 5) (f_of_N 60)) (f_of_N 2))) = 150%N.
Proof. vm_compute. reflexivity. Qed.

Example f_parse_half : f_parse "0.5" = Some (S754_finite false 4503599627370496 (-53)).
Proof. vm_compute. reflexivity. Qed.
Example f_parse_forms :
  f_parse "1e3" = f_parse "1000." ∧ f_parse "+.25E1" = f_parse "2.5" ∧
  f_parse "-Inf" = Some (S754_infinity true) ∧ f_parse "." = None ∧ f_parse "1e" = None ∧
  f_parse "1e400" = Some (S754_infinity false).
Proof. vm_compute. done. Qed.

(** ** Rounding an exactly representable number changes nothing *)

Lemma digits2_log2 p : Z.pos (digits2_pos p) = Z.log2 (Z.pos p) + 1.
Proof.
  induction p as [p IH|p IH|]; cbn [digits2_pos]; [| |done].
  - rewrite Pos2Z.inj_succ, IH, Pos2Z.inj_xI, Z.log2_succ_double by lia. lia.
  - rewrite Pos2Z.inj_succ, IH, Pos2Z.inj_xO, Z.log2_double by lia. lia.
Qed.

Lemma shift_pos_spec d m : Z.pos (Pos.iter xO m d) = Z.pos m * 2 ^ Z.pos d.
Proof.
  revert m. induction d as [|d IH] using Pos.peano_ind; intros m.
  { change (Z.pos (m~0) = Z.pos m * 2). lia. }
  rewrite Pos.iter_succ, Pos2Z.inj_xO, IH, Pos2Z.inj_succ, Z.pow_succ_r by lia. lia.
Qed.

Lemma shl_align_le m e f :
  f ≤ e → shl_align m e f = (Z.to_pos (Z.pos m * 2 ^ (e - f)), f).
Proof.
  intros Hf. unfold shl_align. destruct (f - e) as [|p|p] eqn:Hd; [|lia|].
  - replace f with e by lia. rewrite Z.sub_diag, Z.mul_1_r. done.
  - f_equal. apply Pos2Z.inj. rewrite shift_pos_spec.
    replace (e - f) with (Z.pos p) by lia. rewrite Z2Pos.id; [done|]. nia.
Qed.

Lemma shl_align_ge m e f : e ≤ f → shl_align m e f = (m, e).
Proof. intros Hf. unfold shl_align. destruct (f - e) eqn:Hd; [done|done|lia]. Qed.

(** Shifting out zero bits is exact. *)
Lemma shr_zero_bits p k :
  0 < k →
  SpecFloat.iter_pos shr_1 p (Build_shr_record (k * 2 ^ Z.pos p) false false)
  = Build_shr_record k false false.
Proof.
  revert k. assert (Hone : ∀ k, 0 < k →
    shr_1 (Build_shr_record (k * 2) false false) = Build_shr_record k false false).
  { intros [|k|k] Hk; [lia| |lia]. rewrite Z.mul_comm. done. }
  assert (Hxo : ∀ p x, SpecFloat.iter_pos shr_1 p~0 x
    = SpecFloat.iter_pos shr_1 p (SpecFloat.iter_pos shr_1 p x)) by done.
  assert (Hxi : ∀ p x, SpecFloat.iter_pos shr_1 p~1 x
    = SpecFloat.iter_pos shr_1 p (SpecFloat.iter_pos shr_1 p (shr_1 x))) by done.
  induction p as [p IH|p IH|]; intros k Hk; rewrite ?Hxo, ?Hxi.
  - change (Z.pos p~1) with (2 * Z.pos p + 1).
    replace (k * 2 ^ (2 * Z.pos p + 1)) with ((k * 2 ^ Z.pos p) * 2 ^ Z.pos p * 2)
      by (rewrite Z.pow_add_r, Z.pow_twice_r by lia; lia).
    rewrite Hone by nia. rewrite IH by nia. by rewrite IH by lia.
  - change (Z.pos p~0) with (2 * Z.pos p).
    replace (k * 2 ^ (2 * Z.pos p)) with ((k * 2 ^ Z.pos p) * 2 ^ Z.pos p)
      by (rewrite Z.pow_twice_r; lia).
    rewrite IH by nia. by rewrite IH by lia.
  - change (shr_1 (Build_shr_record (k * 2 ^ 1) false false) = Build_shr_record k false false).
    by rewrite Z.pow_1_r, Hone.
Qed.

Definition f_fexp (d : Z) : Z := Z.max (d - F_PREC) F_EMIN.

Lemma fexp_spec d : fexp F_PREC F_EMAX d = f_fexp d.
Proof. done. Qed.

(** A significand that already has its exponent is not shifted. *)
Lemma shr_fexp_id m e :
  f_fexp (Z.log2 (Z.pos m) + 1 + e) ≤ e →
  shr_fexp F_PREC F_EMAX (Z.pos m) e loc_Exact
  = (Build_shr_record (Z.pos m) false false, e).
Proof.
  intros Hf. unfold shr_fexp. cbn [shr_record_of_loc Zdigits2].
  rewrite digits2_log2, fexp_spec. unfold shr.
  destruct (_ - e) eqn:Hd; [done|lia|done].
Qed.

Lemma shr_fexp_exact k n e :
  0 < n → f_fexp (Z.log2 (Z.pos k * 2 ^ n) + 1 + e) = e + n →
  shr_fexp F_PREC F_EMAX (Z.pos k * 2 ^ n) e loc_Exact
  = (Build_shr_record (Z.pos k) false false, e + n).
Proof.
  intros Hn Hf. unfold shr_fexp. cbn [shr_record_of_loc].
  destruct (Z.pos k * 2 ^ n) as [|q|q] eqn:Hq; [nia| |nia].
  cbn [Zdigits2]. rewrite digits2_log2, fexp_spec, Hf.
  unfold shr. replace (e + n - e) with n by lia.
  destruct n as [|p|p]; [lia| |lia]. rewrite <-Hq. by rewrite shr_zero_bits by lia.
Qed.

(** The last step of rounding: the significand fits and the exponent is in range. *)
Lemma binary_round_aux_exact s m e :
  f_fexp (Z.log2 (Z.pos m) + 1 + e) ≤ e → e ≤ F_EMAX - F_PREC →
  binary_round_aux F_PREC F_EMAX s (Z.pos m) e loc_Exact = S754_finite s m e.
Proof.
  intros Hf He. unfold binary_round_aux. rewrite shr_fexp_id by done. cbn [shr_m].
  cbn [loc_of_shr_record round_nearest_even]. rewrite shr_fexp_id by done. cbn [shr_m].
  by rewrite (proj2 (Z.leb_le _ _) He).
Qed.

Lemma f_valid_finite s m e :
  f_valid (S754_finite s m e) ↔
  f_fexp (Z.log2 (Z.pos m) + 1 + e) = e ∧ e ≤ F_EMAX - F_PREC.
Proof.
  unfold f_valid, valid_binary, bounded, canonical_mantissa.
  rewrite andb_true_iff, Z.leb_le, Z.eqb_eq, digits2_log2, fexp_spec. done.
Qed.

(** Rounding [k * 2^n * 2^e] with [k] of at most 53 bits gives that number. *)
Section exact.
Context (k : positive) (n e : Z).
Context (Hn : 0 ≤ n) (Hk : Z.pos k < 2 ^ F_PREC) (He : F_EMIN ≤ e) (Hmax : e + n ≤ F_EMAX - F_PREC).

Local Abbreviation L := (Z.log2 (Z.pos k)).
Local Abbreviation f := (f_fexp (L + 1 + (n + e))).

(** [x] is the number [k * 2^n * 2^e]. *)
Definition is_exact (x : float64) : Prop :=
  f_valid x ∧ f_is_finite x = true ∧ f_units x = Z.pos k * 2 ^ (n + (e - F_EMIN)).

Lemma log2_small : 0 ≤ L < F_PREC.
Proof using Hk. split; [apply Z.log2_nonneg|apply Z.log2_lt_pow2; lia]. Qed.

Lemma log2_shifted j : 0 ≤ j → Z.log2 (Z.pos k * 2 ^ j) = j + L.
Proof using. intros Hj. apply Z.log2_mul_pow2; lia. Qed.

Lemma f_in_range : f ≤ F_EMAX - F_PREC.
Proof using Hk Hmax. pose proof log2_small. unfold f_fexp. lia. Qed.

Lemma exact_finite m j :
  Z.pos m = Z.pos k * 2 ^ j → 0 ≤ j → j + f = n + e → is_exact (S754_finite false m f).
Proof using Hk He Hmax.
  intros Hm Hj Hjf. pose proof f_in_range. split; [|split; [done|]].
  - apply f_valid_finite. rewrite Hm, log2_shifted by lia.
    replace (j + L + 1 + f) with (L + 1 + (n + e)) by lia. done.
  - cbn [f_units cond_Zopp]. rewrite Hm, <-Z.mul_assoc, <-Z.pow_add_r
      by (unfold f_fexp in *; lia).
    do 2 f_equal. lia.
Qed.

(** The significand has fewer than 53 bits: zeros are shifted in. *)
Lemma round_shl m :
  Z.pos m = Z.pos k * 2 ^ n → f ≤ e →
  is_exact (binary_round_aux F_PREC F_EMAX false
    (Z.pos (Z.to_pos (Z.pos m * 2 ^ (e - f)))) f loc_Exact).
Proof using Hn Hk He Hmax.
  intros Hm Hfe.
  assert (Hmz : Z.pos (Z.to_pos (Z.pos m * 2 ^ (e - f))) = Z.pos k * 2 ^ (n + (e - f))).
  { rewrite Z2Pos.id by nia. rewrite Hm, <-Z.mul_assoc, <-Z.pow_add_r by lia. done. }
  rewrite binary_round_aux_exact; [|rewrite Hmz, log2_shifted by lia|apply f_in_range].
  - apply (exact_finite _ (n + (e - f))); [done|lia|lia].
  - by replace (n + (e - f) + L + 1 + f) with (L + 1 + (n + e)) by lia.
Qed.

(** It has more than 53 bits, the last of them zeros, which are shifted out. *)
Lemma round_shr m :
  Z.pos m = Z.pos k * 2 ^ n → e < f →
  is_exact (binary_round_aux F_PREC F_EMAX false (Z.pos m) e loc_Exact).
Proof using Hn Hk He Hmax.
  intros Hm Hfe. pose proof log2_small. set (j := n - (f - e)).
  assert (Hj : 0 ≤ j) by (subst j; unfold f_fexp in *; lia).
  assert (Hm' : Z.pos m = Z.pos (Z.to_pos (Z.pos k * 2 ^ j)) * 2 ^ (f - e)).
  { rewrite Z2Pos.id by nia. rewrite Hm, <-Z.mul_assoc, <-Z.pow_add_r by lia.
    do 2 f_equal. lia. }
  unfold binary_round_aux. rewrite Hm', shr_fexp_exact; [|lia|].
  2: { rewrite <-Hm', Hm, log2_shifted by lia.
       replace (n + L + 1 + e) with (L + 1 + (n + e)) by lia. lia. }
  cbn [shr_m loc_of_shr_record round_nearest_even].
  replace (e + (f - e)) with f by lia.
  rewrite shr_fexp_id; cbn [shr_m].
  2: { rewrite Z2Pos.id by nia. rewrite log2_shifted by lia.
       by replace (j + L + 1 + f) with (L + 1 + (n + e)) by lia. }
  rewrite (proj2 (Z.leb_le _ _) f_in_range).
  apply (exact_finite _ j); [by rewrite Z2Pos.id by nia|done|lia].
Qed.

Lemma normalize_exact z :
  is_exact (binary_normalize F_PREC F_EMAX (Z.pos k * 2 ^ n) e z).
Proof using Hn Hk He Hmax.
  destruct (Z.pos k * 2 ^ n) as [|m|m] eqn:Hm; [nia| |nia].
  cbn [binary_normalize]. unfold binary_round.
  rewrite digits2_log2, fexp_spec, <-Hm, log2_shifted by done.
  replace (n + L + 1 + e) with (L + 1 + (n + e)) by lia.
  destruct (Z.le_gt_cases f e) as [Hfe|Hfe].
  - rewrite shl_align_le by done. by apply round_shl.
  - rewrite shl_align_ge by lia. by apply round_shr.
Qed.
End exact.

(** ** Subtracting one *)

(** The integers below 2^53 are exact. *)
Lemma f_of_N_exact p :
  (N.pos p < 2 ^ 53)%N → is_exact p 0 0 (f_of_N (N.pos p)).
Proof.
  intros Hp. unfold f_of_N. change (Z.of_N (N.pos p)) with (Z.pos p).
  rewrite <-(Z.mul_1_r (Z.pos p)), <-(Z.pow_0_r 2). apply normalize_exact; lia.
Qed.

Abbreviation F_UNIT := (2 ^ 1074)%Z.

Lemma f_one_eq : f_one = S754_finite false 4503599627370496 (-52).
Proof. vm_compute. reflexivity. Qed.

(** The exponent of a valid number in [1.0, 2^53) *)
Lemma exponent_range m e :
  f_valid (S754_finite false m e) → F_UNIT < Z.pos m * 2 ^ (e - F_EMIN) < 2 ^ F_PREC * F_UNIT →
  -52 ≤ e ≤ 0 ∧ Z.pos m < 2 ^ F_PREC.
Proof.
  intros [Hv Hmax]%f_valid_finite [Hlo Hhi]. unfold f_fexp in Hv.
  assert (HL : 2 ^ Z.log2 (Z.pos m) ≤ Z.pos m < 2 ^ Z.succ (Z.log2 (Z.pos m)))
    by (apply Z.log2_spec; lia).
  pose proof (Z.log2_nonneg (Z.pos m)) as HL0. set (L := Z.log2 (Z.pos m)) in *.
  assert (Hm : Z.pos m < 2 ^ F_PREC) by
    (eapply Z.lt_le_trans; [apply HL|apply Z.pow_le_mono_r; lia]).
  split; [|done]. split.
  - destruct (Z.le_gt_cases (-52) e); [done|exfalso].
    assert (Hp : 2 ^ (e - F_EMIN) ≤ 2 ^ 1021) by (apply Z.pow_le_mono_r; lia).
    change F_UNIT with (2 ^ F_PREC * 2 ^ 1021) in Hlo. nia.
  - destruct (Z.le_gt_cases e 0); [done|exfalso].
    assert (Hp : 2 ^ 1075 ≤ 2 ^ (e - F_EMIN)) by (apply Z.pow_le_mono_r; lia).
    assert (Hq : 2 ^ 52 ≤ 2 ^ L) by (apply Z.pow_le_mono_r; lia).
    change (2 ^ F_PREC * F_UNIT) with (2 ^ 52 * 2 ^ 1075) in Hhi. nia.
Qed.

(** A valid number in (1.0, 2^53) minus 1.0 is exact. *)
Lemma sub_one_exact x :
  f_valid x → f_is_finite x = true → F_UNIT < f_units x < 2 ^ F_PREC * F_UNIT →
  f_valid (f_sub x f_one) ∧ f_is_finite (f_sub x f_one) = true ∧
  f_units (f_sub x f_one) = f_units x - F_UNIT.
Proof.
  destruct x as [| | |s m e]; cbn [f_units f_is_finite]; try lia.
  intros Hv _ Hu. destruct s; cbn [cond_Zopp] in *; [nia|].
  destruct (exponent_range m e Hv Hu) as [He Hm].
  assert (Hpe : 2 ^ (e - F_EMIN) = 2 ^ (e + 52) * 2 ^ 1022) by
    (rewrite <-Z.pow_add_r by lia; f_equal; lia).
  assert (Hq : 2 ^ (e + 52) * 2 ^ (- e) = 2 ^ 52) by
    (rewrite <-Z.pow_add_r by lia; f_equal; lia).
  change F_UNIT with (2 ^ 52 * 2 ^ 1022) in *. rewrite Hpe in *.
  assert (Hk : Z.pos (Z.to_pos (Z.pos m - 2 ^ (- e))) = Z.pos m - 2 ^ (- e))
    by (apply Z2Pos.id; nia).
  destruct (normalize_exact (Z.to_pos (Z.pos m - 2 ^ (- e))) (e + 52) (-52)) with false
    as (Hv' & Hf' & Hu'); [lia|lia|lia|lia|].
  rewrite f_one_eq. unfold f_sub, SFsub. rewrite Z.min_r by lia.
  rewrite (shl_align_le m e) by lia. rewrite shl_align_ge by lia. cbn [fst cond_Zopp].
  rewrite Hk in Hv', Hf', Hu'. rewrite Z2Pos.id by nia.
  replace (Z.pos m * 2 ^ (e - -52) - Z.pos 4503599627370496)
    with ((Z.pos m - 2 ^ (- e)) * 2 ^ (e + 52)).
  2: { rewrite Z.mul_sub_distr_r, (Z.mul_comm (2 ^ (- e))), Hq.
       by replace (e - -52) with (e + 52) by lia. }
  split; [exact Hv'|split; [exact Hf'|]]. rewrite Hu'.
  rewrite Z.pow_add_r by lia. replace (2 ^ (-52 - F_EMIN)) with (2 ^ 1022) by done. nia.
Qed.

Lemma sub_self m e : f_sub (S754_finite false m e) (S754_finite false m e) = f_zero.
Proof. unfold f_sub, SFsub. by rewrite Z.sub_diag. Qed.

Lemma f_cmp_finite x y :
  f_is_finite x = true → f_is_finite y = true → f_cmp x y = Some (f_units x ?= f_units y).
Proof. by destruct x, y. Qed.

Lemma f_gt_finite x y :
  f_is_finite x = true → f_is_finite y = true → f_gt x y = bool_decide (f_units y < f_units x).
Proof.
  intros Hx Hy. unfold f_gt. rewrite f_cmp_finite by done. apply bool_decide_ext.
  rewrite (inj_iff Some), Z.compare_gt_iff. done.
Qed.

Lemma f_lt_finite x y :
  f_is_finite x = true → f_is_finite y = true → f_lt x y = bool_decide (f_units x < f_units y).
Proof.
  intros Hx Hy. unfold f_lt. rewrite f_cmp_finite by done. apply bool_decide_ext.
  rewrite (inj_iff Some), Z.compare_lt_iff. done.
Qed.

Lemma f_le_finite x y :
  f_is_finite x = true → f_is_finite y = true → f_le x y = bool_decide (f_units x ≤ f_units y).
Proof.
  intros Hx Hy. unfold f_le. rewrite f_lt_finite, f_cmp_finite by done.
  destruct (Z.compare_spec (f_units x) (f_units y)); repeat case_bool_decide; done || lia.
Qed.

Lemma f_units_one : f_units f_one = F_UNIT.
Proof. vm_compute. reflexivity. Qed.

Lemma f_min_finite x y :
  f_is_finite x = true → f_is_finite y = true →
  f_min x y = if bool_decide (f_units y < f_units x) then y else x.
Proof. intros Hx Hy. rewrite <-f_lt_finite by done. by destruct x, y. Qed.

(** A number that was raised to at least 1.0 is at least 1 as an integer. *)
Lemma f_max_one_as_uint max x : (1 ≤ max)%N → (1 ≤ f_as_uint max (f_max x f_one))%N.
Proof.
  intros Hmax.
  assert (H1 : (1 ≤ f_as_uint max f_one)%N).
  { rewrite f_one_eq. cbn [f_as_uint]. apply N.min_glb; [|done]. vm_compute. discriminate. }
  destruct x as [s|s| |s m e]; [|by destruct s|done|].
  { by destruct s. }
  unfold f_max. rewrite f_one_eq. cbv iota. rewrite <-f_one_eq, f_lt_finite by done.
  case_bool_decide as Hlt; [done|]. rewrite f_units_one in Hlt. cbn [f_units] in Hlt.
  destruct s; cbn [cond_Zopp f_as_uint] in *; [nia|].
  apply N.min_glb; [|done]. change 1%N with (Z.to_N 1). apply Z2N.inj_le; [done| |].
  - apply Z.div_pos; lia.
  - apply Z.div_le_lower_bound; [done|]. change (2 ^ (- F_EMIN)) with F_UNIT. lia.
Qed.
