(* ===== verification/Framing.v ===== *)
(** * Incremental decoding of a byte stream

    Both stream codecs of [ktp_transport.rs] cut items off the front of the bytes
    received so far.  [FrameParser] is what they have in common at the level of
    bytes: one attempt to cut an item off, with the laws of a parser of
    self-delimiting items.  [StreamCodec] is the interface of a codec that keeps the
    bytes in a bounded buffer and refines such a parser.  The theorem proved against
    the interfaces says that the way a stream is split into network reads is
    invisible as long as the buffer has room for one item and one read. *)
From S2P Require Import Prelude.
From Stdlib Require Import Strings.Byte.
Local Open Scope N_scope.

(** [fp_next s bs]: in state [s] with [bs] unread, either an item (with the next
    state and the bytes left), or [None] when more bytes are needed.
    [fp_cut]: an item is determined by the bytes it is cut from.
    [fp_prefix]: an error is never caused by bytes that have not arrived. *)
Class FrameParser (St It Er : Type) := {
  fp_next : St → list byte → result Er (option (It * St * list byte));
  fp_empty s : fp_next s [] = Ok None;
  fp_cut s bs x s' r :
    fp_next s bs = Ok (Some (x, s', r)) →
    ∃ h, bs = h ++ r ∧ h ≠ [] ∧ ∀ k, fp_next s (h ++ k) = Ok (Some (x, s', k));
  fp_prefix s bs k o :
    fp_next s (bs ++ k) = Ok o → ∃ o', fp_next s bs = Ok o';
}.

(** A codec [C] with a bounded buffer that refines the parser: [cd_abs c s p] relates
    its state to a parser state [s] and the bytes [p] pushed and not consumed. *)
Class StreamCodec (C St It Er : Type) {FP : FrameParser St It Er} := {
  cd_push : C → list byte → result Er C;
  cd_next : C → result Er (option It * C);
  cd_limit : C → N;
  cd_abs : C → St → list byte → Prop;
  cd_push_ok c s p chunk :
    cd_abs c s p → len p + len chunk ≤ cd_limit c →
    ∃ c', cd_push c chunk = Ok c' ∧ cd_abs c' s (p ++ chunk) ∧ cd_limit c' = cd_limit c;
  cd_next_none c s p :
    cd_abs c s p → fp_next s p = Ok None → cd_next c = Ok (None, c);
  cd_next_some c s p x s' r :
    cd_abs c s p → fp_next s p = Ok (Some (x, s', r)) →
    ∃ c', cd_next c = Ok (Some x, c') ∧ cd_abs c' s' r ∧ cd_limit c' = cd_limit c;
}.

Section receive.
Context {C St It Er : Type} {FP : FrameParser St It Er} {SC : StreamCodec C St It Er}.

(** The receiver's loop: [next] until no item is complete.  Every item consumes at
    least one byte, so the number of bytes pending bounds the iterations. *)
Fixpoint drain (fuel : nat) (c : C) : result Er (list It * C) :=
  match fuel with
  | O => Ok ([], c)
  | S f =>
      '(o, c') ← cd_next c;
      match o with
      | None => Ok ([], c')
      | Some x => '(xs, c'') ← drain f c'; Ok (x :: xs, c'')
      end
  end.

(** Push the chunks one by one, taking out every complete item after each. *)
Fixpoint receive (fuel : nat) (c : C) (chunks : list (list byte))
    : result Er (list It * C) :=
  match chunks with
  | [] => Ok ([], c)
  | ch :: chs =>
      c ← cd_push c ch;
      '(xs, c) ← drain fuel c;
      '(ys, c) ← receive fuel c chs;
      Ok (xs ++ ys, c)
  end.

(** [pieces s hs xs s']: from state [s] the byte strings [hs] are, one after the
    other, the items [xs], leading to [s']. *)
Inductive pieces : St → list (list byte) → list It → St → Prop :=
  | pieces_nil s : pieces s [] [] s
  | pieces_cons s h x s' hs xs s'' :
      h ≠ [] → (∀ k, fp_next s (h ++ k) = Ok (Some (x, s', k))) →
      pieces s' hs xs s'' → pieces s (h :: hs) (x :: xs) s''.

(** A strict prefix of a piece is not an item yet. *)
Lemma piece_incomplete s h x s' b d :
  (∀ k, fp_next s (h ++ k) = Ok (Some (x, s', k))) → h = b ++ d → d ≠ [] →
  fp_next s b = Ok None.
Proof.
  intros Hh -> Hd. pose proof (Hh []) as H0. rewrite app_nil_r in H0.
  destruct (fp_prefix _ _ _ _ H0) as [[[[y t] r]|] Hb]; [|done].
  destruct (fp_cut _ _ _ _ _ Hb) as (g & -> & _ & Hg).
  rewrite <- app_assoc, Hg in H0. injection H0 as <- <- H0.
  apply (f_equal length) in H0. rewrite length_app in H0.
  destruct d; [done|]. cbn in H0. lia.
Qed.

(** Any prefix of a stream of pieces is some pieces and an incomplete rest. *)
Lemma pieces_prefix s hs xs s' b k :
  pieces s hs xs s' → b ++ k = concat hs →
  ∃ hs1 xs1 s1 r hs2 xs2, hs = hs1 ++ hs2 ∧ xs = xs1 ++ xs2
    ∧ pieces s hs1 xs1 s1 ∧ pieces s1 hs2 xs2 s'
    ∧ b = concat hs1 ++ r ∧ r ++ k = concat hs2 ∧ fp_next s1 r = Ok None.
Proof.
  intros Hp. revert b. induction Hp as [s|s h x s1 hs xs s2 Hne Hh Hp IH]; intros b Hb.
  - cbn in Hb. apply app_nil in Hb as [-> ->].
    exists [], [], s, [], [], []. split_and!; try done; [constructor..|apply fp_empty].
  - cbn in Hb. destruct (decide (length h ≤ length b)%nat) as [Hl|Hl].
    + destruct (app_eq_inv _ _ _ _ Hb) as [(d & -> & Hk)|(d & -> & Hk)].
      * destruct (IH d) as (hs1 & xs1 & t & r & hs2 & xs2 & -> & -> & ? & ? & -> & ? & ?);
          [done|].
        exists (h :: hs1), (x :: xs1), t, r, hs2, xs2. cbn. rewrite app_assoc.
        split_and!; try done. by econstructor.
      * rewrite length_app in Hl. destruct d; [|cbn in Hl; lia].
        rewrite app_nil_r in *. destruct (IH []) as
          (hs1 & xs1 & t & r & hs2 & xs2 & -> & -> & ? & ? & Hr & ? & ?); [done|].
        exists (b :: hs1), (x :: xs1), t, r, hs2, xs2. cbn. rewrite <- app_assoc, <- Hr.
        rewrite app_nil_r. split_and!; try done. by econstructor.
    + exists [], [], s, b, (h :: hs), (x :: xs). split_and!; try done; [constructor|by econstructor|].
      destruct (app_eq_inv _ _ _ _ Hb) as [(d & Hd & Hk)|(d & Hd & Hk)].
      * rewrite Hd, length_app in Hl. lia.
      * eapply piece_incomplete; [done..|]. intros ->. rewrite app_nil_r in Hd. subst. lia.
Qed.

Lemma pieces_length s hs xs s' :
  pieces s hs xs s' → (length xs ≤ length (concat hs))%nat.
Proof.
  induction 1 as [|s h x s1 hs xs s2 Hne Hh Hp IH]; cbn; [lia|].
  rewrite length_app. destruct h; cbn; [done|lia].
Qed.

(** Draining a codec that holds some pieces and an incomplete rest *)
Lemma drain_pieces fuel c s hs xs s' r :
  pieces s hs xs s' → fp_next s' r = Ok None → (length xs < fuel)%nat →
  cd_abs c s (concat hs ++ r) →
  ∃ c', drain fuel c = Ok (xs, c') ∧ cd_abs c' s' r ∧ cd_limit c' = cd_limit c.
Proof.
  intros Hp Hr. revert c fuel. induction Hp as [s|s h x s1 hs xs s2 Hne Hh Hp IH];
    intros c [|fuel] Hf Ha; cbn in Hf; [lia| |lia|]; cbn [drain].
  - cbn in Ha. rewrite (cd_next_none c s r) by done. step_ok. eauto.
  - cbn [concat] in Ha. rewrite <- app_assoc in Ha.
    destruct (cd_next_some _ _ _ _ _ _ Ha (Hh _)) as (c1 & -> & Ha1 & Hl1). step_ok.
    destruct (IH Hr c1 fuel) as (c2 & -> & Ha2 & Hl2); [lia|done|]. step_ok.
    exists c2. split_and!; [done|done|congruence].
Qed.

Lemma receive_pieces_from fuel s hs xs s' c p chunks :
  pieces s hs xs s' → cd_abs c s p → fp_next s p = Ok None →
  p ++ concat chunks = concat hs → (length xs < fuel)%nat →
  (∀ h ch, h ∈ hs → ch ∈ chunks → len h + len ch ≤ cd_limit c + 1) →
  ∃ c', receive fuel c chunks = Ok (xs, c') ∧ cd_abs c' s' [].
Proof.
  intros Hp. revert s hs xs c p Hp.
  induction chunks as [|ch chs IH]; intros s hs xs c p Hp Ha Hn Hc Hf Hb; cbn [receive].
  - cbn in Hc. rewrite app_nil_r in Hc. subst p.
    destruct Hp as [|s h x s1 hs xs s2 Hne Hh Hp]; [eauto|].
    cbn in Hn. by rewrite Hh in Hn.
  - cbn in Hc. rewrite app_assoc in Hc.
    assert (len p + len ch ≤ cd_limit c) as Hroom.
    { destruct Hp as [|s h x s1 hs xs s2 Hne Hh Hp].
      { cbn in Hc. apply app_nil in Hc as [(-> & ->)%app_nil _]. cbn. len_lia. }
      assert (len p < len h) as Hlt.
      { destruct (decide (len p < len h)) as [|Hge]; [done|].
        rewrite <- app_assoc in Hc. cbn in Hc.
        destruct (app_eq_inv _ _ _ _ Hc) as [(d & -> & _)|(d & -> & _)].
        - by rewrite Hh in Hn.
        - assert (d = []) as -> by (apply len_0; len_lia).
          specialize (Hh []). rewrite !app_nil_r in Hh. congruence. }
      specialize (Hb h ch ltac:(set_solver) ltac:(set_solver)). lia. }
    destruct (cd_push_ok _ _ _ _ Ha Hroom) as (c1 & -> & Ha1 & Hl1). step_ok.
    destruct (pieces_prefix _ _ _ _ _ _ Hp Hc) as
      (hs1 & xs1 & s1 & r & hs2 & xs2 & -> & -> & Hp1 & Hp2 & Hpc & Hr & Hnr).
    rewrite Hpc in Ha1. rewrite length_app in Hf.
    destruct (drain_pieces fuel c1 _ _ _ _ _ Hp1 Hnr) as (c2 & -> & Ha2 & Hl2);
      [lia|done|]. step_ok.
    destruct (IH s1 hs2 xs2 c2 r) as (c3 & -> & Ha3); try done; [lia| |].
    + intros h' ch' Hh' Hch'. rewrite Hl2, Hl1. apply Hb; set_solver.
    + step_ok. eauto.
Qed.

Lemma receive_pieces fuel s hs xs s' c chunks :
  pieces s hs xs s' → cd_abs c s [] → concat chunks = concat hs → (length xs < fuel)%nat →
  (∀ h ch, h ∈ hs → ch ∈ chunks → len h + len ch ≤ cd_limit c + 1) →
  ∃ c', receive fuel c chunks = Ok (xs, c') ∧ cd_abs c' s' [].
Proof. intros. eapply receive_pieces_from; try done. apply fp_empty. Qed.
End receive.
