(* ===== verification/Ktp.v ===== *)
(** * The KTP frame format ([src/src/ktp.rs])

    A KTP frame is a 24-byte header (magic, version, type, leg, flags, session id,
    payload length, reserved) followed by the payload.  This file models the whole
    of [ktp.rs]: the frame data types, [validate_frame], the encoders and
    [decode_frame], whose slices and indices are explicit, so that "does not
    panic on any input" is a theorem.  Rust writes into a [&mut Vec<u8>]; the model
    returns the new contents next to the result. *)
From S2P Require Import Prelude RustStd.
From Stdlib Require Import Strings.Byte.
Local Open Scope N_scope.

(** ktp.rs [KTP_MAGIC] *)
Definition KTP_MAGIC : list byte := [x4b; x54; x50; x31].
(** ktp.rs [KTP_VERSION] *)
Definition KTP_VERSION : byte := x01.
(** ktp.rs [KTP_HEADER_LEN] *)
Definition KTP_HEADER_LEN : N := 24.
(** ktp.rs [KTP_MAX_PAYLOAD_LEN] *)
Definition KTP_MAX_PAYLOAD_LEN : N := 1024 * 1024.

(** ktp.rs [FrameType] *)
Inductive FrameType :=
  | Hello | HelloAck | Ready
  | SessionOpen | SessionAccept | SessionData | SessionWindow | SessionClose | SessionError
  | Ping | Pong | Stats.
#[export] Instance FrameType_eq_dec : EqDecision FrameType.
Proof. solve_decision. Defined.

(** ktp.rs [FrameType] (the [repr(u8)] discriminants) *)
Definition frame_type_as_u8 (t : FrameType) : byte :=
  match t with
  | Hello => x01 | HelloAck => x02 | Ready => x03
  | SessionOpen => x10 | SessionAccept => x11 | SessionData => x12
  | SessionWindow => x13 | SessionClose => x14 | SessionError => x15
  | Ping => x20 | Pong => x21 | Stats => x30
  end.

(** ktp.rs [FrameLeg] *)
Inductive FrameLeg := Connection | Ingress | Egress.
#[export] Instance FrameLeg_eq_dec : EqDecision FrameLeg.
Proof. solve_decision. Defined.

(** ktp.rs [FrameLeg] (the [repr(u8)] discriminants) *)
Definition frame_leg_as_u8 (l : FrameLeg) : byte :=
  match l with Connection => x00 | Ingress => x01 | Egress => x02 end.

(** ktp.rs [KtpError] *)
Inductive KtpError :=
  | WrongMagic
  | UnsupportedVersion (version : byte)
  | UnknownFrameType (frame_type : byte)
  | InvalidLeg (leg : byte)
  | InvalidSessionId
  | TruncatedHeader
  | TruncatedPayload
  | PayloadTooLarge (size : N)
  | ReservedNonZero (value : N).
#[export] Instance KtpError_eq_dec : EqDecision KtpError.
Proof. solve_decision. Defined.

(** ktp.rs [FrameType::from_u8] *)
Definition FrameType_from_u8 (value : byte) : result KtpError FrameType :=
  match value with
  | x01 => Ok Hello | x02 => Ok HelloAck | x03 => Ok Ready
  | x10 => Ok SessionOpen | x11 => Ok SessionAccept | x12 => Ok SessionData
  | x13 => Ok SessionWindow | x14 => Ok SessionClose | x15 => Ok SessionError
  | x20 => Ok Ping | x21 => Ok Pong | x30 => Ok Stats
  | other => Err (UnknownFrameType other)
  end.

(** ktp.rs [FrameType::is_connection_level] *)
Definition is_connection_level (t : FrameType) : bool :=
  match t with
  | Hello | HelloAck | Ready | Ping | Pong | Stats => true
  | _ => false
  end.

(** ktp.rs [FrameLeg::from_u8] *)
Definition FrameLeg_from_u8 (value : byte) : result KtpError FrameLeg :=
  match value with
  | x00 => Ok Connection | x01 => Ok Ingress | x02 => Ok Egress
  | other => Err (InvalidLeg other)
  end.

(** ktp.rs [KtpFrame] *)
Record KtpFrame := mkFrame {
  frame_type : FrameType;
  leg : FrameLeg;
  flags : byte;
  session_id : N;
  payload : list byte;
}.
#[export] Instance KtpFrame_eq_dec : EqDecision KtpFrame.
Proof. solve_decision. Defined.

(** ktp.rs [KtpFrame::connection] *)
Definition KtpFrame_connection (t : FrameType) (payload : list byte) : KtpFrame :=
  {| frame_type := t; leg := Connection; flags := x00; session_id := 0;
     payload := payload |}.

Definition hex_digit (n : N) : string :=
  match String.get (N.to_nat n) "0123456789abcdef" with
  | Some c => String.String c EmptyString
  | None => ""
  end.

(** ktp.rs [KtpError::fmt] *)
Definition KtpError_to_string (e : KtpError) : string :=
  match e with
  | WrongMagic => "wrong KTP magic"
  | UnsupportedVersion v => "unsupported KTP version " +:+ pretty (u8 v)
  | UnknownFrameType t =>
      "unknown KTP frame type 0x" +:+ hex_digit (u8 t / 16) +:+ hex_digit (u8 t mod 16)
  | InvalidLeg l => "invalid KTP frame leg " +:+ pretty (u8 l)
  | InvalidSessionId => "invalid KTP session id"
  | TruncatedHeader => "truncated KTP header"
  | TruncatedPayload => "truncated KTP payload"
  | PayloadTooLarge size => "KTP payload too large: " +:+ pretty size +:+ " bytes"
  | ReservedNonZero v => "KTP reserved header field is non-zero: " +:+ pretty v
  end.

(** ktp.rs [validate_frame] *)
Definition validate_frame (frame : KtpFrame) : result KtpError unit :=
  if is_connection_level (frame_type frame) then
    if bool_decide (leg frame ≠ Connection)
    then Err (InvalidLeg (frame_leg_as_u8 (leg frame)))
    else if bool_decide (session_id frame ≠ 0) then Err InvalidSessionId
    else Ok tt
  else
    if bool_decide (leg frame = Connection)
    then Err (InvalidLeg (frame_leg_as_u8 (leg frame)))
    else if bool_decide (session_id frame = 0) then Err InvalidSessionId
    else Ok tt.

(** ktp.rs [append_frame_bytes] *)
Definition append_frame_bytes (frame : KtpFrame) (bytes : list byte)
    : result KtpError unit * list byte :=
  match validate_frame frame with
  | Ok _ =>
      let payload_len := len (payload frame) in
      if bool_decide (KTP_MAX_PAYLOAD_LEN < payload_len)
      then (Err (PayloadTooLarge payload_len), bytes)
      else (Ok tt,
            bytes ++ KTP_MAGIC ++ [KTP_VERSION] ++ [frame_type_as_u8 (frame_type frame)]
                  ++ [frame_leg_as_u8 (leg frame)] ++ [flags frame]
                  ++ be_bytes 8 (session_id frame) ++ be_bytes 4 payload_len
                  ++ be_bytes 4 0 ++ payload frame)
  | Err e => (Err e, bytes)
  | Panic => (Panic, bytes)
  end.

(** ktp.rs [encode_frame_into] *)
Definition encode_frame_into (frame : KtpFrame) (bytes : list byte)
    : result KtpError unit * list byte :=
  let bytes := [] in
  append_frame_bytes frame bytes.

(** ktp.rs [encode_frame] *)
Definition encode_frame (frame : KtpFrame) : result KtpError (list byte) :=
  let '(r, bytes) := encode_frame_into frame [] in
  _ ← r; Ok bytes.

(** ktp.rs [decode_frame] *)
Definition decode_frame (bytes : list byte) (max_payload_len : N)
    : result KtpError KtpFrame :=
  let effective_max_payload_len := N.min max_payload_len KTP_MAX_PAYLOAD_LEN in
  if bool_decide (len bytes < KTP_HEADER_LEN) then Err TruncatedHeader else
  magic ← slice bytes 0 4;
  if bool_decide (magic ≠ KTP_MAGIC) then Err WrongMagic else
  version ← index bytes 4;
  if bool_decide (version ≠ KTP_VERSION) then Err (UnsupportedVersion version) else
  b5 ← index bytes 5;
  frame_type ← FrameType_from_u8 b5;
  b6 ← index bytes 6;
  leg ← FrameLeg_from_u8 b6;
  flags ← index bytes 7;
  sid ← slice bytes 8 16;
  let session_id := be_value sid in
  pl ← slice bytes 16 20;
  let payload_len := be_value pl in
  rs ← slice bytes 20 24;
  let reserved := be_value rs in
  if bool_decide (reserved ≠ 0) then Err (ReservedNonZero reserved) else
  if bool_decide (effective_max_payload_len < payload_len)
  then Err (PayloadTooLarge payload_len) else
  if bool_decide (len bytes < KTP_HEADER_LEN + payload_len) then Err TruncatedPayload else
  payload ← slice bytes KTP_HEADER_LEN (KTP_HEADER_LEN + payload_len);
  let frame := {| frame_type := frame_type; leg := leg; flags := flags;
                  session_id := session_id; payload := payload |} in
  _ ← validate_frame frame;
  Ok frame.

(** ** Specification: which frames are valid, and their wire form *)

(** The Rust type invariant: a session id is a [u64]. *)
Definition frame_wf (f : KtpFrame) : Prop := session_id f ≤ U64_MAX.

(** Connection-level frames travel on the connection leg with session id 0, every
    other frame on a session leg with a non-zero session id. *)
Definition frame_valid (f : KtpFrame) : Prop :=
  if is_connection_level (frame_type f)
  then leg f = Connection ∧ session_id f = 0
  else leg f ≠ Connection ∧ session_id f ≠ 0.

Definition wire (f : KtpFrame) : list byte :=
  KTP_MAGIC ++ [KTP_VERSION] ++ [frame_type_as_u8 (frame_type f)]
    ++ [frame_leg_as_u8 (leg f)] ++ [flags f]
    ++ be_bytes 8 (session_id f) ++ be_bytes 4 (len (payload f))
    ++ be_bytes 4 0 ++ payload f.

(** ** Header fields *)

(** What [decode_frame] computes once the header has been cut into its fields *)
Definition decode_fields (max : N) (magic : list byte) (v t l fl : byte)
    (sid plen reserved : N) (rest : list byte) : result KtpError KtpFrame :=
  if bool_decide (magic ≠ KTP_MAGIC) then Err WrongMagic else
  if bool_decide (v ≠ KTP_VERSION) then Err (UnsupportedVersion v) else
  ty ← FrameType_from_u8 t;
  lg ← FrameLeg_from_u8 l;
  if bool_decide (reserved ≠ 0) then Err (ReservedNonZero reserved) else
  if bool_decide (N.min max KTP_MAX_PAYLOAD_LEN < plen) then Err (PayloadTooLarge plen) else
  if bool_decide (len rest < plen) then Err TruncatedPayload else
  let frame := mkFrame ty lg fl sid (take (N.to_nat plen) rest) in
  _ ← validate_frame frame;
  Ok frame.

Lemma decode_frame_fields max magic v t l fl sid plen rs rest :
  len magic = 4 → len sid = 8 → len plen = 4 → len rs = 4 →
  decode_frame (magic ++ [v] ++ [t] ++ [l] ++ [fl] ++ sid ++ plen ++ rs ++ rest) max
  = decode_fields max magic v t l fl (be_value sid) (be_value plen) (be_value rs) rest.
Proof.
  intros Hm Hs Hp Hr.
  explode_list magic 4%nat. explode_list sid 8%nat. explode_list plen 4%nat.
  explode_list rs 4%nat. clear. unfold decode_frame, decode_fields, KTP_HEADER_LEN.
  set (bs := _ ++ _).
  assert (len bs = 24 + len rest) as Hlen by (subst bs; len_lia).
  assert (∀ i j, i ≤ j → j ≤ 24 → slice (E:=KtpError) bs i j
      = Ok (take (N.to_nat (j - i)) (drop (N.to_nat i) bs))) as Hsl
    by (intros; apply slice_ok; lia).
  rewrite (bool_decide_false (len bs < 24)) by lia.
  rewrite (Hsl 0 4), (Hsl 8 16), (Hsl 16 20), (Hsl 20 24) by lia. clear Hsl.
  change (index bs 4) with (Ok (E:=KtpError) v).
  change (index bs 5) with (Ok (E:=KtpError) t).
  change (index bs 6) with (Ok (E:=KtpError) l).
  change (index bs 7) with (Ok (E:=KtpError) fl).
  change (take (N.to_nat (4 - 0)) (drop (N.to_nat 0) bs)) with [b; b0; b1; b2].
  change (take (N.to_nat (16 - 8)) (drop (N.to_nat 8) bs))
    with [b3; b4; b5; b6; b7; b8; b9; b10].
  change (take (N.to_nat (20 - 16)) (drop (N.to_nat 16) bs)) with [b11; b12; b13; b14].
  change (take (N.to_nat (24 - 20)) (drop (N.to_nat 20) bs)) with [b15; b16; b17; b18].
  cbv [mbind result_bind].
  destruct (FrameType_from_u8 t); [|done..]. destruct (FrameLeg_from_u8 l); [|done..].
  repeat (case_bool_decide; [done|]).
  rewrite Hlen. set (n := be_value [b11; b12; b13; b14]).
  rewrite (bool_decide_ext (24 + len rest < 24 + n) (len rest < n)) by lia.
  case_bool_decide; [done|].
  rewrite slice_ok by lia. rewrite N.add_comm, N.add_sub. done.
Qed.

Lemma header_split (bs : list byte) :
  KTP_HEADER_LEN ≤ len bs →
  ∃ magic v t l fl sid plen rs rest,
    bs = magic ++ [v] ++ [t] ++ [l] ++ [fl] ++ sid ++ plen ++ rs ++ rest
    ∧ len magic = 4 ∧ len sid = 8 ∧ len plen = 4 ∧ len rs = 4.
Proof.
  unfold KTP_HEADER_LEN. intros H.
  do 24 (destruct bs as [|? bs]; [exfalso; len_lia|]).
  eexists [_; _; _; _], _, _, _, _, [_; _; _; _; _; _; _; _], [_; _; _; _], [_; _; _; _], bs.
  done.
Qed.

(** Validation decides [frame_valid], and never panics. *)
Lemma validate_frame_ok f : validate_frame f = Ok tt ↔ frame_valid f.
Proof.
  unfold validate_frame, frame_valid.
  destruct (is_connection_level _); repeat case_bool_decide; naive_solver.
Qed.

Lemma validate_frame_no_panic f : validate_frame f ≠ Panic.
Proof. unfold validate_frame. repeat case_match; done. Qed.

Lemma FrameType_from_as t : FrameType_from_u8 (frame_type_as_u8 t) = Ok t.
Proof. by destruct t. Qed.
Lemma FrameType_as_from b t : FrameType_from_u8 b = Ok t → frame_type_as_u8 t = b.
Proof. by destruct b; intros [= <-]. Qed.
Lemma FrameType_from_u8_no_panic b : FrameType_from_u8 b ≠ Panic.
Proof. by destruct b. Qed.
Lemma FrameLeg_from_as l : FrameLeg_from_u8 (frame_leg_as_u8 l) = Ok l.
Proof. by destruct l. Qed.
Lemma FrameLeg_as_from b l : FrameLeg_from_u8 b = Ok l → frame_leg_as_u8 l = b.
Proof. by destruct b; intros [= <-]. Qed.
Lemma FrameLeg_from_u8_no_panic b : FrameLeg_from_u8 b ≠ Panic.
Proof. by destruct b. Qed.

Lemma len_wire f : len (wire f) = KTP_HEADER_LEN + len (payload f).
Proof. unfold wire, KTP_HEADER_LEN, KTP_MAGIC. len_lia. Qed.

(** ** Encoding *)
Lemma append_frame_bytes_ok f bs :
  frame_valid f → len (payload f) ≤ KTP_MAX_PAYLOAD_LEN →
  append_frame_bytes f bs = (Ok tt, bs ++ wire f).
Proof.
  intros Hv Hp. unfold append_frame_bytes.
  rewrite (proj2 (validate_frame_ok f) Hv).
  by rewrite bool_decide_false by lia.
Qed.

Lemma append_frame_bytes_inv f bs bs' :
  append_frame_bytes f bs = (Ok tt, bs') →
  frame_valid f ∧ len (payload f) ≤ KTP_MAX_PAYLOAD_LEN ∧ bs' = bs ++ wire f.
Proof.
  unfold append_frame_bytes. destruct (validate_frame f) as [[]| |] eqn:Hv; [|done..].
  case_bool_decide; [done|]. intros [= <-].
  apply validate_frame_ok in Hv. split_and!; [done|lia|done].
Qed.

(** A refused frame leaves the buffer as it was. *)
Lemma append_frame_bytes_err f bs r bs' :
  append_frame_bytes f bs = (r, bs') → r ≠ Ok tt → bs' = bs ∧ ∃ e, r = Err e.
Proof.
  unfold append_frame_bytes. pose proof (validate_frame_no_panic f).
  destruct (validate_frame f) as [[]| |]; [|naive_solver..].
  case_bool_decide; naive_solver.
Qed.

Lemma encode_frame_Ok f bs :
  encode_frame f = Ok bs ↔
  frame_valid f ∧ len (payload f) ≤ KTP_MAX_PAYLOAD_LEN ∧ bs = wire f.
Proof.
  unfold encode_frame, encode_frame_into.
  destruct (append_frame_bytes f []) as [[[]| |] b] eqn:E; cbn; split.
  - intros [= <-]. by apply append_frame_bytes_inv in E.
  - intros (Hv & Hp & ->). rewrite append_frame_bytes_ok in E by done. by injection E as <-.
  - done.
  - intros (Hv & Hp & ->). by rewrite append_frame_bytes_ok in E.
  - done.
  - intros (Hv & Hp & ->). by rewrite append_frame_bytes_ok in E.
Qed.

(** ** Decoding *)
Lemma decode_fields_no_panic max magic v t l fl sid plen rs rest :
  decode_fields max magic v t l fl sid plen rs rest ≠ Panic.
Proof.
  unfold decode_fields. do 2 (case_bool_decide; [done|]).
  pose proof (FrameType_from_u8_no_panic t). pose proof (FrameLeg_from_u8_no_panic l).
  destruct (FrameType_from_u8 t); cbn; [|done..].
  destruct (FrameLeg_from_u8 l); cbn; [|done..].
  repeat (case_bool_decide; [done|]).
  match goal with |- context [validate_frame ?f] =>
    pose proof (validate_frame_no_panic f); by destruct (validate_frame f) end.
Qed.

Lemma decode_frame_wire f max rest :
  frame_wf f → frame_valid f → len (payload f) ≤ N.min max KTP_MAX_PAYLOAD_LEN →
  decode_frame (wire f ++ rest) max = Ok f.
Proof.
  intros Hwf Hv Hp. unfold wire. rewrite <- !app_assoc.
  rewrite decode_frame_fields by done || len_lia. unfold decode_fields.
  rewrite !bool_decide_false by congruence.
  rewrite FrameType_from_as, FrameLeg_from_as. cbn [mbind result_bind].
  assert (len (payload f) ≤ U32_MAX) by (unfold KTP_MAX_PAYLOAD_LEN, U32_MAX in *; lia).
  rewrite be_value_bytes_8, !be_value_bytes_4 by done.
  rewrite (bool_decide_false (0 ≠ 0)) by (by intros []).
  rewrite !bool_decide_false by len_lia.
  rewrite take_app_length' by (unfold len; lia).
  destruct f as [ty lg fl sid p]; cbn in *.
  by rewrite (proj2 (validate_frame_ok _) Hv).
Qed.

Lemma decode_frame_Ok bs max f :
  decode_frame bs max = Ok f →
  frame_wf f ∧ frame_valid f ∧ len (payload f) ≤ N.min max KTP_MAX_PAYLOAD_LEN
  ∧ ∃ rest, bs = wire f ++ rest.
Proof.
  intros H. destruct (decide (len bs < KTP_HEADER_LEN)) as [Hs|Hs].
  { unfold decode_frame in H. by rewrite bool_decide_true in H. }
  destruct (header_split bs) as (magic & v & t & l & fl & sid & plen & rs & rest
    & -> & Hm & Hsid & Hpl & Hrs); [lia|].
  rewrite decode_frame_fields in H by done. unfold decode_fields in H.
  repeat (case_bool_decide; [done|]).
  apply bind_Ok in H as (ty & Hty & H). apply bind_Ok in H as (lg & Hlg & H).
  repeat (case_bool_decide; [done|]). cbv zeta in H.
  apply bind_Ok in H as ([] & Hv & [= <-]). apply validate_frame_ok in Hv.
  apply FrameType_as_from in Hty as <-. apply FrameLeg_as_from in Hlg as <-.
  assert (len (take (N.to_nat (be_value plen)) rest) = be_value plen) as Hl by len_lia.
  split_and!; [|done|cbn; lia|].
  - by apply be_value_8_le.
  - exists (drop (N.to_nat (be_value plen)) rest). unfold wire. cbn [payload session_id leg flags frame_type].
    assert (magic = KTP_MAGIC ∧ v = KTP_VERSION ∧ be_value rs = 0) as (-> & -> & Hz).
    { done. }
    rewrite Hl. rewrite (be_bytes_value_n 8 sid), (be_bytes_value_n 4 plen) by (unfold len in *; lia).
    rewrite <- Hz at 1. rewrite (be_bytes_value_n 4 rs) by (unfold len in *; lia).
    rewrite <- !app_assoc. by rewrite take_drop.
Qed.

(** A strict prefix of a frame's wire form is reported as truncated. *)
Lemma decode_frame_prefix f max n :
  frame_wf f → frame_valid f → len (payload f) ≤ N.min max KTP_MAX_PAYLOAD_LEN →
  n < len (wire f) →
  decode_frame (take (N.to_nat n) (wire f)) max
  = Err (if bool_decide (n < KTP_HEADER_LEN) then TruncatedHeader else TruncatedPayload).
Proof.
  intros Hwf Hv Hp Hn. case_bool_decide as Hh.
  { unfold decode_frame. by rewrite bool_decide_true by len_lia. }
  rewrite len_wire in Hn. set (k := n - KTP_HEADER_LEN).
  assert (take (N.to_nat n) (wire f)
    = KTP_MAGIC ++ [KTP_VERSION] ++ [frame_type_as_u8 (frame_type f)]
      ++ [frame_leg_as_u8 (leg f)] ++ [flags f]
      ++ be_bytes 8 (session_id f) ++ be_bytes 4 (len (payload f))
      ++ be_bytes 4 0 ++ take (N.to_nat k) (payload f)) as ->.
  { unfold wire. rewrite !app_assoc. rewrite take_app_ge.
    - f_equal. f_equal. rewrite !length_app, !length_be_bytes.
      unfold k, KTP_HEADER_LEN. cbn. lia.
    - rewrite !length_app, !length_be_bytes. unfold KTP_HEADER_LEN in Hh. cbn. lia. }
  rewrite decode_frame_fields by done || len_lia. unfold decode_fields.
  rewrite !bool_decide_false by congruence.
  rewrite FrameType_from_as, FrameLeg_from_as. cbn [mbind result_bind].
  assert (len (payload f) ≤ U32_MAX) by (unfold KTP_MAX_PAYLOAD_LEN, U32_MAX in *; lia).
  rewrite !be_value_bytes_4 by done.
  rewrite (bool_decide_false (0 ≠ 0)) by (by intros []).
  rewrite bool_decide_false by lia. by rewrite bool_decide_true by len_lia.
Qed.

Lemma decode_frame_never_panics bs max : decode_frame bs max ≠ Panic.
Proof.
  destruct (decide (len bs < KTP_HEADER_LEN)) as [Hs|Hs].
  { unfold decode_frame. by rewrite bool_decide_true. }
  destruct (header_split bs) as (magic & v & t & l & fl & sid & plen & rs & rest
    & -> & ? & ? & ? & ?); [lia|].
  rewrite decode_frame_fields by done. apply decode_fields_no_panic.
Qed.

(** ** Properties *)

(** C16: a frame that encodes decodes back to itself, whatever bytes follow it in
    the buffer, as long as its payload is within the receiver's limit. *)
Theorem decode_encode_roundtrip f bs max rest :
  frame_wf f → encode_frame f = Ok bs → len (payload f) ≤ max →
  decode_frame (bs ++ rest) max = Ok f.
Proof.
  intros Hwf (Hv & Hp & ->)%encode_frame_Ok Hm. apply decode_frame_wire; [done..|lia].
Qed.

(** C17: decoding is injective on the bytes it consumes: an accepted buffer starts
    with exactly the encoding of the frame returned, which encodes successfully and
    respects the receiver's limit. *)
Theorem encode_decode_roundtrip bs max f :
  decode_frame bs max = Ok f →
  encode_frame f = Ok (take (N.to_nat (KTP_HEADER_LEN + len (payload f))) bs)
  ∧ frame_wf f ∧ len (payload f) ≤ N.min max KTP_MAX_PAYLOAD_LEN.
Proof.
  intros (Hwf & Hv & Hp & rest & ->)%decode_frame_Ok. split_and!; [|done..].
  apply encode_frame_Ok. split_and!; [done|lia|].
  rewrite <- len_wire. by rewrite take_app_length' by (unfold len; lia).
Qed.

(** no byte string, however malformed, makes the decoder index or slice out of
    range: it returns a frame or an error. *)
Theorem decode_frame_no_panic bs max : decode_frame bs max ≠ Panic.
Proof. apply decode_frame_never_panics. Qed.

(** ** Sample frames, for the witnesses *)
Module Samples.
Definition data_frame : KtpFrame :=
  {| frame_type := SessionData; leg := Egress; flags := x00; session_id := 5; payload := [x61; x62] |}.
Definition close_frame : KtpFrame :=
  {| frame_type := SessionClose; leg := Ingress; flags := x01; session_id := 6; payload := [] |}.
(** A connection-level frame on a session leg, which does not validate *)
Definition bad_frame : KtpFrame :=
  {| frame_type := SessionData; leg := Connection; flags := x00; session_id := 5; payload := [] |}.
Definition bytes : list byte := match encode_frame data_frame with Ok bs => bs | _ => [] end.
End Samples.

Lemma decode_encode_roundtrip_witness :
  decode_frame (Samples.bytes ++ [xff]) 16 = Ok Samples.data_frame.
Proof. apply decode_encode_roundtrip; by vm_compute. Defined.

Lemma encode_decode_roundtrip_witness :
  encode_frame Samples.data_frame = Ok (take 26 (Samples.bytes ++ [xff])).
Proof.
  apply (encode_decode_roundtrip (Samples.bytes ++ [xff]) 16 Samples.data_frame). by vm_compute.
Defined.
