(* ===== verification/TunnelSession.v ===== *)
(** * Session payloads ([src/src/tunnel_session.rs])

    The payloads of [SessionOpen], [SessionAccept] and [SessionError] frames:
    big-endian integers and strings with a 16-bit length, read back with a cursor.
    The whole file is modelled; the cursor's slices are explicit. *)
From S2P Require Import Prelude RustStd.
From Stdlib Require Import Strings.Byte.
Local Open Scope N_scope.

(** tunnel_session.rs [TunnelSessionOpenPayload] *)
Record TunnelSessionOpenPayload := mkOpenPayload {
  open_rule_id : N;
  open_listen_host : string;
  open_listen_port : N;
  open_source_addr : string;
}.

(** tunnel_session.rs [TunnelSessionErrorPayload] *)
Record TunnelSessionErrorPayload := mkErrorPayload {
  err_rule_id : N;
  err_code : string;
  err_message : string;
}.

(** tunnel_session.rs [TunnelSessionPayloadError] *)
Inductive TunnelSessionPayloadError :=
  | Truncated (field : string)
  | StringTooLong (field : string)
  | InvalidUtf8 (field : string)
  | TrailingBytes (count : N).

(** tunnel_session.rs [TunnelSessionPayloadError::fmt] *)
Definition TunnelSessionPayloadError_to_string (e : TunnelSessionPayloadError) : string :=
  match e with
  | Truncated field => "truncated tunnel session payload field: " +:+ field
  | StringTooLong field => "tunnel session payload string too long: " +:+ field
  | InvalidUtf8 field => "invalid utf-8 tunnel session field: " +:+ field
  | TrailingBytes count =>
      "tunnel session payload has " +:+ pretty count +:+ " trailing bytes"
  end.

(** tunnel_session.rs [write_string] *)
Definition write_string (bytes : list byte) (field value : string)
    : result TunnelSessionPayloadError (list byte) :=
  if bool_decide (str_len value ≤ U16_MAX)
  then Ok (bytes ++ be_bytes 2 (str_len value) ++ bytes_of value)
  else Err (StringTooLong field).

(** tunnel_session.rs [encode_session_open_payload] *)
Definition encode_session_open_payload (p : TunnelSessionOpenPayload)
    : result TunnelSessionPayloadError (list byte) :=
  let bytes := [] ++ be_bytes 8 (open_rule_id p) in
  bytes ← write_string bytes "listen_host" (open_listen_host p);
  let bytes := bytes ++ be_bytes 2 (open_listen_port p) in
  bytes ← write_string bytes "source_addr" (open_source_addr p);
  Ok bytes.

(** tunnel_session.rs [encode_session_accept_payload] *)
Definition encode_session_accept_payload (rule_id : N) : list byte := be_bytes 8 rule_id.

(** tunnel_session.rs [encode_session_error_payload] *)
Definition encode_session_error_payload (p : TunnelSessionErrorPayload)
    : result TunnelSessionPayloadError (list byte) :=
  let bytes := [] ++ be_bytes 8 (err_rule_id p) in
  bytes ← write_string bytes "code" (err_code p);
  bytes ← write_string bytes "message" (err_message p);
  Ok bytes.

(** tunnel_session.rs [PayloadCursor] *)
Record PayloadCursor := mkCursor { cursor_bytes : list byte; cursor_offset : N }.

(** tunnel_session.rs [PayloadCursor::new] *)
Definition cursor_new (bytes : list byte) : PayloadCursor := mkCursor bytes 0.

(** tunnel_session.rs [PayloadCursor::read_u64] *)
Definition read_u64 (c : PayloadCursor) (field : string)
    : result TunnelSessionPayloadError (N * PayloadCursor) :=
  let end_ := cursor_offset c + 8 in
  if bool_decide (len (cursor_bytes c) < end_) then Err (Truncated field) else
  s ← slice (cursor_bytes c) (cursor_offset c) end_;
  Ok (be_value s, mkCursor (cursor_bytes c) end_).

(** tunnel_session.rs [PayloadCursor::read_u16] *)
Definition read_u16 (c : PayloadCursor) (field : string)
    : result TunnelSessionPayloadError (N * PayloadCursor) :=
  let end_ := cursor_offset c + 2 in
  if bool_decide (len (cursor_bytes c) < end_) then Err (Truncated field) else
  s ← slice (cursor_bytes c) (cursor_offset c) end_;
  Ok (be_value s, mkCursor (cursor_bytes c) end_).

(** tunnel_session.rs [PayloadCursor::read_string] *)
Definition read_string (c : PayloadCursor) (field : string)
    : result TunnelSessionPayloadError (string * PayloadCursor) :=
  '(n, c) ← read_u16 c field;
  let end_ := cursor_offset c + n in
  if bool_decide (len (cursor_bytes c) < end_) then Err (Truncated field) else
  s ← slice (cursor_bytes c) (cursor_offset c) end_;
  value ← ok_or (from_utf8 s) (InvalidUtf8 field);
  Ok (value, mkCursor (cursor_bytes c) end_).

(** tunnel_session.rs [PayloadCursor::expect_end] *)
Definition expect_end (c : PayloadCursor) : result TunnelSessionPayloadError unit :=
  let trailing := len (cursor_bytes c) - cursor_offset c in
  if bool_decide (trailing ≠ 0) then Err (TrailingBytes trailing) else Ok tt.

(** tunnel_session.rs [decode_session_open_payload] *)
Definition decode_session_open_payload (bytes : list byte)
    : result TunnelSessionPayloadError TunnelSessionOpenPayload :=
  let cursor := cursor_new bytes in
  '(rule_id, cursor) ← read_u64 cursor "rule_id";
  '(listen_host, cursor) ← read_string cursor "listen_host";
  '(listen_port, cursor) ← read_u16 cursor "listen_port";
  '(source_addr, cursor) ← read_string cursor "source_addr";
  _ ← expect_end cursor;
  Ok (mkOpenPayload rule_id listen_host listen_port source_addr).

(** tunnel_session.rs [decode_session_accept_payload] *)
Definition decode_session_accept_payload (bytes : list byte)
    : result TunnelSessionPayloadError N :=
  let cursor := cursor_new bytes in
  '(rule_id, cursor) ← read_u64 cursor "rule_id";
  _ ← expect_end cursor;
  Ok rule_id.

(** tunnel_session.rs [decode_session_error_payload] *)
Definition decode_session_error_payload (bytes : list byte)
    : result TunnelSessionPayloadError TunnelSessionErrorPayload :=
  let cursor := cursor_new bytes in
  '(rule_id, cursor) ← read_u64 cursor "rule_id";
  '(code, cursor) ← read_string cursor "code";
  '(message, cursor) ← read_string cursor "message";
  _ ← expect_end cursor;
  Ok (mkErrorPayload rule_id code message).

(** ** Type invariants of the Rust values *)
Definition open_wf (p : TunnelSessionOpenPayload) : Prop :=
  open_rule_id p ≤ U64_MAX ∧ str_wf (open_listen_host p)
  ∧ open_listen_port p ≤ U16_MAX ∧ str_wf (open_source_addr p).
Definition err_wf (p : TunnelSessionErrorPayload) : Prop :=
  err_rule_id p ≤ U64_MAX ∧ str_wf (err_code p) ∧ str_wf (err_message p).

(** ** The cursor against the bytes that remain

    [at_ c pre rest]: the cursor has read [pre] and has [rest] to go. *)
Definition at_ (c : PayloadCursor) (pre rest : list byte) : Prop :=
  cursor_bytes c = pre ++ rest ∧ cursor_offset c = len pre.

Definition field_string (s : string) : list byte := be_bytes 2 (str_len s) ++ bytes_of s.

Lemma at_new bs : at_ (cursor_new bs) [] bs.
Proof. done. Qed.

(** A fixed-width read: the cursor step that [read_u64] and [read_u16] share *)
Definition read_be (w : N) (c : PayloadCursor) (field : string)
    : result TunnelSessionPayloadError (N * PayloadCursor) :=
  let end_ := cursor_offset c + w in
  if bool_decide (len (cursor_bytes c) < end_) then Err (Truncated field) else
  s ← slice (cursor_bytes c) (cursor_offset c) end_;
  Ok (be_value s, mkCursor (cursor_bytes c) end_).

Lemma read_be_spec w c pre rest field :
  at_ c pre rest →
  (∃ x tail, len x = w ∧ rest = x ++ tail
     ∧ read_be w c field = Ok (be_value x, mkCursor (cursor_bytes c) (len pre + w))
     ∧ at_ (mkCursor (cursor_bytes c) (len pre + w)) (pre ++ x) tail)
  ∨ (len rest < w ∧ read_be w c field = Err (Truncated field)).
Proof.
  intros [Hb Ho]. unfold read_be. rewrite Hb, Ho. case_bool_decide as Hl.
  - right. split; [len_lia|done].
  - left. assert (w ≤ len rest) by len_lia.
    exists (take (N.to_nat w) rest), (drop (N.to_nat w) rest).
    assert (len (take (N.to_nat w) rest) = w) as Hw by len_lia.
    split_and!; [done|by rewrite take_drop| |].
    + rewrite <- (take_drop (N.to_nat w) rest) at 1.
      rewrite slice_app by (done || lia). done.
    + unfold at_. cbn. rewrite len_app, Hw. split; [|done].
      by rewrite <- app_assoc, take_drop.
Qed.

Lemma read_be_app w c pre x tail field :
  at_ c pre (x ++ tail) → len x = w →
  read_be w c field = Ok (be_value x, mkCursor (cursor_bytes c) (len pre + w))
  ∧ at_ (mkCursor (cursor_bytes c) (len pre + w)) (pre ++ x) tail.
Proof.
  intros Hat Hx. destruct (read_be_spec w c pre (x ++ tail) field Hat)
    as [(y & t & Hy & Heq & Hr & Hat')|[Hl _]]; [|len_lia].
  apply app_inj_1 in Heq as [<- <-]; [done|]. unfold len in *. lia.
Qed.

Lemma read_u64_app c pre x tail field :
  at_ c pre (be_bytes 8 x ++ tail) → x ≤ U64_MAX →
  ∃ c', read_u64 c field = Ok (x, c') ∧ at_ c' (pre ++ be_bytes 8 x) tail.
Proof.
  intros Hat Hx. destruct (read_be_app 8 c pre (be_bytes 8 x) tail field Hat) as [Hr Hat'];
    [len_lia|]. rewrite be_value_bytes_8 in Hr by done. eauto.
Qed.

Lemma read_u16_app c pre x tail field :
  at_ c pre (be_bytes 2 x ++ tail) → x ≤ U16_MAX →
  ∃ c', read_u16 c field = Ok (x, c') ∧ at_ c' (pre ++ be_bytes 2 x) tail.
Proof.
  intros Hat Hx. destruct (read_be_app 2 c pre (be_bytes 2 x) tail field Hat) as [Hr Hat'];
    [len_lia|]. rewrite be_value_bytes_2 in Hr by done. eauto.
Qed.

Lemma read_string_app c pre s tail field :
  at_ c pre (field_string s ++ tail) → str_wf s → str_len s ≤ U16_MAX →
  ∃ c', read_string c field = Ok (s, c') ∧ at_ c' (pre ++ field_string s) tail.
Proof.
  unfold field_string. rewrite <- app_assoc. intros Hat Hwf Hs.
  destruct (read_u16_app c pre (str_len s) _ field Hat Hs) as (c1 & Hr & [Hb Ho]).
  eexists. split.
  - unfold read_string. rewrite Hr. step_ok. rewrite Hb, Ho.
    rewrite bool_decide_false by (unfold str_len; len_lia).
    rewrite slice_app; [|done|unfold str_len; lia|lia].
    step_ok. by rewrite from_utf8_bytes.
  - unfold at_. cbn. rewrite <- !app_assoc. split; [done|].
    unfold str_len. len_lia.
Qed.

Lemma read_u64_inv c pre rest field x c' :
  at_ c pre rest → read_u64 c field = Ok (x, c') →
  ∃ tail, rest = be_bytes 8 x ++ tail ∧ at_ c' (pre ++ be_bytes 8 x) tail ∧ x ≤ U64_MAX.
Proof.
  intros Hat Hr. change (read_u64 c field) with (read_be 8 c field) in Hr.
  destruct (read_be_spec 8 c pre rest field Hat)
    as [(y & tail & Hy & -> & Hr' & Hat')|[_ Hr']]; [|by rewrite Hr' in Hr].
  rewrite Hr in Hr'. injection Hr' as -> ->. exists tail.
  rewrite be_bytes_value_n by (unfold len in Hy; lia).
  split_and!; [done|done|by apply be_value_8_le].
Qed.

Lemma read_u16_inv c pre rest field x c' :
  at_ c pre rest → read_u16 c field = Ok (x, c') →
  ∃ tail, rest = be_bytes 2 x ++ tail ∧ at_ c' (pre ++ be_bytes 2 x) tail ∧ x ≤ U16_MAX.
Proof.
  intros Hat Hr. change (read_u16 c field) with (read_be 2 c field) in Hr.
  destruct (read_be_spec 2 c pre rest field Hat)
    as [(y & tail & Hy & -> & Hr' & Hat')|[_ Hr']]; [|by rewrite Hr' in Hr].
  rewrite Hr in Hr'. injection Hr' as -> ->. exists tail.
  rewrite be_bytes_value_n by (unfold len in Hy; lia).
  split_and!; [done|done|by apply be_value_2_le].
Qed.

Lemma read_string_inv c pre rest field s c' :
  at_ c pre rest → read_string c field = Ok (s, c') →
  ∃ tail, rest = field_string s ++ tail ∧ at_ c' (pre ++ field_string s) tail
    ∧ str_wf s ∧ str_len s ≤ U16_MAX.
Proof.
  intros Hat Hr. unfold read_string in Hr.
  apply bind_Ok in Hr as ([n c1] & Hn & Hr).
  destruct (read_u16_inv _ _ _ _ _ _ Hat Hn) as (tail & -> & [Hb Ho] & Hn16).
  case_bool_decide as Hl; [done|]. rewrite Hb, Ho in Hr, Hl.
  apply bind_Ok in Hr as (x & Hsl & Hr). pose proof (slice_length _ _ _ _ Hsl) as Hx.
  rewrite slice_ok in Hsl by (rewrite ?len_app in *; lia).
  injection Hsl as Hx'. rewrite drop_app_length' in Hx' by (unfold len; lia).
  rewrite N.add_comm, N.add_sub in Hx, Hx'.
  apply bind_Ok in Hr as (v & Hv & Hr). injection Hr as <- <-.
  destruct (from_utf8 x) as [v'|] eqn:Hu; [|done]. injection Hv as ->.
  apply from_utf8_Some in Hu as [Hbs Hwf].
  assert (str_len v = n) as Hlen by (unfold str_len; rewrite Hbs; lia).
  exists (drop (N.to_nat n) tail). unfold field_string, at_. cbn.
  rewrite Hlen, Hbs, <- !app_assoc, <- Hx', take_drop, Hx'.
  split_and!; [done|done|len_lia|done|lia].
Qed.

Lemma expect_end_inv c pre rest : at_ c pre rest → expect_end c = Ok tt ↔ rest = [].
Proof.
  intros [Hb Ho]. unfold expect_end. rewrite Hb, Ho, len_app.
  rewrite (ltac:(lia) : len pre + len rest - len pre = len rest).
  split; [|by intros ->]. case_bool_decide as H; [done|]. intros _.
  by apply len_0.
Qed.

(** ** Encoders *)
Lemma write_string_Ok bs field s r :
  write_string bs field s = Ok r ↔ str_len s ≤ U16_MAX ∧ r = bs ++ field_string s.
Proof. unfold write_string. case_bool_decide; naive_solver. Qed.

Lemma encode_open_Ok p bs :
  encode_session_open_payload p = Ok bs ↔
  str_len (open_listen_host p) ≤ U16_MAX ∧ str_len (open_source_addr p) ≤ U16_MAX
  ∧ bs = be_bytes 8 (open_rule_id p) ++ field_string (open_listen_host p)
         ++ be_bytes 2 (open_listen_port p) ++ field_string (open_source_addr p).
Proof.
  unfold encode_session_open_payload. rewrite bind_Ok. setoid_rewrite bind_Ok.
  setoid_rewrite write_string_Ok. split.
  - intros (b1 & [H1 ->] & b2 & [H2 ->] & [= <-]). split_and!; [done..|].
    by rewrite <- ?app_assoc.
  - intros (H1 & H2 & ->). eexists. split; [done|]. eexists. split; [done|].
    by rewrite <- ?app_assoc.
Qed.

Lemma encode_error_Ok p bs :
  encode_session_error_payload p = Ok bs ↔
  str_len (err_code p) ≤ U16_MAX ∧ str_len (err_message p) ≤ U16_MAX
  ∧ bs = be_bytes 8 (err_rule_id p) ++ field_string (err_code p)
         ++ field_string (err_message p).
Proof.
  unfold encode_session_error_payload. rewrite bind_Ok. setoid_rewrite bind_Ok.
  setoid_rewrite write_string_Ok. split.
  - intros (b1 & [H1 ->] & b2 & [H2 ->] & [= <-]). split_and!; [done..|].
    by rewrite <- ?app_assoc.
  - intros (H1 & H2 & ->). eexists. split; [done|]. eexists. split; [done|].
    by rewrite <- ?app_assoc.
Qed.

Ltac start_cursor H :=
  match goal with |- context [cursor_new ?b] => pose proof (at_new b) as H end.

(** ** Properties *)

(** Every payload that encodes decodes back to itself: session-open, session-accept
    and session-error alike. *)
Theorem session_payload_roundtrip p q r bs_p bs_q :
  open_wf p → err_wf q → r ≤ U64_MAX →
  encode_session_open_payload p = Ok bs_p → encode_session_error_payload q = Ok bs_q →
  decode_session_open_payload bs_p = Ok p
  ∧ decode_session_error_payload bs_q = Ok q
  ∧ decode_session_accept_payload (encode_session_accept_payload r) = Ok r.
Proof.
  intros (Hp1 & Hp2 & Hp3 & Hp4) (Hq1 & Hq2 & Hq3) Hr
    (Hh & Hs & ->)%encode_open_Ok (Hc & Hm & ->)%encode_error_Ok.
  assert (∀ l, l = l ++ @nil byte) as Hnil by (intros; by rewrite app_nil_r).
  split_and!.
  - unfold decode_session_open_payload.
    start_cursor Hc0.
    destruct (read_u64_app _ _ _ _ "rule_id" Hc0 Hp1) as (c1 & -> & Hc1).
    destruct (read_string_app _ _ _ _ "listen_host" Hc1 Hp2 Hh) as (c2 & Hr2 & Hc2).
    destruct (read_u16_app _ _ _ _ "listen_port" Hc2 Hp3) as (c3 & Hr3 & Hc3).
    rewrite (Hnil (field_string (open_source_addr p))) in Hc3.
    destruct (read_string_app _ _ _ _ "source_addr" Hc3 Hp4 Hs) as (c4 & Hr4 & Hc4).
    step_ok. rewrite Hr2. step_ok. rewrite Hr3. step_ok. rewrite Hr4. step_ok.
    rewrite (proj2 (expect_end_inv _ _ _ Hc4)) by done. by destruct p.
  - unfold decode_session_error_payload.
    start_cursor Hc0.
    destruct (read_u64_app _ _ _ _ "rule_id" Hc0 Hq1) as (c1 & -> & Hc1).
    destruct (read_string_app _ _ _ _ "code" Hc1 Hq2 Hc) as (c2 & Hr2 & Hc2).
    rewrite (Hnil (field_string (err_message q))) in Hc2.
    destruct (read_string_app _ _ _ _ "message" Hc2 Hq3 Hm) as (c3 & Hr3 & Hc3).
    step_ok. rewrite Hr2. step_ok. rewrite Hr3. step_ok.
    rewrite (proj2 (expect_end_inv _ _ _ Hc3)) by done. by destruct q.
  - unfold decode_session_accept_payload, encode_session_accept_payload.
    rewrite (Hnil (be_bytes 8 r)).
    start_cursor Hc0.
    destruct (read_u64_app _ _ _ _ "rule_id" Hc0 Hr) as (c1 & -> & Hc1).
    step_ok. by rewrite (proj2 (expect_end_inv _ _ _ Hc1)).
Qed.

(** The decoders accept only canonical bytes: whatever they accept is the encoding
    of the value they return, and that value is well formed. *)
Theorem session_payload_canonical bs :
  (∀ p, decode_session_open_payload bs = Ok p →
        encode_session_open_payload p = Ok bs ∧ open_wf p)
  ∧ (∀ q, decode_session_error_payload bs = Ok q →
        encode_session_error_payload q = Ok bs ∧ err_wf q)
  ∧ (∀ r, decode_session_accept_payload bs = Ok r →
        encode_session_accept_payload r = bs ∧ r ≤ U64_MAX).
Proof.
  split_and!.
  - intros p H. unfold decode_session_open_payload in H.
    apply bind_Ok in H as ([x1 c1] & H1 & H).
    apply bind_Ok in H as ([x2 c2] & H2 & H).
    apply bind_Ok in H as ([x3 c3] & H3 & H).
    apply bind_Ok in H as ([x4 c4] & H4 & H).
    apply bind_Ok in H as ([] & H5 & [= <-]).
    destruct (read_u64_inv _ _ _ _ _ _ (at_new bs) H1) as (t1 & -> & Ha1 & ?).
    destruct (read_string_inv _ _ _ _ _ _ Ha1 H2) as (t2 & -> & Ha2 & ? & ?).
    destruct (read_u16_inv _ _ _ _ _ _ Ha2 H3) as (t3 & -> & Ha3 & ?).
    destruct (read_string_inv _ _ _ _ _ _ Ha3 H4) as (t4 & -> & Ha4 & ? & ?).
    apply (expect_end_inv _ _ _ Ha4) in H5 as ->.
    split; [|done]. apply encode_open_Ok. cbn. by rewrite app_nil_r.
  - intros q H. unfold decode_session_error_payload in H.
    apply bind_Ok in H as ([x1 c1] & H1 & H).
    apply bind_Ok in H as ([x2 c2] & H2 & H).
    apply bind_Ok in H as ([x3 c3] & H3 & H).
    apply bind_Ok in H as ([] & H4 & [= <-]).
    destruct (read_u64_inv _ _ _ _ _ _ (at_new bs) H1) as (t1 & -> & Ha1 & ?).
    destruct (read_string_inv _ _ _ _ _ _ Ha1 H2) as (t2 & -> & Ha2 & ? & ?).
    destruct (read_string_inv _ _ _ _ _ _ Ha2 H3) as (t3 & -> & Ha3 & ? & ?).
    apply (expect_end_inv _ _ _ Ha3) in H4 as ->.
    split; [|done]. apply encode_error_Ok. cbn. by rewrite app_nil_r.
  - intros r H. unfold decode_session_accept_payload in H.
    apply bind_Ok in H as ([x1 c1] & H1 & H).
    apply bind_Ok in H as ([] & H2 & [= <-]).
    destruct (read_u64_inv _ _ _ _ _ _ (at_new bs) H1) as (t1 & -> & Ha1 & ?).
    apply (expect_end_inv _ _ _ Ha1) in H2 as ->.
    split; [by rewrite app_nil_r|done].
Qed.

(** ** No payload makes the decoder panic *)
Lemma read_number_no_panic (c : PayloadCursor) k (f : list byte → N) (field : string) :
  (if bool_decide (len (cursor_bytes c) < cursor_offset c + k) then Err (Truncated field)
   else s ← slice (cursor_bytes c) (cursor_offset c) (cursor_offset c + k);
        Ok (f s, mkCursor (cursor_bytes c) (cursor_offset c + k))) ≠ Panic.
Proof.
  case_bool_decide; [done|]. unfold slice. rewrite bool_decide_true by lia. done.
Qed.

Lemma read_string_no_panic c field : read_string c field ≠ Panic.
Proof.
  unfold read_string. pose proof (read_number_no_panic c 2 be_value field) as H.
  fold (read_u16 c field) in H. destruct (read_u16 c field) as [[n c1]|e|]; [|done|done].
  step_ok. case_bool_decide; [done|]. unfold slice. rewrite bool_decide_true by lia.
  step_ok. by destruct (from_utf8 _).
Qed.

Lemma decode_session_open_no_panic bs : decode_session_open_payload bs ≠ Panic.
Proof.
  unfold decode_session_open_payload. cbn zeta.
  pose proof (read_number_no_panic (cursor_new bs) 8 be_value "rule_id") as H1.
  fold (read_u64 (cursor_new bs) "rule_id") in H1.
  destruct (read_u64 _ _) as [[x1 c1]|e|]; [step_ok|done|done].
  pose proof (read_string_no_panic c1 "listen_host") as H2.
  destruct (read_string c1 _) as [[x2 c2]|e|]; [step_ok|done|done].
  pose proof (read_number_no_panic c2 2 be_value "listen_port") as H3.
  fold (read_u16 c2 "listen_port") in H3.
  destruct (read_u16 _ _) as [[x3 c3]|e|]; [step_ok|done|done].
  pose proof (read_string_no_panic c3 "source_addr") as H4.
  destruct (read_string c3 _) as [[x4 c4]|e|]; [step_ok|done|done].
  unfold expect_end. by case_bool_decide.
Qed.

Lemma session_payload_roundtrip_witness :
  let p := mkOpenPayload 7 "0.0.0.0" 8080 "10.0.0.1:5" in
  let q := mkErrorPayload 7 "session_limit" "full" in
  ∃ bs_p bs_q, decode_session_open_payload bs_p = Ok p ∧ decode_session_error_payload bs_q = Ok q
    ∧ decode_session_accept_payload (encode_session_accept_payload 7) = Ok 7.
Proof.
  eexists _, _.
  apply (session_payload_roundtrip (mkOpenPayload 7 "0.0.0.0" 8080 "10.0.0.1:5")
           (mkErrorPayload 7 "session_limit" "full") 7);
    [split_and!; by vm_compute|split_and!; by vm_compute|by vm_compute|vm_compute; reflexivity..].
Defined.

Lemma session_payload_canonical_witness :
  encode_session_accept_payload 7 = [x00; x00; x00; x00; x00; x00; x00; x07].
Proof.
  apply (session_payload_canonical [x00; x00; x00; x00; x00; x00; x00; x07]). by vm_compute.
Defined.
