(* ===== verification/CodecBuffer.v ===== *)
(** * The receive buffer of the stream codecs ([src/src/ktp_transport.rs])

    [KtpStreamCodec] and [KtpCryptoRecordCodec] hold the same three fields, a
    [Vec<u8>], a read offset into it and a size limit, and manage them with the same
    private methods, written twice in the source.  [CodecBuffer] is that part of
    both structs.  The abstraction is [pending]: the bytes pushed and not yet
    consumed.  Compaction is invisible in it, and under [buffer_inv] no slice, drain
    or addition of the code can panic. *)
From S2P Require Import Prelude.
From Stdlib Require Import Strings.Byte.
Local Open Scope N_scope.

(** ktp_transport.rs [KTP_CODEC_COMPACT_MIN_PREFIX] *)
Definition KTP_CODEC_COMPACT_MIN_PREFIX : N := 64 * 1024.

(** ktp_transport.rs [KtpStreamCodec] (the fields that hold received bytes) *)
Record CodecBuffer := mkBuffer {
  buffer : list byte;
  read_offset : N;
  max_buffer_len : N;
}.

Section ops.
Context {E : Type}.

(** ktp_transport.rs [KtpStreamCodec::unread] *)
Definition unread (c : CodecBuffer) : result E (list byte) :=
  slice (buffer c) (read_offset c) (len (buffer c)).

(** ktp_transport.rs [KtpStreamCodec::unread_len] *)
Definition unread_len (c : CodecBuffer) : N := len (buffer c) - read_offset c.

(** ktp_transport.rs [KtpStreamCodec::compact] *)
Definition compact (c : CodecBuffer) : result E CodecBuffer :=
  if bool_decide (read_offset c = 0) then Ok c
  else if bool_decide (len (buffer c) < read_offset c) then Panic
  else Ok (mkBuffer (drop (N.to_nat (read_offset c)) (buffer c)) 0 (max_buffer_len c)).

(** ktp_transport.rs [KtpStreamCodec::compact_after_consume] *)
Definition compact_after_consume (c : CodecBuffer) : result E CodecBuffer :=
  if bool_decide (read_offset c = 0) then Ok c
  else if bool_decide (read_offset c = len (buffer c))
  then Ok (mkBuffer [] 0 (max_buffer_len c))
  else if bool_decide (KTP_CODEC_COMPACT_MIN_PREFIX ≤ read_offset c
                       ∧ len (buffer c) ≤ saturating_mul USIZE_MAX (read_offset c) 2)
  then compact c
  else Ok c.

(** ktp_transport.rs [KtpStreamCodec::consume] *)
Definition consume (c : CodecBuffer) (n : N) : result E CodecBuffer :=
  offset ← expect (checked_add USIZE_MAX (read_offset c) n);
  compact_after_consume (mkBuffer (buffer c) offset (max_buffer_len c)).

(** ktp_transport.rs [KtpStreamCodec::compact_if_needed_for_push] *)
Definition compact_if_needed_for_push (c : CodecBuffer) (incoming_len : N)
    : result E CodecBuffer :=
  if bool_decide (0 < read_offset c
                  ∧ max_buffer_len c < saturating_add USIZE_MAX (len (buffer c)) incoming_len)
  then compact c
  else Ok c.

(** ktp_transport.rs [KtpStreamCodec::push] ([limit_error] builds the codec's own
    buffer-limit error from the attempted length and the limit) *)
Definition push (limit_error : N → N → E) (c : CodecBuffer) (chunk : list byte)
    : result E CodecBuffer :=
  let attempted := saturating_add USIZE_MAX (unread_len c) (len chunk) in
  if bool_decide (max_buffer_len c < attempted)
  then Err (limit_error attempted (max_buffer_len c))
  else
    c ← compact_if_needed_for_push c (len chunk);
    Ok (mkBuffer (buffer c ++ chunk) (read_offset c) (max_buffer_len c)).
End ops.

(** ** The abstraction: the bytes received and not consumed *)
Definition pending (c : CodecBuffer) : list byte :=
  drop (N.to_nat (read_offset c)) (buffer c).

(** The offset is inside the buffer, and the buffer within its limit.  A limit of
    [usize::MAX] is excluded: no [Vec] can reach it. *)
Definition buffer_inv (c : CodecBuffer) : Prop :=
  read_offset c ≤ len (buffer c) ∧ len (buffer c) ≤ max_buffer_len c
  ∧ max_buffer_len c < USIZE_MAX.

Section lemmas.
Context {E : Type}.
Implicit Types c : CodecBuffer.

Lemma unread_pending c : buffer_inv c → unread (E:=E) c = Ok (pending c).
Proof.
  intros (Ho & _ & _). unfold unread, pending. rewrite slice_ok by lia. f_equal.
  apply take_ge. rewrite length_drop. unfold len in *. lia.
Qed.

Lemma unread_len_pending c : unread_len c = len (pending c).
Proof. unfold unread_len, pending. len_lia. Qed.

Lemma pending_le c : buffer_inv c → len (pending c) ≤ max_buffer_len c.
Proof. intros (?&?&?). unfold pending. len_lia. Qed.

(** What an operation that keeps the pending bytes returns *)
Definition same_pending (c c' : CodecBuffer) : Prop :=
  pending c' = pending c ∧ buffer_inv c' ∧ max_buffer_len c' = max_buffer_len c.

Lemma compact_spec c :
  buffer_inv c → ∃ c', compact (E:=E) c = Ok c' ∧ same_pending c c' ∧ read_offset c' = 0.
Proof.
  intros Hi. pose proof Hi as (Ho & Hl & Hm). unfold compact. case_bool_decide.
  { exists c. by split_and!. }
  rewrite bool_decide_false by lia. eexists. split; [done|].
  unfold same_pending, pending, buffer_inv; cbn. rewrite drop_0.
  split_and!; try done; len_lia.
Qed.

Lemma compact_after_consume_spec c :
  buffer_inv c → ∃ c', compact_after_consume (E:=E) c = Ok c' ∧ same_pending c c'.
Proof.
  intros Hi. pose proof Hi as (Ho & Hl & Hm). unfold compact_after_consume.
  case_bool_decide; [exists c; by split_and!|]. case_bool_decide as He.
  - eexists. split; [done|]. unfold same_pending, pending, buffer_inv; cbn.
    split_and!; try (done || len_lia).
    rewrite (drop_ge (buffer c)); [done|]. rewrite He. unfold len. lia.
  - case_bool_decide; [|exists c; by split_and!].
    destruct (compact_spec c Hi) as (c' & ? & ? & ?). by exists c'.
Qed.

Lemma consume_spec c n :
  buffer_inv c → n ≤ len (pending c) →
  ∃ c', consume (E:=E) c n = Ok c' ∧ pending c' = drop (N.to_nat n) (pending c)
        ∧ buffer_inv c' ∧ max_buffer_len c' = max_buffer_len c.
Proof.
  intros (Ho & Hl & Hm) Hn. rewrite <- unread_len_pending in Hn. unfold unread_len in Hn.
  unfold consume, checked_add. rewrite bool_decide_true by lia. cbn [expect]. step_ok.
  destruct (compact_after_consume_spec (mkBuffer (buffer c) (read_offset c + n) (max_buffer_len c)))
    as (c' & -> & Hp & ? & ?); [unfold buffer_inv; cbn; lia|].
  exists c'. split_and!; try done. rewrite Hp. unfold pending; cbn.
  rewrite drop_drop. f_equal. lia.
Qed.

(** [push] accepts exactly the chunks that keep the pending bytes within the limit. *)
Lemma push_spec (le : N → N → E) c chunk :
  buffer_inv c →
  if decide (len (pending c) + len chunk ≤ max_buffer_len c)
  then ∃ c', push le c chunk = Ok c' ∧ pending c' = pending c ++ chunk
             ∧ buffer_inv c' ∧ max_buffer_len c' = max_buffer_len c
  else ∃ attempted, push le c chunk = Err (le attempted (max_buffer_len c)).
Proof.
  intros Hi. pose proof Hi as (Ho & Hl & Hm). unfold push, saturating_add.
  rewrite unread_len_pending. case_decide as Hd.
  - rewrite bool_decide_false by lia. unfold compact_if_needed_for_push, saturating_add.
    case_bool_decide as Hc.
    + destruct (compact_spec c Hi) as (c' & -> & (Hp & (?&?&?) & Hm') & Hz). step_ok.
      eexists. split; [done|]. unfold buffer_inv, pending in *; cbn in *.
      rewrite Hz in *. rewrite !drop_0 in *. rewrite Hp, Hm'.
      split_and!; try done; try len_lia.
    + step_ok. eexists. split; [done|]. unfold buffer_inv, pending in *; cbn in *.
      rewrite drop_app_le by (unfold len in *; lia).
      split_and!; try done; len_lia.
  - rewrite bool_decide_true by lia. eauto.
Qed.
End lemmas.
