(* ===== verification/KtpStream.v ===== *)
(** * The plain KTP stream codec ([KtpStreamCodec] of [src/src/ktp_transport.rs])

    The codec collects the bytes of a stream and cuts frames off.  Its result type
    carries the next codec with [Ok]; on [Err] the source has returned before any
    field is written, so the codec is unchanged. *)
From S2P Require Import Prelude RustStd Ktp CodecBuffer Framing.
From Stdlib Require Import Strings.Byte.
Local Open Scope N_scope.

(** ktp_transport.rs [KtpStreamCodecError] *)
Inductive KtpStreamCodecError :=
  | CodecKtp (error : KtpError)
  | BufferLimit (attempted limit : N).
#[export] Instance KtpStreamCodecError_eq_dec : EqDecision KtpStreamCodecError.
Proof. solve_decision. Defined.

(** ktp_transport.rs [KtpStreamCodec] *)
Record KtpStreamCodec := mkCodec {
  codec_buffer : CodecBuffer;
  max_payload_len : N;
}.

(** ktp_transport.rs [KtpStreamCodec::new] *)
Definition stream_new (max_payload_len max_buffer_len : N) : KtpStreamCodec :=
  mkCodec (mkBuffer [] 0 max_buffer_len) (N.min max_payload_len KTP_MAX_PAYLOAD_LEN).

(** ktp_transport.rs [KtpStreamCodec::push] *)
Definition stream_push (c : KtpStreamCodec) (chunk : list byte)
    : result KtpStreamCodecError KtpStreamCodec :=
  b ← push BufferLimit (codec_buffer c) chunk;
  Ok (mkCodec b (max_payload_len c)).

(** [matches!(error, KtpError::TruncatedPayload)] on the outcome of a decode *)
Definition header_outcome {A} (r : result KtpError A) : result KtpStreamCodecError unit :=
  match r with
  | Ok _ | Err TruncatedPayload => Ok tt
  | Err error => Err (CodecKtp error)
  | Panic => Panic
  end.

(** ktp_transport.rs [KtpStreamCodec::next_frame] *)
Definition stream_next_frame (c : KtpStreamCodec)
    : result KtpStreamCodecError (option KtpFrame * KtpStreamCodec) :=
  unread ← unread (codec_buffer c);
  if bool_decide (len unread < KTP_HEADER_LEN) then Ok (None, c) else
  header ← slice unread 0 KTP_HEADER_LEN;
  _ ← header_outcome (decode_frame header (max_payload_len c));
  length_bytes ← slice unread 16 20;
  let payload_len := be_value length_bytes in
  if bool_decide (max_payload_len c < payload_len)
  then Err (CodecKtp (PayloadTooLarge payload_len)) else
  let frame_len := KTP_HEADER_LEN + payload_len in
  if bool_decide (max_buffer_len (codec_buffer c) < frame_len)
  then Err (BufferLimit frame_len (max_buffer_len (codec_buffer c))) else
  if bool_decide (len unread < frame_len) then Ok (None, c) else
  bytes ← slice unread 0 frame_len;
  frame ← map_err CodecKtp (decode_frame bytes (max_payload_len c));
  b ← consume (codec_buffer c) frame_len;
  Ok (Some frame, mkCodec b (max_payload_len c)).

(** ** Specification: one-shot decoding of the pending bytes *)

(** The length a header announces for the whole frame *)
Definition announced_len (bs : list byte) : N :=
  KTP_HEADER_LEN + be_value (take 4 (drop 16 bs)).

Record StreamLimits := mkLimits { lim_payload : N; lim_buffer : N }.

Definition spec_next (lim : StreamLimits) (bs : list byte)
    : result KtpStreamCodecError (option (KtpFrame * StreamLimits * list byte)) :=
  let over := bool_decide (lim_buffer lim < announced_len bs) in
  match decode_frame bs (lim_payload lim) with
  | Ok f =>
      if over then Err (BufferLimit (announced_len bs) (lim_buffer lim))
      else Ok (Some (f, lim, drop (N.to_nat (announced_len bs)) bs))
  | Err TruncatedHeader => Ok None
  | Err TruncatedPayload =>
      if over then Err (BufferLimit (announced_len bs) (lim_buffer lim)) else Ok None
  | Err e => Err (CodecKtp e)
  | Panic => Panic
  end.

Definition limits_of (c : KtpStreamCodec) : StreamLimits :=
  mkLimits (max_payload_len c) (max_buffer_len (codec_buffer c)).

Definition stream_inv (c : KtpStreamCodec) : Prop :=
  buffer_inv (codec_buffer c) ∧ max_payload_len c ≤ KTP_MAX_PAYLOAD_LEN.

(** ** How decoding depends on the bytes after the header *)

(** Either the header alone is refused, for the same reason whatever follows, or it
    announces an admissible length and decoding waits for that many bytes. *)
Lemma decode_after_header (max : N) (h : list byte) :
  len h = KTP_HEADER_LEN →
  (∃ e, e ≠ TruncatedPayload ∧ e ≠ TruncatedHeader ∧ ∀ r, decode_frame (h ++ r) max = Err e)
  ∨ (∃ v : list byte → result KtpError KtpFrame,
       (∀ p, v p ≠ Panic ∧ v p ≠ Err TruncatedPayload ∧ v p ≠ Err TruncatedHeader) ∧
       announced_len h - KTP_HEADER_LEN ≤ N.min max KTP_MAX_PAYLOAD_LEN ∧
       ∀ r, decode_frame (h ++ r) max
            = if bool_decide (len r < announced_len h - KTP_HEADER_LEN) then Err TruncatedPayload
              else v (take (N.to_nat (announced_len h - KTP_HEADER_LEN)) r)).
Proof.
  intros Hh. destruct (header_split h) as (magic & v & t & l & fl & sid & plen & rs & rest
    & -> & Hm & Hsid & Hpl & Hrs); [lia|].
  assert (rest = []) as -> by (unfold KTP_HEADER_LEN in Hh; apply len_0; len_lia).
  assert (announced_len (magic ++ [v] ++ [t] ++ [l] ++ [fl] ++ sid ++ plen ++ rs ++ [])
          - KTP_HEADER_LEN = be_value plen) as ->.
  { explode_list magic 4%nat. explode_list sid 8%nat. explode_list plen 4%nat.
    unfold announced_len. rewrite N.add_comm, N.add_sub. reflexivity. }
  assert (∀ r, decode_frame ((magic ++ [v] ++ [t] ++ [l] ++ [fl] ++ sid ++ plen ++ rs ++ []) ++ r) max
    = decode_fields max magic v t l fl (be_value sid) (be_value plen) (be_value rs) r) as Hd.
  { intros r. rewrite app_nil_r, <- !app_assoc. by apply decode_frame_fields. }
  clear Hh. unfold decode_fields in Hd.
  case_bool_decide; [left; eexists; split_and!; [..|done]; done|].
  case_bool_decide; [left; eexists; split_and!; [..|done]; done|].
  pose proof (FrameType_from_u8_no_panic t). pose proof (FrameLeg_from_u8_no_panic l).
  destruct (FrameType_from_u8 t) as [ty|e|] eqn:Ht; cbn in Hd; [| |done].
  2:{ left. exists e. split_and!; [..|done]; destruct t; by simplify_eq/=. }
  destruct (FrameLeg_from_u8 l) as [lg|e|] eqn:Hl; cbn in Hd; [| |done].
  2:{ left. exists e. split_and!; [..|done]; destruct l; by simplify_eq/=. }
  case_bool_decide; [left; eexists; split_and!; [..|done]; done|].
  case_bool_decide; [left; eexists; split_and!; [..|done]; done|].
  right. eexists (fun p => _ ← validate_frame (mkFrame ty lg fl (be_value sid) p);
                           Ok (mkFrame ty lg fl (be_value sid) p)).
  split_and!; [|lia|].
  - intros p. unfold validate_frame. repeat case_match; done.
  - intros r. rewrite Hd. done.
Qed.

Lemma announced_len_app h r :
  len h = KTP_HEADER_LEN → announced_len (h ++ r) = announced_len h.
Proof.
  unfold KTP_HEADER_LEN. intros H. explode_list h 24%nat. reflexivity.
Qed.

Lemma announced_len_ge bs : KTP_HEADER_LEN ≤ announced_len bs.
Proof. unfold announced_len. lia. Qed.

Lemma split_header (bs : list byte) :
  KTP_HEADER_LEN ≤ len bs → ∃ h r, bs = h ++ r ∧ len h = KTP_HEADER_LEN.
Proof.
  intros H. exists (take (N.to_nat KTP_HEADER_LEN) bs), (drop (N.to_nat KTP_HEADER_LEN) bs).
  rewrite take_drop. split; [done|]. len_lia.
Qed.

Lemma decode_frame_short bs max :
  len bs < KTP_HEADER_LEN → decode_frame bs max = Err TruncatedHeader.
Proof. intros H. unfold decode_frame. by rewrite bool_decide_true. Qed.

(** ** The specification is a parser of self-delimiting items *)
Lemma spec_next_inv lim bs x l' r :
  spec_next lim bs = Ok (Some (x, l', r)) →
  decode_frame bs (lim_payload lim) = Ok x ∧ l' = lim
  ∧ announced_len bs ≤ lim_buffer lim ∧ r = drop (N.to_nat (announced_len bs)) bs.
Proof.
  unfold spec_next. destruct (decode_frame _ _) as [f|[]|]; try done;
    case_bool_decide; try done. intros [= <- <- <-]. split_and!; [done..|lia|done].
Qed.

Lemma decode_announced bs max f :
  decode_frame bs max = Ok f → announced_len bs = len (wire f).
Proof.
  intros (Hwf & Hv & Hp & r & ->)%decode_frame_Ok. rewrite len_wire. unfold announced_len. f_equal.
  unfold wire, KTP_MAGIC. unfold KTP_MAX_PAYLOAD_LEN in Hp.
  assert (∃ a b c d e g h i, be_bytes 8 (session_id f) = [a; b; c; d; e; g; h; i])
    as (?&?&?&?&?&?&?&?&->) by (unfold be_bytes; eauto 10).
  cbn [app drop]. rewrite <- !app_assoc, drop_0.
  rewrite take_app_length' by (by rewrite length_be_bytes).
  apply be_value_bytes_4. unfold U32_MAX. lia.
Qed.

Lemma spec_next_wire lim f k :
  frame_wf f → frame_valid f → len (payload f) ≤ N.min (lim_payload lim) KTP_MAX_PAYLOAD_LEN →
  len (wire f) ≤ lim_buffer lim →
  spec_next lim (wire f ++ k) = Ok (Some (f, lim, k)).
Proof.
  intros ? ? ? Hb. unfold spec_next.
  pose proof (decode_frame_wire f (lim_payload lim) k) as Hd. rewrite Hd by done.
  rewrite (decode_announced _ _ _ (Hd ltac:(done) ltac:(done) ltac:(done))).
  rewrite bool_decide_false by lia. rewrite drop_app_length' by (unfold len; lia). done.
Qed.

Lemma wire_nonempty f : wire f ≠ [].
Proof. done. Qed.

#[export] Program Instance stream_parser
    : FrameParser StreamLimits KtpFrame KtpStreamCodecError := {| fp_next := spec_next |}.
Next Obligation. done. Qed.
Next Obligation.
  intros s bs x s' r H. pose proof (spec_next_inv _ _ _ _ _ H) as (Hd & -> & Hl & ->).
  pose proof (decode_announced _ _ _ Hd) as Ha.
  apply decode_frame_Ok in Hd as (Hwf & Hv & Hp & r & ->). exists (wire x).
  split_and!.
  - rewrite Ha, drop_app_length' by (unfold len; lia). done.
  - apply wire_nonempty.
  - intros k. apply spec_next_wire; [done..|lia].
Qed.
Next Obligation.
  intros s bs k o H. destruct (decide (len bs < KTP_HEADER_LEN)) as [Hs|Hs].
  { exists None. unfold spec_next. by rewrite decode_frame_short. }
  destruct (split_header bs) as (h & r & -> & Hh); [lia|].
  unfold spec_next in *. rewrite <- app_assoc in H. rewrite !announced_len_app in * by done.
  destruct (decode_after_header (lim_payload s) h Hh) as [(e & ? & ? & He)|(v & Hv & Hm & Hr)].
  { rewrite He in *. by destruct e. }
  rewrite Hr in *. set (n := announced_len h - KTP_HEADER_LEN) in *.
  assert (bool_decide (lim_buffer s < announced_len h) = false) as Ho.
  { apply not_true_is_false. intros Ho. rewrite Ho in H.
    destruct (bool_decide (len (r ++ k) < n)); [done|].
    specialize (Hv (take (N.to_nat n) (r ++ k))). destruct (v _) as [|[]|]; try done; naive_solver. }
  rewrite Ho in *. clear Ho. destruct (decide (len r < n)) as [Hs'|Hs'].
  { rewrite bool_decide_true by done. eauto. }
  rewrite !bool_decide_false in * by len_lia.
  rewrite take_app_le in H by (unfold len in *; lia).
  destruct (v _) as [|[]|]; eauto; done.
Qed.

(** ** The codec refines the specification *)

(** On the bytes pending in a well-formed codec, [next_frame] is one-shot decoding. *)
Lemma stream_next_frame_eq c :
  stream_inv c →
  stream_next_frame c
  = o ← spec_next (limits_of c) (pending (codec_buffer c));
    match o with
    | None => Ok (None, c)
    | Some (f, _, _) =>
        b ← consume (codec_buffer c) (announced_len (pending (codec_buffer c)));
        Ok (Some f, mkCodec b (max_payload_len c))
    end.
Proof.
  intros [Hi Hp]. pose proof (pending_le _ Hi) as Hple.
  unfold stream_next_frame, spec_next, limits_of; cbn [lim_payload lim_buffer].
  rewrite unread_pending by done. step_ok. set (bs := pending (codec_buffer c)) in *.
  set (mb := max_buffer_len (codec_buffer c)) in *.
  destruct (decide (len bs < KTP_HEADER_LEN)) as [Hs|Hs].
  { rewrite bool_decide_true by done. by rewrite decode_frame_short. }
  rewrite (bool_decide_false (len bs < _)) by done.
  destruct (split_header bs) as (h & r & Hbs & Hh); [lia|]. rewrite Hbs in *.
  rewrite (slice_ok (h ++ r) 0 KTP_HEADER_LEN) by len_lia.
  replace (take _ (drop _ _)) with h; cycle 1.
  { change (drop (N.to_nat 0) (h ++ r)) with (h ++ r).
    rewrite take_app_length'; [done|]. unfold len in Hh. lia. }
  step_ok. rewrite announced_len_app in * by done.
  destruct (decode_after_header (max_payload_len c) h Hh) as [(e & ? & ? & He)|(v & Hv & Hm & Hr)].
  { rewrite He. pose proof (He []) as He'. rewrite app_nil_r in He'. rewrite He'.
    by destruct e. }
  pose proof (Hr []) as Hr0. rewrite app_nil_r in Hr0. rewrite Hr, Hr0. clear Hr0.
  assert (slice (E:=KtpStreamCodecError) (h ++ r) 16 20 = Ok (take 4 (drop 16 h))) as ->.
  { unfold KTP_HEADER_LEN in Hh. rewrite slice_ok by len_lia.
    clear -Hh. explode_list h 24%nat. reflexivity. }
  assert (announced_len h = KTP_HEADER_LEN + be_value (take 4 (drop 16 h))) as Ha by done.
  set (n := be_value (take 4 (drop 16 h))) in *. rewrite Ha in *.
  replace (KTP_HEADER_LEN + n - KTP_HEADER_LEN) with n in * by lia.
  change (len (@nil byte)) with 0.
  destruct (header_outcome _) as [[]|e|] eqn:Hho; step_ok.
  - fold n. rewrite (bool_decide_false (_ < n)) by lia.
    rewrite (bool_decide_ext (len (h ++ r) < KTP_HEADER_LEN + n) (len r < n))
      by (rewrite len_app; lia).
    destruct (decide (len r < n)) as [Hl|Hl].
    { rewrite (bool_decide_true (len r < n)) by done. by destruct (bool_decide (mb < _)). }
    rewrite (bool_decide_false (len r < n)) by done.
    specialize (Hv (take (N.to_nat n) r)).
    assert (slice (E:=KtpStreamCodecError) (h ++ r) 0 (KTP_HEADER_LEN + n)
            = Ok (h ++ take (N.to_nat n) r)) as ->.
    { rewrite slice_ok by len_lia. change (drop (N.to_nat 0) (h ++ r)) with (h ++ r).
      rewrite take_app_ge by (unfold len in *; lia). do 3 f_equal. unfold len in *; lia. }
    step_ok. rewrite Hr, (bool_decide_false (len (take _ _) < n)), take_idemp by len_lia.
    rewrite (bool_decide_false (mb < _)) by len_lia.
    destruct (v (take (N.to_nat n) r)) as [f|[]|]; try done; naive_solver.
  - unfold header_outcome in Hho. revert Hho. case_bool_decide as Hn; [done|].
    replace n with 0 by lia. change (take (N.to_nat 0) r) with (@nil byte).
    change (take (N.to_nat 0) []) with (@nil byte).
    rewrite bool_decide_false by lia. specialize (Hv []).
    destruct (v []) as [|[]|]; naive_solver.
  - unfold header_outcome in Hho. revert Hho. case_bool_decide; [done|].
    match goal with |- context [v ?p] => specialize (Hv p); destruct (v p) as [|[]|] end; naive_solver.
Qed.

Lemma stream_next_some c f lim r :
  stream_inv c → spec_next (limits_of c) (pending (codec_buffer c)) = Ok (Some (f, lim, r)) →
  ∃ c', stream_next_frame c = Ok (Some f, c') ∧ pending (codec_buffer c') = r
        ∧ stream_inv c' ∧ limits_of c' = limits_of c.
Proof.
  intros Hi Hs. rewrite stream_next_frame_eq, Hs by done. step_ok.
  apply spec_next_inv in Hs as (Hd & _ & _ & ->). destruct Hi as [Hi Hp].
  pose proof (decode_announced _ _ _ Hd) as Ha.
  destruct (consume_spec (E:=KtpStreamCodecError) (codec_buffer c)
              (announced_len (pending (codec_buffer c)))) as (b & -> & Hpb & Hib & Hmb); [done| |].
  { rewrite Ha. apply decode_frame_Ok in Hd as (_ & _ & _ & k & ->). len_lia. }
  step_ok. eexists. do 2 (split; [done|]). split; [by split|]. unfold limits_of; cbn. by rewrite Hmb.
Qed.

#[export] Program Instance stream_codec
    : StreamCodec KtpStreamCodec StreamLimits KtpFrame KtpStreamCodecError := {|
  cd_push := stream_push;
  cd_next := stream_next_frame;
  cd_limit c := max_buffer_len (codec_buffer c);
  cd_abs c s p := stream_inv c ∧ limits_of c = s ∧ pending (codec_buffer c) = p;
|}.
Next Obligation.
  intros c s p chunk ([Hi Hm] & <- & <-) Hroom. unfold stream_push.
  pose proof (push_spec BufferLimit (codec_buffer c) chunk Hi) as Hps. rewrite decide_True in Hps by done.
  destruct Hps as (b & -> & Hp & Hib & Hmb). step_ok. eexists. split_and!; [done..| |done|done].
  unfold limits_of; cbn. by rewrite Hmb.
Qed.
Next Obligation.
  intros c s p (Hi & <- & <-) H. rewrite stream_next_frame_eq by done. cbn in H. by rewrite H.
Qed.
Next Obligation.
  intros c s p x s' r (Hi & <- & <-) H.
  destruct (stream_next_some _ _ _ _ Hi H) as (c' & ? & ? & ? & Hl).
  apply spec_next_inv in H as (_ & -> & _).
  exists c'. split_and!; try done. by injection Hl.
Qed.

Lemma stream_new_inv mp mb :
  mb < USIZE_MAX → stream_inv (stream_new mp mb) ∧ pending (codec_buffer (stream_new mp mb)) = [].
Proof.
  intros Hm. unfold stream_inv, buffer_inv, stream_new; cbn.
  change (len (@nil byte)) with 0. split_and!; done || lia.
Qed.

(** The frames a codec with limits [mp] and [mb] can carry *)
Definition frame_fits (mp mb : N) (f : KtpFrame) : Prop :=
  frame_wf f ∧ frame_valid f ∧ len (payload f) ≤ N.min mp KTP_MAX_PAYLOAD_LEN
  ∧ len (wire f) ≤ mb.

Lemma pieces_wire lim fs :
  Forall (frame_fits (lim_payload lim) (lim_buffer lim)) fs →
  pieces lim (wire <$> fs) fs lim.
Proof.
  induction 1 as [|f fs (?&?&?&?) Hfs IH]; [constructor|].
  rewrite fmap_cons. econstructor; [apply wire_nonempty|intros k; by apply spec_next_wire|done].
Qed.

(** ** Arbitrary use of a codec: any calls, in any order, whatever they return *)
Inductive stream_op := OpPush (chunk : list byte) | OpNext.

(** [None] is a panic; an error leaves the codec as it was. *)
Definition stream_apply (c : KtpStreamCodec) (op : stream_op) : option KtpStreamCodec :=
  match op with
  | OpPush chunk =>
      match stream_push c chunk with Ok c' => Some c' | Err _ => Some c | Panic => None end
  | OpNext =>
      match stream_next_frame c with Ok (_, c') => Some c' | Err _ => Some c | Panic => None end
  end.

Fixpoint stream_run (c : KtpStreamCodec) (ops : list stream_op) : option KtpStreamCodec :=
  match ops with [] => Some c | op :: ops => c' ← stream_apply c op; stream_run c' ops end.

Lemma spec_next_no_panic lim bs : spec_next lim bs ≠ Panic.
Proof.
  unfold spec_next. pose proof (decode_frame_never_panics bs (lim_payload lim)).
  destruct (decode_frame _ _) as [|[]|]; repeat case_bool_decide; done.
Qed.

Lemma stream_apply_inv c op :
  stream_inv c → ∃ c', stream_apply c op = Some c' ∧ stream_inv c' ∧ limits_of c' = limits_of c.
Proof.
  intros Hi. destruct op as [chunk|]; cbn [stream_apply].
  - pose proof (push_spec BufferLimit (codec_buffer c) chunk (proj1 Hi)) as Hps.
    unfold stream_push. case_decide.
    + destruct Hps as (b & -> & Hp & Hib & Hmb). step_ok. eexists. split; [done|].
      split; [by split; [|apply Hi]|]. unfold limits_of; cbn. by rewrite Hmb.
    + destruct Hps as (a & ->). step_ok. eauto.
  - pose proof (spec_next_no_panic (limits_of c) (pending (codec_buffer c))).
    destruct (spec_next (limits_of c) (pending (codec_buffer c))) as [[[[f l] r]|]|e|] eqn:Hs; [| | |done].
    + destruct (stream_next_some c f l r) as (c' & -> & ? & ? & ?); eauto.
    + rewrite stream_next_frame_eq, Hs by done. step_ok. eauto.
    + rewrite stream_next_frame_eq, Hs by done. step_ok. eauto.
Qed.

(** ** Properties *)

(** However the wire form of a sequence of valid frames is split into reads, the
    stream codec returns exactly those frames, in order, and ends empty, provided
    the buffer limit leaves room for one frame and one read. *)
Theorem stream_codec_chunking mp mb fs chunks :
  mb < USIZE_MAX →
  Forall (frame_fits mp mb) fs →
  concat chunks = concat (wire <$> fs) →
  (∀ f ch, f ∈ fs → ch ∈ chunks → len (wire f) + len ch ≤ mb + 1) →
  ∃ c', receive (S (length fs)) (stream_new mp mb) chunks = Ok (fs, c')
        ∧ pending (codec_buffer c') = [].
Proof.
  intros Hmb Hfs Hc Hroom. destruct (stream_new_inv mp mb Hmb) as [Hi Hp].
  edestruct (receive_pieces (S (length fs)) (limits_of (stream_new mp mb)) (wire <$> fs) fs)
    as (c' & Hr & _ & _ & Hpc); [..|by exists c'].
  - apply pieces_wire. eapply Forall_impl; [done|]. intros f (?&?&?&?).
    unfold frame_fits; cbn. split_and!; try done. lia.
  - by split_and!.
  - done.
  - lia.
  - intros h ch (f & -> & Hf)%list_elem_of_fmap Hch. cbn. by apply Hroom.
Qed.

(** no sequence of pushes and [next_frame] calls, whatever bytes they carry and
    whether they fail or not, makes the codec panic or hold more than its limit. *)
Theorem stream_codec_safe mp mb ops :
  mb < USIZE_MAX →
  ∃ c, stream_run (stream_new mp mb) ops = Some c
       ∧ read_offset (codec_buffer c) ≤ len (buffer (codec_buffer c))
       ∧ len (buffer (codec_buffer c)) ≤ mb.
Proof.
  intros Hmb. destruct (stream_new_inv mp mb Hmb) as [Hi _].
  assert (∀ c, stream_inv c → ∃ c', stream_run c ops = Some c' ∧ stream_inv c'
    ∧ limits_of c' = limits_of c) as Hrun.
  { clear. induction ops as [|op ops IH]; intros c Hi; [by exists c|]. cbn.
    destruct (stream_apply_inv c op Hi) as (c1 & -> & Hi1 & Hl1). cbn.
    destruct (IH c1 Hi1) as (c2 & -> & Hi2 & Hl2). exists c2. split_and!; [done..|congruence]. }
  destruct (Hrun _ Hi) as (c & -> & [(Ho & Hb & _) _] & Hl). exists c.
  apply (f_equal lim_buffer) in Hl. cbn in Hl. rewrite Hl in Hb. done.
Qed.

Lemma stream_codec_chunking_witness :
  ∃ c', receive 3 (stream_new 64 128)
          [take 10 (concat (wire <$> [Samples.data_frame; Samples.close_frame]));
           drop 10 (concat (wire <$> [Samples.data_frame; Samples.close_frame]))]
        = Ok ([Samples.data_frame; Samples.close_frame], c')
        ∧ pending (codec_buffer c') = [].
Proof.
  apply (stream_codec_chunking 64 128 [Samples.data_frame; Samples.close_frame]).
  - by vm_compute.
  - repeat constructor; by vm_compute.
  - cbn [concat]. by rewrite app_nil_r, take_drop.
  - intros f ch Hf Hch. list_cases; by vm_compute.
Defined.

Lemma stream_codec_safe_witness :
  ∃ c, stream_run (stream_new 64 8) [] = Some c
       ∧ read_offset (codec_buffer c) ≤ len (buffer (codec_buffer c))
       ∧ len (buffer (codec_buffer c)) ≤ 8.
Proof. apply stream_codec_safe. by vm_compute. Defined.
