(* ===== verification/KtpCrypto.v ===== *)
(** * Sealed KTP records ([src/src/ktp_transport.rs], the crypto layer)

    A record is a 24-byte header (magic, version, direction, sequence number,
    ciphertext length, reserved) and the AEAD encryption of one KTP frame, with the
    header as associated data.  The cipher is the [chacha20poly1305] crate; it is the
    class [Aead], whose laws are what the crate documents.  [KtpCryptoSeal] and
    [KtpCryptoOpen] are modelled whole.  Rust appends to a [&mut Vec<u8>]; the model
    returns the new sender and the new contents next to the result, since a failed
    call can change the contents. *)
From S2P Require Import Prelude RustStd Ktp.
From Stdlib Require Import Strings.Byte.
Local Open Scope N_scope.

(** The interface of the AEAD cipher: detached in-place encryption (ciphertext and
    tag) and decryption of ciphertext and tag together, for a key, a nonce and
    associated data. *)
Class Aead := {
  aead_encrypt : list byte → list byte → list byte → list byte
                 → option (list byte * list byte);
  aead_decrypt : list byte → list byte → list byte → list byte → option (list byte);
  aead_max : N;
}.

(** What the crate documents: encryption keeps the length, has a 16-byte tag, succeeds
    up to a plaintext bound far above any frame, and decryption inverts it. *)
Class AeadLaws (A : Aead) : Prop := {
  aead_len k n a p c t :
    aead_encrypt k n a p = Some (c, t) → len c = len p ∧ len t = 16;
  aead_total k n a p : len p ≤ aead_max → is_Some (aead_encrypt k n a p);
  aead_inverse k n a p c t :
    aead_encrypt k n a p = Some (c, t) → aead_decrypt k n a (c ++ t) = Some p;
  aead_max_ok : KTP_HEADER_LEN + KTP_MAX_PAYLOAD_LEN ≤ aead_max;
}.

(** ktp_transport.rs [KTP_CRYPTO_MAGIC] *)
Definition KTP_CRYPTO_MAGIC : list byte := [x4b; x54; x45; x31].
(** ktp_transport.rs [KTP_CRYPTO_VERSION] *)
Definition KTP_CRYPTO_VERSION : byte := x01.
(** ktp_transport.rs [KTP_CRYPTO_HEADER_LEN] *)
Definition KTP_CRYPTO_HEADER_LEN : N := 24.

(** ktp_transport.rs [KtpCryptoDirection] *)
Inductive KtpCryptoDirection := ClientToRelay | RelayToClient.
#[export] Instance KtpCryptoDirection_eq_dec : EqDecision KtpCryptoDirection.
Proof. solve_decision. Defined.

(** ktp_transport.rs [KtpCryptoDirection::id] *)
Definition direction_id (d : KtpCryptoDirection) : byte :=
  match d with ClientToRelay => x01 | RelayToClient => x02 end.

(** ktp_transport.rs [KtpCryptoKey] (32 bytes) *)
Definition KtpCryptoKey := list byte.

(** ktp_transport.rs [KtpCryptoError] *)
Record KtpCryptoError := mkCryptoError { code : string; message : string }.
#[export] Instance KtpCryptoError_eq_dec : EqDecision KtpCryptoError.
Proof. solve_decision. Defined.

(** ktp_transport.rs [KtpCryptoError::auth_failed] *)
Definition auth_failed : KtpCryptoError :=
  mkCryptoError "auth_failed" "KTP crypto record authentication failed".
(** ktp_transport.rs [KtpCryptoError::malformed_record] *)
Definition malformed_record (message : string) : KtpCryptoError :=
  mkCryptoError "malformed_record" message.
(** ktp_transport.rs [KtpCryptoError::buffer_limit] *)
Definition buffer_limit (attempted limit : N) : KtpCryptoError :=
  mkCryptoError "buffer_limit"
    ("KTP crypto buffer limit exceeded: attempted " +:+ pretty attempted
     +:+ ", limit " +:+ pretty limit).
(** ktp_transport.rs [KtpCryptoError::ktp] *)
Definition ktp_error (error : KtpError) : KtpCryptoError :=
  mkCryptoError "ktp_error" (KtpError_to_string error).
(** ktp_transport.rs [KtpCryptoError::sequence_exhausted] *)
Definition sequence_exhausted : KtpCryptoError :=
  mkCryptoError "sequence_exhausted" "KTP crypto sequence exhausted before nonce reuse".
(** ktp_transport.rs [KtpCryptoError::sequence_mismatch] *)
Definition sequence_mismatch (expected actual : N) : KtpCryptoError :=
  mkCryptoError "sequence_mismatch"
    ("expected crypto sequence " +:+ pretty expected +:+ ", got " +:+ pretty actual).

(** ktp_transport.rs [KtpCryptoError::fmt] *)
Definition KtpCryptoError_to_string (e : KtpCryptoError) : string :=
  code e +:+ ": " +:+ message e.

(** ktp_transport.rs [crypto_header_bytes] *)
Definition crypto_header_bytes (direction : KtpCryptoDirection) (sequence ciphertext_len : N)
    : list byte :=
  KTP_CRYPTO_MAGIC ++ [KTP_CRYPTO_VERSION] ++ [direction_id direction]
    ++ be_bytes 8 sequence ++ be_bytes 4 (ciphertext_len mod 2 ^ 32)
    ++ replicate 6 x00.

(** ktp_transport.rs [CryptoHeader] *)
Record CryptoHeader := mkCryptoHeader { sequence : N; ciphertext_len : N }.

(** ktp_transport.rs [parse_crypto_header] *)
Definition parse_crypto_header (record : list byte) (expected_direction : KtpCryptoDirection)
    : result KtpCryptoError CryptoHeader :=
  if bool_decide (len record < KTP_CRYPTO_HEADER_LEN)
  then Err (malformed_record "truncated crypto header") else
  magic ← slice record 0 4;
  if bool_decide (magic ≠ KTP_CRYPTO_MAGIC)
  then Err (malformed_record "wrong crypto magic") else
  version ← index record 4;
  if bool_decide (version ≠ KTP_CRYPTO_VERSION)
  then Err (malformed_record "unsupported crypto version") else
  direction ← index record 5;
  if bool_decide (direction ≠ direction_id expected_direction)
  then Err (malformed_record "wrong crypto direction") else
  reserved ← slice record 18 24;
  if existsb (fun value => bool_decide (value ≠ x00)) reserved
  then Err (malformed_record "non-zero crypto reserved bytes") else
  sequence_bytes ← slice record 6 14;
  length_bytes ← slice record 14 18;
  Ok (mkCryptoHeader (be_value sequence_bytes) (be_value length_bytes)).

(** ktp_transport.rs [nonce] *)
Definition nonce (direction : KtpCryptoDirection) (sequence : N) : list byte :=
  [direction_id direction] ++ replicate 3 x00 ++ be_bytes 8 sequence.

(** ktp_transport.rs [KtpCryptoSeal] (the cipher is its key) *)
Record KtpCryptoSeal := mkSeal {
  seal_key : KtpCryptoKey;
  seal_direction : KtpCryptoDirection;
  seal_sequence : N;
}.

(** ktp_transport.rs [KtpCryptoSeal::new] *)
Definition seal_new (key : KtpCryptoKey) (direction : KtpCryptoDirection) : KtpCryptoSeal :=
  mkSeal key direction 0.

(** ktp_transport.rs [KtpCryptoOpen] (the cipher is its key) *)
Record KtpCryptoOpen := mkOpen {
  open_key : KtpCryptoKey;
  open_direction : KtpCryptoDirection;
  open_max_payload_len : N;
  open_next_sequence : N;
}.

(** ktp_transport.rs [KtpCryptoOpen::new] *)
Definition open_new (key : KtpCryptoKey) (direction : KtpCryptoDirection)
    (max_payload_len : N) : KtpCryptoOpen :=
  mkOpen key direction (N.min max_payload_len KTP_MAX_PAYLOAD_LEN) 0.

Section crypto.
Context `{A : Aead}.

(** ktp_transport.rs [KtpCryptoSeal::append_sealed_frame] *)
Definition append_sealed_frame (self : KtpCryptoSeal) (frame : KtpFrame) (record : list byte)
    : result KtpCryptoError unit * KtpCryptoSeal * list byte :=
  let sequence := seal_sequence self in
  if bool_decide (sequence = U64_MAX) then (Err sequence_exhausted, self, record) else
  let record_start := len record in
  let payload_start := record_start + KTP_CRYPTO_HEADER_LEN in
  let record := record ++ replicate (N.to_nat KTP_CRYPTO_HEADER_LEN) x00 in
  let '(appended, record) := append_frame_bytes frame record in
  match map_err ktp_error appended with
  | Err e => (Err e, self, record)
  | Panic => (Panic, self, record)
  | Ok _ =>
      let ciphertext_len := len record - payload_start + 16 in
      let header := crypto_header_bytes (seal_direction self) sequence ciphertext_len in
      let plain := drop (N.to_nat payload_start) record in
      let record := take (N.to_nat record_start) record ++ header ++ plain in
      match aead_encrypt (seal_key self) (nonce (seal_direction self) sequence) header plain with
      | None => (Err auth_failed, self, record)
      | Some (cipher, tag) =>
          (Ok tt,
           mkSeal (seal_key self) (seal_direction self) (wrapping_add U64_MAX sequence 1),
           take (N.to_nat payload_start) record ++ cipher ++ tag)
      end
  end.

(** ktp_transport.rs [KtpCryptoSeal::seal_frame_into] *)
Definition seal_frame_into (self : KtpCryptoSeal) (frame : KtpFrame) (record : list byte)
    : result KtpCryptoError unit * KtpCryptoSeal * list byte :=
  let record := [] in
  append_sealed_frame self frame record.

(** ktp_transport.rs [KtpCryptoSeal::seal_frame] *)
Definition seal_frame (self : KtpCryptoSeal) (frame : KtpFrame)
    : result KtpCryptoError (list byte) * KtpCryptoSeal :=
  let '(r, self, record) := seal_frame_into self frame [] in
  (_ ← r; Ok record, self).

(** ktp_transport.rs [KtpCryptoOpen::open_record] (an [Err] leaves the opener as it was) *)
Definition open_record (self : KtpCryptoOpen) (record : list byte)
    : result KtpCryptoError (KtpFrame * KtpCryptoOpen) :=
  if bool_decide (open_next_sequence self = U64_MAX) then Err sequence_exhausted else
  header ← parse_crypto_header record (open_direction self);
  if bool_decide (sequence header ≠ open_next_sequence self)
  then Err (sequence_mismatch (open_next_sequence self) (sequence header)) else
  let frame_len := KTP_CRYPTO_HEADER_LEN + ciphertext_len header in
  if bool_decide (len record < frame_len)
  then Err (malformed_record "truncated crypto record") else
  aad ← slice record 0 KTP_CRYPTO_HEADER_LEN;
  ciphertext ← slice record KTP_CRYPTO_HEADER_LEN frame_len;
  plaintext ← ok_or (aead_decrypt (open_key self)
                       (nonce (open_direction self) (sequence header)) aad ciphertext)
                    auth_failed;
  frame ← map_err ktp_error (decode_frame plaintext (open_max_payload_len self));
  Ok (frame, mkOpen (open_key self) (open_direction self) (open_max_payload_len self)
                    (wrapping_add U64_MAX (open_next_sequence self) 1)).
End crypto.

#[global] Arguments nonce : simpl never.
#[global] Arguments crypto_header_bytes : simpl never.

(** ** Record headers *)

(** What [parse_crypto_header] computes once the header has been cut into its fields *)
Definition crypto_fields (dir : KtpCryptoDirection) (magic : list byte) (v d : byte)
    (seq ln : N) (rs : list byte) : result KtpCryptoError CryptoHeader :=
  if bool_decide (magic ≠ KTP_CRYPTO_MAGIC) then Err (malformed_record "wrong crypto magic") else
  if bool_decide (v ≠ KTP_CRYPTO_VERSION)
  then Err (malformed_record "unsupported crypto version") else
  if bool_decide (d ≠ direction_id dir) then Err (malformed_record "wrong crypto direction") else
  if existsb (fun value => bool_decide (value ≠ x00)) rs
  then Err (malformed_record "non-zero crypto reserved bytes") else
  Ok (mkCryptoHeader seq ln).

Lemma parse_crypto_header_fields dir magic v d seq ln rs rest :
  len magic = 4 → len seq = 8 → len ln = 4 → len rs = 6 →
  parse_crypto_header (magic ++ [v] ++ [d] ++ seq ++ ln ++ rs ++ rest) dir
  = crypto_fields dir magic v d (be_value seq) (be_value ln) rs.
Proof.
  intros Hm Hs Hl Hr. explode_list magic 4%nat. explode_list seq 8%nat.
  explode_list ln 4%nat. explode_list rs 6%nat. clear.
  unfold parse_crypto_header, crypto_fields, KTP_CRYPTO_HEADER_LEN. set (bs := _ ++ _).
  assert (len bs = 24 + len rest) as Hlen by (subst bs; len_lia).
  rewrite (bool_decide_false (len bs < 24)) by lia.
  rewrite !slice_ok by lia. reflexivity.
Qed.

Lemma crypto_header_split (bs : list byte) :
  KTP_CRYPTO_HEADER_LEN ≤ len bs →
  ∃ magic v d seq ln rs rest, bs = magic ++ [v] ++ [d] ++ seq ++ ln ++ rs ++ rest
    ∧ len magic = 4 ∧ len seq = 8 ∧ len ln = 4 ∧ len rs = 6.
Proof.
  unfold KTP_CRYPTO_HEADER_LEN. intros H.
  do 24 (destruct bs as [|? bs]; [exfalso; len_lia|]).
  eexists [_; _; _; _], _, _, [_; _; _; _; _; _; _; _], [_; _; _; _], [_; _; _; _; _; _], bs.
  done.
Qed.

Lemma crypto_fields_no_panic dir magic v d seq ln rs :
  crypto_fields dir magic v d seq ln rs ≠ Panic.
Proof. unfold crypto_fields. repeat case_match; done. Qed.

Lemma parse_crypto_header_no_panic bs dir : parse_crypto_header bs dir ≠ Panic.
Proof.
  destruct (decide (len bs < KTP_CRYPTO_HEADER_LEN)) as [Hs|Hs].
  { unfold parse_crypto_header. by rewrite bool_decide_true. }
  destruct (crypto_header_split bs) as (m & v & d & s & l & r & k & -> & ? & ? & ? & ?); [lia|].
  rewrite parse_crypto_header_fields by done. apply crypto_fields_no_panic.
Qed.

(** Only the first 24 bytes matter. *)
Lemma parse_crypto_header_app bs k dir :
  KTP_CRYPTO_HEADER_LEN ≤ len bs →
  parse_crypto_header (bs ++ k) dir = parse_crypto_header bs dir.
Proof.
  intros (m & v & d & s & l & r & rest & -> & ? & ? & ? & ?)%crypto_header_split.
  rewrite <- !app_assoc. by rewrite !parse_crypto_header_fields.
Qed.

Lemma len_crypto_header dir seq n : len (crypto_header_bytes dir seq n) = KTP_CRYPTO_HEADER_LEN.
Proof. unfold crypto_header_bytes, KTP_CRYPTO_HEADER_LEN, KTP_CRYPTO_MAGIC. cbn [replicate]. len_lia. Qed.

Lemma parse_crypto_header_bytes dir seq n rest :
  seq ≤ U64_MAX → n ≤ U32_MAX →
  parse_crypto_header (crypto_header_bytes dir seq n ++ rest) dir = Ok (mkCryptoHeader seq n).
Proof.
  intros Hs Hn. unfold crypto_header_bytes. rewrite <- !app_assoc.
  rewrite parse_crypto_header_fields by done || len_lia.
  assert (n mod 2 ^ 32 = n) as -> by (apply N.mod_small; unfold U32_MAX in Hn; lia).
  rewrite be_value_bytes_8, be_value_bytes_4 by done.
  unfold crypto_fields. rewrite !bool_decide_false by congruence. done.
Qed.

Lemma existsb_nonzero rs :
  existsb (fun value => bool_decide (value ≠ x00)) rs = false → rs = replicate (length rs) x00.
Proof.
  induction rs as [|b rs IH]; [done|]. cbn [existsb length replicate].
  intros [Hb Hrs]%orb_false_iff. apply bool_decide_eq_false in Hb.
  f_equal; [by apply dec_stable|by apply IH].
Qed.

(** An accepted header is the encoding of the fields returned. *)
Lemma parse_crypto_header_Ok bs dir h :
  parse_crypto_header bs dir = Ok h →
  sequence h ≤ U64_MAX ∧ ciphertext_len h ≤ U32_MAX
  ∧ ∃ rest, bs = crypto_header_bytes dir (sequence h) (ciphertext_len h) ++ rest.
Proof.
  intros H. destruct (decide (len bs < KTP_CRYPTO_HEADER_LEN)) as [Hs|Hs].
  { unfold parse_crypto_header in H. by rewrite bool_decide_true in H. }
  destruct (crypto_header_split bs) as (m & v & d & s & l & r & k & -> & Hm & Hsq & Hl & Hr); [lia|].
  rewrite parse_crypto_header_fields in H by done. unfold crypto_fields in H.
  repeat (case_bool_decide; [done|]).
  destruct (existsb _ r) eqn:He; [done|]. injection H as <-. cbn [sequence ciphertext_len].
  pose proof (be_value_8_le s Hsq). pose proof (be_value_4_le l Hl) as Hl4.
  split_and!; [done..|]. exists k. unfold crypto_header_bytes.
  rewrite N.mod_small by (unfold U32_MAX in Hl4; lia).
  rewrite (be_bytes_value_n 8 s), (be_bytes_value_n 4 l) by (unfold len in *; lia).
  apply existsb_nonzero in He. replace (length r) with 6%nat in He by (unfold len in *; lia).
  rewrite <- He, <- !app_assoc.
  assert (m = KTP_CRYPTO_MAGIC ∧ v = KTP_CRYPTO_VERSION ∧ d = direction_id dir) as (-> & -> & ->)
    by done. done.
Qed.

Lemma direction_id_inj d d' : direction_id d = direction_id d' → d = d'.
Proof. by destruct d, d'. Qed.

Lemma be_bytes_inj n x y :
  x < 256 ^ N.of_nat n → y < 256 ^ N.of_nat n → be_bytes n x = be_bytes n y → x = y.
Proof. intros ?? H. rewrite <- (be_value_bytes n x), H by done. by apply be_value_bytes. Qed.

Lemma nonce_inj d s d' s' :
  s ≤ U64_MAX → s' ≤ U64_MAX → nonce d s = nonce d' s' → d = d' ∧ s = s'.
Proof.
  intros Hs Hs' H. unfold nonce in H.
  apply app_inj_1 in H as [[=Hd] H]; [|done]. apply app_inj_1 in H as [_ Hb]; [|done].
  split; [by apply direction_id_inj|].
  apply (be_bytes_inj 8); [..|done]; change (256 ^ N.of_nat 8) with (U64_MAX + 1); lia.
Qed.

(** ** Sealing and opening one record *)
Section records.
Context `{A : Aead} `{L : !AeadLaws A}.

(** The record for frame [f] under a key, direction and sequence number *)
Definition sealed (key : KtpCryptoKey) (dir : KtpCryptoDirection) (seq : N) (f : KtpFrame)
    : option (list byte) :=
  let header := crypto_header_bytes dir seq (len (wire f) + 16) in
  '(c, t) ← aead_encrypt key (nonce dir seq) header (wire f);
  Some (header ++ c ++ t).

Definition record_len (f : KtpFrame) : N :=
  KTP_CRYPTO_HEADER_LEN + len (wire f) + 16.

Lemma sealed_Some key dir seq f :
  len (payload f) ≤ KTP_MAX_PAYLOAD_LEN →
  ∃ r, sealed key dir seq f = Some r ∧ len r = record_len f.
Proof.
  intros Hp. unfold sealed. pose proof aead_max_ok.
  destruct (aead_total key (nonce dir seq)
    (crypto_header_bytes dir seq (len (wire f) + 16)) (wire f)) as [[c t] Hc].
  { rewrite len_wire. lia. }
  rewrite Hc. cbn [mbind option_bind]. eexists. split; [done|]. apply aead_len in Hc as [Hc Ht].
  unfold record_len. rewrite !len_app, len_crypto_header. lia.
Qed.

Definition seal_next (s : KtpCryptoSeal) : KtpCryptoSeal :=
  mkSeal (seal_key s) (seal_direction s) (seal_sequence s + 1).

Lemma wrapping_succ seq : seq < U64_MAX → wrapping_add U64_MAX seq 1 = seq + 1.
Proof. intros H. unfold wrapping_add. apply N.mod_small. lia. Qed.

Lemma append_sealed_frame_ok s f rec r :
  seal_sequence s < U64_MAX → frame_valid f → len (payload f) ≤ KTP_MAX_PAYLOAD_LEN →
  sealed (seal_key s) (seal_direction s) (seal_sequence s) f = Some r →
  append_sealed_frame s f rec = (Ok tt, seal_next s, rec ++ r).
Proof.
  intros Hs Hv Hp Hr. unfold append_sealed_frame. rewrite bool_decide_false by lia.
  rewrite append_frame_bytes_ok by done. cbn [map_err].
  set (z := replicate _ _). assert (len z = KTP_CRYPTO_HEADER_LEN) as Hz by done.
  clearbody z. replace (len ((rec ++ z) ++ wire f) - (len rec + KTP_CRYPTO_HEADER_LEN) + 16)
    with (len (wire f) + 16) by len_lia.
  rewrite drop_app_length' by (unfold len in *; rewrite length_app; lia).
  rewrite <- (app_assoc rec z), (take_app_length' rec) by (unfold len; lia).
  unfold sealed in Hr. destruct (aead_encrypt _ _ _ _) as [[c t]|]; [|done].
  apply (inj Some) in Hr as <-. rewrite wrapping_succ by lia. f_equal.
  rewrite (app_assoc rec (crypto_header_bytes _ _ _) (wire f)), take_app_length'.
  - by rewrite <- app_assoc.
  - pose proof (len_crypto_header (seal_direction s) (seal_sequence s) (len (wire f) + 16)).
    unfold len in *. rewrite length_app. lia.
Qed.

(** A sealed record is refused exactly when the frame is, or the counter is spent. *)
Lemma append_sealed_frame_inv s f rec s' rec' :
  append_sealed_frame s f rec = (Ok tt, s', rec') → seal_sequence s ≤ U64_MAX →
  seal_sequence s < U64_MAX ∧ frame_valid f ∧ len (payload f) ≤ KTP_MAX_PAYLOAD_LEN
  ∧ s' = seal_next s
  ∧ ∃ r, sealed (seal_key s) (seal_direction s) (seal_sequence s) f = Some r ∧ rec' = rec ++ r.
Proof.
  intros H Hle. pose proof H as H'. unfold append_sealed_frame in H'. case_bool_decide; [done|].
  destruct (append_frame_bytes f _) as [ap b] eqn:Hap.
  destruct ap as [[]| |]; cbn [map_err] in H'; [|done..]. clear H'.
  apply append_frame_bytes_inv in Hap as (Hv & Hp & _).
  destruct (sealed_Some (seal_key s) (seal_direction s) (seal_sequence s) f Hp) as (r & Hr & _).
  rewrite (append_sealed_frame_ok s f rec r) in H by done || lia.
  injection H as <- <-. split_and!; [lia|done..|eauto].
Qed.

(** A failed call does not advance the counter. *)
Lemma append_sealed_frame_err s f rec r s' rec' :
  append_sealed_frame s f rec = (r, s', rec') → r ≠ Ok tt → s' = s ∧ ∃ e, r = Err e.
Proof.
  unfold append_sealed_frame. intros H Hr. case_bool_decide; [naive_solver|].
  destruct (append_frame_bytes f _) as [ap b] eqn:Hap.
  destruct ap as [[]| |]; cbn [map_err] in H.
  - destruct (aead_encrypt _ _ _ _) as [[c t]|]; naive_solver.
  - naive_solver.
  - apply append_frame_bytes_err in Hap as [_ [e He]]; done.
Qed.

Definition open_next (o : KtpCryptoOpen) : KtpCryptoOpen :=
  mkOpen (open_key o) (open_direction o) (open_max_payload_len o) (open_next_sequence o + 1).

Lemma open_sealed o f r rest :
  open_next_sequence o < U64_MAX → frame_wf f → frame_valid f →
  len (payload f) ≤ N.min (open_max_payload_len o) KTP_MAX_PAYLOAD_LEN →
  sealed (open_key o) (open_direction o) (open_next_sequence o) f = Some r →
  open_record o (r ++ rest) = Ok (f, open_next o).
Proof.
  intros Hs Hwf Hv Hp Hr. unfold sealed in Hr.
  destruct (aead_encrypt _ _ _ _) as [[c t]|] eqn:He; [|done]. apply (inj Some) in Hr as <-.
  pose proof (aead_inverse _ _ _ _ _ _ He) as Hd. pose proof (aead_len _ _ _ _ _ _ He) as [Hc Ht].
  set (h := crypto_header_bytes _ _ _) in *. pose proof (len_wire f) as Hw.
  assert (len h = KTP_CRYPTO_HEADER_LEN) as Hh by apply len_crypto_header.
  unfold open_record. rewrite bool_decide_false by lia. rewrite <- !app_assoc.
  subst h. rewrite parse_crypto_header_bytes; [| lia|].
  2:{ unfold KTP_MAX_PAYLOAD_LEN, KTP_HEADER_LEN, U32_MAX in *. lia. }
  step_ok. cbn [sequence ciphertext_len]. set (h := crypto_header_bytes _ _ _) in *.
  rewrite bool_decide_false by congruence. rewrite bool_decide_false by len_lia.
  rewrite (slice_app_0 h) by done.
  rewrite (app_assoc c t rest), (slice_app h (c ++ t)) by (done || len_lia). step_ok.
  rewrite Hd. cbn [ok_or]. step_ok.
  rewrite <- (app_nil_r (wire f)), decode_frame_wire by done. cbn [map_err]. step_ok.
  by rewrite wrapping_succ.
Qed.
End records.

(** ** Runs of a sender and of a receiver *)
Section runs.
Context `{A : Aead}.

(** Seal frames one by one, stopping at the first error. *)
Fixpoint seal_frames (s : KtpCryptoSeal) (fs : list KtpFrame)
    : result KtpCryptoError (list (list byte)) * KtpCryptoSeal :=
  match fs with
  | [] => (Ok [], s)
  | f :: fs =>
      match seal_frame s f with
      | (Ok r, s) => let '(rs, s) := seal_frames s fs in (rs ← rs; Ok (r :: rs), s)
      | (Err e, s) => (Err e, s)
      | (Panic, s) => (Panic, s)
      end
  end.

(** The records a sender emits when it goes on after errors *)
Fixpoint seal_run (s : KtpCryptoSeal) (fs : list KtpFrame) : list (list byte) :=
  match fs with
  | [] => []
  | f :: fs =>
      match seal_frame s f with
      | (Ok r, s') => r :: seal_run s' fs
      | (_, s') => seal_run s' fs
      end
  end.

Fixpoint open_records (o : KtpCryptoOpen) (rs : list (list byte))
    : result KtpCryptoError (list KtpFrame * KtpCryptoOpen) :=
  match rs with
  | [] => Ok ([], o)
  | r :: rs =>
      '(f, o) ← open_record o r;
      '(fs, o) ← open_records o rs;
      Ok (f :: fs, o)
  end.

(** The records a receiver accepts when it goes on after errors *)
Fixpoint open_run (o : KtpCryptoOpen) (rs : list (list byte)) : list (list byte * KtpFrame) :=
  match rs with
  | [] => []
  | r :: rs =>
      match open_record o r with
      | Ok (f, o') => (r, f) :: open_run o' rs
      | _ => open_run o rs
      end
  end.

Lemma open_record_Ok o r f o' :
  open_record o r = Ok (f, o') → open_next_sequence o ≤ U64_MAX →
  open_next_sequence o < U64_MAX ∧ o' = open_next o
  ∧ ∃ h, parse_crypto_header r (open_direction o) = Ok h ∧ sequence h = open_next_sequence o.
Proof.
  unfold open_record. intros H Hle. case_bool_decide; [done|].
  apply bind_Ok in H as (h & Hh & H). case_bool_decide; [done|]. case_bool_decide; [done|].
  inv_ok. simplify_eq. rewrite wrapping_succ by lia. split_and!; [lia|done|eauto].
Qed.

Lemma open_run_sequences o rs i r f :
  open_next_sequence o ≤ U64_MAX → open_run o rs !! i = Some (r, f) →
  ∃ h, parse_crypto_header r (open_direction o) = Ok h
       ∧ sequence h = open_next_sequence o + N.of_nat i.
Proof.
  revert o i. induction rs as [|r' rs IH]; intros o i Hle Hi; [done|]. cbn in Hi.
  destruct (open_record o r') as [[f' o']| |] eqn:Ho; [|eauto..].
  apply open_record_Ok in Ho as (Hlt & -> & h & Hp & Hs); [|done].
  destruct i as [|i]; cbn in Hi.
  - injection Hi as -> ->. exists h. split; [done|lia].
  - apply IH in Hi as (h' & Hp' & Hs'); cbn in *; [|lia]. exists h'. split; [done|lia].
Qed.

Lemma seal_frame_Ok s f r s' :
  seal_frame s f = (Ok r, s') → seal_sequence s ≤ U64_MAX →
  seal_sequence s < U64_MAX ∧ s' = seal_next s
  ∧ ∃ h a p c t, len h = KTP_CRYPTO_HEADER_LEN ∧ r = h ++ c ++ t
     ∧ aead_encrypt (seal_key s) (nonce (seal_direction s) (seal_sequence s)) a p = Some (c, t).
Proof.
  unfold seal_frame, seal_frame_into, append_sealed_frame. intros H Hle.
  case_bool_decide; [done|].
  destruct (append_frame_bytes f _) as [[[]| |] b] eqn:Hap; cbn [map_err] in H; [|done..].
  destruct (aead_encrypt _ _ _ _) as [[c t]|] eqn:He; [|done].
  rewrite wrapping_succ in H by lia. cbn [mbind result_bind] in H.
  apply pair_eq in H as [H1 <-]. apply (inj Ok) in H1 as <-.
  split_and!; [lia|done|]. eexists _, _, _, c, t. split_and!; [|done|done].
  change (take (N.to_nat (len [])) b) with (@nil byte).
  rewrite len_take, !len_app, len_crypto_header.
  change (len (@nil byte)) with 0. unfold KTP_CRYPTO_HEADER_LEN. lia.
Qed.

Lemma seal_frame_err s f r s' :
  seal_frame s f = (r, s') → (∀ b, r ≠ Ok b) → s' = s.
Proof.
  unfold seal_frame, seal_frame_into. intros H Hr.
  destruct (append_sealed_frame s f []) as [[x s1] rec] eqn:Ha.
  apply pair_eq in H as [<- <-].
  eapply append_sealed_frame_err; [exact Ha|]. intros ->. by apply (Hr rec).
Qed.
End runs.

(** A cipher that shows the nonce it is given, to observe the nonces the code uses *)
Definition spy_aead : Aead :=
  {| aead_encrypt k n a p := Some (n, []); aead_decrypt k n a c := None; aead_max := 0 |}.

Definition spied_nonces (s : KtpCryptoSeal) (fs : list KtpFrame) : list (list byte) :=
  drop (N.to_nat KTP_CRYPTO_HEADER_LEN) <$> seal_run (A:=spy_aead) s fs.

Lemma spied_nonces_spec s fs :
  seal_sequence s ≤ U64_MAX →
  ∃ n, seal_sequence s + N.of_nat n ≤ U64_MAX
    ∧ spied_nonces s fs
      = (fun i => nonce (seal_direction s) (seal_sequence s + N.of_nat i)) <$> seq 0 n.
Proof.
  revert s. induction fs as [|f fs IH]; intros s Hle.
  { exists 0%nat. split; [lia|done]. }
  unfold spied_nonces. cbn [seal_run].
  destruct (seal_frame (A:=spy_aead) s f) as [r s'] eqn:Hs.
  destruct r as [r|e|].
  - apply seal_frame_Ok in Hs as (Hlt & -> & h & a & p & c & t & Hh & -> & He); [|done].
    injection He as <- <-. destruct (IH (seal_next s)) as (n & Hn & Heq); [cbn; lia|].
    exists (S n). cbn in Hn. split; [lia|]. rewrite fmap_cons, app_nil_r.
    rewrite drop_app_length' by (unfold len in Hh; lia).
    change (drop _ <$> _) with (spied_nonces (seal_next s) fs). rewrite Heq.
    rewrite <- cons_seq, <- seq_shift, fmap_cons, N.add_0_r, <- list_fmap_compose.
    f_equal. apply list_fmap_ext. intros i x _.
    unfold compose, seal_next; cbn [seal_direction seal_sequence]. f_equal. lia.
  - apply seal_frame_err in Hs as ->; [|done]. by apply IH.
  - apply seal_frame_err in Hs as ->; [|done]. by apply IH.
Qed.

Lemma nonces_NoDup dir n :
  N.of_nat n ≤ U64_MAX → NoDup ((fun i => nonce dir (0 + N.of_nat i)) <$> seq 0 n).
Proof.
  intros Hn. apply NoDup_fmap_2_strong; [|apply NoDup_seq].
  intros i j Hi%elem_of_seq Hj%elem_of_seq [_ H]%nonce_inj; lia.
Qed.

(** ** Properties *)
Section properties.
Context `{A : Aead} `{L : !AeadLaws A}.

(** The frames an opener with limit [mp] accepts *)
Definition frame_admissible (mp : N) (f : KtpFrame) : Prop :=
  frame_wf f ∧ frame_valid f ∧ len (payload f) ≤ N.min mp KTP_MAX_PAYLOAD_LEN.

Lemma seal_frame_sealed s f :
  seal_sequence s < U64_MAX → frame_valid f → len (payload f) ≤ KTP_MAX_PAYLOAD_LEN →
  ∃ r, sealed (seal_key s) (seal_direction s) (seal_sequence s) f = Some r
       ∧ seal_frame s f = (Ok r, seal_next s).
Proof.
  intros Hs Hv Hp.
  destruct (sealed_Some (seal_key s) (seal_direction s) (seal_sequence s) f Hp) as (r & Hr & _).
  exists r. split; [done|]. unfold seal_frame, seal_frame_into.
  by rewrite (append_sealed_frame_ok s f [] r).
Qed.

Lemma seal_open_from key dir mp fs n :
  Forall (frame_admissible mp) fs → n + len fs ≤ U64_MAX → mp ≤ KTP_MAX_PAYLOAD_LEN →
  ∃ rs, seal_frames (mkSeal key dir n) fs = (Ok rs, mkSeal key dir (n + len fs))
    ∧ open_records (mkOpen key dir mp n) rs = Ok (fs, mkOpen key dir mp (n + len fs)).
Proof.
  intros Hfs. revert n. induction Hfs as [|f fs (Hwf & Hv & Hp) Hfs IH]; intros n Hn Hmp.
  { exists []. change (len (@nil KtpFrame)) with 0. by rewrite N.add_0_r. }
  rewrite len_cons in Hn.
  destruct (seal_frame_sealed (mkSeal key dir n) f) as (r & Hr & Hsf); [cbn; lia|done|lia|].
  destruct (IH (n + 1)) as (rs & Hrs & Hos); [lia|done|].
  exists (r :: rs). cbn [seal_frames open_records]. rewrite Hsf. unfold seal_next; cbn [seal_key seal_direction seal_sequence].
  rewrite Hrs. step_ok.
  rewrite <- (app_nil_r r), (open_sealed (mkOpen key dir mp n) f r []) by (done || (cbn; lia)).
  step_ok. unfold open_next; cbn [open_key open_direction open_max_payload_len open_next_sequence].
  rewrite Hos. step_ok. rewrite len_cons, N.add_assoc. done.
Qed.
End properties.

(** Sealing any admissible frames with a fresh sender and opening the records, in
    order, with a fresh receiver of the same key and direction gives the frames back,
    and leaves both sequence counters equal to the number of frames. *)
Theorem seal_open_roundtrip {A : Aead} {L : AeadLaws A} key dir mp fs :
  Forall (frame_admissible mp) fs → len fs ≤ U64_MAX →
  ∃ rs s o, seal_frames (seal_new key dir) fs = (Ok rs, s)
    ∧ open_records (open_new key dir mp) rs = Ok (fs, o)
    ∧ seal_sequence s = len fs ∧ open_next_sequence o = len fs.
Proof.
  intros Hfs Hn.
  destruct (seal_open_from key dir (N.min mp KTP_MAX_PAYLOAD_LEN) fs 0) as (rs & Hs & Ho); [|done|lia|].
  - eapply Forall_impl; [done|]. intros f (?&?&?). split_and!; [done..|lia].
  - exists rs. eexists _, _. split_and!; [exact Hs|exact Ho|done|done].
Qed.

(** C14: over the whole life of a connection no nonce is given to the cipher twice, in
    either direction, whatever frames are sealed and whichever of them fail; a
    sequence counter that reaches [u64::MAX] stops sealing instead of wrapping. *)
Theorem seal_nonces_unique key fs fs' :
  NoDup (spied_nonces (seal_new key ClientToRelay) fs
         ++ spied_nonces (seal_new key RelayToClient) fs').
Proof.
  destruct (spied_nonces_spec (seal_new key ClientToRelay) fs) as (n & Hn & ->); [done|].
  destruct (spied_nonces_spec (seal_new key RelayToClient) fs') as (n' & Hn' & ->); [done|].
  cbn in *. apply NoDup_app. split_and!; [by apply nonces_NoDup| |by apply nonces_NoDup].
  intros x (i & -> & Hi%elem_of_seq)%list_elem_of_fmap (j & H & Hj%elem_of_seq)%list_elem_of_fmap.
  apply nonce_inj in H as [? _]; [done|lia..].
Qed.

(** C15: replay protection: whatever records a receiver is given, forged, repeated or
    out of order, the [i]-th one it accepts carries sequence number [i], so no record
    is accepted twice. *)
Theorem open_rejects_replay `{A : Aead} key dir mp rs :
  NoDup (fst <$> open_run (open_new key dir mp) rs)
  ∧ ∀ i r f, open_run (open_new key dir mp) rs !! i = Some (r, f) →
      ∃ h, parse_crypto_header r dir = Ok h ∧ sequence h = N.of_nat i.
Proof.
  assert (∀ i r f, open_run (open_new key dir mp) rs !! i = Some (r, f) →
      ∃ h, parse_crypto_header r dir = Ok h ∧ sequence h = N.of_nat i) as H.
  { intros i r f Hi. by apply open_run_sequences in Hi. }
  split; [|done]. apply NoDup_alt. intros i j r Hi Hj.
  apply list_lookup_fmap_Some in Hi as ([r1 f1] & -> & Hi).
  apply list_lookup_fmap_Some in Hj as ([r2 f2] & Heq & Hj). cbn in *. subst r2.
  apply H in Hi as (h & Hh & Hi). apply H in Hj as (h' & Hh' & Hj).
  assert (h = h') by congruence. subst. lia.
Qed.

(** ** A cipher that satisfies the laws

    The plaintext with a keyed checksum: no secrecy, but every law. *)
Module ToyCipher.
Definition tag (k n a p : list byte) : list byte := be_bytes 16 (be_value (k ++ n ++ a ++ p) mod 2 ^ 128).

Definition decrypt (k n a ct : list byte) : option (list byte) :=
  let i := (length ct - 16)%nat in
  if bool_decide (drop i ct = tag k n a (take i ct)) then Some (take i ct) else None.

Definition cipher : Aead :=
  {| aead_encrypt k n a p := Some (p, tag k n a p); aead_decrypt := decrypt; aead_max := 2 ^ 38 |}.

Lemma laws : AeadLaws cipher.
Proof.
  split.
  - intros k n a p c t [= <- <-]. split; [done|]. unfold tag. apply len_be_bytes.
  - intros k n a p _. by eexists.
  - intros k n a p c t [= <- <-]. cbn. unfold decrypt.
    assert (length (tag k n a p) = 16%nat) as Ht.
    { pose proof (len_be_bytes 16 (be_value (k ++ n ++ a ++ p) mod 2 ^ 128)) as H.
      unfold len in H. fold (tag k n a p) in H. lia. }
    replace (length (p ++ tag k n a p) - 16)%nat with (length p) by (rewrite length_app; lia).
    rewrite take_app_length, drop_app_length. by rewrite bool_decide_true.
  - by vm_compute.
Qed.
End ToyCipher.

Lemma seal_open_roundtrip_witness :
  ∃ rs s o, seal_frames (A:=ToyCipher.cipher) (seal_new [x07] ClientToRelay)
              [Samples.data_frame; Samples.close_frame] = (Ok rs, s)
    ∧ open_records (A:=ToyCipher.cipher) (open_new [x07] ClientToRelay 64) rs
      = Ok ([Samples.data_frame; Samples.close_frame], o)
    ∧ seal_sequence s = 2 ∧ open_next_sequence o = 2.
Proof.
  apply (seal_open_roundtrip (L:=ToyCipher.laws) [x07] ClientToRelay 64
           [Samples.data_frame; Samples.close_frame]); [|by vm_compute].
  repeat constructor; by vm_compute.
Defined.
