(* ===== verification/KtpRecord.v ===== *)
(** * The record codec ([KtpCryptoRecordCodec] of [src/src/ktp_transport.rs])

    The receiving half of an encrypted stream: it collects bytes like the plain codec
    and opens one record at a time.  Its buffer methods are those of [CodecBuffer]. *)
From S2P Require Import Prelude RustStd Ktp CodecBuffer Framing KtpCrypto.
From Stdlib Require Import Strings.Byte.
Local Open Scope N_scope.

(** ktp_transport.rs [KtpCryptoRecordCodec] *)
Record KtpCryptoRecordCodec := mkRecordCodec {
  record_buffer : CodecBuffer;
  record_open : KtpCryptoOpen;
}.

(** ktp_transport.rs [KtpCryptoRecordCodec::new] *)
Definition record_new (key : KtpCryptoKey) (direction : KtpCryptoDirection)
    (max_payload_len max_buffer_len : N) : KtpCryptoRecordCodec :=
  mkRecordCodec (mkBuffer [] 0 max_buffer_len) (open_new key direction max_payload_len).

(** ktp_transport.rs [KtpCryptoRecordCodec::unread] *)
Definition record_unread (c : KtpCryptoRecordCodec) : result KtpCryptoError (list byte) :=
  unread (record_buffer c).

(** ktp_transport.rs [KtpCryptoRecordCodec::unread_len] *)
Definition record_unread_len (c : KtpCryptoRecordCodec) : N := unread_len (record_buffer c).

Definition with_buffer (c : KtpCryptoRecordCodec) (b : result KtpCryptoError CodecBuffer)
    : result KtpCryptoError KtpCryptoRecordCodec :=
  b ← b; Ok (mkRecordCodec b (record_open c)).

(** ktp_transport.rs [KtpCryptoRecordCodec::compact] *)
Definition record_compact (c : KtpCryptoRecordCodec) :=
  with_buffer c (compact (record_buffer c)).

(** ktp_transport.rs [KtpCryptoRecordCodec::compact_after_consume] *)
Definition record_compact_after_consume (c : KtpCryptoRecordCodec) :=
  with_buffer c (compact_after_consume (record_buffer c)).

(** ktp_transport.rs [KtpCryptoRecordCodec::consume] *)
Definition record_consume (c : KtpCryptoRecordCodec) (n : N) :=
  with_buffer c (consume (record_buffer c) n).

(** ktp_transport.rs [KtpCryptoRecordCodec::compact_if_needed_for_push] *)
Definition record_compact_if_needed_for_push (c : KtpCryptoRecordCodec) (incoming_len : N) :=
  with_buffer c (compact_if_needed_for_push (record_buffer c) incoming_len).

(** ktp_transport.rs [KtpCryptoRecordCodec::push] *)
Definition record_push (c : KtpCryptoRecordCodec) (chunk : list byte) :=
  with_buffer c (push buffer_limit (record_buffer c) chunk).

Section codec.
Context `{A : Aead}.

(** ktp_transport.rs [KtpCryptoRecordCodec::next_frame] (an [Err] leaves the codec as it was) *)
Definition record_next_frame (c : KtpCryptoRecordCodec)
    : result KtpCryptoError (option KtpFrame * KtpCryptoRecordCodec) :=
  let max_buffer_len := max_buffer_len (record_buffer c) in
  unread ← record_unread c;
  if bool_decide (len unread < KTP_CRYPTO_HEADER_LEN) then Ok (None, c) else
  header ← parse_crypto_header unread (open_direction (record_open c));
  let record_len := KTP_CRYPTO_HEADER_LEN + ciphertext_len header in
  if bool_decide (max_buffer_len < record_len)
  then Err (buffer_limit record_len max_buffer_len) else
  if bool_decide (len unread < record_len) then Ok (None, c) else
  let record_start := read_offset (record_buffer c) in
  let record_end := record_start + record_len in
  record ← slice (buffer (record_buffer c)) record_start record_end;
  '(frame, o) ← open_record (record_open c) record;
  c ← record_consume (mkRecordCodec (record_buffer c) o) record_len;
  Ok (Some frame, c).

(** One iteration per frame of [next_frames_into]; [room] counts the frames the
    vector may still take.  An error keeps the frames and the codec so far. *)
Fixpoint record_frames (room : nat) (c : KtpCryptoRecordCodec) (frames : list KtpFrame)
    : result KtpCryptoError unit * KtpCryptoRecordCodec * list KtpFrame :=
  match room with
  | O => (Ok tt, c, frames)
  | S room =>
      match record_next_frame c with
      | Ok (None, c) => (Ok tt, c, frames)
      | Ok (Some frame, c) => record_frames room c (frames ++ [frame])
      | Err e => (Err e, c, frames)
      | Panic => (Panic, c, frames)
      end
  end.

(** ktp_transport.rs [KtpCryptoRecordCodec::next_frames_into] *)
Definition record_next_frames_into (c : KtpCryptoRecordCodec) (max_frames : N)
    (frames : list KtpFrame)
    : result KtpCryptoError N * KtpCryptoRecordCodec * list KtpFrame :=
  let frames := [] in
  let '(r, c, frames) := record_frames (N.to_nat max_frames) c frames in
  (_ ← r; Ok (len frames), c, frames).
End codec.

(** ** Specification: opening the record at the front of the pending bytes *)
Record RecordState := mkRecordState { rs_open : KtpCryptoOpen; rs_limit : N }.

Section refinement.
Context `{A : Aead}.

Definition spec_next_record (s : RecordState) (bs : list byte)
    : result KtpCryptoError (option (KtpFrame * RecordState * list byte)) :=
  if bool_decide (len bs < KTP_CRYPTO_HEADER_LEN) then Ok None else
  header ← parse_crypto_header bs (open_direction (rs_open s));
  let n := KTP_CRYPTO_HEADER_LEN + ciphertext_len header in
  if bool_decide (rs_limit s < n) then Err (buffer_limit n (rs_limit s)) else
  if bool_decide (len bs < n) then Ok None else
  '(frame, o) ← open_record (rs_open s) (take (N.to_nat n) bs);
  Ok (Some (frame, mkRecordState o (rs_limit s), drop (N.to_nat n) bs)).

Definition state_of (c : KtpCryptoRecordCodec) : RecordState :=
  mkRecordState (record_open c) (max_buffer_len (record_buffer c)).

Lemma open_record_no_panic o r : open_record o r ≠ Panic.
Proof.
  unfold open_record. case_bool_decide; [done|].
  pose proof (parse_crypto_header_no_panic r (open_direction o)) as Hp.
  destruct (parse_crypto_header _ _) as [h| |]; [|done..]. step_ok.
  case_bool_decide; [done|]. case_bool_decide; [done|].
  rewrite !slice_ok by lia. step_ok.
  destruct (aead_decrypt _ _ _ _) as [p|]; [|done]. cbn [ok_or]. step_ok.
  pose proof (decode_frame_never_panics p (open_max_payload_len o)).
  by destruct (decode_frame _ _).
Qed.

Lemma spec_next_record_inv s bs x s' r :
  spec_next_record s bs = Ok (Some (x, s', r)) →
  ∃ h, KTP_CRYPTO_HEADER_LEN ≤ len bs
    ∧ parse_crypto_header bs (open_direction (rs_open s)) = Ok h
    ∧ KTP_CRYPTO_HEADER_LEN + ciphertext_len h ≤ rs_limit s
    ∧ KTP_CRYPTO_HEADER_LEN + ciphertext_len h ≤ len bs
    ∧ open_record (rs_open s) (take (N.to_nat (KTP_CRYPTO_HEADER_LEN + ciphertext_len h)) bs)
      = Ok (x, rs_open s')
    ∧ rs_limit s' = rs_limit s
    ∧ r = drop (N.to_nat (KTP_CRYPTO_HEADER_LEN + ciphertext_len h)) bs.
Proof.
  unfold spec_next_record. intros H. case_bool_decide; [done|].
  apply bind_Ok in H as (h & Hh & H). case_bool_decide; [done|]. case_bool_decide; [done|].
  apply bind_Ok in H as ([f o] & Ho & H). injection H as <- <- <-.
  exists h. split_and!; done || lia.
Qed.

Lemma spec_next_record_intro s h f o r k :
  KTP_CRYPTO_HEADER_LEN ≤ len r →
  parse_crypto_header r (open_direction (rs_open s)) = Ok h →
  len r = KTP_CRYPTO_HEADER_LEN + ciphertext_len h → len r ≤ rs_limit s →
  open_record (rs_open s) r = Ok (f, o) →
  spec_next_record s (r ++ k) = Ok (Some (f, mkRecordState o (rs_limit s), k)).
Proof.
  intros Hl Hh Hn Hlim Ho. unfold spec_next_record. rewrite bool_decide_false by len_lia.
  rewrite parse_crypto_header_app, Hh by done. step_ok.
  rewrite !bool_decide_false by len_lia. rewrite <- Hn.
  rewrite take_app_length', drop_app_length' by (unfold len; lia). by rewrite Ho.
Qed.

#[export] Program Instance record_parser
    : FrameParser RecordState KtpFrame KtpCryptoError := {| fp_next := spec_next_record |}.
Next Obligation. done. Qed.
Next Obligation.
  intros s bs x s' r (h & Hl & Hh & Hlim & Hn & Ho & Hs & ->)%spec_next_record_inv.
  set (n := KTP_CRYPTO_HEADER_LEN + ciphertext_len h) in *.
  exists (take (N.to_nat n) bs). rewrite take_drop. split_and!; [done| |].
  - intros Hz. apply (f_equal len) in Hz. rewrite len_take in Hz.
    change (len (@nil byte)) with 0 in Hz. unfold KTP_CRYPTO_HEADER_LEN in *. lia.
  - intros k. destruct s' as [o' l']; cbn in *. subst l'.
    rewrite <- (take_drop (N.to_nat n) bs) in Hh. rewrite parse_crypto_header_app in Hh by len_lia.
    eapply spec_next_record_intro; try done; len_lia.
Qed.
Next Obligation.
  intros s bs k o H. destruct (decide (len bs < KTP_CRYPTO_HEADER_LEN)) as [Hs|Hs].
  { exists None. unfold spec_next_record. by rewrite bool_decide_true. }
  unfold spec_next_record in *. rewrite (bool_decide_false (len bs < _)) by done.
  rewrite bool_decide_false in H by len_lia. rewrite parse_crypto_header_app in H by lia.
  apply bind_Ok in H as (h & -> & H). step_ok. case_bool_decide; [done|].
  destruct (decide (len bs < KTP_CRYPTO_HEADER_LEN + ciphertext_len h)) as [Hn|Hn].
  { rewrite bool_decide_true by done. eauto. }
  rewrite bool_decide_false in * by len_lia. rewrite take_app_le in H by (unfold len in *; lia).
  apply bind_Ok in H as ([f o'] & -> & _). step_ok. eauto.
Qed.

(** ** The codec refines the specification *)
Lemma record_next_frame_eq c :
  buffer_inv (record_buffer c) →
  record_next_frame c
  = o ← spec_next_record (state_of c) (pending (record_buffer c));
    match o with
    | None => Ok (None, c)
    | Some (f, s, r) =>
        c ← record_consume (mkRecordCodec (record_buffer c) (rs_open s))
              (len (pending (record_buffer c)) - len r);
        Ok (Some f, c)
    end.
Proof.
  intros Hi. unfold record_next_frame, record_unread, spec_next_record, state_of;
    cbn [rs_open rs_limit]. rewrite unread_pending by done. step_ok.
  set (bs := pending (record_buffer c)) in *.
  destruct (decide (len bs < KTP_CRYPTO_HEADER_LEN)) as [Hs|Hs]; [by rewrite !bool_decide_true by done|].
  rewrite !(bool_decide_false (len bs < KTP_CRYPTO_HEADER_LEN)) by done.
  destruct (parse_crypto_header bs _) as [h|e|]; [|done..]. step_ok.
  set (n := KTP_CRYPTO_HEADER_LEN + ciphertext_len h).
  destruct (bool_decide (_ < n)); [done|].
  destruct (decide (len bs < n)) as [Hl|Hl]; [by rewrite !bool_decide_true by done|].
  rewrite !bool_decide_false by done.
  pose proof (unread_len_pending (record_buffer c)) as Hul. unfold unread_len in Hul. fold bs in Hul.
  pose proof Hi as (Ho & _). rewrite slice_ok by lia. step_ok.
  replace (take _ (drop _ _)) with (take (N.to_nat n) bs); cycle 1.
  { f_equal. lia. }
  destruct (open_record _ _) as [[f o]|e|]; [|done..]. step_ok. cbn [rs_open].
  rewrite len_drop. by replace (len bs - (len bs - n)) with n by lia.
Qed.

Lemma record_next_some c f s r :
  buffer_inv (record_buffer c) →
  spec_next_record (state_of c) (pending (record_buffer c)) = Ok (Some (f, s, r)) →
  ∃ c', record_next_frame c = Ok (Some f, c') ∧ pending (record_buffer c') = r
        ∧ buffer_inv (record_buffer c') ∧ state_of c' = s.
Proof.
  intros Hi Hs. rewrite record_next_frame_eq, Hs by done. step_ok.
  apply spec_next_record_inv in Hs as (h & _ & _ & _ & Hn & _ & Hlim & ->).
  rewrite len_drop. set (n := KTP_CRYPTO_HEADER_LEN + ciphertext_len h) in *.
  replace (len (pending (record_buffer c)) - (len (pending (record_buffer c)) - n)) with n by lia.
  unfold record_consume, with_buffer; cbn [record_buffer record_open].
  destruct (consume_spec (E:=KtpCryptoError) (record_buffer c) n) as (b & -> & Hp & Hib & Hm);
    [done..|].
  step_ok. eexists. do 3 (split; [done|]). unfold state_of; cbn. destruct s; cbn in *. congruence.
Qed.

#[export] Program Instance record_codec
    : StreamCodec KtpCryptoRecordCodec RecordState KtpFrame KtpCryptoError := {|
  cd_push := record_push;
  cd_next := record_next_frame;
  cd_limit c := max_buffer_len (record_buffer c);
  cd_abs c s p := buffer_inv (record_buffer c) ∧ state_of c = s ∧ pending (record_buffer c) = p;
|}.
Next Obligation.
  intros c s p chunk (Hi & <- & <-) Hroom. unfold record_push, with_buffer.
  pose proof (push_spec buffer_limit (record_buffer c) chunk Hi) as Hps.
  rewrite decide_True in Hps by done.
  destruct Hps as (b & -> & Hp & Hib & Hmb). step_ok. eexists. split; [done|].
  split; [|done]. split; [done|]. split; [|done]. unfold state_of; cbn. by rewrite Hmb.
Qed.
Next Obligation.
  intros c s p (Hi & <- & <-) H. rewrite record_next_frame_eq by done. cbn in H. by rewrite H.
Qed.
Next Obligation.
  intros c s p x s' r (Hi & <- & <-) H.
  destruct (record_next_some _ _ _ _ Hi H) as (c' & ? & ? & ? & Hl).
  apply spec_next_record_inv in H as (_ & _ & _ & _ & _ & _ & Hlim & _).
  exists c'. split_and!; try done. by rewrite <- Hl in Hlim.
Qed.
End refinement.

(** ** Arbitrary use of a codec: any calls, in any order, whatever they return *)
Inductive record_op := RecPush (chunk : list byte) | RecNext | RecBatch (max_frames : N).

Section safety.
Context `{A : Aead}.

Definition record_apply (c : KtpCryptoRecordCodec) (op : record_op)
    : option KtpCryptoRecordCodec :=
  match op with
  | RecPush chunk =>
      match record_push c chunk with Ok c' => Some c' | Err _ => Some c | Panic => None end
  | RecNext =>
      match record_next_frame c with Ok (_, c') => Some c' | Err _ => Some c | Panic => None end
  | RecBatch n =>
      match record_next_frames_into c n [] with
      | (Panic, _, _) => None
      | (_, c', _) => Some c'
      end
  end.

Fixpoint record_run (c : KtpCryptoRecordCodec) (ops : list record_op)
    : option KtpCryptoRecordCodec :=
  match ops with [] => Some c | op :: ops => c' ← record_apply c op; record_run c' ops end.

Lemma spec_next_record_no_panic s bs : spec_next_record s bs ≠ Panic.
Proof.
  unfold spec_next_record. case_bool_decide; [done|].
  pose proof (parse_crypto_header_no_panic bs (open_direction (rs_open s))).
  destruct (parse_crypto_header _ _) as [h| |]; [|done..]. step_ok.
  do 2 (case_bool_decide; [done|]).
  match goal with |- context [open_record ?o ?r] =>
    pose proof (open_record_no_panic o r); by destruct (open_record o r) as [[]| |] end.
Qed.

Definition same_limit (c c' : KtpCryptoRecordCodec) : Prop :=
  buffer_inv (record_buffer c')
  ∧ max_buffer_len (record_buffer c') = max_buffer_len (record_buffer c).

(** The three outcomes of [next_frame] on a well-formed codec *)
Lemma record_next_cases c :
  buffer_inv (record_buffer c) →
  record_next_frame c = Ok (None, c)
  ∨ (∃ e, record_next_frame c = Err e)
  ∨ (∃ f c', record_next_frame c = Ok (Some f, c') ∧ same_limit c c').
Proof.
  intros Hi. pose proof (spec_next_record_no_panic (state_of c) (pending (record_buffer c))).
  destruct (spec_next_record (state_of c) (pending (record_buffer c)))
    as [[[[f s] r]|]|e|] eqn:Hs; [| | |done].
  - destruct (record_next_some c f s r Hi Hs) as (c' & ? & ? & ? & Hl).
    right; right. exists f, c'. split; [done|]. split; [done|].
    apply spec_next_record_inv in Hs as (_ & _ & _ & _ & _ & _ & Hlim & _).
    by rewrite <- Hl in Hlim.
  - left. by rewrite record_next_frame_eq, Hs.
  - right; left. exists e. by rewrite record_next_frame_eq, Hs.
Qed.

Lemma record_frames_inv room c frames :
  buffer_inv (record_buffer c) →
  ∃ r c' fs, record_frames room c frames = (r, c', frames ++ fs) ∧ r ≠ Panic
    ∧ same_limit c c' ∧ len fs ≤ N.of_nat room.
Proof.
  revert c frames. induction room as [|room IH]; intros c frames Hi; cbn [record_frames].
  { eexists _, c, []. rewrite app_nil_r. split; [done|]. split_and!; done. }
  destruct (record_next_cases c Hi) as [->|[[e ->]|(f & c' & -> & Hi' & Hl')]].
  - eexists _, c, []. rewrite app_nil_r. split; [done|]. split_and!; done || lia.
  - eexists _, c, []. rewrite app_nil_r. split; [done|]. split_and!; done || lia.
  - destruct (IH c' (frames ++ [f]) Hi') as (r & c2 & fs & -> & ? & [? ?] & ?).
    eexists _, c2, (f :: fs). rewrite <- app_assoc. split; [done|].
    unfold same_limit. rewrite len_cons. split_and!; try done; [congruence|lia].
Qed.

Lemma record_apply_inv c op :
  buffer_inv (record_buffer c) → ∃ c', record_apply c op = Some c' ∧ same_limit c c'.
Proof.
  intros Hi. assert (same_limit c c) as Hcc by done. destruct op as [chunk| |n]; cbn [record_apply].
  - pose proof (push_spec buffer_limit (record_buffer c) chunk Hi) as Hps.
    unfold record_push, with_buffer. case_decide.
    + destruct Hps as (b & -> & Hp & Hib & Hmb). step_ok. by eexists.
    + destruct Hps as (a & ->). step_ok. eauto.
  - destruct (record_next_cases c Hi) as [->|[[e ->]|(f & c' & -> & Hs)]]; eauto.
  - unfold record_next_frames_into.
    destruct (record_frames_inv (N.to_nat n) c [] Hi) as (r & c' & fs & -> & Hr & Hs & _).
    exists c'. by destruct r.
Qed.
End safety.

(** ** Sealed records are pieces of the stream *)
Section sealed_stream.
Context `{A : Aead} `{L : !AeadLaws A}.

Lemma sealed_header key dir n f r :
  n ≤ U64_MAX → len (payload f) ≤ KTP_MAX_PAYLOAD_LEN →
  sealed key dir n f = Some r →
  parse_crypto_header r dir = Ok (mkCryptoHeader n (len (wire f) + 16))
  ∧ len r = KTP_CRYPTO_HEADER_LEN + (len (wire f) + 16).
Proof.
  intros Hn Hp Hr.
  destruct (sealed_Some key dir n f Hp) as (r' & Hr' & Hl).
  assert (r' = r) as -> by congruence. split; [|unfold record_len in Hl; lia].
  unfold sealed in Hr. destruct (aead_encrypt _ _ _ _) as [[c t]|]; [|done].
  apply (inj Some) in Hr as <-. apply parse_crypto_header_bytes; [done|].
  rewrite len_wire. unfold KTP_HEADER_LEN, KTP_MAX_PAYLOAD_LEN, U32_MAX in *. lia.
Qed.

Lemma pieces_sealed key dir mp mb fs n rs s :
  Forall (fun f => frame_admissible mp f ∧ record_len f ≤ mb) fs →
  n + len fs ≤ U64_MAX →
  seal_frames (mkSeal key dir n) fs = (Ok rs, s) →
  pieces (mkRecordState (mkOpen key dir mp n) mb) rs fs
         (mkRecordState (mkOpen key dir mp (n + len fs)) mb)
  ∧ Forall2 (fun r f => len r = record_len f) rs fs.
Proof.
  intros Hfs. revert n rs s.
  induction Hfs as [|f fs [(Hwf & Hv & Hp) Hb] Hfs IH]; intros n rs s Hn Hs.
  { injection Hs as <- <-. change (len (@nil KtpFrame)) with 0. rewrite N.add_0_r.
    split; constructor. }
  rewrite len_cons in *. cbn [seal_frames] in Hs.
  destruct (seal_frame_sealed (mkSeal key dir n) f) as (r & Hr & Hsf); [cbn; lia|done|lia|].
  rewrite Hsf in Hs. unfold seal_next in Hs. cbn [seal_key seal_direction seal_sequence] in Hs, Hr.
  destruct (seal_frames _ fs) as [[rs'| |] s'] eqn:Hrs; cbn in Hs; [|done..].
  apply pair_eq in Hs as [[= <-] <-].
  destruct (IH (n + 1) rs' s') as [Hpc Hl]; [lia|done|].
  destruct (sealed_header key dir n f r) as [Hh Hlr]; [lia|lia|done|].
  rewrite N.add_assoc. split; [|constructor; [unfold record_len; lia|done]].
  econstructor; [| |exact Hpc].
  - intros ->. change (len (@nil byte)) with 0 in Hlr. unfold KTP_CRYPTO_HEADER_LEN in Hlr. lia.
  - intros k. eapply (spec_next_record_intro (mkRecordState (mkOpen key dir mp n) mb)); cbn; try done.
    + lia.
    + unfold record_len in Hb. lia.
    + rewrite <- (app_nil_r r). erewrite open_sealed; cbn; try done; lia.
Qed.
End sealed_stream.

(** ** Properties *)

(** C13: end to end over a fragmented stream: the records of any admissible frames,
    concatenated and cut into reads in any way, come out of a fresh record codec as
    exactly those frames in order, and leave its buffer empty, provided the buffer
    limit leaves room for one record and one read. *)
Theorem record_codec_chunking {A : Aead} {L : AeadLaws A} key dir mp mb fs rs s chunks :
  mb < USIZE_MAX → len fs ≤ U64_MAX →
  Forall (fun f => frame_admissible mp f ∧ record_len f ≤ mb) fs →
  seal_frames (seal_new key dir) fs = (Ok rs, s) →
  concat chunks = concat rs →
  (∀ f ch, f ∈ fs → ch ∈ chunks → record_len f + len ch ≤ mb + 1) →
  ∃ c, receive (S (length fs)) (record_new key dir mp mb) chunks = Ok (fs, c)
       ∧ pending (record_buffer c) = [].
Proof.
  intros Hmb Hn Hfs Hs Hc Hroom.
  destruct (pieces_sealed key dir (N.min mp KTP_MAX_PAYLOAD_LEN) mb fs 0 rs s) as [Hp Hl]; [|done|done|].
  { eapply Forall_impl; [done|]. intros f [(?&?&?) ?]. split; [|done].
    unfold frame_admissible. split_and!; done || lia. }
  edestruct (receive_pieces (S (length fs))) as (c & Hr & _ & _ & Hpc); [exact Hp|..|by exists c].
  - cbn. unfold buffer_inv; cbn. change (len (@nil byte)) with 0. split_and!; done || lia.
  - done.
  - lia.
  - intros r ch [i Hr]%list_elem_of_lookup Hch. cbn.
    destruct (Forall2_lookup_l _ _ _ _ _ Hl Hr) as (f & Hf & ->).
    apply Hroom; [by eapply list_elem_of_lookup_2|done].
Qed.

(** No sequence of pushes and reads, whatever bytes arrive and whatever the cipher
    does with them, makes the record codec panic or hold more than its limit. *)
Theorem record_codec_safe {A : Aead} key dir mp mb ops :
  mb < USIZE_MAX →
  ∃ c, record_run (record_new key dir mp mb) ops = Some c
       ∧ read_offset (record_buffer c) ≤ len (buffer (record_buffer c))
       ∧ len (buffer (record_buffer c)) ≤ mb.
Proof.
  intros Hmb.
  assert (∀ c, buffer_inv (record_buffer c) → ∃ c', record_run c ops = Some c' ∧ same_limit c c') as Hrun.
  { clear. induction ops as [|op ops IH]; intros c Hi; [by exists c|]. cbn [record_run].
    destruct (record_apply_inv c op Hi) as (c1 & -> & Hi1 & Hl1). cbn [mbind option_bind].
    destruct (IH c1 Hi1) as (c2 & -> & Hi2 & Hl2). exists c2. split; [done|]. split; [done|congruence]. }
  destruct (Hrun (record_new key dir mp mb)) as (c & -> & (Ho & Hb & _) & Hl).
  - unfold buffer_inv; cbn. change (len (@nil byte)) with 0. lia.
  - exists c. rewrite Hl in Hb. done.
Qed.

(** The sender's limit and the receiver's do not match: a frame within the payload
    limit is sealed without complaint, but a receiver whose buffer limit is below the
    64 bytes of overhead plus the payload refuses it as soon as the record's header
    has arrived, however the record is split into reads. *)
Theorem oversize_record_refused {A : Aead} {L : AeadLaws A} key dir mp mb f :
  frame_valid f → len (payload f) ≤ KTP_MAX_PAYLOAD_LEN →
  mb < 64 + len (payload f) → mb < USIZE_MAX →
  ∃ r s, seal_frame (seal_new key dir) f = (Ok r, s)
    ∧ ∀ chunk more, r = chunk ++ more → KTP_CRYPTO_HEADER_LEN ≤ len chunk ≤ mb →
        ∃ c, record_push (record_new key dir mp mb) chunk = Ok c
             ∧ record_next_frame c = Err (buffer_limit (64 + len (payload f)) mb).
Proof.
  intros Hv Hp Hb Hmb.
  destruct (seal_frame_sealed (seal_new key dir) f) as (r & Hr & Hs); [done..|].
  destruct (sealed_header key dir 0 f r) as [Hh Hl]; [done..|].
  exists r. eexists. split; [exact Hs|]. intros chunk more -> Hc.
  destruct (cd_push_ok (record_new key dir mp mb) (state_of (record_new key dir mp mb)) [] chunk)
    as (c & Hpush & (Hi & Hst & Hpend) & _).
  { cbn. unfold buffer_inv; cbn. change (len (@nil byte)) with 0. split_and!; done || lia. }
  { cbn. change (len (@nil byte)) with 0. lia. }
  exists c. split; [exact Hpush|]. rewrite record_next_frame_eq, Hst, Hpend by done.
  change (state_of (record_new key dir mp mb)) with (mkRecordState (open_new key dir mp) mb).
  unfold spec_next_record. cbn [app rs_open rs_limit].
  rewrite bool_decide_false by lia. rewrite parse_crypto_header_app in Hh by lia.
  change (open_direction (open_new key dir mp)) with dir.
  rewrite Hh. step_ok. cbn [ciphertext_len]. rewrite len_wire in *. unfold KTP_CRYPTO_HEADER_LEN, KTP_HEADER_LEN in *.
  rewrite bool_decide_true by lia. step_ok. do 2 f_equal. lia.
Qed.

#[local] Existing Instance ToyCipher.cipher.
#[local] Existing Instance ToyCipher.laws.

Lemma record_codec_chunking_witness :
  ∃ rs s c, seal_frames (seal_new [x07] ClientToRelay)
              [Samples.data_frame; Samples.close_frame] = (Ok rs, s)
    ∧ receive 3 (record_new [x07] ClientToRelay 64 256)
        [take 30 (concat rs); drop 30 (concat rs)]
      = Ok ([Samples.data_frame; Samples.close_frame], c)
    ∧ pending (record_buffer c) = [].
Proof.
  destruct (seal_frames (seal_new [x07] ClientToRelay)
              [Samples.data_frame; Samples.close_frame]) as [[rs|e|] s] eqn:H;
    [|vm_compute in H; discriminate H..].
  destruct (record_codec_chunking [x07] ClientToRelay 64 256
    [Samples.data_frame; Samples.close_frame] rs s [take 30 (concat rs); drop 30 (concat rs)])
    as (c & Hr & Hp).
  - by vm_compute.
  - by vm_compute.
  - repeat constructor; by vm_compute.
  - exact H.
  - cbn [concat]. by rewrite app_nil_r, take_drop.
  - vm_compute in H. injection H as <- <-. intros f ch Hf Hch.
    list_cases; by vm_compute.
  - exists rs, s, c. by split_and!.
Defined.

Lemma record_codec_safe_witness :
  ∃ c, record_run (record_new [x07] ClientToRelay 64 8) [] = Some c
       ∧ read_offset (record_buffer c) ≤ len (buffer (record_buffer c))
       ∧ len (buffer (record_buffer c)) ≤ 8.
Proof. apply record_codec_safe. by vm_compute. Defined.

Lemma oversize_record_refused_witness :
  ∃ r s, seal_frame (seal_new [x07] ClientToRelay) Samples.data_frame = (Ok r, s)
    ∧ ∀ chunk more, r = chunk ++ more → KTP_CRYPTO_HEADER_LEN ≤ len chunk ≤ 50 →
        ∃ c, record_push (record_new [x07] ClientToRelay 64 50) chunk = Ok c
             ∧ record_next_frame c = Err (buffer_limit 66 50).
Proof.
  apply (oversize_record_refused [x07] ClientToRelay 64 50 Samples.data_frame);
    by vm_compute.
Defined.
