(* ===== verification/KtpRelay.v ===== *)
(** * Encrypted streams and the frame relay ([src/src/ktp_transport.rs])

    [KtpEncryptedStream] joins a byte stream, a sealing side and a record codec.  The
    relay moves frames between two of them.  The sockets, TLS and [tokio] are [Io]. *)
From S2P Require Import Prelude RustStd AsyncIo Ktp CodecBuffer Framing KtpCrypto KtpRecord.
From Stdlib Require Import Strings.Byte.
Local Open Scope N_scope.

(** ktp_transport.rs [KtpTcpTransportError] *)
Inductive KtpTcpTransportError :=
  | TransportIo (error : string)
  | TransportCrypto (error : KtpCryptoError)
  | TransportClosed.
#[export] Instance KtpTcpTransportError_eq_dec : EqDecision KtpTcpTransportError.
Proof. solve_decision. Defined.

(** ktp_transport.rs [KtpTcpTransportError::code] *)
Definition transport_error_code (e : KtpTcpTransportError) : string :=
  match e with
  | TransportIo _ => "ktp_tcp_io_error"
  | TransportCrypto error =>
      if String.eqb (code error) "auth_failed" then "ktp_crypto_auth_failed"
      else if String.eqb (code error) "malformed_record" then "ktp_crypto_malformed_record"
      else if String.eqb (code error) "buffer_limit" then "ktp_crypto_buffer_limit"
      else if String.eqb (code error) "ktp_error" then "ktp_crypto_ktp_error"
      else if String.eqb (code error) "sequence_exhausted" then "ktp_crypto_sequence_exhausted"
      else if String.eqb (code error) "sequence_mismatch" then "ktp_crypto_sequence_mismatch"
      else "ktp_crypto_error"
  | TransportClosed => "ktp_tcp_closed"
  end.

(** ktp_transport.rs [KtpTcpTransportError::fmt] *)
Definition KtpTcpTransportError_to_string (e : KtpTcpTransportError) : string :=
  match e with
  | TransportIo error => error
  | TransportCrypto error => KtpCryptoError_to_string error
  | TransportClosed => "KTP encrypted TCP stream closed"
  end.

(** ktp_transport.rs [KtpEncryptedStream] (the read buffer only holds the last read) *)
Record KtpEncryptedStream := mkStream {
  stream : Io;
  seal : KtpCryptoSeal;
  codec : KtpCryptoRecordCodec;
  write_buffer : list byte;
}.

(** ktp_transport.rs [KtpEncryptedStream::from_io] *)
Definition from_io (stream : Io) (key : KtpCryptoKey) (seal_direction open_direction : KtpCryptoDirection)
    (max_payload_len max_buffer_len : N) : KtpEncryptedStream :=
  mkStream stream (seal_new key seal_direction)
    (record_new key open_direction max_payload_len max_buffer_len) [].

Definition set_stream (io : Io) (st : KtpEncryptedStream) : KtpEncryptedStream :=
  mkStream io (seal st) (codec st) (write_buffer st).
Definition set_seal_buffer (s : KtpCryptoSeal) (b : list byte) (st : KtpEncryptedStream) :=
  mkStream (stream st) s (codec st) b.
Definition set_codec (c : KtpCryptoRecordCodec) (st : KtpEncryptedStream) : KtpEncryptedStream :=
  mkStream (stream st) (seal st) c (write_buffer st).

Abbreviation tact := (act KtpEncryptedStream KtpTcpTransportError).

Section streams.
Context `{A : Aead}.

(** A sealing call on the stream's own [seal] and [write_buffer] *)
Definition seal_into
    (call : KtpCryptoSeal → KtpFrame → list byte
            → result KtpCryptoError unit * KtpCryptoSeal * list byte)
    (frame : KtpFrame) : tact unit :=
  st ← get;
  let '(r, s, b) := call (seal st) frame (write_buffer st) in
  _ ← put (set_seal_buffer s b st);
  try_ (map_err TransportCrypto r).

Definition flush_buffer : tact unit :=
  st ← get;
  on_field stream set_stream (write_flush TransportIo (write_buffer st)).

(** ktp_transport.rs [KtpEncryptedStream::send_frame] *)
Definition send_frame (frame : KtpFrame) : tact unit :=
  _ ← seal_into seal_frame_into frame;
  flush_buffer.

(** ktp_transport.rs [KtpEncryptedStream::send_frames] *)
Definition send_frames (frames : list KtpFrame) : tact unit :=
  match frames with
  | [] => mret tt
  | _ =>
      _ ← modify (fun st => set_seal_buffer (seal st) [] st);
      _ ← for_each frames (seal_into append_sealed_frame);
      flush_buffer
  end.

(** A call on the stream's own codec *)
Definition codec_next_frame : tact (option KtpFrame) :=
  st ← get;
  '(o, c) ← try_ (map_err TransportCrypto (record_next_frame (codec st)));
  _ ← put (set_codec c st);
  mret o.

Definition codec_push (chunk : list byte) : tact unit :=
  st ← get;
  c ← try_ (map_err TransportCrypto (record_push (codec st) chunk));
  put (set_codec c st).

Definition codec_next_frames_into (max_frames : N) (frames : list KtpFrame)
    : tact (N * list KtpFrame) :=
  st ← get;
  let '(r, c, frames) := record_next_frames_into (codec st) max_frames frames in
  _ ← put (set_codec c st);
  count ← try_ (map_err TransportCrypto r);
  mret (count, frames).

Definition set_reads (rs : list io_read) (st : KtpEncryptedStream) : KtpEncryptedStream :=
  set_stream (mkIo rs (io_writes (stream st)) (io_written (stream st))) st.

(** The loop of the two receiving methods: [attempt], and on [None] one more read
    pushed into the codec.  It runs until the reads on hand are used up. *)
Fixpoint read_loop {B} (reads : list io_read) (attempt : tact (option B)) : tact B :=
  mbind (M:=tact) (fun o =>
  match o with
  | Some b => mret b
  | None =>
      match reads with
      | [] => wait
      | r :: rs =>
          _ ← modify (set_reads rs);
          match r with
          | ReadFail e => fail (TransportIo e)
          | ReadBytes [] => fail TransportClosed
          | ReadBytes bs => _ ← codec_push bs; read_loop rs attempt
          end
      end
  end) attempt.

(** ktp_transport.rs [KtpEncryptedStream::next_frame] *)
Definition next_frame : tact KtpFrame := fun st =>
  read_loop (io_reads (stream st)) codec_next_frame st.

(** ktp_transport.rs [KtpEncryptedStream::next_frames_into] (the vector is returned
    with the count) *)
Definition next_frames_into (max_frames : N) (frames : list KtpFrame)
    : tact (N * list KtpFrame) :=
  let frames := [] in
  if bool_decide (max_frames = 0) then mret (0, frames) else fun st =>
  read_loop (io_reads (stream st))
    ('(frame_count, frames) ← codec_next_frames_into max_frames frames;
     if bool_decide (0 < frame_count) then mret (Some (frame_count, frames)) else mret None) st.

(** ktp_transport.rs [KtpEncryptedStream::next_frames] *)
Definition next_frames (max_frames : N) : tact (list KtpFrame) :=
  '(_, frames) ← next_frames_into max_frames [];
  mret frames.
End streams.

(** ktp_transport.rs [KtpEncryptedTcpRelayStats] *)
Record KtpEncryptedTcpRelayStats := mkRelayStats {
  frames_left_to_right : N;
  frames_right_to_left : N;
  batches_left_to_right : N;
  batches_right_to_left : N;
  max_batch_frames_left_to_right : N;
  max_batch_frames_right_to_left : N;
}.

(** [+=] on a [u64]: a panic on overflow *)
Definition add_u64 {E} (a b : N) : result E N := expect (checked_add U64_MAX a b).

(** ktp_transport.rs [KtpEncryptedTcpRelayStats::record_left_to_right_batch] *)
Definition record_left_to_right_batch {E} (s : KtpEncryptedTcpRelayStats) (frames : N)
    : result E KtpEncryptedTcpRelayStats :=
  if bool_decide (frames = 0) then Ok s else
  f ← add_u64 (frames_left_to_right s) frames;
  b ← add_u64 (batches_left_to_right s) 1;
  Ok (mkRelayStats f (frames_right_to_left s) b (batches_right_to_left s)
        (N.max (max_batch_frames_left_to_right s) frames) (max_batch_frames_right_to_left s)).

(** ktp_transport.rs [KtpEncryptedTcpRelayStats::record_right_to_left_batch] *)
Definition record_right_to_left_batch {E} (s : KtpEncryptedTcpRelayStats) (frames : N)
    : result E KtpEncryptedTcpRelayStats :=
  if bool_decide (frames = 0) then Ok s else
  f ← add_u64 (frames_right_to_left s) frames;
  b ← add_u64 (batches_right_to_left s) 1;
  Ok (mkRelayStats (frames_left_to_right s) f (batches_left_to_right s) b
        (max_batch_frames_left_to_right s) (N.max (max_batch_frames_right_to_left s) frames)).

(** ktp_transport.rs [KtpEncryptedTcpFrameRelay] *)
Record KtpEncryptedTcpFrameRelay := mkRelay {
  left : KtpEncryptedStream;
  right : KtpEncryptedStream;
  left_batch : list KtpFrame;
  right_batch : list KtpFrame;
  stats : KtpEncryptedTcpRelayStats;
}.

(** ktp_transport.rs [KTP_RELAY_BATCH_FRAMES] *)
Definition KTP_RELAY_BATCH_FRAMES : N := 64.

(** ktp_transport.rs [KtpEncryptedTcpFrameRelay::new] *)
Definition relay_new (left right : KtpEncryptedStream) : KtpEncryptedTcpFrameRelay :=
  mkRelay left right [] [] (mkRelayStats 0 0 0 0 0 0).

Definition set_left (l : KtpEncryptedStream) (r : KtpEncryptedTcpFrameRelay) :=
  mkRelay l (right r) (left_batch r) (right_batch r) (stats r).
Definition set_right (x : KtpEncryptedStream) (r : KtpEncryptedTcpFrameRelay) :=
  mkRelay (left r) x (left_batch r) (right_batch r) (stats r).
Definition set_left_batch (b : list KtpFrame) (r : KtpEncryptedTcpFrameRelay) :=
  mkRelay (left r) (right r) b (right_batch r) (stats r).
Definition set_right_batch (b : list KtpFrame) (r : KtpEncryptedTcpFrameRelay) :=
  mkRelay (left r) (right r) (left_batch r) b (stats r).
Definition set_stats (s : KtpEncryptedTcpRelayStats) (r : KtpEncryptedTcpFrameRelay) :=
  mkRelay (left r) (right r) (left_batch r) (right_batch r) s.

Abbreviation ract := (act KtpEncryptedTcpFrameRelay KtpTcpTransportError).

Section relay.
Context `{A : Aead}.

Definition on_left {B} (m : tact B) : ract B := on_field left set_left m.
Definition on_right {B} (m : tact B) : ract B := on_field right set_right m.
Definition record_batch
    (f : KtpEncryptedTcpRelayStats → N → result KtpTcpTransportError KtpEncryptedTcpRelayStats)
    (n : N) : ract unit :=
  r ← get; s ← try_ (f (stats r) n); modify (set_stats s).

(** ktp_transport.rs [KtpEncryptedTcpFrameRelay::relay_next_left_to_right] *)
Definition relay_next_left_to_right : ract KtpFrame :=
  frame ← on_left next_frame;
  _ ← on_right (send_frame frame);
  _ ← record_batch record_left_to_right_batch 1;
  mret frame.

(** ktp_transport.rs [KtpEncryptedTcpFrameRelay::relay_next_right_to_left] *)
Definition relay_next_right_to_left : ract KtpFrame :=
  frame ← on_right next_frame;
  _ ← on_left (send_frame frame);
  _ ← record_batch record_right_to_left_batch 1;
  mret frame.

(** ktp_transport.rs [KtpEncryptedTcpFrameRelay::relay_next_left_to_right_batch] *)
Definition relay_next_left_to_right_batch (max_frames : N) : ract N :=
  r ← get;
  '(frame_count, frames) ← on_left (next_frames_into max_frames (left_batch r));
  _ ← modify (set_left_batch frames);
  _ ← on_right (send_frames frames);
  _ ← record_batch record_left_to_right_batch frame_count;
  mret frame_count.

(** ktp_transport.rs [KtpEncryptedTcpFrameRelay::relay_next_right_to_left_batch] *)
Definition relay_next_right_to_left_batch (max_frames : N) : ract N :=
  r ← get;
  '(frame_count, frames) ← on_right (next_frames_into max_frames (right_batch r));
  _ ← modify (set_right_batch frames);
  _ ← on_left (send_frames frames);
  _ ← record_batch record_right_to_left_batch frame_count;
  mret frame_count.

(** ktp_transport.rs [KtpEncryptedTcpFrameRelay::relay_bidirectional_rounds] *)
Definition relay_bidirectional_rounds (rounds : N) : ract KtpEncryptedTcpRelayStats :=
  _ ← repeat_n (N.to_nat rounds)
        (_ ← relay_next_left_to_right_batch KTP_RELAY_BATCH_FRAMES;
         _ ← relay_next_right_to_left_batch KTP_RELAY_BATCH_FRAMES;
         mret tt);
  r ← get;
  mret (stats r).
End relay.

(** ** Sending *)
Section sending.
Context `{A : Aead} `{L : !AeadLaws A}.
Implicit Types st : KtpEncryptedStream.

Definition sendable (f : KtpFrame) : Prop :=
  frame_valid f ∧ len (payload f) ≤ KTP_MAX_PAYLOAD_LEN.

Lemma seal_into_run call f st :
  seal_into call f st
  = let '(r, s, b) := call (seal st) f (write_buffer st) in
    (set_seal_buffer s b st,
     match r with Ok a => Done a | Err e => Fail (TransportCrypto e) | Panic => Crash end).
Proof.
  unfold seal_into. cbv [mbind act_bind get put try_].
  by destruct (call _ _ _) as [[[]? ]?].
Qed.

(** Sealing a batch into the write buffer is sealing its frames one by one. *)
Lemma for_each_seal fs st rs s :
  seal_sequence (seal st) + len fs ≤ U64_MAX → Forall sendable fs →
  seal_frames (seal st) fs = (Ok rs, s) →
  for_each fs (seal_into append_sealed_frame) st
  = (set_seal_buffer s (write_buffer st ++ concat rs) st, Done tt).
Proof.
  intros Hn Hfs. revert st rs s Hn.
  induction Hfs as [|f fs [Hv Hp] Hfs IH]; intros st rs s Hn Hs; cbn [for_each seal_frames] in *.
  { apply pair_eq in Hs as [[= <-] <-]. cbn [concat]. rewrite app_nil_r. by destruct st. }
  rewrite len_cons in Hn.
  destruct (seal_frame_sealed (seal st) f) as (r & Hr & Hsf); [lia|done..|].
  rewrite Hsf in Hs. destruct (seal_frames (seal_next (seal st)) fs) as [[rs'| |] s'] eqn:Hrs;
    cbn in Hs; [|done..]. apply pair_eq in Hs as [[= <-] <-].
  unfold mbind, act_bind. rewrite seal_into_run.
  rewrite (append_sealed_frame_ok _ _ _ r) by (done || lia).
  rewrite (IH _ rs' s'); [|cbn; lia|done]. cbn. by rewrite <- app_assoc.
Qed.

Lemma seal_frames_ok key dir n fs :
  n + len fs ≤ U64_MAX → Forall sendable fs →
  ∃ rs, seal_frames (mkSeal key dir n) fs = (Ok rs, mkSeal key dir (n + len fs)).
Proof.
  intros Hn Hfs. revert n Hn. induction Hfs as [|f fs [Hv Hp] Hfs IH]; intros n Hn.
  { exists []. change (len (@nil KtpFrame)) with 0. by rewrite N.add_0_r. }
  rewrite len_cons in *. cbn [seal_frames].
  destruct (seal_frame_sealed (mkSeal key dir n) f) as (r & Hr & ->); [cbn; lia|done..|].
  destruct (IH (n + 1)) as (rs & Hrs); [lia|]. exists (r :: rs).
  unfold seal_next; cbn [seal_key seal_direction seal_sequence]. rewrite Hrs. step_ok.
  by rewrite N.add_assoc.
Qed.

(** The next write succeeds. *)
Definition write_ready (io : Io) : Prop :=
  match io_writes io with [] | WriteOk :: _ => True | _ => False end.

Lemma flush_buffer_ok st :
  write_ready (stream st) →
  flush_buffer st
  = (set_stream (mkIo (io_reads (stream st)) (tail (io_writes (stream st)))
                      (io_written (stream st) ++ write_buffer st)) st, Done tt).
Proof.
  unfold write_ready, flush_buffer, on_field, write_flush. cbv [mbind act_bind get].
  by destruct (io_writes (stream st)) as [|[]].
Qed.

Lemma send_frames_ok fs st :
  seal_sequence (seal st) + len fs ≤ U64_MAX → Forall sendable fs → fs ≠ [] →
  write_ready (stream st) →
  ∃ rs s st', seal_frames (seal st) fs = (Ok rs, s) ∧ send_frames fs st = (st', Done tt)
    ∧ io_written (stream st') = io_written (stream st) ++ concat rs
    ∧ io_reads (stream st') = io_reads (stream st)
    ∧ seal st' = s ∧ codec st' = codec st.
Proof.
  intros Hn Hfs Hne Hw. destruct st as [io [key dir n] c b]; cbn in Hn, Hw.
  destruct (seal_frames_ok key dir n fs Hn Hfs) as (rs & Hrs).
  exists rs. eexists _, _. split; [exact Hrs|].
  destruct fs as [|f fs]; [done|]. unfold send_frames.
  unfold mbind at 1, act_bind at 1, modify. unfold mbind, act_bind.
  erewrite for_each_seal by done. rewrite flush_buffer_ok by done. by split_and!.
Qed.

(** A batch whose frame after [good] is refused: nothing is written, but the counter
    has advanced over the good frames. *)
Lemma send_frames_partial good bad rest st e :
  seal_sequence (seal st) + len good < U64_MAX → Forall sendable good →
  validate_frame bad = Err e →
  ∃ st', send_frames (good ++ bad :: rest) st = (st', Fail (TransportCrypto (ktp_error e)))
    ∧ stream st' = stream st ∧ codec st' = codec st
    ∧ seal st' = mkSeal (seal_key (seal st)) (seal_direction (seal st))
                        (seal_sequence (seal st) + len good).
Proof.
  intros Hn Hg He. destruct st as [io [key dir n] c b]; cbn in Hn |- *.
  assert (∀ b n, n + len good < U64_MAX → ∃ b',
    for_each (good ++ bad :: rest) (seal_into append_sealed_frame)
      (mkStream io (mkSeal key dir n) c b)
    = (mkStream io (mkSeal key dir (n + len good)) c b', Fail (TransportCrypto (ktp_error e)))) as Hf.
  { clear Hn b n. induction Hg as [|f fs [Hv Hp] Hfs IH]; intros b n Hn; cbn [app for_each].
    - unfold mbind, act_bind. rewrite seal_into_run. unfold append_sealed_frame.
      change (len (@nil KtpFrame)) with 0 in *. cbn [seal seal_sequence].
      rewrite bool_decide_false by lia. unfold append_frame_bytes. rewrite He. cbn.
      rewrite N.add_0_r. eauto.
    - rewrite len_cons in *. unfold mbind at 1, act_bind at 1. rewrite seal_into_run.
      destruct (sealed_Some key dir n f Hp) as (r & Hr & _).
      rewrite (append_sealed_frame_ok _ _ _ r) by (done || (cbn; lia)).
      destruct (IH (b ++ r) (n + 1)) as (b' & Hb'); [lia|]. exists b'.
      unfold seal_next, set_seal_buffer; cbn. rewrite Hb'. by rewrite N.add_assoc. }
  destruct (Hf [] n Hn) as (b' & Hb').
  exists (mkStream io (mkSeal key dir (n + len good)) c b'). split; [|by split_and!].
  unfold send_frames. destruct (good ++ bad :: rest) eqn:Hgb; [by destruct good|]. rewrite <- Hgb in *.
  unfold mbind at 1, act_bind at 1, modify. unfold mbind, act_bind.
  unfold set_seal_buffer; cbn. by rewrite Hb'.
Qed.

Lemma send_frame_ok f st r :
  seal_sequence (seal st) < U64_MAX → sendable f → write_ready (stream st) →
  sealed (seal_key (seal st)) (seal_direction (seal st)) (seal_sequence (seal st)) f = Some r →
  ∃ st', send_frame f st = (st', Done tt) ∧ seal st' = seal_next (seal st)
    ∧ io_written (stream st') = io_written (stream st) ++ r ∧ codec st' = codec st.
Proof.
  intros Hn [Hv Hp] Hw Hr. unfold send_frame. unfold mbind, act_bind. rewrite seal_into_run.
  unfold seal_frame_into. rewrite (append_sealed_frame_ok _ _ _ r) by done.
  rewrite flush_buffer_ok by done. eexists. split; [done|]. by split_and!.
Qed.
End sending.

(** ** Receiving *)
Section receiving.
Context `{A : Aead}.
Implicit Types st : KtpEncryptedStream.

Lemma codec_next_frame_run st :
  codec_next_frame st
  = match record_next_frame (codec st) with
    | Ok (o, c) => (set_codec c st, Done o)
    | Err e => (st, Fail (TransportCrypto e))
    | Panic => (st, Crash)
    end.
Proof.
  unfold codec_next_frame. cbv [mbind act_bind get put try_ mret act_ret].
  by destruct (record_next_frame (codec st)) as [[]| |].
Qed.

Lemma codec_push_run st bs :
  codec_push bs st
  = match record_push (codec st) bs with
    | Ok c => (set_codec c st, Done tt)
    | Err e => (st, Fail (TransportCrypto e))
    | Panic => (st, Crash)
    end.
Proof.
  unfold codec_push. cbv [mbind act_bind get put try_].
  by destruct (record_push (codec st) bs).
Qed.

Lemma set_codec_same st : set_codec (codec st) st = st.
Proof. by destruct st. Qed.

(** Reading until the piece at the front of the stream is complete *)
Lemma next_frame_piece chunks h x s s1 rest p st :
  cd_abs (codec st) s p →
  (∀ k, fp_next s (h ++ k) = Ok (Some (x, s1, k))) →
  p ++ concat chunks = h ++ rest → Forall (.≠ []) chunks →
  io_reads (stream st) = ReadBytes <$> chunks →
  (∀ ch, ch ∈ chunks → len h + len ch ≤ cd_limit (codec st) + 1) →
  ∃ st' p' chunks', read_loop (ReadBytes <$> chunks) codec_next_frame st = (st', Done x)
    ∧ cd_abs (codec st') s1 p' ∧ p' ++ concat chunks' = rest
    ∧ io_reads (stream st') = ReadBytes <$> chunks' ∧ chunks' ⊆ chunks
    ∧ Forall (.≠ []) chunks' ∧ cd_limit (codec st') = cd_limit (codec st).
Proof.
  revert p st. induction chunks as [|ch chs IH]; intros p st Ha Hh Hp Hne Hio Hroom.
  - cbn in Hp. rewrite app_nil_r in Hp. subst p.
    destruct (cd_next_some _ _ _ _ _ _ Ha (Hh rest)) as (c' & Hc' & Ha' & Hl').
    eexists _, rest, []. split.
    { cbn [read_loop fmap list_fmap]. unfold mbind, act_bind. rewrite codec_next_frame_run.
      cbn in Hc'. rewrite Hc'. cbn. reflexivity. }
    split; [exact Ha'|]. cbn [concat]. rewrite app_nil_r. split_and!; try done; constructor.
  - destruct (decide (len h ≤ len p)) as [Hle|Hlt].
    + assert (∃ p', p = h ++ p' ∧ p' ++ concat (ch :: chs) = rest) as (p' & -> & Hrest).
      { destruct (app_eq_inv _ _ _ _ Hp) as [(d & -> & ->)|(d & -> & Hk)]; [by exists d|].
        assert (d = []) as -> by (apply len_0; len_lia). exists []. by rewrite !app_nil_r. }
      destruct (cd_next_some _ _ _ _ _ _ Ha (Hh p')) as (c' & Hc' & Ha' & Hl').
      eexists _, p', (ch :: chs). split.
      { cbn [read_loop fmap list_fmap]. unfold mbind, act_bind. rewrite codec_next_frame_run.
        cbn in Hc'. rewrite Hc'. cbn. reflexivity. }
      split; [exact Ha'|]. by split_and!.
    + assert (fp_next s p = Ok None) as Hn.
      { destruct (app_eq_inv _ _ _ _ Hp) as [(d & -> & _)|(d & -> & _)]; [len_lia|].
        eapply piece_incomplete; [exact Hh|done|]. intros ->. len_lia. }
      pose proof (cd_next_none _ _ _ Ha Hn) as Hc.
      destruct (cd_push_ok _ _ _ ch Ha) as (c' & Hc' & Ha' & Hl').
      { pose proof (Hroom ch ltac:(set_solver)). lia. }
      cbn in Hp. rewrite app_assoc in Hp. inversion Hne as [|? ? Hch Hne']; subst.
      destruct (IH (p ++ ch) (set_codec c' (set_reads (ReadBytes <$> chs) st)))
        as (st' & p' & chunks' & Hr & Ha2 & Hp2 & Hio2 & Hs2 & Hf2 & Hl2); try done.
      { intros ch' Hch'. specialize (Hroom ch' ltac:(set_solver)). cbn in *. lia. }
      exists st', p', chunks'. split; [|split; [exact Ha2|split_and!; try done]].
      * cbn [read_loop fmap list_fmap]. unfold mbind, act_bind. rewrite codec_next_frame_run.
        cbn in Hc. rewrite Hc. rewrite set_codec_same. unfold modify at 1.
        destruct ch as [|b ch]; [done|]. rewrite codec_push_run. cbn in Hc'.
        cbn [codec set_reads set_stream]. rewrite Hc'. exact Hr.
      * set_solver.
      * cbn in *. congruence.
Qed.

(** [n] calls of [next_frame] *)
Fixpoint receive_frames (n : nat) : tact (list KtpFrame) :=
  match n with
  | O => mret []
  | S n => f ← next_frame; fs ← receive_frames n; mret (f :: fs)
  end.

Lemma receive_frames_pieces hs xs s s' chunks p st :
  pieces s hs xs s' → cd_abs (codec st) s p → p ++ concat chunks = concat hs →
  Forall (.≠ []) chunks → io_reads (stream st) = ReadBytes <$> chunks →
  (∀ h ch, h ∈ hs → ch ∈ chunks → len h + len ch ≤ cd_limit (codec st) + 1) →
  ∃ st', receive_frames (length xs) st = (st', Done xs).
Proof.
  intros Hp. revert chunks p st.
  induction Hp as [s|s h x s1 hs xs s2 Hne Hh Hp IH]; intros chunks p st Ha Hc Hf Hio Hroom.
  { by exists st. }
  cbn [length receive_frames]. unfold mbind at 1, act_bind at 1, next_frame.
  destruct (next_frame_piece chunks h x s s1 (concat hs) p st)
    as (st1 & p1 & chunks1 & Hr & Ha1 & Hp1 & Hio1 & Hs1 & Hf1 & Hl1); try done.
  { intros ch Hch. apply Hroom; set_solver. }
  rewrite Hio, Hr.
  destruct (IH chunks1 p1 st1) as (st2 & H2); try done.
  { intros h' ch' ? ?. rewrite Hl1. apply Hroom; set_solver. }
  exists st2. unfold mbind, act_bind. by rewrite H2.
Qed.
End receiving.

(** ** Properties *)
Section properties.
Context `{A : Aead} `{L : !AeadLaws A}.

Lemma seal_frames_app s fs gs rs s' :
  seal_frames s fs = (Ok rs, s') →
  seal_frames s (fs ++ gs)
  = let '(r, s'') := seal_frames s' gs in (ts ← r; Ok (rs ++ ts), s'').
Proof.
  revert s rs. induction fs as [|f fs IH]; intros s rs Hs; cbn [app seal_frames] in *.
  { apply pair_eq in Hs as [[= <-] <-]. by destruct (seal_frames s gs) as [[]?]. }
  destruct (seal_frame s f) as [[r|e|] s1]; [|done..].
  destruct (seal_frames s1 fs) as [[rs1| |] s2] eqn:H1; cbn in Hs; [|done..].
  apply pair_eq in Hs as [[= <-] <-]. rewrite (IH s1 rs1 H1).
  by destruct (seal_frames s2 gs) as [[]?].
Qed.

(** Batches sent one after the other are the frames sealed in one run. *)
Lemma send_batches batches st :
  seal_sequence (seal st) + len (concat batches) ≤ U64_MAX →
  Forall (Forall sendable) batches → io_writes (stream st) = [] →
  ∃ rs s st', seal_frames (seal st) (concat batches) = (Ok rs, s)
    ∧ for_each batches send_frames st = (st', Done tt)
    ∧ io_written (stream st') = io_written (stream st) ++ concat rs.
Proof.
  intros Hn Hb. revert st Hn. induction Hb as [|b bs Hb Hbs IH]; intros st Hn Hw.
  { exists [], (seal st), st. cbn. by rewrite app_nil_r. }
  cbn [concat for_each] in *. rewrite len_app in Hn.
  destruct st as [io [key dir n] c wb]; cbn [seal seal_sequence stream] in *.
  destruct (decide (b = [])) as [->|Hne].
  { destruct (IH (mkStream io (mkSeal key dir n) c wb)) as (rs & s & st' & H1 & H2 & H3);
      [cbn; len_lia|done|]. exists rs, s, st'. by split_and!. }
  destruct (seal_frames_ok key dir n b) as (rs0 & Hrs0); [lia|done|].
  assert (write_ready io) as Hwr by (unfold write_ready; by rewrite Hw).
  destruct (send_frames_ok b (mkStream io (mkSeal key dir n) c wb))
    as (rs1 & s1 & st1 & H1 & H2 & H3 & H4 & H5 & H6); [cbn; lia|done..|].
  cbn [seal] in H1. rewrite Hrs0 in H1. apply pair_eq in H1 as [[= <-] <-].
  assert (io_writes (stream st1) = []) as Hw1.
  { revert H2. unfold send_frames. destruct b; [done|].
    unfold mbind, act_bind, modify. erewrite for_each_seal by (done || cbn; lia).
    rewrite flush_buffer_ok by done. intros [= <-]. cbn. by rewrite Hw. }
  destruct (IH st1) as (rs2 & s2 & st2 & H7 & H8 & H9); [rewrite H5; cbn; lia|done|].
  exists (rs0 ++ rs2), s2, st2. split_and!.
  - rewrite (seal_frames_app _ _ _ _ _ Hrs0). rewrite <- H5, H7. done.
  - unfold mbind, act_bind. by rewrite H2.
  - rewrite H9, H3, concat_app, app_assoc. done.
Qed.
End properties.

(** C1: end to end: whatever batches of admissible frames one end sends, and however
    the network splits the bytes into reads, the other end's [next_frame] calls return
    exactly those frames in order, provided the receiver's buffer limit leaves room
    for one record and one read. *)
Theorem encrypted_stream_delivers {A : Aead} {L : AeadLaws A} key dir dir' mp mb mp' mb' batches chunks :
  mb < USIZE_MAX → len (concat batches) ≤ U64_MAX →
  Forall (Forall (fun f => frame_admissible mp f ∧ record_len f ≤ mb)) batches →
  ∃ st_a, for_each batches send_frames (from_io (mkIo [] [] []) key dir dir' mp' mb')
          = (st_a, Done tt)
    ∧ (concat chunks = io_written (stream st_a) → Forall (.≠ []) chunks →
       (∀ f ch, f ∈ concat batches → ch ∈ chunks → record_len f + len ch ≤ mb + 1) →
       ∃ st_b, receive_frames (length (concat batches))
                 (from_io (mkIo (ReadBytes <$> chunks) [] []) key dir' dir mp mb)
               = (st_b, Done (concat batches))).
Proof.
  intros Hmb Hn Hb.
  destruct (send_batches batches (from_io (mkIo [] [] []) key dir dir' mp' mb'))
    as (rs & s & st_a & Hrs & Hsend & Hw); [done| |done|].
  { eapply Forall_impl; [exact Hb|]. intros b Hfs. eapply Forall_impl; [exact Hfs|].
    intros f [(_ & ? & ?) _]. split; [done|lia]. }
  exists st_a. split; [done|]. rewrite Hw. intros Hc Hne Hroom.
  destruct (pieces_sealed key dir (N.min mp KTP_MAX_PAYLOAD_LEN) mb (concat batches) 0 rs s)
    as [Hp Hl]; [|done|done|].
  { apply Forall_concat. eapply Forall_impl; [exact Hb|]. intros b Hfs.
    eapply Forall_impl; [exact Hfs|]. intros f [(?&?&?) ?]. split; [|done].
    unfold frame_admissible. split_and!; done || lia. }
  eapply (receive_frames_pieces rs (concat batches) _ _ chunks []); [exact Hp| |exact Hc|done|done|].
  - cbn. unfold buffer_inv; cbn. change (len (@nil byte)) with 0. split_and!; done || lia.
  - intros r ch [i Hr]%list_elem_of_lookup Hch. cbn.
    destruct (Forall2_lookup_l _ _ _ _ _ Hl Hr) as (f & Hf & ->).
    apply Hroom; [by eapply list_elem_of_lookup_2|done].
Qed.

(** A batch that fails on one of its frames loses the stream: nothing of it is
    written, but the sender's sequence counter has advanced over the frames before
    the bad one, so the next frame it sends, though valid and written, is refused by
    the peer, which still expects the old number. *)
Theorem send_frames_failure_desyncs {A : Aead} {L : AeadLaws A} good bad rest g st e mp :
  good ≠ [] → Forall sendable good → validate_frame bad = Err e → sendable g →
  seal_sequence (seal st) + len good + 1 ≤ U64_MAX →
  io_writes (stream st) = [] →
  ∃ st1 st2 r,
    send_frames (good ++ bad :: rest) st = (st1, Fail (TransportCrypto (ktp_error e)))
    ∧ io_written (stream st1) = io_written (stream st)
    ∧ send_frame g st1 = (st2, Done tt)
    ∧ io_written (stream st2) = io_written (stream st) ++ r
    ∧ open_record (mkOpen (seal_key (seal st)) (seal_direction (seal st)) mp (seal_sequence (seal st))) r
      = Err (sequence_mismatch (seal_sequence (seal st)) (seal_sequence (seal st) + len good)).
Proof.
  intros Hne Hg He Hs Hn Hw.
  destruct (send_frames_partial good bad rest st e) as (st1 & H1 & Hio & _ & Hse); [lia|done..|].
  set (n := seal_sequence (seal st)) in *.
  destruct (sealed_Some (seal_key (seal st)) (seal_direction (seal st)) (n + len good) g)
    as (r & Hr & Hl); [apply Hs|].
  destruct (send_frame_ok g st1 r) as (st2 & H2 & _ & Hw2 & _).
  { rewrite Hse; cbn. lia. } { done. } { unfold write_ready. by rewrite Hio, Hw. }
  { by rewrite Hse. }
  exists st1, st2, r. rewrite Hio in *. split_and!; try done.
  edestruct sealed_header as [Hh _]; [| |exact Hr|]; [lia|apply Hs|].
  unfold open_record; cbn [open_next_sequence open_direction].
  assert (0 < len good) by (destruct good; [done|len_lia]).
  rewrite bool_decide_false by lia. rewrite Hh. step_ok. cbn [sequence].
  by rewrite bool_decide_true by lia.
Qed.

(** ** The relay *)
Section relay_lemmas.
Context `{A : Aead}.

Lemma record_frames_count room c frames r c' frames' :
  record_frames room c frames = (r, c', frames') →
  len frames ≤ len frames' ≤ len frames + N.of_nat room.
Proof.
  revert c frames. induction room as [|room IH]; intros c frames H; cbn [record_frames] in H.
  { injection H as <- <- <-. lia. }
  destruct (record_next_frame c) as [[[f|] c1]|e|]; try (injection H as <- <- <-; lia).
  apply IH in H. rewrite len_app, len_cons in H. change (len (@nil KtpFrame)) with 0 in H. lia.
Qed.

Lemma read_loop_frames reads max st st' n frames :
  read_loop reads
    ('(frame_count, frames) ← codec_next_frames_into max [];
     if bool_decide (0 < frame_count) then mret (Some (frame_count, frames)) else mret None) st
  = (st', Done (n, frames)) →
  n = len frames ∧ 0 < n ≤ max ∧ seal st' = seal st
  ∧ io_writes (stream st') = io_writes (stream st)
  ∧ io_written (stream st') = io_written (stream st).
Proof.
  revert st. induction reads as [|rd reads IH]; intros st H; cbn [read_loop] in H;
    apply act_bind_Done in H as (st1 & o & Ha & H);
    apply act_bind_Done in Ha as (st2 & [n1 fs1] & Hc & Ha);
    unfold codec_next_frames_into, record_next_frames_into in Hc;
    cbv [mbind act_bind get put try_ mret act_ret] in Hc;
    destruct (record_frames (N.to_nat max) (codec st) []) as [[[[]| |] c] fs] eqn:Hf;
    cbn in Hc; try done; injection Hc as <- <- <-;
    apply record_frames_count in Hf; change (len (@nil KtpFrame)) with 0 in Hf;
    revert Ha; case_bool_decide; intros [= <- <-].
  all: try (injection H as <- <- <-; cbn; split_and!; done || lia).
  - done.
  - cbn in H. unfold mbind at 1, act_bind at 1, modify in H. destruct rd as [[|b bs]|e]; [done| |done].
    apply act_bind_Done in H as (st3 & [] & Hp & H). rewrite codec_push_run in Hp.
    destruct (record_push _ _); [|done..]. injection Hp as <-. apply IH in H. exact H.
Qed.

Lemma next_frames_into_Done max fs0 st st' n frames :
  next_frames_into max fs0 st = (st', Done (n, frames)) → max ≠ 0 →
  n = len frames ∧ 0 < n ≤ max ∧ seal st' = seal st
  ∧ io_writes (stream st') = io_writes (stream st)
  ∧ io_written (stream st') = io_written (stream st).
Proof.
  intros H Hm. unfold next_frames_into in H. rewrite bool_decide_false in H by done.
  by eapply read_loop_frames.
Qed.
End relay_lemmas.

Section relay_forwarding.
Context `{A : Aead} `{L : !AeadLaws A}.

Lemma for_each_seal_Done fs st st' :
  for_each fs (seal_into append_sealed_frame) st = (st', Done tt) →
  seal_sequence (seal st) ≤ U64_MAX →
  ∃ rs, seal_frames (seal st) fs = (Ok rs, seal st')
    ∧ write_buffer st' = write_buffer st ++ concat rs
    ∧ stream st' = stream st ∧ codec st' = codec st ∧ seal_sequence (seal st') ≤ U64_MAX.
Proof.
  revert st. induction fs as [|f fs IH]; intros st H Hle; cbn [for_each seal_frames] in *.
  { injection H as <-. exists []. cbn. by rewrite app_nil_r. }
  apply act_bind_Done in H as (st1 & [] & H1 & H). rewrite seal_into_run in H1.
  destruct (append_sealed_frame _ _ _) as [[[[]| |] s] b] eqn:Ha; [|done..]. injection H1 as <-.
  apply append_sealed_frame_inv in Ha as (Hlt & Hv & Hp & -> & r & Hr & ->); [|done].
  destruct (seal_frame_sealed (seal st) f) as (r' & Hr' & ->); [done..|].
  assert (r' = r) as -> by congruence.
  apply IH in H as (rs & Hrs & Hb & Hst & Hc & Hq); [|cbn; lia].
  exists (r :: rs). cbn in Hrs. rewrite Hrs. split; [done|]. rewrite Hb. cbn.
  rewrite <- app_assoc. by split_and!.
Qed.

Lemma send_frames_Done fs st st' :
  send_frames fs st = (st', Done tt) → seal_sequence (seal st) ≤ U64_MAX → fs ≠ [] →
  ∃ rs, seal_frames (seal st) fs = (Ok rs, seal st')
    ∧ io_written (stream st') = io_written (stream st) ++ concat rs
    ∧ codec st' = codec st ∧ io_reads (stream st') = io_reads (stream st)
    ∧ seal_sequence (seal st') ≤ U64_MAX.
Proof.
  intros H Hle Hne. unfold send_frames in H. destruct fs as [|f fs]; [done|].
  apply act_bind_Done in H as (st1 & [] & [= <-] & H).
  apply act_bind_Done in H as (st2 & [] & Hf & H).
  apply for_each_seal_Done in Hf as (rs & Hrs & Hb & Hst & Hc & Hq); [|done].
  unfold flush_buffer, on_field, write_flush in H. cbv [mbind act_bind get] in H.
  cbn in Hst, Hb, Hrs. exists rs. rewrite Hst, Hb in H.
  destruct (io_writes (stream st)) as [|[]]; cbn in H; try done; injection H as <-; by split_and!.
Qed.

Lemma record_batch_Done
    (f : KtpEncryptedTcpRelayStats → N → result KtpTcpTransportError KtpEncryptedTcpRelayStats)
    n r r' :
  record_batch f n r = (r', Done tt) →
  ∃ s, f (stats r) n = Ok s ∧ r' = set_stats s r.
Proof.
  unfold record_batch. cbv [mbind act_bind get try_ modify].
  destruct (f (stats r) n) as [s| |]; [|done..]. intros [= <-]. eauto.
Qed.

Lemma on_field_Done {S T E B} (g : S → T) (st : T → S → S) (m : act T E B) s s' b :
  on_field g st m s = (s', Done b) → ∃ t, m (g s) = (t, Done b) ∧ s' = st t s.
Proof. unfold on_field. destruct (m (g s)) as [t o]. intros [= <- ->]. eauto. Qed.

(** What one left-to-right batch did, when it succeeded *)
Lemma relay_batch_Done max r r' n :
  relay_next_left_to_right_batch max r = (r', Done n) →
  max ≠ 0 → seal_sequence (seal (right r)) ≤ U64_MAX →
  n = len (left_batch r') ∧ 0 < n ≤ max
  ∧ (∃ rs, seal_frames (seal (right r)) (left_batch r') = (Ok rs, seal (right r'))
       ∧ io_written (stream (right r')) = io_written (stream (right r)) ++ concat rs)
  ∧ io_written (stream (left r')) = io_written (stream (left r))
  ∧ seal (left r') = seal (left r)
  ∧ seal_sequence (seal (right r')) ≤ U64_MAX
  ∧ record_left_to_right_batch (E:=KtpTcpTransportError) (stats r) n = Ok (stats r').
Proof.
  intros H Hm Hle. unfold relay_next_left_to_right_batch in H.
  apply act_bind_Done in H as (r0 & x & [= <- <-] & H).
  apply act_bind_Done in H as (r1 & [k fs] & H1 & H).
  apply on_field_Done in H1 as (lst & H1 & ->).
  apply next_frames_into_Done in H1 as (-> & Hk & Hse & _ & Hwl); [|done].
  apply act_bind_Done in H as (r2 & [] & [= <-] & H).
  apply act_bind_Done in H as (r3 & [] & H3 & H).
  apply on_field_Done in H3 as (rst & H3 & ->).
  apply send_frames_Done in H3 as (rs & Hrs & Hw & Hc & Hio & Hq); [|done|].
  2:{ intros ->. change (len (@nil KtpFrame)) with 0 in Hk. lia. }
  apply act_bind_Done in H as (r4 & [] & H4 & [= <- <-]).
  apply record_batch_Done in H4 as (s & Hs & ->). cbn in *.
  split_and!; try done; lia || eauto.
Qed.
End relay_forwarding.

(** The relay is transparent: a successful batch re-seals exactly the frames it
    opened, in order and with the other side's own consecutive sequence numbers,
    writes exactly those records, and counts exactly those frames. *)
Theorem relay_batch_forwards {A : Aead} {L : AeadLaws A} max r r' n :
  relay_next_left_to_right_batch max r = (r', Done n) →
  max ≠ 0 → seal_sequence (seal (right r)) ≤ U64_MAX →
  n = len (left_batch r') ∧ 0 < n ≤ max
  ∧ (∃ rs, seal_frames (seal (right r)) (left_batch r') = (Ok rs, seal (right r'))
       ∧ io_written (stream (right r')) = io_written (stream (right r)) ++ concat rs)
  ∧ io_written (stream (left r')) = io_written (stream (left r))
  ∧ frames_left_to_right (stats r') = frames_left_to_right (stats r) + n
  ∧ batches_left_to_right (stats r') = batches_left_to_right (stats r) + 1
  ∧ max_batch_frames_left_to_right (stats r') = N.max (max_batch_frames_left_to_right (stats r)) n.
Proof.
  intros H Hm Hle. apply relay_batch_Done in H as (Hn & Hk & Hrs & Hw & _ & _ & Hs); [|done..].
  unfold record_left_to_right_batch, add_u64, checked_add in Hs.
  rewrite bool_decide_false in Hs by lia.
  repeat case_bool_decide; cbn in Hs; try done.
  apply (inj Ok) in Hs. rewrite <- Hs. split_and!; try done; lia.
Qed.

(** ** Witnesses *)
#[local] Existing Instance ToyCipher.cipher.
#[local] Existing Instance ToyCipher.laws.

Module RelayDemo.
Definition batches : list (list KtpFrame) :=
  [[Samples.data_frame; Samples.close_frame]; [Samples.data_frame]].
Definition sender : KtpEncryptedStream :=
  from_io (mkIo [] [] []) [x07] ClientToRelay RelayToClient 64 256.
Definition bytes : list byte := io_written (stream (for_each batches send_frames sender).1).
Definition chunks : list (list byte) := [take 50 bytes; drop 50 bytes].
(** The relay between a client whose first batch has arrived and a silent peer *)
Definition relay : KtpEncryptedTcpFrameRelay :=
  relay_new (from_io (mkIo [ReadBytes bytes] [] []) [x07] RelayToClient ClientToRelay 64 4096)
            (from_io (mkIo [] [] []) [x09] ClientToRelay RelayToClient 64 4096).
End RelayDemo.

Lemma encrypted_stream_delivers_witness :
  ∃ st_b, receive_frames 3 (from_io (mkIo (ReadBytes <$> RelayDemo.chunks) [] [])
                              [x07] RelayToClient ClientToRelay 64 256)
          = (st_b, Done (concat RelayDemo.batches)).
Proof.
  destruct (encrypted_stream_delivers [x07] ClientToRelay RelayToClient 64 256 64 256
              RelayDemo.batches RelayDemo.chunks) as (st & Hs & H).
  - by vm_compute.
  - by vm_compute.
  - repeat constructor; by vm_compute.
  - apply H.
    + unfold RelayDemo.chunks. cbn [concat]. rewrite app_nil_r, take_drop.
      unfold RelayDemo.bytes, RelayDemo.sender. by rewrite Hs.
    + repeat constructor; vm_compute; discriminate.
    + intros f ch Hf Hch.
      change (concat RelayDemo.batches)
        with [Samples.data_frame; Samples.close_frame; Samples.data_frame] in Hf.
      unfold RelayDemo.chunks in Hch. list_cases; by vm_compute.
Defined.

Lemma send_frames_failure_desyncs_witness :
  ∃ st1 st2 r,
    send_frames [Samples.data_frame; Samples.bad_frame] RelayDemo.sender
      = (st1, Fail (TransportCrypto (ktp_error (InvalidLeg x00))))
    ∧ io_written (stream st1) = []
    ∧ send_frame Samples.close_frame st1 = (st2, Done tt)
    ∧ io_written (stream st2) = [] ++ r
    ∧ open_record (mkOpen [x07] ClientToRelay 64 0) r = Err (sequence_mismatch 0 1).
Proof.
  apply (send_frames_failure_desyncs [Samples.data_frame] Samples.bad_frame [] Samples.close_frame
           RelayDemo.sender);
    [discriminate|repeat constructor; by vm_compute|by vm_compute|repeat constructor; by vm_compute
    |by vm_compute|by vm_compute].
Defined.

Lemma relay_batch_forwards_witness :
  ∃ r', relay_next_left_to_right_batch 2 RelayDemo.relay = (r', Done 2)
    ∧ len (left_batch r') = 2.
Proof.
  assert ((relay_next_left_to_right_batch 2 RelayDemo.relay).2 = Done 2) as Ho by (vm_compute; reflexivity).
  destruct (relay_next_left_to_right_batch 2 RelayDemo.relay) as [r' o] eqn:H. cbn [snd] in Ho. subst o.
  destruct (relay_batch_forwards 2 RelayDemo.relay r' 2 H) as (Hn & _);
    [discriminate|by vm_compute|]. exists r'. split; [reflexivity|by symmetry].
Defined.
