(* ===== verification/Transport.v ===== *)
(** * Backend URLs, messages and transport errors
    ([src/src/protocol.rs] and the pure part of [src/src/transport.rs])

    The URLs the agent connects to, the token it puts into them and reads back from
    them, how a failed response is classified, and how a decoded JSON message of the
    backend becomes a [BackendMessage].  JSON decoding ([serde_json]) and IDNA
    ([idna::domain_to_ascii]) are parameters; the sockets and the HTTP client are not
    modelled here. *)
From S2P Require Import Prelude RustStd RustNet.
From Stdlib Require Import Strings.Byte.
From Stdlib Require Strings.String.
Local Open Scope N_scope.

(** transport.rs [TransportError] *)
Inductive TransportError :=
  | EmptyEndpoint
  | EmptyToken
  | UnsupportedScheme (scheme : string)
  | InvalidClientToken (operation token : string) (status_code : N) (detail : string)
  | RequestFailed (message : string)
  | SocketClosed.
#[export] Instance TransportError_eq_dec : EqDecision TransportError.
Proof. solve_decision. Defined.

(** transport.rs [TransportError::fmt] *)
Definition TransportError_to_string (e : TransportError) : string :=
  match e with
  | EmptyEndpoint => "endpoint is required"
  | EmptyToken => "token is required"
  | UnsupportedScheme scheme => "unsupported endpoint scheme: " +:+ scheme
  | InvalidClientToken operation _ status_code detail =>
      if is_empty detail
      then "invalid client token during " +:+ operation +:+ ": status=" +:+ pretty status_code
      else "invalid client token during " +:+ operation +:+ ": " +:+ detail
  | RequestFailed message => "request failed: " +:+ message
  | SocketClosed => "websocket closed"
  end.

(** transport.rs [HeaderPair] *)
Definition HeaderPair : Type := string * string.

(** ** Percent encoding *)
Definition is_unreserved (b : byte) : bool :=
  let c := u8 b in
  ((65 <=? c) && (c <=? 90)) || ((97 <=? c) && (c <=? 122)) || ((48 <=? c) && (c <=? 57))
  || (c =? 45) || (c =? 46) || (c =? 95) || (c =? 126).

(** One digit of [{:02X}] *)
Definition upper_hex (n : N) : byte := byte_of_N (if n <? 10 then 48 + n else 55 + n).

Definition percent_encode_byte (b : byte) : list byte :=
  if is_unreserved b then [b] else [x25; upper_hex (u8 b / 16); upper_hex (u8 b mod 16)].

(** transport.rs [percent_encode] *)
Definition percent_encode (value : string) : string :=
  str_of (mbind percent_encode_byte (bytes_of value)).

(** transport.rs [hex_value] *)
Definition hex_value (b : byte) : option N :=
  let c := u8 b in
  if (48 <=? c) && (c <=? 57) then Some (c - 48)
  else if (97 <=? c) && (c <=? 102) then Some (c - 97 + 10)
  else if (65 <=? c) && (c <=? 70) then Some (c - 65 + 10)
  else None.

(** The loop of [percent_decode]: [bytes[index..]] is the list *)
Fixpoint percent_decode_bytes (l : list byte) : list byte :=
  match l with
  | [] => []
  | b :: l' =>
      match l' with
      | h :: lo :: rest =>
          if bool_decide (b = x25) then
            match hex_value h, hex_value lo with
            | Some hi, Some lo' => byte_of_N (N.lor (N.shiftl hi 4) lo') :: percent_decode_bytes rest
            | _, _ => b :: percent_decode_bytes l'
            end
          else b :: percent_decode_bytes l'
      | _ => b :: percent_decode_bytes l'
      end
  end.

(** transport.rs [percent_decode] *)
Definition percent_decode (value : string) : string :=
  from_utf8_lossy (percent_decode_bytes (bytes_of value)).

(** transport.rs [token_from_query] *)
Definition token_from_query (query : string) : string :=
  default ""%string
    (head (omap (fun part =>
             '(key, value) ← split_once "=" part;
             if bool_decide (key = "token"%string) then Some (percent_decode value) else None)
           (split [[x26]] query))).

(** transport.rs [token_from_url] *)
Definition token_from_url (url : string) : string :=
  match split_once "?" url with
  | Some (_, query) => token_from_query query
  | None => ""
  end.

(** transport.rs [indicates_invalid_client_token_response] *)
Definition indicates_invalid_client_token_response (status_code : N) (body : string) : bool :=
  if negb (status_code =? 401) then false else
  let body := to_ascii_lowercase (trim body) in
  if is_empty body then false
  else contains "invalid token" body || contains "token is required" body
       || contains "failed to validate token" body.

(** transport.rs [classify_client_token_response] *)
Definition classify_client_token_response (operation token : string) (status_code : N)
    (body : string) : TransportError :=
  let detail := trim body in
  if indicates_invalid_client_token_response status_code detail
  then InvalidClientToken operation (trim token) status_code detail
  else if is_empty detail then RequestFailed ("status=" +:+ pretty status_code)
  else RequestFailed ("status=" +:+ pretty status_code +:+ " " +:+ detail).

(** transport.rs [require_non_empty] *)
Definition require_non_empty {E} (value : string) (error : E) : result E string :=
  let value := trim value in
  if is_empty value then Err error else Ok value.

(** transport.rs [normalize_http_base] *)
Definition normalize_http_base (endpoint : string) : result TransportError string :=
  let endpoint := trim_end_matches x2f (trim endpoint) in
  if is_empty endpoint then Err EmptyEndpoint
  else if starts_with "https://" endpoint || starts_with "http://" endpoint then Ok endpoint
  else
    Err (UnsupportedScheme
           (match split_once "://" endpoint with
            | Some (scheme, _) => scheme
            | None => "missing"
            end)).

(** transport.rs [build_basic_info_url] *)
Definition build_basic_info_url (endpoint token : string) : result TransportError string :=
  endpoint ← normalize_http_base endpoint;
  token ← require_non_empty token EmptyToken;
  Ok (endpoint +:+ "/api/clients/uploadBasicInfo?token=" +:+ percent_encode token).

(** ** protocol.rs *)

(** protocol.rs [ProtocolError] *)
Inductive ProtocolError :=
  | PEmptyEndpoint
  | PEmptyToken
  | PEmptyTerminalId
  | PInvalidMessage (error : string)
  | PUnsupportedScheme (scheme : string).

(** protocol.rs [ProtocolError::fmt] *)
Definition ProtocolError_to_string (e : ProtocolError) : string :=
  match e with
  | PEmptyEndpoint => "endpoint is required"
  | PEmptyToken => "token is required"
  | PEmptyTerminalId => "terminal id is required"
  | PInvalidMessage error => "invalid backend message: " +:+ error
  | PUnsupportedScheme scheme => "unsupported endpoint scheme: " +:+ scheme
  end.

(** protocol.rs [percent_encode] (the same function, written twice in the source) *)
Definition protocol_percent_encode (value : string) : string := percent_encode value.

(** protocol.rs [require_non_empty] *)
Definition protocol_require_non_empty (value : string) (error : ProtocolError)
    : result ProtocolError string := require_non_empty value error.

(** protocol.rs [non_empty_string] *)
Definition non_empty_string (value : string) : option string :=
  let value := trim value in
  if is_empty value then None else Some value.

(** [str::matches(':').count()] *)
Definition count_colons (s : string) : nat :=
  length (filter (fun b => b = x3a) (bytes_of s)).

Section protocol.
(** [idna::domain_to_ascii]: [None] when the domain is not valid *)
Context (domain_to_ascii : string → option string).

(** protocol.rs [authority_with_ascii_host] *)
Definition authority_with_ascii_host (authority : string) : string :=
  if starts_with "[" authority then authority else
  let '(host, port) :=
    if bool_decide (count_colons authority = 1%nat)
    then match split_once ":" authority with
         | Some (host, port) => (host, ":" +:+ port)
         | None => (authority, ""%string)
         end
    else (authority, ""%string) in
  if (match parse_ip host with Some _ => true | None => false end) || is_empty host
  then authority
  else default host (domain_to_ascii host) +:+ port.

(** protocol.rs [endpoint_rest_with_ascii_host] *)
Definition endpoint_rest_with_ascii_host (rest : string) : string :=
  let '(authority, suffix) :=
    match split_once "/" rest with
    | Some (authority, suffix) => (authority, "/" +:+ suffix)
    | None => (rest, ""%string)
    end in
  authority_with_ascii_host authority +:+ suffix.

(** protocol.rs [normalize_ws_base] *)
Definition normalize_ws_base (endpoint : string) : result ProtocolError string :=
  let endpoint := trim_end_matches x2f (trim endpoint) in
  if is_empty endpoint then Err PEmptyEndpoint else
  match strip_prefix "https://" endpoint with
  | Some rest => Ok ("wss://" +:+ endpoint_rest_with_ascii_host rest)
  | None =>
  match strip_prefix "http://" endpoint with
  | Some rest => Ok ("ws://" +:+ endpoint_rest_with_ascii_host rest)
  | None =>
  match strip_prefix "wss://" endpoint with
  | Some rest => Ok ("wss://" +:+ endpoint_rest_with_ascii_host rest)
  | None =>
  match strip_prefix "ws://" endpoint with
  | Some rest => Ok ("ws://" +:+ endpoint_rest_with_ascii_host rest)
  | None =>
      Err (PUnsupportedScheme
             (match split_once "://" endpoint with
              | Some (scheme, _) => scheme
              | None => "missing"
              end))
  end end end end.

(** protocol.rs [build_ws_url] *)
Definition build_ws_url (endpoint path : string) (query : list (string * string))
    : result ProtocolError string :=
  base ← normalize_ws_base endpoint;
  let query := join "&" ((fun '(key, value) => key +:+ "=" +:+ percent_encode value) <$> query) in
  Ok (base +:+ path +:+ "?" +:+ query).

(** protocol.rs [build_report_ws_url] *)
Definition build_report_ws_url (endpoint token : string) : result ProtocolError string :=
  token ← require_non_empty token PEmptyToken;
  build_ws_url endpoint "/api/clients/report" [("token"%string, token)].

(** protocol.rs [build_tunnel_control_ws_url] *)
Definition build_tunnel_control_ws_url (endpoint token : string) : result ProtocolError string :=
  token ← require_non_empty token PEmptyToken;
  build_ws_url endpoint "/api/clients/tunnel" [("token"%string, token)].

(** protocol.rs [build_tunnel_data_ws_url] *)
Definition build_tunnel_data_ws_url (endpoint token : string) : result ProtocolError string :=
  token ← require_non_empty token PEmptyToken;
  build_ws_url endpoint "/api/clients/tunnel/data" [("token"%string, token)].

(** protocol.rs [build_terminal_ws_url] *)
Definition build_terminal_ws_url (endpoint token terminal_id : string)
    : result ProtocolError string :=
  token ← require_non_empty token PEmptyToken;
  terminal_id ← require_non_empty terminal_id PEmptyTerminalId;
  build_ws_url endpoint "/api/clients/terminal"
    [("token"%string, token); ("id"%string, terminal_id)].
End protocol.

(** protocol.rs [build_tunnel_data_ktp_tcp_url] *)
Definition build_tunnel_data_ktp_tcp_url (address : string) : result ProtocolError string :=
  address ← require_non_empty address PEmptyEndpoint;
  if starts_with "ktp+tcp://" address then Ok address
  else if starts_with "ktp+tls://" address then Ok address
  else match strip_prefix "tcp://" address with
  | Some rest => Ok ("ktp+tcp://" +:+ rest)
  | None =>
  match strip_prefix "tls://" address with
  | Some rest => Ok ("ktp+tls://" +:+ rest)
  | None => Ok ("ktp+tcp://" +:+ address)
  end end.

(** protocol.rs [BackendMessage] *)
Inductive BackendMessage :=
  | CnConnectivityProbeConfig (enabled : bool) (target : option string)
      (interval_seconds retry_attempts retry_delay_seconds timeout_seconds : Z)
  | Terminal (request_id : string)
  | Exec (task_id command : string)
  | BackendPing (task_id : N) (ping_type target : string)
  | Unknown (message : option string).

(** protocol.rs [RawBackendMessage] *)
Record RawBackendMessage := mkRaw {
  raw_message : option string;
  raw_request_id : option string;
  raw_command : option string;
  raw_task_id : option string;
  raw_ping_task_id : option N;
  raw_ping_type : option string;
  raw_ping_target : option string;
  raw_cn_enabled : option bool;
  raw_cn_target : option string;
  raw_cn_interval : option Z;
  raw_cn_retry_attempts : option Z;
  raw_cn_retry_delay_seconds : option Z;
  raw_cn_timeout_seconds : option Z;
}.

Definition non_blank (o : option string) : bool :=
  match o with Some v => negb (is_empty (trim v)) | None => false end.

Section parse.
(** [serde_json::from_slice] for [RawBackendMessage] *)
Context (raw_from_slice : list byte → result string RawBackendMessage).

(** protocol.rs [parse_backend_message] *)
Definition parse_backend_message (bytes : list byte) : result ProtocolError BackendMessage :=
  raw ← map_err PInvalidMessage (raw_from_slice bytes);
  let message := raw_message raw ≫= non_empty_string in
  if bool_decide (message = Some "cn_connectivity_probe_config"%string) then
    Ok (CnConnectivityProbeConfig
          (default false (raw_cn_enabled raw))
          (raw_cn_target raw ≫= non_empty_string)
          (default 60%Z (raw_cn_interval raw))
          (default 3%Z (raw_cn_retry_attempts raw))
          (default 1%Z (raw_cn_retry_delay_seconds raw))
          (default 5%Z (raw_cn_timeout_seconds raw)))
  else
  let terminal :=
    if bool_decide (message = Some "terminal"%string) || non_blank (raw_request_id raw)
    then raw_request_id raw ≫= non_empty_string
    else None in
  match terminal with
  | Some request_id => Ok (Terminal request_id)
  | None =>
  if bool_decide (message = Some "exec"%string) then
    Ok (Exec (default ""%string (raw_task_id raw ≫= non_empty_string))
             (default ""%string (raw_command raw ≫= non_empty_string)))
  else if bool_decide (message = Some "ping"%string)
          || negb (default 0 (raw_ping_task_id raw) =? 0)
          || non_blank (raw_ping_type raw) || non_blank (raw_ping_target raw)
  then
    Ok (BackendPing (default 0 (raw_ping_task_id raw))
                    (default ""%string (raw_ping_type raw ≫= non_empty_string))
                    (default ""%string (raw_ping_target raw ≫= non_empty_string)))
  else Ok (Unknown message)
  end.

(** transport.rs [parse_socket_message] *)
Definition parse_socket_message (bytes : list byte) : BackendMessage :=
  match parse_backend_message bytes with Ok m => m | _ => Unknown None end.
End parse.

(** ** Percent coding round trip *)
Lemma upper_hex_value n : n < 16 → hex_value (upper_hex n) = Some n.
Proof.
  intros Hn. destruct n as [|p]; [done|].
  do 4 (destruct p as [p|p|]; [| |reflexivity]); lia.
Qed.

Lemma percent_decode_encode_byte b rest :
  percent_decode_bytes (percent_encode_byte b ++ rest) = b :: percent_decode_bytes rest.
Proof.
  unfold percent_encode_byte. destruct (is_unreserved b) eqn:Hb.
  - assert (b ≠ x25) as Hne by (by intros ->). cbn. destruct rest as [|c [|d rest]]; [done..|].
    by rewrite bool_decide_false.
  - cbn [app percent_decode_bytes]. rewrite bool_decide_true by done. pose proof (u8_lt b) as Hlt.
    rewrite !upper_hex_value by (apply N.mod_lt || apply N.Div0.div_lt_upper_bound; lia). f_equal.
    rewrite <- N.land_ones with (n := 4). change (u8 b / 16) with (u8 b / 2 ^ 4).
    rewrite <- N.shiftr_div_pow2. 
    assert (N.lor (N.shiftl (N.shiftr (u8 b) 4) 4) (N.land (u8 b) (N.ones 4)) = u8 b) as ->.
    { rewrite N.lor_comm. apply N.bits_inj. intros i. rewrite N.lor_spec, N.land_spec.
      destruct (decide (i < 4)).
      - rewrite N.ones_spec_low, N.shiftl_spec_low by done. by rewrite andb_true_r, orb_false_r.
      - rewrite N.ones_spec_high, N.shiftl_spec_high', N.shiftr_spec' by lia.
        rewrite andb_false_r. cbn. f_equal. lia. }
    apply byte_of_u8.
Qed.

Lemma percent_decode_encode_bytes l :
  percent_decode_bytes (mbind percent_encode_byte l) = l.
Proof.
  induction l as [|b l IH]; [done|]. cbn [mbind list_bind].
  by rewrite percent_decode_encode_byte, IH.
Qed.

Lemma percent_decode_encode s : str_wf s → percent_decode (percent_encode s) = s.
Proof.
  intros Hs. unfold percent_decode, percent_encode, from_utf8_lossy.
  rewrite bytes_of_str_of, percent_decode_encode_bytes, lossy_bytes_valid by done.
  apply str_of_bytes_of.
Qed.

Lemma percent_encode_clean c s :
  is_unreserved c = false → c ≠ x25 → c ∉ bytes_of (percent_encode s).
Proof.
  intros Hc Hp. unfold percent_encode. rewrite bytes_of_str_of.
  intros (b & Hb & _)%list_elem_of_bind. unfold percent_encode_byte in Hb.
  destruct (is_unreserved b) eqn:Hu.
  - apply list_elem_of_singleton in Hb as ->. congruence.
  - assert (∀ n, n < 16 → is_unreserved (upper_hex n) = true) as Hh.
    { intros n Hn. destruct n as [|p]; [done|].
      do 4 (destruct p as [p|p|]; [| |reflexivity]); lia. }
    pose proof (u8_lt b). rewrite !elem_of_cons in Hb.
    destruct Hb as [->|[->|[->|Hb]]]; [done|..|by apply elem_of_nil in Hb];
      rewrite Hh in Hc; try done; [apply N.Div0.div_lt_upper_bound; lia|apply N.mod_lt; lia].
Qed.

(** ** Properties *)

(** The token survives the URL: whatever characters it has, the token that is put
    into the upload URL is the one read back from it when a response is classified
    (so the token reported as invalid is the one that was sent). *)
Theorem token_url_roundtrip endpoint token url :
  build_basic_info_url endpoint token = Ok url →
  x3f ∉ bytes_of (trim_end_matches x2f (trim endpoint)) →
  str_wf (trim token) →
  token_from_url url = trim token.
Proof.
  unfold build_basic_info_url, require_non_empty. intros H Hq Hwf. inv_ok.
  destruct (is_empty (trim token)); [done|]. inv_ok.
  assert (x = trim_end_matches x2f (trim endpoint)) as ->.
  { unfold normalize_http_base in *. destruct (is_empty _); [done|].
    destruct (_ || _); by inv_ok. }
  set (e := trim_end_matches x2f (trim endpoint)) in *.
  assert (token_from_query ("token=" +:+ percent_encode (trim token)) = trim token) as Ht.
  { unfold token_from_query. rewrite split_none.
    2:{ rewrite bytes_of_app, not_elem_of_app. split; [|by apply percent_encode_clean].
        by_decide. }
    cbn [omap list_omap].
    change ("token=" +:+ percent_encode (trim token))%string
      with ("token" +:+ str_of [x3d] +:+ percent_encode (trim token))%string.
    change "="%string with (str_of [x3d]). rewrite split_once_single by by_decide.
    cbn. by rewrite percent_decode_encode. }
  unfold token_from_url.
  assert (e +:+ "/api/clients/uploadBasicInfo?token=" +:+ percent_encode (trim token)
    = (e +:+ "/api/clients/uploadBasicInfo") +:+ str_of [x3f]
      +:+ ("token=" +:+ percent_encode (trim token)))%string as ->.
  { apply bytes_of_inj. rewrite !bytes_of_app, <- !app_assoc. reflexivity. }
  change "?"%string with (str_of [x3f]). rewrite split_once_single; [done|].
  rewrite bytes_of_app, not_elem_of_app. split; [done|by_decide].
Qed.

Lemma token_url_roundtrip_witness :
  ∃ url, build_basic_info_url "https://panel.example/" "a b&c=%" = Ok url
    ∧ token_from_url url = "a b&c=%"%string.
Proof.
  eexists. split; [vm_compute; reflexivity|].
  apply (token_url_roundtrip "https://panel.example/" "a b&c=%"); by_decide || by vm_compute.
Defined.
