(* ===== verification/TunnelControl.v ===== *)
(** * The tunnel control channel ([src/src/tunnel_control.rs])

    The control websocket: the agent says hello, the server sends rule sets, the agent
    applies, acknowledges and reports them, and sends heartbeats.  The websocket is a
    script of events (what each read returns and when, which sends fail) and the log
    of messages sent; JSON decoding is the parameter [server_message_from_slice].  The
    receiver of rule sets is the interface [TunnelRuleStateSink]. *)
From S2P Require Import Prelude RustStd AsyncIo Transport.
From Stdlib Require Import Strings.Byte.
From Stdlib Require Strings.String.
Local Open Scope N_scope.

(** tunnel_control.rs [TUNNEL_CONTROL_PROTOCOL_V1] *)
Definition TUNNEL_CONTROL_PROTOCOL_V1 : string := "keli-tunnel-control.v1".
(** tunnel_control.rs [TUNNEL_DATA_TRANSPORT_WEBSOCKET] *)
Definition TUNNEL_DATA_TRANSPORT_WEBSOCKET : string := "websocket".
(** tunnel_control.rs [TUNNEL_DATA_TRANSPORT_KTP_TCP] *)
Definition TUNNEL_DATA_TRANSPORT_KTP_TCP : string := "ktp_tcp".

(** tunnel_control.rs [SelectedTunnelRule] *)
Record SelectedTunnelRule := mkRule {
  rule_id : N;
  rule_name : string;
  rule_enabled : bool;
  rule_protocol : string;
  rule_role : string;
  rule_ingress_group : string;
  rule_listen_address : string;
  rule_listen_port : N;
  rule_egress_group : string;
  rule_target_host : string;
  rule_target_port : N;
  rule_source_allowlist : string;
  rule_max_concurrent_sessions : N;
  rule_last_revision : Z;
  rule_data_transport : string;
}.
#[export] Instance SelectedTunnelRule_eq_dec : EqDecision SelectedTunnelRule.
Proof. solve_decision. Defined.

(** tunnel_control.rs [SelectedTunnelRule::data_transport] *)
Definition data_transport (rule : SelectedTunnelRule) : string :=
  let value := trim (rule_data_transport rule) in
  if is_empty value then TUNNEL_DATA_TRANSPORT_WEBSOCKET else value.

(** tunnel_control.rs [default_tunnel_data_transport] *)
Definition default_tunnel_data_transport : string := TUNNEL_DATA_TRANSPORT_WEBSOCKET.

(** tunnel_control.rs [RejectedTunnelRule] *)
Record RejectedTunnelRule := mkRejected { rejected_id : N; rejected_error : string }.

(** tunnel_control.rs [TunnelRuleStatus] *)
Record TunnelRuleStatus := mkRuleStatus { status_id : N; status : string; status_error : string }.

(** tunnel_control.rs [TunnelControlClientMessage] *)
Inductive TunnelControlClientMessage :=
  | ClientHello (control_protocol agent_version : string) (capabilities data_transports : list string)
      (data_plane : bool)
  | Heartbeat (last_rule_revision : string) (active_rules : list N)
  | RuleAck (revision : string) (accepted_rule_ids : list N)
      (rejected_rules : list RejectedTunnelRule)
  | RuleStatus (revision : string) (rules : list TunnelRuleStatus).

(** tunnel_control.rs [TunnelControlServerMessage] *)
Inductive TunnelControlServerMessage :=
  | ServerHelloAck (server_protocol : string) (heartbeat_interval_seconds : N)
  | RuleSync (revision : string) (rules : list SelectedTunnelRule)
  | ServerError (code message : string).

(** tunnel_control.rs [TunnelControlError::fmt] *)
Definition TunnelControlError_to_string (message : string) : string :=
  "invalid tunnel control message: " +:+ message.

(** tunnel_control.rs [normalize_supported_tunnel_data_transports] *)
Definition normalize_supported_tunnel_data_transports (data_transports : list string)
    : list string :=
  let result :=
    foldl (fun result value =>
      let value := trim value in
      let normalized :=
        if eq_ignore_ascii_case value TUNNEL_DATA_TRANSPORT_KTP_TCP
        then Some TUNNEL_DATA_TRANSPORT_KTP_TCP
        else if eq_ignore_ascii_case value TUNNEL_DATA_TRANSPORT_WEBSOCKET
        then Some TUNNEL_DATA_TRANSPORT_WEBSOCKET
        else None in
      match normalized with
      | None => result
      | Some n => if bool_decide (n ∈ result) then result else result ++ [n]
      end) [] data_transports in
  if bool_decide (result = []) then [TUNNEL_DATA_TRANSPORT_WEBSOCKET] else result.

(** tunnel_control.rs [supported_tunnel_data_transports] *)
Definition supported_tunnel_data_transports : list string :=
  [TUNNEL_DATA_TRANSPORT_WEBSOCKET; TUNNEL_DATA_TRANSPORT_KTP_TCP].

(** tunnel_control.rs [supported_tunnel_data_transports_for_ktp_tcp] *)
Definition supported_tunnel_data_transports_for_ktp_tcp (enabled : bool) : list string :=
  if enabled then [TUNNEL_DATA_TRANSPORT_KTP_TCP] else [TUNNEL_DATA_TRANSPORT_WEBSOCKET].

(** tunnel_control.rs [build_hello_with_data_transports] *)
Definition build_hello_with_data_transports (agent_version : string)
    (data_transports : list string) : TunnelControlClientMessage :=
  ClientHello TUNNEL_CONTROL_PROTOCOL_V1 (trim agent_version)
    ["tunnel_control"; "rule_sync"; "status_report"]%string
    (normalize_supported_tunnel_data_transports data_transports) false.

(** tunnel_control.rs [build_hello] *)
Definition build_hello (agent_version : string) : TunnelControlClientMessage :=
  build_hello_with_data_transports agent_version supported_tunnel_data_transports.

(** tunnel_control.rs [build_heartbeat] *)
Definition build_heartbeat (revision : string) (active_rules : list N)
    : TunnelControlClientMessage :=
  Heartbeat (trim revision) active_rules.

(** tunnel_control.rs [build_rule_ack] *)
Definition build_rule_ack (revision : string) (accepted_rules : list SelectedTunnelRule)
    (rejected_rules : list RejectedTunnelRule) : TunnelControlClientMessage :=
  RuleAck (trim revision) (rule_id <$> accepted_rules) rejected_rules.

(** tunnel_control.rs [build_rule_status] *)
Definition build_rule_status (revision : string) (rules : list TunnelRuleStatus)
    : TunnelControlClientMessage :=
  RuleStatus (trim revision) rules.

(** tunnel_control.rs [is_non_fatal_tunnel_control_error] *)
Definition is_non_fatal_tunnel_control_error (error : TransportError) : bool :=
  match error with
  | InvalidClientToken _ _ _ _ => false
  | EmptyEndpoint | EmptyToken | UnsupportedScheme _ => false
  | RequestFailed message =>
      let lower := to_ascii_lowercase message in
      contains "404" lower || contains "403" lower || contains "feature_disabled" lower
  | SocketClosed => true
  end.

(** tunnel_control.rs [TunnelRuleStateSink] *)
Class TunnelRuleStateSink (S : Type) := {
  update_rules : S → string → list SelectedTunnelRule → S;
}.

(** tunnel_control.rs [NoopTunnelRuleStateSink] *)
#[export] Instance NoopTunnelRuleStateSink : TunnelRuleStateSink unit := {|
  update_rules s _ _ := s;
|}.

(** What one [read_message] returned, and the clock (in nanoseconds) just after it *)
Record ControlRead := mkControlRead {
  cr_result : result TransportError (option (list byte));
  cr_now : N;
}.

(** The socket: the reads to come, the errors of the next sends ([None] is success),
    and the messages sent. *)
Record ControlSocket := mkControlSocket {
  cs_reads : list ControlRead;
  cs_sends : list (option TransportError);
  cs_sent : list TunnelControlClientMessage;
}.

(** The locals of a session, with the socket and the rule sink it works on *)
Record ControlSession (S : Type) := mkControlSession {
  cx_socket : ControlSocket;
  cx_sink : S;
  latest_revision : string;
  accepted_rules : list SelectedTunnelRule;
  heartbeat_interval : N;
  last_heartbeat : N;
}.
Arguments mkControlSession {S}.
Arguments cx_socket {S}.
Arguments cx_sink {S}.
Arguments latest_revision {S}.
Arguments accepted_rules {S}.
Arguments heartbeat_interval {S}.
Arguments last_heartbeat {S}.

(** tunnel_control.rs [TunnelControlLoopAction] *)
Inductive TunnelControlLoopAction := LoopContinue | LoopStop.

Section session.
Context {S : Type} `{Sink : !TunnelRuleStateSink S}.
(** [serde_json::from_slice] for [TunnelControlServerMessage] *)
Context (server_message_from_slice : list byte → result string TunnelControlServerMessage).

Abbreviation cact := (act (ControlSession S) TransportError).

Definition set_socket (k : ControlSocket) (c : ControlSession S) : ControlSession S :=
  mkControlSession k (cx_sink c) (latest_revision c) (accepted_rules c)
    (heartbeat_interval c) (last_heartbeat c).
Definition set_rules (revision : string) (rules : list SelectedTunnelRule)
    (c : ControlSession S) : ControlSession S :=
  mkControlSession (cx_socket c) (update_rules (cx_sink c) revision rules) revision rules
    (heartbeat_interval c) (last_heartbeat c).
Definition set_interval (seconds : N) (c : ControlSession S) : ControlSession S :=
  mkControlSession (cx_socket c) (cx_sink c) (latest_revision c) (accepted_rules c)
    seconds (last_heartbeat c).
Definition set_last_heartbeat (now : N) (c : ControlSession S) : ControlSession S :=
  mkControlSession (cx_socket c) (cx_sink c) (latest_revision c) (accepted_rules c)
    (heartbeat_interval c) now.

(** [socket.send_message(..)?] *)
Definition send_message (m : TunnelControlClientMessage) : cact unit := fun c =>
  let k := cx_socket c in
  match cs_sends k with
  | Some e :: rest => (set_socket (mkControlSocket (cs_reads k) rest (cs_sent k)) c, Fail e)
  | None :: rest =>
      (set_socket (mkControlSocket (cs_reads k) rest (cs_sent k ++ [m])) c, Done tt)
  | [] => (set_socket (mkControlSocket (cs_reads k) [] (cs_sent k ++ [m])) c, Done tt)
  end.

(** tunnel_control.rs [parse_server_message] *)
Definition parse_server_message (bytes : list byte)
    : result string TunnelControlServerMessage :=
  map_err TunnelControlError_to_string (server_message_from_slice bytes).

(** tunnel_control.rs [handle_tunnel_control_message] *)
Definition handle_tunnel_control_message (bytes : list byte) : cact TunnelControlLoopAction :=
  match parse_server_message bytes with
  | Ok (ServerHelloAck server_protocol heartbeat_interval_seconds) =>
      if bool_decide (trim server_protocol ≠ TUNNEL_CONTROL_PROTOCOL_V1)
      then fail (RequestFailed ("unsupported tunnel control protocol: " +:+ server_protocol))
      else
        _ ← (if 0 <? heartbeat_interval_seconds
             then modify (set_interval heartbeat_interval_seconds) else mret tt);
        mret LoopContinue
  | Ok (RuleSync revision rules) =>
      _ ← modify (set_rules revision rules);
      _ ← send_message (build_rule_ack revision rules []);
      let statuses := (fun rule => mkRuleStatus (rule_id rule) "ok" "") <$> rules in
      _ ← send_message (build_rule_status revision statuses);
      mret LoopContinue
  | Ok (ServerError code message) =>
      if bool_decide (code = "feature_disabled"%string) then mret LoopStop
      else fail (RequestFailed message)
  | Err error => fail (RequestFailed error)
  | Panic => fun c => (c, Crash)
  end.

(** tunnel_control.rs [send_tunnel_control_heartbeat] *)
Definition send_tunnel_control_heartbeat : cact unit :=
  c ← get;
  send_message (build_heartbeat (latest_revision c) (rule_id <$> accepted_rules c)).

Definition take_reads (rs : list ControlRead) : cact unit :=
  modify (fun c => set_socket (mkControlSocket rs (cs_sends (cx_socket c)) (cs_sent (cx_socket c))) c).

(** The [while let Some(bytes) = socket.read_message()?] of one round *)
Fixpoint control_once_loop (reads : list ControlRead) : cact unit :=
  match reads with
  | [] => wait
  | r :: rs =>
      _ ← take_reads rs;
      o ← try_ (cr_result r);
      match o with
      | Some bytes =>
          a ← handle_tunnel_control_message bytes;
          match a with LoopStop => mret tt | LoopContinue => control_once_loop rs end
      | None => send_tunnel_control_heartbeat
      end
  end.

(** The [loop] of a long-lived session *)
Fixpoint control_session_loop (reads : list ControlRead) : cact unit :=
  match reads with
  | [] => wait
  | r :: rs =>
      _ ← take_reads rs;
      match cr_result r with
      | Ok (Some bytes) =>
          a ← handle_tunnel_control_message bytes;
          match a with LoopStop => mret tt | LoopContinue => control_session_loop rs end
      | Ok None =>
          c ← get;
          _ ← (if heartbeat_interval c * 1000000000 <=? cr_now r - last_heartbeat c
               then _ ← send_tunnel_control_heartbeat; modify (set_last_heartbeat (cr_now r))
               else mret tt);
          control_session_loop rs
      | Err SocketClosed => mret tt
      | Err error => fail error
      | Panic => fun c => (c, Crash)
      end
  end.

(** The state after [connect_tunnel_control] returned a socket at time [now] *)
Definition control_start (socket : ControlSocket) (sink : S) (now : N) : ControlSession S :=
  mkControlSession socket sink "" [] 15 now.

(** tunnel_control.rs [run_tunnel_control_once_with_rule_sink_and_data_transports]
    ([connected] is what [connect_tunnel_control] returned) *)
Definition run_tunnel_control_once (connected : result TransportError ControlSocket)
    (sink : S) (agent_version : string) (data_transports : list string)
    : S * list TunnelControlClientMessage * outcome TransportError unit :=
  match connected with
  | Ok socket =>
      let '(c, r) :=
        (_ ← send_message (build_hello_with_data_transports agent_version data_transports);
         control_once_loop (cs_reads socket)) (control_start socket sink 0) in
      (cx_sink c, cs_sent (cx_socket c), r)
  | Err error =>
      if is_non_fatal_tunnel_control_error error then (sink, [], Done tt)
      else (sink, [], Fail error)
  | Panic => (sink, [], Crash)
  end.

(** tunnel_control.rs [run_tunnel_control_session_with_rule_sink_and_data_transports] *)
Definition run_tunnel_control_session (connected : result TransportError ControlSocket)
    (sink : S) (agent_version : string) (data_transports : list string) (now : N)
    : S * list TunnelControlClientMessage * outcome TransportError unit :=
  match connected with
  | Ok socket =>
      let '(c, r) :=
        (_ ← send_message (build_hello_with_data_transports agent_version data_transports);
         control_session_loop (cs_reads socket)) (control_start socket sink now) in
      (cx_sink c, cs_sent (cx_socket c), r)
  | Err error =>
      if is_non_fatal_tunnel_control_error error then (sink, [], Done tt)
      else (sink, [], Fail error)
  | Panic => (sink, [], Crash)
  end.
End session.

(** The kinds of I/O error the control socket tells apart *)
Inductive IoErrorKind := WouldBlock | TimedOut | Interrupted | OtherKind.

(** tunnel_control.rs [is_idle_read_error] *)
Definition is_idle_read_error (kind : IoErrorKind) : bool :=
  match kind with WouldBlock | TimedOut | Interrupted => true | OtherKind => false end.

(** What the websocket library's [read] can return *)
Inductive WsRead :=
  | WsText (text : string) | WsBinary (bytes : list byte) | WsClose | WsOther
  | WsIoError (kind : IoErrorKind) (error : string) | WsError (error : string).

(** tunnel_control.rs [TunnelControlSocket@TungsteniteTunnelControlSocket::read_message]
    (setting the read timeout aside) *)
Definition control_read_message (r : WsRead) : result TransportError (option (list byte)) :=
  match r with
  | WsText text => Ok (Some (bytes_of text))
  | WsBinary bytes => Ok (Some bytes)
  | WsClose => Err SocketClosed
  | WsOther => Ok None
  | WsIoError kind error => if is_idle_read_error kind then Ok None else Err (RequestFailed error)
  | WsError error => Err (RequestFailed error)
  end.

(** tunnel_control.rs [redact_token_in_url] *)
Definition redact_token_in_url (url : string) : string :=
  match split_once "?" url with
  | None => url
  | Some (base, query) =>
      let query :=
        join "&" ((fun part =>
          match split_once "=" part with
          | Some (key, _) =>
              if bool_decide (key = "token"%string) then "token=redacted"%string else part
          | None => part
          end) <$> split [[x26]] query) in
      base +:+ "?" +:+ query
  end.

(** tunnel_control.rs [tunnel_control_startup_line] *)
Definition tunnel_control_startup_line (url : string) (enabled : bool) : string :=
  if negb enabled then "tunnel control: disabled"
  else "tunnel control: enabled url=" +:+ redact_token_in_url url.

(** ** Specification: a well-formed conversation *)

(** The rule sets handed to the sink, oldest first *)
Definition RuleLog : Type := list (string * list SelectedTunnelRule).

Definition apply_log {S} `{TunnelRuleStateSink S} (s : S) (log : RuleLog) : S :=
  foldl (fun s '(revision, rules) => update_rules s revision rules) s log.

Definition log_last (log : RuleLog) : string * list SelectedTunnelRule :=
  default (""%string, []) (last log).

Definition ok_statuses (rules : list SelectedTunnelRule) : list TunnelRuleStatus :=
  (fun rule => mkRuleStatus (rule_id rule) "ok" "") <$> rules.

(** [conv ms log]: messages sent when the rule sets of [log] have been received.
    Hello comes first, every rule set is acknowledged and reported in order, and a
    heartbeat names the latest acknowledged rule set. *)
Inductive conv : list TunnelControlClientMessage → RuleLog → Prop :=
  | conv_hello version transports :
      conv [build_hello_with_data_transports version transports] []
  | conv_heartbeat ms log :
      conv ms log →
      conv (ms ++ [build_heartbeat (log_last log).1 (rule_id <$> (log_last log).2)]) log
  | conv_sync ms log revision rules :
      conv ms log →
      conv (ms ++ [build_rule_ack revision rules [];
                   build_rule_status revision (ok_statuses rules)])
           (log ++ [(revision, rules)]).

(** Where a failed send cut a conversation off: before hello, or between applying a
    rule set and reporting it *)
Definition conversation (sent : list TunnelControlClientMessage) (log : RuleLog) : Prop :=
  (sent = [] ∧ log = []) ∨ conv sent log
  ∨ ∃ ms log' revision rules, conv ms log' ∧ log = log' ++ [(revision, rules)]
      ∧ (sent = ms ∨ sent = ms ++ [build_rule_ack revision rules []]).

Section session_lemmas.
Context {S : Type} `{Sink : !TunnelRuleStateSink S}.
Context (parse : list byte → result string TunnelControlServerMessage).
Implicit Types c : ControlSession S.

(** The invariant between two reads *)
Definition session_ok (sink : S) (log : RuleLog) c : Prop :=
  conv (cs_sent (cx_socket c)) log ∧ cx_sink c = apply_log sink log
  ∧ (latest_revision c, accepted_rules c) = log_last log.

Definition session_end (sink : S) c : Prop :=
  ∃ log, conversation (cs_sent (cx_socket c)) log ∧ cx_sink c = apply_log sink log.

Lemma session_ok_end sink log c : session_ok sink log c → session_end sink c.
Proof. intros (Hc & Hs & _). exists log. split; [right; by left|done]. Qed.

Lemma send_message_cases m c c' r :
  send_message m c = (c', r) →
  (∃ e, r = Fail e ∧ cs_sent (cx_socket c') = cs_sent (cx_socket c)
        ∧ cx_sink c' = cx_sink c ∧ latest_revision c' = latest_revision c
        ∧ accepted_rules c' = accepted_rules c)
  ∨ (r = Done tt ∧ cs_sent (cx_socket c') = cs_sent (cx_socket c) ++ [m]
     ∧ cx_sink c' = cx_sink c ∧ latest_revision c' = latest_revision c
     ∧ accepted_rules c' = accepted_rules c).
Proof.
  unfold send_message. destruct (cs_sends (cx_socket c)) as [|[e|] rest]; intros [= <- <-]; cbn.
  - right. by split_and!.
  - left. exists e. by split_and!.
  - right. by split_and!.
Qed.

Lemma heartbeat_ok sink log c c' r :
  session_ok sink log c → send_tunnel_control_heartbeat c = (c', r) →
  session_ok sink log c' ∧ (r = Done tt ∨ ∃ e, r = Fail e).
Proof.
  intros (Hc & Hs & Hl) H. unfold send_tunnel_control_heartbeat, mbind, act_bind, get in H.
  apply send_message_cases in H as
    [(e & -> & Hse & Hsk & Hr & Ha)|(-> & Hse & Hsk & Hr & Ha)];
    (split; [split_and!|eauto]); rewrite ?Hse, ?Hsk, ?Hr, ?Ha; try done.
  replace (latest_revision c) with (log_last log).1 by (by rewrite <- Hl).
  replace (accepted_rules c) with (log_last log).2 by (by rewrite <- Hl).
  by constructor.
Qed.

Lemma log_last_app log e : log_last (log ++ [e]) = e.
Proof. unfold log_last. by rewrite last_snoc. Qed.
Lemma apply_log_app (sink : S) log rev rules :
  apply_log sink (log ++ [(rev, rules)]) = update_rules (apply_log sink log) rev rules.
Proof. unfold apply_log. by rewrite foldl_app. Qed.

(** One handled message keeps the invariant, or ends in a cut-off conversation. *)
Lemma handle_message_ok sink log c bytes c' r :
  session_ok sink log c → handle_tunnel_control_message parse bytes c = (c', r) →
  (∃ log' a, r = Done a ∧ session_ok sink log' c')
  ∨ ((∀ a, r ≠ Done a) ∧ session_end sink c').
Proof.
  intros Hok H. pose proof Hok as (Hc & Hs & Hl). unfold handle_tunnel_control_message in H.
  destruct (parse_server_message parse bytes) as [[p n|rev rules|code m]|e|].
  - case_bool_decide; [injection H as <- <-; right; split; [done|by eapply session_ok_end]|].
    left. unfold mbind, act_bind in H. exists log, LoopContinue.
    destruct (0 <? n); cbn in H; injection H as <- <-; by split_and!.
  - set (c1 := set_rules rev rules c) in *.
    assert (cx_sink c1 = apply_log sink (log ++ [(rev, rules)])) as Hs1
      by (rewrite apply_log_app, <- Hs; done).
    unfold mbind at 1, act_bind at 1, modify in H. fold c1 in H.
    unfold mbind at 1, act_bind at 1 in H.
    destruct (send_message _ c1) as [c2 r2] eqn:H2.
    apply send_message_cases in H2 as
      [(e & -> & Hse & Hsk & Hr & Ha)|(-> & Hse & Hsk & Hr & Ha)]; cbn in Hse.
    { injection H as <- <-. right. split; [done|]. exists (log ++ [(rev, rules)]). split; [|congruence].
      right; right. exists (cs_sent (cx_socket c)), log, rev, rules. split_and!; eauto. }
    unfold mbind, act_bind in H. destruct (send_message _ c2) as [c3 r3] eqn:H3.
    apply send_message_cases in H3 as
      [(e & -> & Hse3 & Hsk3 & Hr3 & Ha3)|(-> & Hse3 & Hsk3 & Hr3 & Ha3)].
    { injection H as <- <-. right. split; [done|]. exists (log ++ [(rev, rules)]). split; [|congruence].
      right; right. exists (cs_sent (cx_socket c)), log, rev, rules.
      split_and!; try done. right. congruence. }
    injection H as <- <-. left. exists (log ++ [(rev, rules)]), LoopContinue.
    split; [done|]. split_and!; [|congruence|].
    + rewrite Hse3, Hse, <- app_assoc. by apply (conv_sync _ log).
    + by rewrite log_last_app, Hr3, Ha3, Hr, Ha.
  - case_bool_decide; injection H as <- <-; [left; by exists log, LoopStop|].
    right. split; [done|by eapply session_ok_end].
  - injection H as <- <-. right. split; [done|by eapply session_ok_end].
  - injection H as <- <-. right. split; [done|by eapply session_ok_end].
Qed.

Lemma take_reads_ok sink log c rs c' r :
  session_ok sink log c → take_reads rs c = (c', r) → session_ok sink log c' ∧ r = Done tt.
Proof. intros Hok H. injection H as <- <-. by split. Qed.

Lemma session_loop_ok sink log reads c c' r :
  session_ok sink log c → control_session_loop parse reads c = (c', r) → session_end sink c'.
Proof.
  revert log c. induction reads as [|rd reads IH]; intros log c Hok H; cbn [control_session_loop] in H.
  { injection H as <- <-. by eapply session_ok_end. }
  unfold mbind at 1, act_bind at 1 in H. destruct (take_reads reads c) as [c1 r1] eqn:H1.
  apply (take_reads_ok sink log) in H1 as [Hok1 ->]; [|done].
  destruct (cr_result rd) as [[bytes|]|e|].
  - unfold mbind, act_bind in H.
    destruct (handle_tunnel_control_message parse bytes c1) as [c2 r2] eqn:H2.
    apply (handle_message_ok sink log) in H2 as [(log' & a & -> & Hok2)|[Hr Hend]]; [| |done].
    + destruct a; [by eapply IH|]. injection H as <- <-. by eapply session_ok_end.
    + destruct r2 as [a|e| |]; [by destruct (Hr a)|by injection H as <- <-..].
  - unfold mbind, act_bind, get in H.
    destruct (_ <=? _).
    + destruct (send_tunnel_control_heartbeat c1) as [c2 r2] eqn:H2.
      apply (heartbeat_ok sink log) in H2 as [Hok2 [->|[e ->]]]; [| |done].
      * cbn in H. eapply (IH log); [|done]. done.
      * injection H as <- <-. by eapply session_ok_end.
    + by eapply (IH log).
  - destruct e; injection H as <- <-; by eapply session_ok_end.
  - injection H as <- <-. by eapply session_ok_end.
Qed.

Lemma once_loop_ok sink log reads c c' r :
  session_ok sink log c → control_once_loop parse reads c = (c', r) → session_end sink c'.
Proof.
  revert log c. induction reads as [|rd reads IH]; intros log c Hok H; cbn [control_once_loop] in H.
  { injection H as <- <-. by eapply session_ok_end. }
  unfold mbind at 1, act_bind at 1 in H. destruct (take_reads reads c) as [c1 r1] eqn:H1.
  apply (take_reads_ok sink log) in H1 as [Hok1 ->]; [|done].
  unfold mbind at 1, act_bind at 1, try_ in H. destruct (cr_result rd) as [[bytes|]|e|].
  - unfold mbind, act_bind in H.
    destruct (handle_tunnel_control_message parse bytes c1) as [c2 r2] eqn:H2.
    apply (handle_message_ok sink log) in H2 as [(log' & a & -> & Hok2)|[Hr Hend]]; [| |done].
    + destruct a; [by eapply IH|]. injection H as <- <-. by eapply session_ok_end.
    + destruct r2 as [a|e| |]; [by destruct (Hr a)|by injection H as <- <-..].
  - apply (heartbeat_ok sink log) in H as [Hok2 _]; [|done]. by eapply session_ok_end.
  - injection H as <- <-. by eapply session_ok_end.
  - injection H as <- <-. by eapply session_ok_end.
Qed.

(** After hello, whatever loop follows *)
Lemma hello_ok sink socket now version transports (m : act (ControlSession S) TransportError unit) c r :
  cs_sent socket = [] →
  (∀ c1 c2 r2, session_ok sink [] c1 → m c1 = (c2, r2) → session_end sink c2) →
  (_ ← send_message (build_hello_with_data_transports version transports); m)
    (control_start socket sink now) = (c, r) →
  session_end sink c.
Proof.
  intros Hk Hm H. unfold mbind, act_bind in H.
  destruct (send_message _ _) as [c1 r1] eqn:H1.
  apply send_message_cases in H1 as [(e & -> & Hse & Hsk & _)|(-> & Hse & Hsk & Hr & Ha)];
    cbn in Hse; rewrite Hk in Hse.
  - injection H as <- <-. exists []. split; [|done]. left. by rewrite Hse.
  - eapply Hm; [|exact H]. split_and!; [|done|by rewrite Hr, Ha].
    rewrite Hse. apply conv_hello.
Qed.
End session_lemmas.

(** ** Redaction *)
Definition redact_part (part : string) : string :=
  match split_once "=" part with
  | Some (key, _) => if bool_decide (key = "token"%string) then "token=redacted" else part
  | None => part
  end.

Lemma redact_part_token part value :
  split_once "=" (redact_part part) = Some ("token"%string, value) → value = "redacted"%string.
Proof.
  unfold redact_part. destruct (split_once "=" part) as [[key v]|] eqn:Hs; [|congruence].
  case_bool_decide; [by intros [= <-]|congruence].
Qed.

Lemma token_from_redacted parts :
  parts ≠ [] → Forall (fun p => x26 ∉ bytes_of p) parts →
  let t := token_from_query (join "&" (redact_part <$> parts)) in
  t = ""%string ∨ t = "redacted"%string.
Proof.
  intros Hne Hp. cbn zeta. unfold token_from_query.
  rewrite split_join.
  2:{ by destruct parts. }
  2:{ apply Forall_fmap. eapply Forall_impl; [exact Hp|]. intros p Hx. cbn. unfold redact_part.
      repeat case_match; try done. by_decide. }
  clear. induction parts as [|p ps IH]; [by left|]. cbn [omap list_omap fmap list_fmap].
  destruct (split_once "=" (redact_part p)) as [[key value]|] eqn:Hs; cbn; [|done].
  case_bool_decide; [|done]. subst key. apply redact_part_token in Hs as ->.
  right. reflexivity.
Qed.

(** ** Properties *)


(** A logged URL carries no token: whatever the URL, the token read from its
    redacted form is empty or the word [redacted]. *)
Theorem redacted_url_has_no_token url :
  token_from_url (redact_token_in_url url) = ""%string
  ∨ token_from_url (redact_token_in_url url) = "redacted"%string.
Proof.
  unfold redact_token_in_url. destruct (split_once "?" url) as [[base query]|] eqn:Hu.
  - unfold token_from_url. change "?"%string with (str_of [x3f]).
    rewrite split_once_single by (by eapply split_once_clean).
    apply token_from_redacted; [apply split_nonempty|apply split_clean].
  - left. unfold token_from_url. by rewrite Hu.
Qed.

