(* ===== verification/TunnelPreflight.v ===== *)
(** * Tunnel rule checks and the source allowlist
    ([src/src/tunnel_preflight.rs], and the allowlist functions of
    [src/src/tunnel_runtime.rs])

    Preflight decides whether a rule can run on this host; at run time the same
    allowlist text decides which sources may connect.  Whether a listener can bind is
    the operating system's answer: the parameter [bind_error]. *)
From S2P Require Import Prelude RustStd RustNet.
From Stdlib Require Import Strings.Byte.
Local Open Scope N_scope.

(** tunnel_preflight.rs [TunnelTcpRulePreflightInput] *)
Record TunnelTcpRulePreflightInput := mkPreflightInput {
  pi_rule_id : N;
  pi_listen_address : string;
  pi_listen_port : N;
  pi_target_host : string;
  pi_target_port : N;
  pi_source_allowlist : string;
}.

(** tunnel_preflight.rs [TunnelPreflightIssueCode] *)
Inductive TunnelPreflightIssueCode :=
  | UnsupportedOs | ListenBindFailed | InvalidTarget | InvalidAllowlist.
#[export] Instance TunnelPreflightIssueCode_eq_dec : EqDecision TunnelPreflightIssueCode.
Proof. solve_decision. Defined.

(** tunnel_preflight.rs [TunnelPreflightIssue] *)
Record TunnelPreflightIssue := mkIssue {
  issue_rule_id : N;
  issue_code : TunnelPreflightIssueCode;
  issue_message : string;
}.

(** tunnel_preflight.rs [TunnelPreflightSide] *)
Inductive TunnelPreflightSide := SideIngress | SideEgress.
#[export] Instance TunnelPreflightSide_eq_dec : EqDecision TunnelPreflightSide.
Proof. solve_decision. Defined.

(** tunnel_preflight.rs [tunnel_preflight_status] *)
Definition tunnel_preflight_status (code : TunnelPreflightIssueCode) : string :=
  match code with
  | UnsupportedOs => "unsupported_os"
  | ListenBindFailed => "listen_bind_failed"
  | InvalidTarget => "invalid_target"
  | InvalidAllowlist => "invalid_allowlist"
  end.

(** tunnel_preflight.rs [tcp_endpoint] *)
Definition tcp_endpoint (host : string) (port : N) : string :=
  let host := trim host in
  if contains ":" host && negb (starts_with "[" host)
  then "[" +:+ host +:+ "]:" +:+ pretty port
  else host +:+ ":" +:+ pretty port.

(** [split(|ch| ch == ',' || ch.is_whitespace())], empty pieces dropped *)
Definition allowlist_entries (allowlist : string) : list string :=
  filter (fun entry => is_empty (trim entry) = false) (split ([x2c] :: white_space) allowlist).

(** tunnel_preflight.rs [allowlist_entry_is_valid] *)
Definition allowlist_entry_is_valid (entry : string) : bool :=
  if bool_decide (entry = "*"%string) then true else
  match split_once "/" entry with
  | Some (network, prefix) =>
      match parse_ip (trim network) with
      | None => false
      | Some ip =>
          match parse_uint U8_MAX (trim prefix) with
          | None => false
          | Some prefix_len =>
              match ip with V4 _ => prefix_len <=? 32 | V6 _ => prefix_len <=? 128 end
          end
      end
  | None => match parse_ip entry with Some _ => true | None => false end
  end.

(** tunnel_preflight.rs [allowlist_is_valid] *)
Definition allowlist_is_valid (allowlist : string) : bool :=
  let allowlist := trim allowlist in
  if is_empty allowlist then true
  else forallb allowlist_entry_is_valid (allowlist_entries allowlist).

Section preflight.
(** [Some error] when [TcpListener::bind] on that endpoint fails *)
Context (bind_error : string → option string).
(** [cfg!(target_os = "linux")] *)
Context (target_os_is_linux : bool).

(** tunnel_preflight.rs [tunnel_supported_on_this_os] *)
Definition tunnel_supported_on_this_os : bool := target_os_is_linux.

(** tunnel_preflight.rs [check_listener_bindable] *)
Definition check_listener_bindable (listen_address : string) (listen_port : N)
    : option TunnelPreflightIssue :=
  let endpoint := tcp_endpoint listen_address listen_port in
  match bind_error endpoint with
  | None => None
  | Some error =>
      Some (mkIssue 0 ListenBindFailed
              ("cannot bind listener " +:+ endpoint +:+ ": " +:+ error))
  end.

Definition issue_for (input : TunnelTcpRulePreflightInput) (code : TunnelPreflightIssueCode)
    (message : string) : TunnelPreflightIssue :=
  mkIssue (pi_rule_id input) code message.

Definition target_is_invalid (input : TunnelTcpRulePreflightInput) : bool :=
  is_empty (trim (pi_target_host input)) || (pi_target_port input =? 0).

Definition bind_issues (input : TunnelTcpRulePreflightInput) : list TunnelPreflightIssue :=
  match check_listener_bindable (pi_listen_address input) (pi_listen_port input) with
  | Some issue => [mkIssue (pi_rule_id input) (issue_code issue) (issue_message issue)]
  | None => []
  end.

(** tunnel_preflight.rs [validate_tunnel_tcp_rule] *)
Definition validate_tunnel_tcp_rule (input : TunnelTcpRulePreflightInput)
    : list TunnelPreflightIssue :=
  (if negb tunnel_supported_on_this_os
   then [issue_for input UnsupportedOs "tunnel forwarding is only supported on Linux"] else [])
  ++ (if target_is_invalid input
      then [issue_for input InvalidTarget "target host and port are required"] else [])
  ++ (if negb (allowlist_is_valid (pi_source_allowlist input))
      then [issue_for input InvalidAllowlist
              "source allowlist contains an invalid IP or CIDR entry"] else [])
  ++ bind_issues input.

(** tunnel_preflight.rs [validate_tunnel_tcp_rule_for_side_with_os] *)
Definition validate_tunnel_tcp_rule_for_side_with_os (input : TunnelTcpRulePreflightInput)
    (side : TunnelPreflightSide) (os_supported : bool) : list TunnelPreflightIssue :=
  (if negb os_supported
   then [issue_for input UnsupportedOs "tunnel forwarding is only supported on Linux"] else [])
  ++ match side with
     | SideIngress =>
         (if negb (allowlist_is_valid (pi_source_allowlist input))
          then [issue_for input InvalidAllowlist
                  "source allowlist contains an invalid IP or CIDR entry"] else [])
         ++ bind_issues input
     | SideEgress =>
         if target_is_invalid input
         then [issue_for input InvalidTarget "target host and port are required"] else []
     end.

(** tunnel_preflight.rs [validate_tunnel_tcp_rule_for_side] *)
Definition validate_tunnel_tcp_rule_for_side (input : TunnelTcpRulePreflightInput)
    (side : TunnelPreflightSide) : list TunnelPreflightIssue :=
  validate_tunnel_tcp_rule_for_side_with_os input side tunnel_supported_on_this_os.
End preflight.

(** ** The allowlist at run time *)

(** tunnel_runtime.rs [prefix_mask_u32] ([<<] on a [u32] drops the high bits) *)
Definition prefix_mask_u32 (prefix_len : N) : N :=
  if bool_decide (prefix_len = 0) then 0
  else N.shiftl (2 ^ 32 - 1) (32 - prefix_len) mod 2 ^ 32.

(** tunnel_runtime.rs [prefix_mask_u128] *)
Definition prefix_mask_u128 (prefix_len : N) : N :=
  if bool_decide (prefix_len = 0) then 0
  else N.shiftl (2 ^ 128 - 1) (128 - prefix_len) mod 2 ^ 128.

(** tunnel_runtime.rs [ip_in_cidr] *)
Definition ip_in_cidr (source_ip network_ip : IpAddr) (prefix_len : N) : bool :=
  match source_ip, network_ip with
  | V4 source, V4 network =>
      if prefix_len <=? 32 then
        let mask := prefix_mask_u32 prefix_len in
        N.land source mask =? N.land network mask
      else false
  | V6 source, V6 network =>
      if prefix_len <=? 128 then
        let mask := prefix_mask_u128 prefix_len in
        N.land source mask =? N.land network mask
      else false
  | _, _ => false
  end.

(** tunnel_runtime.rs [source_ip_matches_entry] *)
Definition source_ip_matches_entry (source_ip : IpAddr) (entry : string) : bool :=
  if bool_decide (entry = "*"%string) then true else
  match split_once "/" entry with
  | Some (network, prefix) =>
      match parse_ip (trim network) with
      | None => false
      | Some network_ip =>
          match parse_uint U8_MAX (trim prefix) with
          | None => false
          | Some prefix_len => ip_in_cidr source_ip network_ip prefix_len
          end
      end
  | None =>
      match parse_ip entry with
      | Some allowed_ip => bool_decide (allowed_ip = source_ip)
      | None => false
      end
  end.

(** tunnel_runtime.rs [parse_source_ip] *)
Definition parse_source_ip (source_addr : string) : option IpAddr :=
  let source_addr := trim source_addr in
  match parse_socket_addr source_addr with
  | Some addr => Some (sock_ip addr)
  | None => parse_ip source_addr
  end.

(** tunnel_runtime.rs [source_addr_allowed] *)
Definition source_addr_allowed (source_addr allowlist : string) : bool :=
  let allowlist := trim allowlist in
  if is_empty allowlist then true else
  match parse_source_ip source_addr with
  | None => false
  | Some source_ip =>
      existsb (fun entry => source_ip_matches_entry source_ip (trim entry))
              (allowlist_entries allowlist)
  end.

(** ** Specification: what an allowlist entry means *)
Inductive SourceRule := AnySource | Network (ip : IpAddr) (prefix_len : N).

(** The bits above the host part agree. *)
Definition same_prefix (width source network prefix_len : N) : Prop :=
  ∀ i, width - prefix_len ≤ i → N.testbit source i = N.testbit network i.

Definition admits (r : SourceRule) (source : IpAddr) : Prop :=
  match r, source with
  | AnySource, _ => True
  | Network (V4 n) p, V4 s => same_prefix 32 s n p
  | Network (V6 n) p, V6 s => same_prefix 128 s n p
  | Network _ _, _ => False
  end.

Definition ip_width (ip : IpAddr) : N := match ip with V4 _ => 32 | V6 _ => 128 end.

(** [*], an address, or an address with a prefix length within its width *)
Definition entry_meaning (entry : string) : option SourceRule :=
  if bool_decide (entry = "*"%string) then Some AnySource else
  match split_once "/" entry with
  | Some (network, prefix) =>
      ip ← parse_ip (trim network);
      p ← parse_uint U8_MAX (trim prefix);
      if bool_decide (p ≤ ip_width ip) then Some (Network ip p) else None
  | None => ip ← parse_ip entry; Some (Network ip (ip_width ip))
  end.

Definition rule_wf (r : SourceRule) : Prop :=
  match r with AnySource => True | Network ip p => ip_wf ip ∧ p ≤ ip_width ip end.

(** ** Masks *)
Lemma testbit_ones_shifted w p i :
  p ≤ w → N.testbit (N.shiftl (2 ^ w - 1) (w - p) mod 2 ^ w) i
          = bool_decide (w - p ≤ i ∧ i < w).
Proof.
  intros Hp. destruct (decide (i < w)) as [Hi|Hi].
  - rewrite N.mod_pow2_bits_low by done. destruct (decide (w - p ≤ i)) as [Hl|Hl].
    + rewrite N.shiftl_spec_high' by done.
      replace (2 ^ w - 1) with (N.ones w) by (rewrite N.ones_equiv; lia).
      rewrite N.ones_spec_low by lia. by rewrite bool_decide_true.
    + rewrite N.shiftl_spec_low by lia. by rewrite bool_decide_false by lia.
  - rewrite N.mod_pow2_bits_high by lia. by rewrite bool_decide_false by lia.
Qed.

Lemma testbit_above x w i : x < 2 ^ w → w ≤ i → N.testbit x i = false.
Proof.
  intros Hx Hi. destruct (decide (x = 0)) as [->|Hz]; [apply N.bits_0|].
  apply N.bits_above_log2. apply N.log2_lt_pow2 in Hx; lia.
Qed.

Lemma masked_eq w p s n :
  p ≤ w → s < 2 ^ w → n < 2 ^ w →
  let m := if bool_decide (p = 0) then 0 else N.shiftl (2 ^ w - 1) (w - p) mod 2 ^ w in
  N.land s m = N.land n m ↔ same_prefix w s n p.
Proof.
  intros Hp Hs Hn m. unfold same_prefix.
  assert (∀ i, N.testbit m i = bool_decide (w - p ≤ i ∧ i < w)) as Hm.
  { intros i. subst m. case_bool_decide as Hz.
    - subst p. rewrite N.bits_0. by rewrite bool_decide_false by lia.
    - by apply testbit_ones_shifted. }
  split.
  - intros H i Hi. destruct (decide (i < w)) as [Hiw|Hiw].
    + apply (f_equal (fun x => N.testbit x i)) in H. rewrite !N.land_spec, Hm in H.
      rewrite bool_decide_true in H by done. by rewrite !andb_true_r in H.
    + by rewrite !(testbit_above _ w) by (done || lia).
  - intros H. apply N.bits_inj. intros i. rewrite !N.land_spec, Hm.
    case_bool_decide as Hi; [|by rewrite !andb_false_r]. by rewrite H by lia.
Qed.

Lemma ip_in_cidr_admits s n p :
  ip_wf s → ip_wf n →
  ip_in_cidr s n p = true ↔ p ≤ ip_width n ∧ admits (Network n p) s.
Proof.
  destruct s as [s|s], n as [n|n]; cbn; intros Hs Hn; try (split; [done|naive_solver]).
  - destruct (N.leb_spec p 32); [|split; [done|lia]].
    rewrite N.eqb_eq. unfold prefix_mask_u32. rewrite (masked_eq 32 p s n) by done. naive_solver.
  - destruct (N.leb_spec p 128); [|split; [done|lia]].
    rewrite N.eqb_eq. unfold prefix_mask_u128. rewrite (masked_eq 128 p s n) by done. naive_solver.
Qed.

Lemma admits_self n s :
  ip_wf s → admits (Network n (ip_width n)) s ↔ n = s.
Proof.
  intros Hs. split; [|intros ->; by destruct s].
  destruct n as [n|n], s as [s|s]; cbn; try done; unfold same_prefix;
    intros H; f_equal; symmetry; apply N.bits_inj; intros i; apply H; lia.
Qed.

Lemma matches_meaning ip entry :
  ip_wf ip →
  source_ip_matches_entry ip entry = true ↔ ∃ r, entry_meaning entry = Some r ∧ admits r ip.
Proof.
  intros Hip. unfold source_ip_matches_entry, entry_meaning.
  case_bool_decide; [naive_solver|].
  destruct (split_once "/" entry) as [[network prefix]|].
  - destruct (parse_ip (trim network)) as [n|] eqn:Hn; cbn; [|naive_solver].
    destruct (parse_uint U8_MAX (trim prefix)) as [p|]; cbn; [|naive_solver].
    rewrite ip_in_cidr_admits by (done || by eapply parse_ip_wf). case_bool_decide; naive_solver.
  - destruct (parse_ip entry) as [n|] eqn:Hn; cbn; [|naive_solver].
    rewrite bool_decide_eq_true, <- admits_self by done. naive_solver.
Qed.

Lemma entry_valid_meaning entry :
  allowlist_entry_is_valid entry = true ↔ is_Some (entry_meaning entry).
Proof.
  unfold allowlist_entry_is_valid, entry_meaning, is_Some.
  case_bool_decide; [naive_solver|].
  destruct (split_once "/" entry) as [[network prefix]|].
  - destruct (parse_ip (trim network)) as [n|]; cbn; [|naive_solver].
    destruct (parse_uint U8_MAX (trim prefix)) as [p|]; cbn; [|naive_solver].
    destruct n; cbn; rewrite N.leb_le; case_bool_decide; naive_solver.
  - destruct (parse_ip entry); cbn; naive_solver.
Qed.

(** ** Entries hold no separator, so trimming one changes nothing. *)
Lemma split_pats_clean fuel seps cur l p :
  (∀ s, s ≠ [] → s `suffix_of` reverse cur → strip_any seps (s ++ l) = None) →
  p ∈ split_pats fuel seps cur l → (length l < fuel)%nat → [] ∉ seps →
  ∀ s, s ≠ [] → s `suffix_of` p → strip_any seps s = None.
Proof.
  revert cur l. induction fuel as [|fuel IH]; intros cur l Hcur Hp Hf Hne; [lia|].
  cbn [split_pats] in Hp. destruct (strip_any seps l) as [r|] eqn:Hs.
  - apply elem_of_cons in Hp as [->|Hp].
    + intros s Hs1 Hs2. eapply strip_any_prefix_None, Hcur; done.
    + apply (IH [] r); [|done| |done].
      * intros s Hs1 [k Hk]. rewrite reverse_nil in Hk. symmetry in Hk. by apply app_nil in Hk as [_ ->].
      * apply strip_any_Some in Hs as (q & Hq & ->). rewrite length_app in Hf.
        destruct q; [done|]. cbn in Hf. lia.
  - destruct l as [|b l].
    + apply list_elem_of_singleton in Hp as ->. intros s Hs1 Hs2.
      specialize (Hcur s Hs1 Hs2). by rewrite app_nil_r in Hcur.
    + apply (IH (b :: cur) l); [|done|cbn in Hf; lia|done].
      intros s Hs1 [k Hk]. rewrite reverse_cons in Hk.
      destruct s as [|c s _] using rev_ind; [done|]. rewrite app_assoc in Hk.
      apply app_inj_2 in Hk as [Hk [= ->]]; [|done]. rewrite <- app_assoc. cbn.
      destruct (decide (s = [])) as [->|Hs2]; [done|]. apply Hcur; [done|by exists k].
Qed.

Lemma trim_clean s :
  (∀ t, t ≠ [] → t `suffix_of` bytes_of s → strip_any white_space t = None) → trim s = s.
Proof.
  intros H. unfold trim, trim_bytes. rewrite trim_front_id.
  2:{ destruct (decide (bytes_of s = [])) as [->|Hne]; [done|]. by apply H. }
  rewrite trim_back_id; [apply str_of_bytes_of|].
  apply strip_any_None. intros q r (w & -> & Hw)%list_elem_of_fmap Hr.
  assert (bytes_of s = reverse r ++ w) as Hs.
  { rewrite <- (reverse_involutive (bytes_of s)), Hr, reverse_app, reverse_involutive. done. }
  assert (w ≠ []) as Hne by (intros ->; by apply (proj1 white_space_nonempty)).
  specialize (H w Hne ltac:(by exists (reverse r))).
  apply (proj1 (strip_any_None _ _) H w []); [done|by rewrite app_nil_r].
Qed.

Lemma allowlist_entry_trim al e : e ∈ allowlist_entries al → trim e = e.
Proof.
  intros [_ He]%list_elem_of_filter. unfold split in He.
  apply list_elem_of_fmap in He as (p & -> & Hp). apply trim_clean. rewrite bytes_of_str_of.
  intros t Ht Hs. assert (strip_any ([x2c] :: white_space) t = None) as Hn.
  { eapply (split_pats_clean _ _ [] (bytes_of al) p); [|exact Hp| | |done|done].
    - intros s Hs1 [k Hk]. rewrite reverse_nil in Hk. symmetry in Hk. by apply app_nil in Hk as [_ ->].
    - lia.
    - apply not_elem_of_cons. split; [done|apply white_space_nonempty]. }
  apply strip_any_None. intros w r Hw. apply (proj1 (strip_any_None _ _) Hn).
  apply elem_of_cons. by right.
Qed.

(** ** Properties *)

(** Preflight accepts an allowlist exactly when every one of its entries has a
    meaning at run time: [*], an address, or a network whose prefix fits its width. *)
Theorem allowlist_valid_iff_meaningful al :
  allowlist_is_valid al = true ↔
  ∀ e, e ∈ allowlist_entries (trim al) → is_Some (entry_meaning e).
Proof.
  unfold allowlist_is_valid. destruct (is_empty (trim al)) eqn:He.
  - apply bool_decide_eq_true in He as ->. split; [|done]. intros _ e Hel. by apply elem_of_nil in Hel.
  - rewrite forallb_forall. setoid_rewrite entry_valid_meaning.
    split; intros H e Hel; apply H; by apply list_elem_of_In.
Qed.

(** C36: the source check admits a peer exactly when the allowlist is blank or one of its
    entries admits the peer's address bit by bit: the prefix bits of the entry's
    network agree, in the entry's own address family. *)
Theorem source_addr_allowed_spec src al :
  source_addr_allowed src al = true ↔
  trim al = ""%string
  ∨ ∃ ip e r, parse_source_ip src = Some ip ∧ e ∈ allowlist_entries (trim al)
              ∧ entry_meaning e = Some r ∧ admits r ip.
Proof.
  unfold source_addr_allowed. destruct (is_empty (trim al)) eqn:He.
  { apply bool_decide_eq_true in He. split; [by left|done]. }
  apply bool_decide_eq_false in He.
  destruct (parse_source_ip src) as [ip|] eqn:Hip; [|naive_solver].
  assert (ip_wf ip) as Hwf.
  { unfold parse_source_ip in Hip. destruct (parse_socket_addr _) as [a|] eqn:Ha.
    - injection Hip as <-. by eapply parse_socket_addr_wf.
    - by eapply parse_ip_wf. }
  rewrite existsb_exists. split.
  - intros (e & Hin%list_elem_of_In & Hm). right. rewrite (allowlist_entry_trim _ _ Hin) in Hm.
    apply matches_meaning in Hm as (r & ? & ?); [|done]. eauto 10.
  - intros [?|(ip' & e & r & [= <-] & Hin & Hr & Ha)]; [done|]. exists e.
    rewrite <- list_elem_of_In. split; [done|]. rewrite (allowlist_entry_trim _ _ Hin).
    apply matches_meaning; eauto.
Qed.
