(* ===== verification/TunnelStats.v ===== *)
(** * Tunnel limits, batch policy and statistics
    ([src/src/tunnel_async_runtime.rs])

    The configuration of the tunnel runtime, the batch size policy, and the counters.
    An atomic counter is a [u64] that wraps; [HashMap] is [gmap].  The dwell-time
    histogram has 17 buckets with fixed upper bounds; percentiles are read off it. *)
From S2P Require Import Prelude RustStd.
From Stdlib Require Import Strings.Byte.
From Stdlib Require Strings.String.
Local Open Scope N_scope.

(** tunnel_async_runtime.rs [TunnelRelayBatchPolicy] *)
Inductive TunnelRelayBatchPolicy := Fixed | Adaptive.

(** tunnel_async_runtime.rs [TunnelRelayBatchPolicy::parse_config_value] *)
Definition parse_config_value (raw : string) : option TunnelRelayBatchPolicy :=
  let v := to_ascii_lowercase (trim raw) in
  if bool_decide (v = "fixed"%string) then Some Fixed
  else if bool_decide (v = "adaptive"%string) then Some Adaptive
  else None.

(** tunnel_async_runtime.rs [TunnelRelayBatchPolicy::config_value] *)
Definition config_value (p : TunnelRelayBatchPolicy) : string :=
  match p with Fixed => "fixed" | Adaptive => "adaptive" end.

(** tunnel_async_runtime.rs [TunnelRelayBatchTuning] *)
Record TunnelRelayBatchTuning := mkTuning {
  high_session_threshold : N;
  elevated_dwell_p95_micros : N;
  severe_dwell_p95_micros : N;
  elevated_batch_cap : N;
  severe_batch_cap : N;
}.

(** tunnel_async_runtime.rs [Default@TunnelRelayBatchTuning::default] *)
Definition default_tuning : TunnelRelayBatchTuning := mkTuning 8 50000 250000 16 8.

(** tunnel_async_runtime.rs [TunnelQueueDwellStatsSnapshot] *)
Record TunnelQueueDwellStatsSnapshot := mkDwell {
  dwell_frames : N;
  dwell_micros_total : N;
  dwell_micros_max : N;
  p50_micros : N;
  p95_micros : N;
  p99_micros : N;
}.
#[export] Instance TunnelQueueDwellStatsSnapshot_eq_dec : EqDecision TunnelQueueDwellStatsSnapshot.
Proof. solve_decision. Defined.

Definition dwell_default : TunnelQueueDwellStatsSnapshot := mkDwell 0 0 0 0 0 0.

(** tunnel_async_runtime.rs [TunnelRelayBatchPolicy::effective_batch_frames_with_tuning] *)
Definition effective_batch_frames_with_tuning (self : TunnelRelayBatchPolicy)
    (configured_batch_frames active_sessions : N) (dwell : TunnelQueueDwellStatsSnapshot)
    (tuning : TunnelRelayBatchTuning) : N :=
  let configured_batch_frames := N.max configured_batch_frames 1 in
  match self with
  | Fixed => configured_batch_frames
  | Adaptive =>
      if severe_dwell_p95_micros tuning <=? p95_micros dwell
      then N.min configured_batch_frames (N.max (severe_batch_cap tuning) 1)
      else if elevated_dwell_p95_micros tuning <=? p95_micros dwell
      then N.min configured_batch_frames (N.max (elevated_batch_cap tuning) 1)
      else if N.max (high_session_threshold tuning) 1 <=? active_sessions
      then N.min configured_batch_frames (N.max (elevated_batch_cap tuning) 1)
      else configured_batch_frames
  end.

(** tunnel_async_runtime.rs [TunnelRelayBatchPolicy::effective_batch_frames_with_dwell] *)
Definition effective_batch_frames_with_dwell (self : TunnelRelayBatchPolicy)
    (configured_batch_frames active_sessions : N) (dwell : TunnelQueueDwellStatsSnapshot) : N :=
  effective_batch_frames_with_tuning self configured_batch_frames active_sessions dwell
    default_tuning.

(** tunnel_async_runtime.rs [TunnelRelayBatchPolicy::effective_batch_frames] *)
Definition effective_batch_frames (self : TunnelRelayBatchPolicy)
    (configured_batch_frames active_sessions : N) : N :=
  effective_batch_frames_with_dwell self configured_batch_frames active_sessions dwell_default.

(** tunnel_async_runtime.rs [TunnelRuntimeLimits] (durations in milliseconds) *)
Record TunnelRuntimeLimits := mkRuntimeLimits {
  max_sessions_per_agent : N;
  max_outbound_frames : N;
  max_session_pending_bytes : N;
  tcp_read_chunk_size : N;
  target_dial_timeout_ms : N;
  idle_timeout_ms : N;
  relay_batch_policy : TunnelRelayBatchPolicy;
  relay_batch_tuning : TunnelRelayBatchTuning;
}.

(** tunnel_async_runtime.rs [Default@TunnelRuntimeLimits::default] *)
Definition default_limits : TunnelRuntimeLimits :=
  mkRuntimeLimits 1024 4096 (4 * 1024 * 1024) (16 * 1024) 5000 600000 Fixed default_tuning.

(** tunnel_async_runtime.rs [OUTBOUND_QUEUE_DWELL_MICROS_BUCKETS] *)
Definition OUTBOUND_QUEUE_DWELL_MICROS_BUCKETS : list N :=
  [10; 25; 50; 100; 250; 500; 1000; 2500; 5000; 10000; 25000; 50000; 100000; 250000;
   500000; 1000000; U64_MAX].

(** tunnel_async_runtime.rs [OUTBOUND_QUEUE_DWELL_RECENT_SAMPLES] *)
Definition OUTBOUND_QUEUE_DWELL_RECENT_SAMPLES : N := 16.

(** [Iterator::position] *)
Fixpoint position {A} (f : A → bool) (l : list A) : option nat :=
  match l with
  | [] => None
  | x :: l => if f x then Some 0%nat else S <$> position f l
  end.

(** tunnel_async_runtime.rs [outbound_queue_dwell_bucket_index] *)
Definition outbound_queue_dwell_bucket_index (elapsed_micros : N) : nat :=
  default (length OUTBOUND_QUEUE_DWELL_MICROS_BUCKETS - 1)%nat
    (position (fun bucket => elapsed_micros <=? bucket) OUTBOUND_QUEUE_DWELL_MICROS_BUCKETS).

(** The loop of [outbound_queue_dwell_percentile], from bucket [index] on *)
Fixpoint percentile_loop (rank overflow cumulative : N) (index : nat) (buckets : list N) : N :=
  match buckets with
  | [] => overflow
  | count :: rest =>
      let cumulative := saturating_add U64_MAX cumulative count in
      if rank <=? cumulative then
        if bool_decide (index = length OUTBOUND_QUEUE_DWELL_MICROS_BUCKETS - 1)%nat
        then overflow
        else nth index OUTBOUND_QUEUE_DWELL_MICROS_BUCKETS overflow
      else percentile_loop rank overflow cumulative (S index) rest
  end.

(** [*] on [u64]: a panic on overflow *)
Definition mul_u64 {E} (a b : N) : result E N :=
  if a * b <=? U64_MAX then Ok (a * b) else Panic.

(** tunnel_async_runtime.rs [outbound_queue_dwell_percentile] *)
Definition outbound_queue_dwell_percentile {E} (buckets : list N)
    (total percentile overflow_bucket_value : N) : result E N :=
  if bool_decide (total = 0) then Ok 0 else
  product ← mul_u64 total percentile;
  let rank := N.max (saturating_add U64_MAX product 99 / 100) 1 in
  Ok (percentile_loop rank overflow_bucket_value 0 0 buckets).

(** tunnel_async_runtime.rs [outbound_queue_dwell_snapshot] *)
Definition outbound_queue_dwell_snapshot {E} (frames micros_total micros_max : N)
    (buckets : list N) : result E TunnelQueueDwellStatsSnapshot :=
  p50 ← outbound_queue_dwell_percentile buckets frames 50 micros_max;
  p95 ← outbound_queue_dwell_percentile buckets frames 95 micros_max;
  p99 ← outbound_queue_dwell_percentile buckets frames 99 micros_max;
  Ok (mkDwell frames micros_total micros_max p50 p95 p99).

Definition empty_buckets : list N :=
  replicate (length OUTBOUND_QUEUE_DWELL_MICROS_BUCKETS) 0.

(** [buckets[outbound_queue_dwell_bucket_index(x)] += 1] *)
Definition bump (buckets : list N) (elapsed_micros : N) : list N :=
  alter N.succ (outbound_queue_dwell_bucket_index elapsed_micros) buckets.

(** tunnel_async_runtime.rs [TunnelQueueDwellRecentStatsInner] *)
Definition RecentSamples : Type := list N.

(** tunnel_async_runtime.rs [TunnelQueueDwellRecentStatsInner::record] *)
Definition recent_record (samples : RecentSamples) (elapsed_micros : N) : RecentSamples :=
  (if OUTBOUND_QUEUE_DWELL_RECENT_SAMPLES <=? len samples then tail samples else samples)
  ++ [elapsed_micros].

(** tunnel_async_runtime.rs [TunnelQueueDwellRecentStatsInner::snapshot] *)
Definition recent_snapshot {E} (samples : RecentSamples)
    : result E TunnelQueueDwellStatsSnapshot :=
  let '(buckets, total, max) :=
    foldl (fun '(buckets, total, max) elapsed_micros =>
      (bump buckets elapsed_micros, saturating_add U64_MAX total elapsed_micros,
       N.max max elapsed_micros))
      (empty_buckets, 0, 0) samples in
  outbound_queue_dwell_snapshot (len samples) total max buckets.

(** tunnel_async_runtime.rs [TunnelQueueDwellStatsInner] *)
Record DwellStats := mkDwellStats {
  ds_frames : N;
  ds_micros_total : N;
  ds_micros_max : N;
  ds_micros_buckets : list N;
}.

(** tunnel_async_runtime.rs [TunnelRuntimeStats] *)
Record TunnelRuntimeStats := mkStats {
  active_sessions : N;
  total_sessions : N;
  bytes_in : N;
  bytes_out : N;
  rule_session_counts : gmap N N;
  outbound_queue_dwell : DwellStats;
  recent_outbound_queue_dwell : RecentSamples;
}.

Definition stats_default : TunnelRuntimeStats :=
  mkStats 0 0 0 0 ∅ (mkDwellStats 0 0 0 empty_buckets) [].

(** [fetch_add] wraps around *)
Definition fetch_add (a b : N) : N := wrapping_add U64_MAX a b.

Definition rule_count (s : TunnelRuntimeStats) (rule_id : N) : N :=
  default 0 (rule_session_counts s !! rule_id).

(** tunnel_async_runtime.rs [TunnelRuntimeStats::session_opened] *)
Definition session_opened (s : TunnelRuntimeStats) (rule_id : N) : TunnelRuntimeStats :=
  mkStats (fetch_add (active_sessions s) 1) (fetch_add (total_sessions s) 1)
    (bytes_in s) (bytes_out s) (<[rule_id := rule_count s rule_id + 1]> (rule_session_counts s))
    (outbound_queue_dwell s) (recent_outbound_queue_dwell s).

(** tunnel_async_runtime.rs [TunnelRuntimeStats::session_closed] *)
Definition session_closed (s : TunnelRuntimeStats) (rule_id : N) : TunnelRuntimeStats :=
  mkStats (active_sessions s - 1) (total_sessions s) (bytes_in s) (bytes_out s)
    (<[rule_id := rule_count s rule_id - 1]> (rule_session_counts s))
    (outbound_queue_dwell s) (recent_outbound_queue_dwell s).

(** tunnel_async_runtime.rs [TunnelRuntimeStats::bytes_in] *)
Definition record_bytes_in (s : TunnelRuntimeStats) (bytes : N) : TunnelRuntimeStats :=
  mkStats (active_sessions s) (total_sessions s) (fetch_add (bytes_in s) bytes) (bytes_out s)
    (rule_session_counts s) (outbound_queue_dwell s) (recent_outbound_queue_dwell s).

(** tunnel_async_runtime.rs [TunnelRuntimeStats::bytes_out] *)
Definition record_bytes_out (s : TunnelRuntimeStats) (bytes : N) : TunnelRuntimeStats :=
  mkStats (active_sessions s) (total_sessions s) (bytes_in s) (fetch_add (bytes_out s) bytes)
    (rule_session_counts s) (outbound_queue_dwell s) (recent_outbound_queue_dwell s).

(** tunnel_async_runtime.rs [update_atomic_max] *)
Definition update_atomic_max (target candidate : N) : N :=
  if target <? candidate then candidate else target.

(** tunnel_async_runtime.rs [TunnelRuntimeStats::record_outbound_queue_dwell] *)
Definition record_outbound_queue_dwell (s : TunnelRuntimeStats) (elapsed : N)
    : TunnelRuntimeStats :=
  let elapsed_micros := N.min elapsed U64_MAX in
  let d := outbound_queue_dwell s in
  mkStats (active_sessions s) (total_sessions s) (bytes_in s) (bytes_out s)
    (rule_session_counts s)
    (mkDwellStats (fetch_add (ds_frames d) 1) (fetch_add (ds_micros_total d) elapsed_micros)
       (update_atomic_max (ds_micros_max d) elapsed_micros)
       (alter (fun c => fetch_add c 1) (outbound_queue_dwell_bucket_index elapsed_micros)
          (ds_micros_buckets d)))
    (recent_record (recent_outbound_queue_dwell s) elapsed_micros).

(** tunnel_async_runtime.rs [TunnelRuntimeStatsSnapshot] *)
Record TunnelRuntimeStatsSnapshot := mkStatsSnapshot {
  snap_active_sessions : N;
  snap_total_sessions : N;
  snap_bytes_in : N;
  snap_bytes_out : N;
  snap_rule_session_counts : gmap N N;
  snap_outbound_queue_dwell : TunnelQueueDwellStatsSnapshot;
  snap_recent_outbound_queue_dwell : TunnelQueueDwellStatsSnapshot;
}.

(** tunnel_async_runtime.rs [TunnelRuntimeStats::snapshot] *)
Definition stats_snapshot {E} (s : TunnelRuntimeStats) : result E TunnelRuntimeStatsSnapshot :=
  let d := outbound_queue_dwell s in
  dwell ← outbound_queue_dwell_snapshot (ds_frames d) (ds_micros_total d) (ds_micros_max d)
            (ds_micros_buckets d);
  recent ← recent_snapshot (recent_outbound_queue_dwell s);
  Ok (mkStatsSnapshot (active_sessions s) (total_sessions s) (bytes_in s) (bytes_out s)
        (rule_session_counts s) dwell recent).

(** ** The histogram of a list of samples *)

(** Samples not above bound [b] *)
Definition at_most (b : N) (samples : list N) : N :=
  len (filter (fun x => x ≤ b) samples).

(** The histogram as the code accumulates it *)
Definition histogram (samples : list N) : list N := foldl bump empty_buckets samples.

(** What the percentile should be: the smallest bucket bound that covers at least
    [p] percent of the samples, the largest sample standing for the last bound *)
Definition is_percentile (samples : list N) (p v : N) : Prop :=
  ∃ i b, OUTBOUND_QUEUE_DWELL_MICROS_BUCKETS !! i = Some b
    ∧ v = (if bool_decide (i = 16%nat) then foldr N.max 0 samples else b)
    ∧ p * len samples ≤ 100 * at_most b samples
    ∧ ∀ j b', (j < i)%nat → OUTBOUND_QUEUE_DWELL_MICROS_BUCKETS !! j = Some b' →
        100 * at_most b' samples < p * len samples.

Lemma sumN_take_alter l i n :
  (i < length l)%nat →
  sumN (take n (alter N.succ i l)) = sumN (take n l) + (if bool_decide (i < n)%nat then 1 else 0).
Proof.
  revert i n. induction l as [|x l IH]; intros i n Hi; cbn in Hi; [lia|].
  destruct n as [|n]; [by rewrite bool_decide_false by lia|].
  destruct i as [|i]; cbn [alter list_alter take]; rewrite !sumN_cons.
  - rewrite bool_decide_true by lia. lia.
  - change (list_alter N.succ i l) with (alter N.succ i l). rewrite IH by lia.
    rewrite (bool_decide_ext (S i < S n)%nat (i < n)%nat) by lia. lia.
Qed.

Lemma position_spec {A} (f : A → bool) l k :
  position f l = Some k →
  (∃ x, l !! k = Some x ∧ f x = true) ∧ ∀ j y, (j < k)%nat → l !! j = Some y → f y = false.
Proof.
  revert k. induction l as [|x l IH]; intros k H; cbn in H; [done|].
  destruct (f x) eqn:Hx.
  - injection H as <-. split; [by exists x|]. intros j y Hj. lia.
  - destruct (position f l) as [k'|]; [|done]. injection H as <-.
    destruct (IH k') as [(y & Hy & Hf) Hlt]; [done|]. split; [by exists y|].
    intros [|j] z Hj Hz; [by injection Hz as ->|]. eapply Hlt; [|exact Hz]. lia.
Qed.

Lemma position_None {A} (f : A → bool) l j y :
  position f l = None → l !! j = Some y → f y = false.
Proof.
  revert j. induction l as [|x l IH]; intros j H Hj; cbn in H; [done|].
  destruct (f x) eqn:Hx; [done|]. destruct (position f l); [done|].
  destruct j as [|j]; [by injection Hj as ->|]. by eapply IH.
Qed.

Abbreviation bounds := OUTBOUND_QUEUE_DWELL_MICROS_BUCKETS.

Lemma bounds_mono i j a b :
  (i ≤ j)%nat → bounds !! i = Some a → bounds !! j = Some b → a ≤ b.
Proof.
  intros Hij Hi Hj.
  assert (Forall (fun i => Forall (fun j => (i ≤ j)%nat → nth i bounds 0 ≤ nth j bounds 0) (seq 0 17))
                 (seq 0 17)) as H by by_decide.
  rewrite Forall_forall in H.
  assert (i < 17 ∧ j < 17)%nat as [Hi17 Hj17].
  { apply lookup_lt_Some in Hi, Hj. by change (length bounds) with 17%nat in *. }
  specialize (H i ltac:(apply elem_of_seq; lia)). rewrite Forall_forall in H.
  specialize (H j ltac:(apply elem_of_seq; lia) Hij).
  by rewrite (nth_lookup_Some _ _ _ _ Hi), (nth_lookup_Some _ _ _ _ Hj) in H.
Qed.

(** A sample is at or below a bucket exactly when it is within the bucket's bound. *)
Lemma bucket_index_le x i b :
  x ≤ U64_MAX → bounds !! i = Some b →
  (outbound_queue_dwell_bucket_index x ≤ i)%nat ↔ x ≤ b.
Proof.
  intros Hx Hb. unfold outbound_queue_dwell_bucket_index.
  destruct (position _ bounds) as [k|] eqn:Hp; cbn [default].
  - destruct (position_spec _ _ _ Hp) as [(c & Hc & Hle%N.leb_le) Hlt]. split.
    + intros Hki. pose proof (bounds_mono k i c b Hki Hc Hb). cbn. lia.
    + intros Hxb. destruct (decide (k ≤ i)%nat) as [|Hki]; [done|].
      pose proof (Hlt i b ltac:(lia) Hb) as Hf. apply N.leb_gt in Hf. lia.
  - pose proof (position_None _ _ 16%nat U64_MAX Hp eq_refl) as Hf. apply N.leb_gt in Hf. lia.
Qed.

Lemma bucket_index_lt x : (outbound_queue_dwell_bucket_index x < 17)%nat.
Proof.
  unfold outbound_queue_dwell_bucket_index. destruct (position _ bounds) as [k|] eqn:Hp; cbn [default].
  - destruct (position_spec _ _ _ Hp) as [(c & Hc & _) _]. by apply lookup_lt_Some in Hc.
  - cbn. lia.
Qed.

Lemma histogram_snoc samples x : histogram (samples ++ [x]) = bump (histogram samples) x.
Proof. unfold histogram. by rewrite foldl_app. Qed.

Lemma length_histogram samples : length (histogram samples) = 17%nat.
Proof.
  induction samples as [|x samples IH] using rev_ind; [done|].
  rewrite histogram_snoc. unfold bump. by rewrite length_alter.
Qed.

(** The counts of the first buckets add up to the samples within the last one's bound. *)
Lemma histogram_cumulative samples i b :
  Forall (fun x => x ≤ U64_MAX) samples → bounds !! i = Some b →
  sumN (take (S i) (histogram samples)) = at_most b samples.
Proof.
  intros Hs Hb. induction samples as [|x samples IH] using rev_ind.
  - cbn. clear. do 17 (destruct i as [|i]; [done|]). by destruct i.
  - apply Forall_app in Hs as [Hs Hx]. inversion Hx as [|? ? Hx' _]; subst.
    rewrite histogram_snoc. unfold bump.
    rewrite sumN_take_alter by (rewrite length_histogram; apply bucket_index_lt).
    rewrite IH by done. unfold at_most. rewrite filter_app, len_app. f_equal.
    rewrite filter_cons, filter_nil.
    pose proof (bucket_index_le x i b Hx' Hb) as Hle.
    case_bool_decide as Hd; case_decide as Hd'; try done; exfalso; lia.
Qed.

Lemma at_most_all b samples : Forall (fun x => x ≤ b) samples → at_most b samples = len samples.
Proof.
  unfold at_most. induction 1 as [|x l Hx Hl IH]; [done|].
  rewrite filter_cons_True by done. rewrite !len_cons. lia.
Qed.

(** The loop returns the first bucket whose cumulative count reaches the rank. *)
Lemma percentile_loop_spec rank ov h i :
  length h = 17%nat → (i ≤ 17)%nat → sumN h ≤ U64_MAX → rank ≤ sumN h →
  sumN (take i h) < rank →
  ∃ k, (i ≤ k < 17)%nat
    ∧ percentile_loop rank ov (sumN (take i h)) i (drop i h)
      = (if bool_decide (k = 16%nat) then ov else nth k bounds ov)
    ∧ rank ≤ sumN (take (S k) h) ∧ ∀ j, (i ≤ j < k)%nat → sumN (take (S j) h) < rank.
Proof.
  intros Hl Hi Hm Hr. remember (17 - i)%nat as n eqn:Hn. revert i Hn Hi.
  induction n as [|n IH]; intros i Hn Hi Hlt.
  { assert (i = 17)%nat as -> by lia. rewrite take_ge in Hlt by lia. lia. }
  destruct (lookup_lt_is_Some_2 h i) as [c Hc]; [lia|].
  rewrite (drop_S h c i) by done. cbn [percentile_loop].
  assert (sumN (take (S i) h) = sumN (take i h) + c) as Hs.
  { rewrite (take_S_r h i c) by done. rewrite sumN_app, sumN_cons. change (sumN []) with 0. lia. }
  assert (sumN (take (S i) h) ≤ sumN h) as Hle.
  { pose proof (f_equal sumN (take_drop (S i) h)) as Ht. rewrite sumN_app in Ht. lia. }
  unfold saturating_add. rewrite N.min_l by lia. rewrite <- Hs.
  destruct (N.leb_spec rank (sumN (take (S i) h))) as [Hge|Hlt'].
  - exists i. split_and!; [lia|lia|done|done|]. intros j Hj. lia.
  - destruct (IH (S i)) as (k & Hk & Hp & Hge & Hall); [lia|lia|done|].
    exists k. split_and!; [lia|lia|done|done|]. intros j Hj.
    destruct (decide (j = i)) as [->|]; [done|]. apply Hall. lia.
Qed.

Lemma ceil_le x c : (x + 99) / 100 ≤ c ↔ x ≤ 100 * c.
Proof.
  split; intros H.
  - pose proof (N.div_mod (x + 99) 100 ltac:(lia)). pose proof (N.mod_lt (x + 99) 100). lia.
  - assert ((x + 99) / 100 < c + 1) by (apply N.Div0.div_lt_upper_bound; lia). lia.
Qed.

(** The percentile of a histogram is the percentile of its samples. *)
Lemma percentile_correct {E} samples p v :
  Forall (fun x => x ≤ U64_MAX) samples → samples ≠ [] → 0 < p ≤ 100 →
  100 * len samples + 99 ≤ U64_MAX →
  outbound_queue_dwell_percentile (E:=E) (histogram samples) (len samples) p
    (foldr N.max 0 samples) = Ok v →
  is_percentile samples p v.
Proof.
  intros Hs Hne Hp Hlen. unfold outbound_queue_dwell_percentile, mul_u64.
  assert (0 < len samples) as Hpos by (destruct samples; [done|len_lia]).
  rewrite bool_decide_false by lia.
  assert (len samples * p ≤ 100 * len samples) as Hlp by nia.
  rewrite (proj2 (N.leb_le _ _)) by lia. step_ok. unfold saturating_add. rewrite N.min_l by lia.
  set (rank := N.max _ 1). intros [= <-].
  assert (∀ c, rank ≤ c ↔ p * len samples ≤ 100 * c) as Hrank.
  { intros c. subst rank. pose proof (ceil_le (len samples * p) c). split; intros; nia. }
  assert (sumN (histogram samples) = len samples) as Hsum.
  { rewrite <- (take_ge (histogram samples) 17) by (by rewrite length_histogram).
    rewrite (histogram_cumulative samples 16 U64_MAX) by done. by apply at_most_all. }
  destruct (percentile_loop_spec rank (foldr N.max 0 samples) (histogram samples) 0)
    as (k & Hk & Hv & Hge & Hall).
  { apply length_histogram. } { lia. } { lia. } { apply Hrank. nia. } { change (0 < rank). subst rank. lia. }
  change (sumN (take 0 (histogram samples))) with 0 in Hv. rewrite drop_0 in Hv. rewrite Hv.
  destruct (lookup_lt_is_Some_2 bounds k) as [b Hb]; [cbn; lia|].
  exists k, b. split_and!; [done| | |].
  - case_bool_decide; [done|]. by apply nth_lookup_Some.
  - apply Hrank. by rewrite <- (histogram_cumulative samples k b).
  - intros j b' Hj Hb'. specialize (Hall j ltac:(lia)).
    rewrite (histogram_cumulative samples j b') in Hall by done.
    apply N.nle_gt. intros Hle%Hrank. lia.
Qed.

(** ** Properties *)

Lemma recent_fold samples b t m :
  ∃ t', foldl (fun '(buckets, total, max) elapsed_micros =>
      (bump buckets elapsed_micros, saturating_add U64_MAX total elapsed_micros,
       N.max max elapsed_micros)) (b, t, m) samples
    = (foldl bump b samples, t', N.max m (foldr N.max 0 samples)).
Proof.
  revert b t m. induction samples as [|x samples IH]; intros b t m; cbn.
  { exists t. by rewrite N.max_0_r. }
  destruct (IH (bump b x) (saturating_add U64_MAX t x) (N.max m x)) as [t' Ht].
  exists t'. rewrite Ht. f_equal. lia.
Qed.

Lemma percentile_ok {E} samples p m :
  100 * len samples + 99 ≤ U64_MAX → p ≤ 100 →
  ∃ v, outbound_queue_dwell_percentile (E:=E) (histogram samples) (len samples) p m = Ok v.
Proof.
  intros Hl Hp. unfold outbound_queue_dwell_percentile, mul_u64. case_bool_decide; [eauto|].
  rewrite (proj2 (N.leb_le _ _)) by nia. step_ok. eauto.
Qed.

Lemma recent_window xs :
  foldl recent_record [] xs = drop (length xs - 16) xs.
Proof.
  induction xs as [|x xs IH] using rev_ind; [done|].
  rewrite foldl_app. cbn [foldl]. rewrite IH. unfold recent_record, OUTBOUND_QUEUE_DWELL_RECENT_SAMPLES.
  rewrite length_app. cbn [length].
  destruct (N.leb_spec 16 (len (drop (length xs - 16) xs))) as [H|H]; unfold len in H;
    rewrite length_drop in H.
  - rewrite drop_app_le by lia. f_equal.
    transitivity (drop 1 (drop (length xs - 16) xs)); [by destruct (drop _ xs)|].
    rewrite drop_drop. f_equal. lia.
  - replace (length xs - 16)%nat with 0%nat by lia.
    replace (length xs + 1 - 16)%nat with 0%nat by lia. by rewrite !drop_0.
Qed.

(** The recent dwell percentiles that drive the batch size are those of the last
    sixteen frames: for any history of dwell times, p50, p95 and p99 are each the
    smallest bucket bound that covers that share of the window (the largest sample
    for the open bucket), and computing them never overflows. *)
Theorem recent_percentiles_correct {E} history :
  history ≠ [] → Forall (fun x => x ≤ U64_MAX) history →
  let window := drop (length history - 16) history in
  ∃ d, recent_snapshot (E:=E) (foldl recent_record [] history) = Ok d
    ∧ dwell_frames d = len window ∧ len window ≤ 16
    ∧ is_percentile window 50 (p50_micros d) ∧ is_percentile window 95 (p95_micros d)
    ∧ is_percentile window 99 (p99_micros d).
Proof.
  intros Hne Hh window. rewrite recent_window. fold window.
  assert (Forall (fun x => x ≤ U64_MAX) window) as Hw by (by apply Forall_drop).
  assert (len window ≤ 16) as Hl by (unfold window, len; rewrite length_drop; lia).
  assert (window ≠ []) as Hwne.
  { intros H. apply (f_equal length) in H. unfold window in H. rewrite length_drop in H.
    destruct history; cbn in *; [done|lia]. }
  assert (100 * len window + 99 ≤ U64_MAX) as Hmax by (unfold U64_MAX; lia).
  unfold recent_snapshot. destruct (recent_fold window empty_buckets 0 0) as [t ->].
  rewrite N.max_0_l. fold (histogram window). unfold outbound_queue_dwell_snapshot.
  destruct (percentile_ok (E:=E) window 50 (foldr N.max 0 window)) as [v50 H50]; [done|lia|].
  destruct (percentile_ok (E:=E) window 95 (foldr N.max 0 window)) as [v95 H95]; [done|lia|].
  destruct (percentile_ok (E:=E) window 99 (foldr N.max 0 window)) as [v99 H99]; [done|lia|].
  rewrite H50, H95, H99. step_ok. eexists. split; [done|]. cbn.
  split_and!; try done; (eapply percentile_correct; [done|done| |done|done]; lia).
Qed.

(** the batch size is never zero and never above the configured one, the fixed
    policy uses the configured size, and under the adaptive policy with ordered
    thresholds and caps a longer queue dwell or more sessions never enlarges it. *)
Theorem effective_batch_frames_bounds policy configured n n' d d' tuning :
  let f := effective_batch_frames_with_tuning policy configured in
  elevated_dwell_p95_micros tuning ≤ severe_dwell_p95_micros tuning →
  severe_batch_cap tuning ≤ elevated_batch_cap tuning →
  n ≤ n' → p95_micros d ≤ p95_micros d' →
  1 ≤ f n d tuning ≤ N.max configured 1
  ∧ f n' d' tuning ≤ f n d tuning
  ∧ (policy = Fixed → f n d tuning = N.max configured 1).
Proof.
  intros f Ht Hc Hn Hd. subst f. unfold effective_batch_frames_with_tuning.
  destruct policy; [lia|].
  repeat match goal with |- context [?a <=? ?b] => destruct (N.leb_spec a b) end;
    split_and!; done || lia.
Qed.

(** ** Taking a snapshot

    It cannot panic before [2^64 / 99] frames have been measured. *)
Definition stats_small (s : TunnelRuntimeStats) : Prop :=
  ds_frames (outbound_queue_dwell s) * 99 ≤ U64_MAX
  ∧ len (recent_outbound_queue_dwell s) ≤ OUTBOUND_QUEUE_DWELL_RECENT_SAMPLES.

Lemma dwell_snapshot_ok {E} frames total max buckets :
  frames * 99 ≤ U64_MAX → ∃ d, outbound_queue_dwell_snapshot (E:=E) frames total max buckets = Ok d.
Proof.
  intros Hf. unfold outbound_queue_dwell_snapshot.
  assert (∀ p, p ≤ 99 → ∃ v, outbound_queue_dwell_percentile (E:=E) buckets frames p max = Ok v) as H.
  { intros p Hp. unfold outbound_queue_dwell_percentile, mul_u64. case_bool_decide; [by eexists|].
    destruct (N.leb_spec (frames * p) U64_MAX); [by eexists|]. nia. }
  destruct (H 50) as [v1 ->]; [lia|]. destruct (H 95) as [v2 ->]; [lia|].
  destruct (H 99) as [v3 ->]; [lia|]. by eexists.
Qed.

Lemma stats_snapshot_ok {E} s :
  stats_small s →
  ∃ snap, stats_snapshot (E:=E) s = Ok snap ∧ snap_active_sessions snap = active_sessions s.
Proof.
  intros [Hf Hr]. unfold stats_snapshot.
  destruct (dwell_snapshot_ok (E:=E) _ (ds_micros_total (outbound_queue_dwell s))
    (ds_micros_max (outbound_queue_dwell s)) (ds_micros_buckets (outbound_queue_dwell s)) Hf) as [d Hd].
  rewrite Hd. unfold recent_snapshot. destruct (foldl _ _ _) as [[b t] m].
  destruct (dwell_snapshot_ok (E:=E) (len (recent_outbound_queue_dwell s)) t m b) as [d' Hd'].
  { unfold OUTBOUND_QUEUE_DWELL_RECENT_SAMPLES, U64_MAX in *. lia. }
  step_ok. rewrite Hd'. step_ok. by eexists.
Qed.

Lemma recent_percentiles_correct_witness :
  ∃ d, recent_snapshot (E:=string) (foldl recent_record [] [5; 40; 7; 900000]) = Ok d
    ∧ dwell_frames d = 4 ∧ p50_micros d = 10 ∧ is_percentile [5; 40; 7; 900000] 50 (p50_micros d).
Proof.
  destruct (recent_percentiles_correct (E:=string) [5; 40; 7; 900000]) as (d & Hd & Hf & _ & H50 & _).
  - discriminate.
  - repeat constructor; by vm_compute.
  - exists d. split_and!; [exact Hd|exact Hf| |exact H50]. vm_compute in Hd. by injection Hd as <-.
Defined.

Lemma effective_batch_frames_bounds_witness :
  let d := mkDwell 1 0 0 0 0 0 in
  1 ≤ effective_batch_frames_with_tuning Fixed 64 1 d default_tuning ≤ N.max 64 1.
Proof.
  cbn zeta.
  apply (effective_batch_frames_bounds Fixed 64 1 2 (mkDwell 1 0 0 0 0 0) (mkDwell 1 0 0 0 0 0)
           default_tuning); by vm_compute.
Defined.
