(* ===== verification/TunnelCore.v ===== *)
(** * The session core of the tunnel ([src/src/tunnel_async_runtime.rs])

    [AsyncTunnelCore] owns the outbound frame queue, the session map and the tasks of
    each TCP connection.  A connection's channel, byte counter and tasks are shared
    (behind [Arc]) by the session map entry and the two spawned tasks, and an entry
    can be overwritten while the tasks of the old one still run; so the model keeps
    connections in a store, and the session map refers to them by number.  A method
    is an action on the whole core; the task loops are one action per iteration.
    Locks are never poisoned here: no code under them panics.  Times are microseconds
    since an arbitrary origin. *)
From S2P Require Import Prelude RustStd AsyncIo Ktp TunnelSession TunnelPreflight TunnelStats.
From Stdlib Require Import Strings.Byte.
From Stdlib Require Strings.String.
Local Open Scope N_scope.

(** tunnel_async_runtime.rs [TunnelRuntimeError] *)
Record TunnelRuntimeError := mkRuntimeError { error_code : string; error_message : string }.
#[export] Instance TunnelRuntimeError_eq_dec : EqDecision TunnelRuntimeError.
Proof. solve_decision. Defined.

(** tunnel_async_runtime.rs [TunnelRuntimeError::backpressure_limit] *)
Definition backpressure_limit : TunnelRuntimeError :=
  mkRuntimeError "backpressure_limit" "tunnel outbound frame queue is full".
(** tunnel_async_runtime.rs [TunnelRuntimeError::runtime_unavailable] *)
Definition runtime_unavailable (message : string) : TunnelRuntimeError :=
  mkRuntimeError "runtime_unavailable" message.
(** tunnel_async_runtime.rs [TunnelRuntimeError::target_connect_failed] *)
Definition target_connect_failed (message : string) : TunnelRuntimeError :=
  mkRuntimeError "target_connect_failed" message.
(** tunnel_async_runtime.rs [TunnelRuntimeError::listen_bind_failed] *)
Definition listen_bind_failed (message : string) : TunnelRuntimeError :=
  mkRuntimeError "listen_bind_failed" message.
(** tunnel_async_runtime.rs [TunnelRuntimeError::session_limit] *)
Definition session_limit (message : string) : TunnelRuntimeError :=
  mkRuntimeError "session_limit" message.
(** tunnel_async_runtime.rs [TunnelRuntimeError::session_pending_bytes_limit] *)
Definition session_pending_bytes_limit (message : string) : TunnelRuntimeError :=
  mkRuntimeError "session_pending_bytes_limit" message.

(** tunnel_async_runtime.rs [TunnelRuntimeError::fmt] *)
Definition TunnelRuntimeError_to_string (e : TunnelRuntimeError) : string :=
  if is_empty (trim (error_message e)) then error_code e
  else error_code e +:+ ": " +:+ error_message e.

(** tunnel_async_runtime.rs [QueuedKtpFrame] *)
Record QueuedKtpFrame := mkQueued { queued_frame : KtpFrame; enqueued_at : N }.
#[export] Instance QueuedKtpFrame_eq_dec : EqDecision QueuedKtpFrame.
Proof. solve_decision. Defined.

(** tunnel_async_runtime.rs [AsyncTunnelSession] with the tasks that share it: the
    channel to the writer task, the reserved byte counter, whether the sender, the
    reader and the writer are alive, and the payload the writer is writing *)
Record Conn := mkConn {
  conn_session_id : N;
  conn_rule_id : N;
  conn_leg : FrameLeg;
  channel : list (list byte);
  pending_bytes : N;
  sender_alive : bool;
  reader_alive : bool;
  writer_alive : bool;
  writing : option (list byte);
}.

(** tunnel_async_runtime.rs [AsyncTunnelCore] ([sessions] maps a session id to its
    connection; [listeners] are the rule ids with a listener task) *)
Record AsyncTunnelCore := mkCore {
  limits : TunnelRuntimeLimits;
  outbound : list QueuedKtpFrame;
  ready_generation : N;
  sessions : gmap N N;
  conns : gmap N Conn;
  next_conn : N;
  listeners : gset N;
  next_session_id : N;
  stats : TunnelRuntimeStats;
}.

Abbreviation core_act := (act AsyncTunnelCore TunnelRuntimeError).

(** tunnel_async_runtime.rs [AsyncTunnelCore::new_internal] *)
Definition core_new (limits : TunnelRuntimeLimits) : AsyncTunnelCore :=
  mkCore limits [] 0 ∅ ∅ 0 ∅ 1 stats_default.

Definition set_outbound (q : list QueuedKtpFrame) (c : AsyncTunnelCore) : AsyncTunnelCore :=
  mkCore (limits c) q (ready_generation c) (sessions c) (conns c) (next_conn c) (listeners c)
    (next_session_id c) (stats c).
Definition set_generation (g : N) (c : AsyncTunnelCore) : AsyncTunnelCore :=
  mkCore (limits c) (outbound c) g (sessions c) (conns c) (next_conn c) (listeners c)
    (next_session_id c) (stats c).
Definition set_sessions (m : gmap N N) (c : AsyncTunnelCore) : AsyncTunnelCore :=
  mkCore (limits c) (outbound c) (ready_generation c) m (conns c) (next_conn c) (listeners c)
    (next_session_id c) (stats c).
Definition set_conns (m : gmap N Conn) (c : AsyncTunnelCore) : AsyncTunnelCore :=
  mkCore (limits c) (outbound c) (ready_generation c) (sessions c) m (next_conn c) (listeners c)
    (next_session_id c) (stats c).
Definition set_next_conn (n : N) (c : AsyncTunnelCore) : AsyncTunnelCore :=
  mkCore (limits c) (outbound c) (ready_generation c) (sessions c) (conns c) n (listeners c)
    (next_session_id c) (stats c).
Definition set_listeners (l : gset N) (c : AsyncTunnelCore) : AsyncTunnelCore :=
  mkCore (limits c) (outbound c) (ready_generation c) (sessions c) (conns c) (next_conn c) l
    (next_session_id c) (stats c).
Definition set_next_session_id (n : N) (c : AsyncTunnelCore) : AsyncTunnelCore :=
  mkCore (limits c) (outbound c) (ready_generation c) (sessions c) (conns c) (next_conn c)
    (listeners c) n (stats c).
Definition set_core_stats (s : TunnelRuntimeStats) (c : AsyncTunnelCore) : AsyncTunnelCore :=
  mkCore (limits c) (outbound c) (ready_generation c) (sessions c) (conns c) (next_conn c)
    (listeners c) (next_session_id c) s.

(** ** The outbound queue *)

(** tunnel_async_runtime.rs [TunnelFrameReadyNotifier::notify] *)
Definition notify (generation : N) : N := saturating_add U64_MAX generation 1.

(** tunnel_async_runtime.rs [AsyncTunnelFrameQueue::try_push] *)
Definition try_push (now : N) (frame : KtpFrame) : core_act unit :=
  c ← get;
  if bool_decide (max_outbound_frames (limits c) ≤ len (outbound c))
  then fail backpressure_limit
  else
    _ ← modify (set_outbound (outbound c ++ [mkQueued frame now]));
    modify (set_generation (notify (ready_generation c))).

(** tunnel_async_runtime.rs [AsyncTunnelFrameQueue::into_frame_with_dwell] *)
Definition into_frame_with_dwell (now : N) (q : QueuedKtpFrame) (s : TunnelRuntimeStats)
    : KtpFrame * TunnelRuntimeStats :=
  (queued_frame q, record_outbound_queue_dwell s (now - enqueued_at q)).

Fixpoint frames_with_dwell (now : N) (qs : list QueuedKtpFrame) (s : TunnelRuntimeStats)
    : list KtpFrame * TunnelRuntimeStats :=
  match qs with
  | [] => ([], s)
  | q :: qs =>
      let '(f, s) := into_frame_with_dwell now q s in
      let '(fs, s) := frames_with_dwell now qs s in
      (f :: fs, s)
  end.

(** tunnel_async_runtime.rs [AsyncTunnelFrameQueue::pop] *)
Definition pop (now : N) : core_act (option KtpFrame) :=
  c ← get;
  match outbound c with
  | [] => mret None
  | q :: rest =>
      let '(f, s) := into_frame_with_dwell now q (stats c) in
      _ ← modify (set_outbound rest);
      _ ← modify (set_core_stats s);
      mret (Some f)
  end.

(** tunnel_async_runtime.rs [AsyncTunnelFrameQueue::drain] *)
Definition queue_drain (now max_frames : N) : core_act (list KtpFrame) :=
  if bool_decide (max_frames = 0) then mret [] else
  c ← get;
  let count := N.to_nat (N.min max_frames (len (outbound c))) in
  let '(fs, s) := frames_with_dwell now (take count (outbound c)) (stats c) in
  _ ← modify (set_outbound (drop count (outbound c)));
  _ ← modify (set_core_stats s);
  mret fs.

(** tunnel_async_runtime.rs [AsyncTunnelFrameQueue::drain_after_wait] ([while_waiting] is
    what the other threads do while this one waits) *)
Definition drain_after_wait (now max_frames timeout : N)
    (while_waiting : AsyncTunnelCore → AsyncTunnelCore) : core_act (list KtpFrame) :=
  if bool_decide (max_frames = 0) then mret [] else
  c ← get;
  _ ← (if bool_decide (outbound c = []) && negb (bool_decide (timeout = 0))
       then modify while_waiting else mret tt);
  queue_drain now max_frames.

(** tunnel_async_runtime.rs [TunnelFrameReadyNotifier::wait_for_change] ([woken] is the
    generation when the wait ends) *)
Definition wait_for_change (generation observed_generation timeout woken : N) : N :=
  if negb (bool_decide (generation = observed_generation)) || bool_decide (timeout = 0)
  then generation else woken.

(** tunnel_async_runtime.rs [AsyncTunnelFrameQueue::clear] *)
Definition queue_clear : core_act N :=
  c ← get;
  _ ← modify (set_outbound []);
  mret (len (outbound c)).

(** tunnel_async_runtime.rs [AsyncTunnelFrameQueue::remove_session_frames] *)
Definition remove_session_frames (id : N) : core_act N :=
  c ← get;
  let kept := filter (fun q => session_id (queued_frame q) ≠ id) (outbound c) in
  _ ← modify (set_outbound kept);
  mret (len (outbound c) - len kept).

(** ** Sessions *)

(** tunnel_async_runtime.rs [AsyncTunnelCore::ensure_agent_session_capacity] *)
Definition ensure_agent_session_capacity : core_act unit :=
  c ← get;
  snapshot ← try_ (stats_snapshot (stats c));
  if bool_decide (max_sessions_per_agent (limits c) ≤ snap_active_sessions snapshot)
  then fail (session_limit "agent tunnel session limit reached")
  else mret tt.

(** tunnel_async_runtime.rs [AsyncTunnelCore::effective_outbound_batch_frames] *)
Definition effective_outbound_batch_frames (configured_batch_frames : N) : core_act N :=
  c ← get;
  snapshot ← try_ (stats_snapshot (stats c));
  mret (effective_batch_frames_with_tuning (relay_batch_policy (limits c))
          configured_batch_frames (snap_active_sessions snapshot)
          (snap_recent_outbound_queue_dwell snapshot) (relay_batch_tuning (limits c))).

(** The channel made by [mpsc::channel::<Vec<u8>>(64)] *)
Definition CHANNEL_CAPACITY : N := 64.

(** tunnel_async_runtime.rs [AsyncTunnelSession::new] *)
Definition conn_new (session_id rule_id : N) (leg : FrameLeg) : Conn :=
  mkConn session_id rule_id leg [] 0 true false false None.

(** A new connection is inserted into the session map; the entry it replaces, if
    any, is dropped, and with it the sender of that entry's channel. *)
Definition insert_session (session_id rule_id : N) (leg : FrameLeg) : core_act N :=
  c ← get;
  let id := next_conn c in
  let conns' :=
    match sessions c !! session_id with
    | Some old =>
        alter (fun k => mkConn (conn_session_id k) (conn_rule_id k) (conn_leg k) (channel k)
                          (pending_bytes k) false (reader_alive k) (writer_alive k) (writing k))
          old (conns c)
    | None => conns c
    end in
  _ ← modify (set_conns (<[id := conn_new session_id rule_id leg]> conns'));
  _ ← modify (set_next_conn (id + 1));
  _ ← modify (set_sessions (<[session_id := id]> (sessions c)));
  mret id.

(** tunnel_async_runtime.rs [AsyncTunnelSession::set_reader_task] (and the spawning of
    both tasks) *)
Definition spawn_tasks (id : N) : core_act unit :=
  modify (fun c => set_conns
    (alter (fun k => mkConn (conn_session_id k) (conn_rule_id k) (conn_leg k) (channel k)
                       (pending_bytes k) (sender_alive k) true true (writing k))
       id (conns c)) c).

(** What dialling the target came to *)
Inductive DialOutcome := DialOk | DialTimeout | DialFailed (error : string).

Definition dial_result (d : DialOutcome) : result TunnelRuntimeError unit :=
  match d with
  | DialOk => Ok tt
  | DialTimeout => Err (target_connect_failed "target dial timed out")
  | DialFailed error => Err (target_connect_failed error)
  end.

(** What [open_egress_session] does once the target is connected *)
Definition attach_egress (session_id rule_id : N) : core_act (list KtpFrame) :=
  id ← insert_session session_id rule_id Egress;
  _ ← modify (fun c => set_core_stats (session_opened (stats c) rule_id) c);
  _ ← spawn_tasks id;
  mret [{| frame_type := SessionAccept; leg := Egress; flags := x00; session_id := session_id;
           payload := encode_session_accept_payload rule_id |}].

(** tunnel_async_runtime.rs [AsyncTunnelCore::open_egress_session] ([during_dial] is what
    the other tasks do while the dial is awaited) *)
Definition open_egress_session (session_id rule_id : N) (dial : DialOutcome)
    (during_dial : AsyncTunnelCore → AsyncTunnelCore) : core_act (list KtpFrame) :=
  _ ← ensure_agent_session_capacity;
  _ ← modify during_dial;
  _ ← try_ (dial_result dial);
  attach_egress session_id rule_id.

(** What [attach_ingress_stream] does once the session is admitted *)
Definition attach_ingress (now session_id rule_id : N) (listen_host : string)
    (listen_port : N) (source_addr : string) : core_act unit :=
  id ← insert_session session_id rule_id Ingress;
  _ ← modify (fun c => set_core_stats (session_opened (stats c) rule_id) c);
  payload ← try_ (map_err (fun e => runtime_unavailable (TunnelSessionPayloadError_to_string e))
              (encode_session_open_payload (mkOpenPayload rule_id listen_host listen_port source_addr)));
  _ ← try_push now {| frame_type := SessionOpen; leg := Ingress; flags := x00;
                      session_id := session_id; payload := payload |};
  spawn_tasks id.

(** tunnel_async_runtime.rs [AsyncTunnelCore::attach_ingress_stream] *)
Definition attach_ingress_stream (now session_id rule_id : N) (listen_host : string)
    (listen_port : N) (source_addr : string) : core_act unit :=
  _ ← ensure_agent_session_capacity;
  attach_ingress now session_id rule_id listen_host listen_port source_addr.

(** tunnel_async_runtime.rs [AsyncTunnelCore::start_ingress_listener] (one accepted
    connection; [peer] is the peer's address as text) *)
Definition accept_ingress (now rule_id : N) (listen_address : string) (listen_port : N)
    (source_allowlist peer : string) : core_act unit := fun c =>
  if source_addr_allowed peer source_allowlist then
    let session_id := next_session_id c in
    let c := set_next_session_id (fetch_add session_id 1) c in
    let '(c, r) := attach_ingress_stream now session_id rule_id listen_address listen_port peer c in
    (c, match r with Crash => Crash | _ => Done tt end)
  else (c, Done tt).

(** tunnel_async_runtime.rs [AsyncTunnelCore::start_ingress_listener] ([bind] is the
    error of [TcpListener::bind], if any) *)
Definition start_ingress_listener (rule_id : N) (bind : option string) : core_act unit :=
  match bind with
  | Some error => fail (listen_bind_failed error)
  | None => modify (fun c => set_listeners ({[rule_id]} ∪ listeners c) c)
  end.

(** tunnel_async_runtime.rs [AsyncTunnelCore::stop_ingress_listener] *)
Definition stop_ingress_listener (rule_id : N) : core_act unit :=
  modify (fun c => set_listeners (listeners c ∖ {[rule_id]}) c).

(** tunnel_async_runtime.rs [AsyncTunnelSession::reserve_pending_bytes] *)
Definition reserve_pending_bytes (current bytes limit : N) : result TunnelRuntimeError N :=
  match checked_add USIZE_MAX current bytes with
  | None => Err (session_pending_bytes_limit "session pending byte counter overflowed")
  | Some next =>
      if bool_decide (limit < next)
      then Err (session_pending_bytes_limit
                  ("session pending bytes would exceed limit " +:+ pretty limit))
      else Ok next
  end.

(** tunnel_async_runtime.rs [release_pending_bytes] *)
Definition release_pending_bytes (counter bytes : N) : N := counter - bytes.

Definition set_channel (ch : list (list byte)) (pending : N) (k : Conn) : Conn :=
  mkConn (conn_session_id k) (conn_rule_id k) (conn_leg k) ch pending (sender_alive k)
    (reader_alive k) (writer_alive k) (writing k).

(** tunnel_async_runtime.rs [AsyncTunnelCore::handle_session_data] *)
Definition handle_session_data (session_id : N) (leg : FrameLeg) (payload : list byte)
    : core_act unit :=
  c ← get;
  match (id ← sessions c !! session_id; k ← conns c !! id; Some (id, k)) with
  | None => fail (runtime_unavailable "session not found")
  | Some (id, k) =>
      pending ← try_ (reserve_pending_bytes (pending_bytes k) (len payload)
                        (max_session_pending_bytes (limits c)));
      if writer_alive k && (len (channel k) <? CHANNEL_CAPACITY) then
        modify (set_conns (<[id := set_channel (channel k ++ [payload]) pending k]> (conns c)))
      else
        _ ← modify (set_conns (<[id := set_channel (channel k)
               (release_pending_bytes pending (len payload)) k]> (conns c)));
        fail backpressure_limit
  end.

(** tunnel_async_runtime.rs [AsyncTunnelCore::next_frame] *)
Definition core_next_frame (now : N) : core_act (option KtpFrame) := pop now.

(** tunnel_async_runtime.rs [AsyncTunnelCore::next_frames] *)
Definition core_next_frames (now max_frames : N) : core_act (list KtpFrame) :=
  queue_drain now max_frames.

(** tunnel_async_runtime.rs [AsyncTunnelCore::next_frames_after_wait] *)
Definition core_next_frames_after_wait (now max_frames timeout : N)
    (while_waiting : AsyncTunnelCore → AsyncTunnelCore) : core_act (list KtpFrame) :=
  drain_after_wait now max_frames timeout while_waiting.

(** tunnel_async_runtime.rs [AsyncTunnelSession::abort_reader] (the reader is stopped and
    the entry's sender goes with the entry) *)
Definition drop_conn (k : Conn) : Conn :=
  mkConn (conn_session_id k) (conn_rule_id k) (conn_leg k) (channel k) (pending_bytes k)
    false false (writer_alive k) (writing k).

(** tunnel_async_runtime.rs [AsyncTunnelCore::close_session] *)
Definition close_session (id : N) : core_act unit :=
  c ← get;
  match (n ← sessions c !! id; k ← conns c !! n; Some (n, k)) with
  | None => fail (runtime_unavailable "session not found")
  | Some (n, k) =>
      _ ← modify (set_sessions (delete id (sessions c)));
      _ ← modify (set_conns (<[n := drop_conn k]> (conns c)));
      _ ← remove_session_frames id;
      modify (fun c => set_core_stats (session_closed (stats c) (conn_rule_id k)) c)
  end.

(** The connections of the session map, with their session ids *)
Definition live_conns (c : AsyncTunnelCore) : list (N * N) := map_to_list (sessions c).

(** tunnel_async_runtime.rs [AsyncTunnelCore::close_all_sessions] *)
Definition close_all_sessions : core_act unit :=
  c ← get;
  let removed := live_conns c in
  _ ← modify (set_sessions ∅);
  _ ← for_each removed (fun '(_, n) => modify (fun c =>
        match conns c !! n with
        | Some k =>
            set_core_stats (session_closed (stats c) (conn_rule_id k))
              (set_conns (<[n := drop_conn k]> (conns c)) c)
        | None => c
        end));
  _ ← queue_clear;
  mret tt.

(** ** The tasks of a connection *)

(** tunnel_async_runtime.rs [AsyncTunnelCore::spawn_session_reader] (what the task does
    after its loop) *)
Definition reader_exit (n : N) (k : Conn) : core_act unit :=
  c ← get;
  _ ← modify (fun c => set_conns (alter (fun k =>
        mkConn (conn_session_id k) (conn_rule_id k) (conn_leg k) (channel k) (pending_bytes k)
          (sender_alive k) false (writer_alive k) (writing k)) n (conns c)) c);
  match sessions c !! conn_session_id k with
  | None => mret tt
  | Some m =>
      _ ← modify (fun c => set_sessions (delete (conn_session_id k) (sessions c)) c);
      _ ← modify (fun c => set_conns (alter (fun k =>
            mkConn (conn_session_id k) (conn_rule_id k) (conn_leg k) (channel k) (pending_bytes k)
              false (reader_alive k) (writer_alive k) (writing k)) m (conns c)) c);
      modify (fun c => set_core_stats (session_closed (stats c) (conn_rule_id k)) c)
  end.

(** What a read of the TCP stream returned *)
Inductive TcpRead := TcpEof | TcpData (bs : list byte) | TcpError.

(** [let _ = outbound.try_push(..)] *)
Definition push_ignoring (now : N) (frame : KtpFrame) : core_act unit := fun c =>
  match try_push now frame c with
  | (c, Crash) => (c, Crash)
  | (c, _) => (c, Done tt)
  end.

(** tunnel_async_runtime.rs [AsyncTunnelCore::spawn_session_reader] (one iteration of the
    task's loop) *)
Definition reader_step (now n : N) (k : Conn) (r : TcpRead) : core_act unit :=
  match r with
  | TcpEof =>
      _ ← push_ignoring now {| frame_type := SessionClose; leg := conn_leg k; flags := x00;
                               session_id := conn_session_id k; payload := [] |};
      reader_exit n k
  | TcpData bs =>
      _ ← modify (fun c => set_core_stats (record_bytes_out (stats c) (len bs)) c);
      push_ignoring now {| frame_type := SessionData; leg := conn_leg k; flags := x00;
                           session_id := conn_session_id k; payload := bs |}
  | TcpError => reader_exit n k
  end.

(** tunnel_async_runtime.rs [AsyncTunnelCore::spawn_session_writer] (the task takes the next
    payload, or ends when the channel is closed and empty) *)
Definition writer_take (n : N) (k : Conn) : core_act unit :=
  match channel k with
  | payload :: rest =>
      _ ← modify (fun c => set_conns (<[n := mkConn (conn_session_id k) (conn_rule_id k)
            (conn_leg k) rest (pending_bytes k) (sender_alive k) (reader_alive k)
            (writer_alive k) (Some payload)]> (conns c)) c);
      modify (fun c => set_core_stats (record_bytes_in (stats c) (len payload)) c)
  | [] =>
      if sender_alive k then wait
      else modify (fun c => set_conns (<[n := mkConn (conn_session_id k) (conn_rule_id k)
            (conn_leg k) [] (pending_bytes k) (sender_alive k) (reader_alive k) false None]>
            (conns c)) c)
  end.

(** tunnel_async_runtime.rs [AsyncTunnelCore::spawn_session_writer] (the write of [payload]
    completes; a failed write ends the task and drops what the channel still holds) *)
Definition writer_done (n : N) (k : Conn) (payload : list byte) (ok : bool) : core_act unit :=
  modify (fun c => set_conns (<[n := mkConn (conn_session_id k) (conn_rule_id k) (conn_leg k)
    (if ok then channel k else []) (release_pending_bytes (pending_bytes k) (len payload))
    (sender_alive k) (reader_alive k) ok None]> (conns c)) c).

(** ** Invariant *)

Definition bytes_held (k : Conn) : N :=
  sumN (len <$> channel k) + default 0 (len <$> writing k).

(** A connection's counter is what its channel and its writer hold, within the limit;
    a connection without a writer holds nothing. *)
Definition conn_ok (l : TunnelRuntimeLimits) (k : Conn) : Prop :=
  pending_bytes k ≤ max_session_pending_bytes l
  ∧ len (channel k) ≤ CHANNEL_CAPACITY
  ∧ (writer_alive k = true → pending_bytes k = bytes_held k)
  ∧ (writer_alive k = false → channel k = [] ∧ writing k = None).

Record core_inv (c : AsyncTunnelCore) : Prop := mkCoreInv {
  inv_queue : len (outbound c) ≤ max_outbound_frames (limits c);
  inv_conns n k : conns c !! n = Some k → conn_ok (limits c) k ∧ n < next_conn c;
  inv_sessions sid n :
    sessions c !! sid = Some n → ∃ k, conns c !! n = Some k ∧ conn_session_id k = sid;
  inv_readers n k :
    conns c !! n = Some k → reader_alive k = true → sessions c !! conn_session_id k = Some n;
  inv_active : active_sessions (stats c) = N.of_nat (size (sessions c));
}.

Lemma core_new_inv l : core_inv (core_new l).
Proof. split; cbn; try done. change (len (@nil QueuedKtpFrame)) with 0. lia. Qed.

Section invariant.
Implicit Types c : AsyncTunnelCore.

Lemma inv_set_stats c s :
  core_inv c → active_sessions s = active_sessions (stats c) → core_inv (set_core_stats s c).
Proof. intros [] Hs. split; cbn; try done. by rewrite Hs. Qed.

Lemma inv_set_outbound c q :
  core_inv c → len q ≤ max_outbound_frames (limits c) → core_inv (set_outbound q c).
Proof. intros [] Hq. by split. Qed.

Lemma inv_set_generation c g : core_inv c → core_inv (set_generation g c).
Proof. intros []. by split. Qed.
Lemma inv_set_next_session_id c n : core_inv c → core_inv (set_next_session_id n c).
Proof. intros []. by split. Qed.
Lemma inv_set_listeners c l : core_inv c → core_inv (set_listeners l c).
Proof. intros []. by split. Qed.

Lemma alter_as_insert {A} (f : A → A) (m : gmap N A) n k :
  m !! n = Some k → alter f n m = <[n := f k]> m.
Proof.
  intros H. apply map_eq. intros i. destruct (decide (i = n)) as [->|Hne].
  - by rewrite lookup_alter_eq, lookup_insert_eq, H.
  - by rewrite lookup_alter_ne, lookup_insert_ne.
Qed.

(** Changing one connection, without starting its reader *)
Lemma inv_set_conn c n k k' :
  core_inv c → conns c !! n = Some k → conn_session_id k' = conn_session_id k →
  conn_ok (limits c) k' → (reader_alive k' = true → reader_alive k = true) →
  core_inv (set_conns (<[n := k']> (conns c)) c).
Proof.
  intros [Hq Hc Hs Hr Ha] Hk Hsid Hok Hrd. split; cbn; try done.
  - intros m j [[<- <-]|[? ?]]%lookup_insert_Some; [|by eapply Hc].
    split; [done|]. by eapply Hc.
  - intros sid m Hm. destruct (Hs sid m Hm) as (j & Hj & <-).
    destruct (decide (n = m)) as [->|Hne].
    + exists k'. rewrite lookup_insert_eq. split; [done|]. rewrite Hsid. congruence.
    + exists j. by rewrite lookup_insert_ne.
  - intros m j [[<- <-]|[? ?]]%lookup_insert_Some Hal; [|by eapply Hr].
    rewrite Hsid. eapply Hr; [done|by apply Hrd].
Qed.

(** A fresh session: its connection, its map entry and the count *)
Lemma inv_insert c sid rule leg :
  core_inv c → sessions c !! sid = None → active_sessions (stats c) < U64_MAX →
  ∃ c', insert_session sid rule leg c = (c', Done (next_conn c))
    ∧ core_inv (set_core_stats (session_opened (stats c') rule) c')
    ∧ stats c' = stats c ∧ limits c' = limits c ∧ outbound c' = outbound c
    ∧ conns c' !! next_conn c = Some (conn_new sid rule leg)
    ∧ sessions c' = <[sid := next_conn c]> (sessions c).
Proof.
  intros [Hq Hc Hs Hr Ha] Hf Hlt. eexists. split.
  { unfold insert_session. cbv [mbind act_bind get modify mret act_ret]. rewrite Hf. reflexivity. }
  split; [|split_and!; try done; cbn; by rewrite lookup_insert_eq].
  assert (∀ n k, conns c !! n = Some k → n ≠ next_conn c) as Hne.
  { intros n k Hn Heq. apply Hc in Hn as [_ ?]. lia. }
  split; cbn; try done.
  - intros n k [[<- <-]|[? Hn]]%lookup_insert_Some.
    + split; [|lia]. unfold conn_ok; cbn. change (len (@nil (list byte))) with 0. split_and!; done || lia.
    + apply Hc in Hn as [? ?]. split; [done|lia].
  - intros s n [[<- <-]|[Hsn Hn]]%lookup_insert_Some.
    + exists (conn_new sid rule leg). by rewrite lookup_insert_eq.
    + destruct (Hs s n Hn) as (k & Hk & Hsk). exists k. rewrite lookup_insert_ne; [done|].
      intros Heq. by apply (Hne _ _ Hk).
  - intros n k [[<- <-]|[? Hn]]%lookup_insert_Some; [done|]. intros Hal.
    rewrite lookup_insert_ne; [by apply Hr|]. intros Heq.
    rewrite Heq, (Hr n k Hn Hal) in Hf. done.
  - rewrite map_size_insert_None by done. unfold fetch_add, wrapping_add.
    rewrite N.mod_small by lia. lia.
Qed.

Lemma inv_spawn c n k :
  core_inv c → conns c !! n = Some k → sessions c !! conn_session_id k = Some n →
  channel k = [] → pending_bytes k = 0 → writing k = None →
  ∃ c', spawn_tasks n c = (c', Done tt) ∧ core_inv c'
    ∧ stats c' = stats c ∧ limits c' = limits c ∧ sessions c' = sessions c.
Proof.
  intros [Hq Hc Hs Hr Ha] Hk Hsk Hch Hp Hw. eexists. split; [done|].
  split; [|done]. rewrite (alter_as_insert _ _ _ _ Hk). split; cbn; try done.
  - intros m j [[<- <-]|[? ?]]%lookup_insert_Some; [|by eapply Hc].
    destruct (Hc n k Hk) as [(?&?&?&?) ?]. split; [|done]. unfold conn_ok, bytes_held; cbn.
    rewrite Hch, Hp, Hw. change (len (@nil (list byte))) with 0.
    change (sumN (len <$> [])) with 0. split_and!; done || lia.
  - intros sid m Hm. destruct (Hs sid m Hm) as (j & Hj & <-).
    destruct (decide (n = m)) as [->|Hne].
    + eexists. rewrite lookup_insert_eq. split; [done|]. cbn. congruence.
    + exists j. by rewrite lookup_insert_ne.
  - intros m j [[<- <-]|[? ?]]%lookup_insert_Some Hal; [done|by eapply Hr].
Qed.

(** Dropping a session: the map entry, the reader, and the count *)
Lemma inv_remove c sid n k r :
  core_inv c → sessions c !! sid = Some n → conns c !! n = Some k →
  core_inv (set_core_stats (session_closed (stats c) r)
    (set_conns (<[n := drop_conn k]> (conns c)) (set_sessions (delete sid (sessions c)) c))).
Proof.
  intros [Hq Hc Hs Hr Ha] Hsid Hk.
  destruct (Hs sid n Hsid) as (k' & Hk' & Hksid). assert (k' = k) as -> by congruence.
  split; cbn; try done.
  - intros m j [[<- <-]|[? ?]]%lookup_insert_Some; [|by eapply Hc]. by apply Hc in Hk.
  - intros s m [Hss Hm]%lookup_delete_Some. destruct (Hs s m Hm) as (j & Hj & Hjs).
    exists j. rewrite lookup_insert_ne; [done|]. intros <-. congruence.
  - intros m j [[<- <-]|[Hnm Hm]]%lookup_insert_Some Hal; [done|].
    rewrite lookup_delete_ne; [by apply Hr|]. intros Heq. rewrite Heq in Hsid.
    rewrite (Hr m j Hm Hal) in Hsid. congruence.
  - rewrite map_size_delete_Some by done. lia.
Qed.
End invariant.

(** ** The core as a transition system

    Calls of the runtime, accepted connections and task iterations interleave in any
    order.  Opening a session is two steps: the capacity check, and what follows it
    (after the dial, for an egress session).  The thread that handles server frames
    opens egress sessions, one at a time; the two worker threads accept connections,
    so at most two ingress sessions are between their two steps.  Every other call and
    every loop iteration is one step.  Session ids of live sessions are assumed distinct
    (the server numbers egress sessions, a local counter ingress ones). *)
Record Accepted := mkAccepted {
  acc_session : N; acc_rule : N; acc_listen_host : string; acc_listen_port : N; acc_peer : string }.

(** The core, the egress session whose target is being dialled, and the ingress
    sessions that have passed the capacity check *)
Record system := mkSystem {
  core : AsyncTunnelCore; dialling : option (N * N); accepting : list Accepted }.

(** tunnel_runtime.rs [TunnelTcpRuntime::new_internal] 431-436: the threads that run the
    listener tasks *)
Definition WORKER_THREADS : N := 2.

Definition dials (d : option (N * N)) : N := if d is Some _ then 1 else 0.

(** What a step does to a connection's TCP side: a payload enters its channel, or is
    written to the socket *)
Inductive event := Delivered (n : N) (payload : list byte) | Written (n : N) (payload : list byte) | Internal.

Definition data_event (c : AsyncTunnelCore) (sid : N) (bytes : list byte)
    (r : outcome TunnelRuntimeError ()) : event :=
  match r, sessions c !! sid with Done _, Some n => Delivered n bytes | _, _ => Internal end.

Inductive core_step : system → event → system → Prop :=
  | step_egress_check c o sid rule :
      ensure_agent_session_capacity c = (c, Done tt) →
      core_step (mkSystem c None o) Internal (mkSystem c (Some (sid, rule)) o)
  | step_egress_attach c c' o sid rule frames :
      sessions c !! sid = None → attach_egress sid rule c = (c', Done frames) →
      core_step (mkSystem c (Some (sid, rule)) o) Internal (mkSystem c' None o)
  | step_dial_failed c o sid rule :
      core_step (mkSystem c (Some (sid, rule)) o) Internal (mkSystem c None o)
  | step_ingress_check c d o rule addr port allow peer :
      source_addr_allowed peer allow = true →
      len o < WORKER_THREADS → ensure_agent_session_capacity c = (c, Done tt) →
      core_step (mkSystem c d o) Internal
        (mkSystem (set_next_session_id (fetch_add (next_session_id c) 1) c) d
           (mkAccepted (next_session_id c) rule addr port peer :: o))
  | step_ingress_full c d o peer allow :
      source_addr_allowed peer allow = true →
      (ensure_agent_session_capacity c).2 ≠ Done tt →
      core_step (mkSystem c d o) Internal
        (mkSystem (set_next_session_id (fetch_add (next_session_id c) 1) c) d o)
  | step_ingress_attach c c' d o1 o2 now sid rule addr port peer r :
      sessions c !! sid = None → attach_ingress now sid rule addr port peer c = (c', r) →
      core_step (mkSystem c d (o1 ++ mkAccepted sid rule addr port peer :: o2)) Internal
        (mkSystem c' d (o1 ++ o2))
  | step_listen c c' d o rule bind r :
      start_ingress_listener rule bind c = (c', r) → core_step (mkSystem c d o) Internal (mkSystem c' d o)
  | step_unlisten c c' d o rule r :
      stop_ingress_listener rule c = (c', r) → core_step (mkSystem c d o) Internal (mkSystem c' d o)
  | step_data c c' d o sid leg bytes r :
      handle_session_data sid leg bytes c = (c', r) →
      core_step (mkSystem c d o) (data_event c sid bytes r) (mkSystem c' d o)
  | step_close c c' d o sid r :
      close_session sid c = (c', r) → core_step (mkSystem c d o) Internal (mkSystem c' d o)
  | step_close_all c c' d o r :
      close_all_sessions c = (c', r) → core_step (mkSystem c d o) Internal (mkSystem c' d o)
  | step_drain c c' d o now max r :
      core_next_frames now max c = (c', r) → core_step (mkSystem c d o) Internal (mkSystem c' d o)
  | step_reader c c' d o now n k rd r :
      conns c !! n = Some k → reader_alive k = true →
      reader_step now n k rd c = (c', r) → core_step (mkSystem c d o) Internal (mkSystem c' d o)
  | step_writer_take c c' d o n k r :
      conns c !! n = Some k → writer_alive k = true → writing k = None →
      writer_take n k c = (c', r) → core_step (mkSystem c d o) Internal (mkSystem c' d o)
  | step_writer_done c c' d o n k p ok r :
      conns c !! n = Some k → writer_alive k = true → writing k = Some p →
      writer_done n k p ok c = (c', r) →
      core_step (mkSystem c d o) (if ok then Written n p else Internal) (mkSystem c' d o).

(** The sessions and the ones being opened exceed the limit by at most two: when an
    opener passes the check, two others may be between the check and the entry. *)
Definition sessions_bound (s : system) : Prop :=
  active_sessions (stats (core s)) + dials (dialling s) + len (accepting s)
  ≤ max_sessions_per_agent (limits (core s)) + WORKER_THREADS
  ∧ len (accepting s) ≤ WORKER_THREADS.

Definition system_inv (s : system) : Prop :=
  core_inv (core s) ∧ sessions_bound s
  ∧ max_sessions_per_agent (limits (core s)) + WORKER_THREADS < U64_MAX.

Section preservation.
Implicit Types c : AsyncTunnelCore.

Lemma try_push_run now f c :
  try_push now f c
  = if bool_decide (max_outbound_frames (limits c) ≤ len (outbound c))
    then (c, Fail backpressure_limit)
    else (set_generation (notify (ready_generation c))
            (set_outbound (outbound c ++ [mkQueued f now]) c), Done tt).
Proof. unfold try_push. cbv [mbind act_bind get modify fail]. by case_bool_decide. Qed.

(** What most operations keep *)
Definition same_frame (c c' : AsyncTunnelCore) : Prop :=
  core_inv c' ∧ limits c' = limits c
  ∧ active_sessions (stats c') = active_sessions (stats c) ∧ sessions c' = sessions c
  ∧ conns c' = conns c.

Lemma try_push_inv now f c c' r :
  core_inv c → try_push now f c = (c', r) → same_frame c c' ∧ r ≠ Crash ∧ r ≠ Wait.
Proof.
  intros Hi H. rewrite try_push_run in H. case_bool_decide; injection H as <- <-.
  - by split_and!.
  - split; [|done]. split; [|done]. apply inv_set_generation, inv_set_outbound; [done|].
    rewrite len_app, len_cons. change (len (@nil QueuedKtpFrame)) with 0. lia.
Qed.

Lemma push_ignoring_inv now f c c' r :
  core_inv c → push_ignoring now f c = (c', r) → same_frame c c' ∧ r = Done tt.
Proof.
  unfold push_ignoring. intros Hi H. destruct (try_push now f c) as [c1 r1] eqn:H1.
  apply try_push_inv in H1 as (Hs & Hc & _); [|done].
  destruct r1; injection H as <- <-; done.
Qed.

Lemma capacity_run c c' r :
  ensure_agent_session_capacity c = (c', r) →
  c' = c ∧ (r = Done tt → active_sessions (stats c) < max_sessions_per_agent (limits c)).
Proof.
  unfold ensure_agent_session_capacity. cbv [mbind act_bind get try_ mret act_ret fail].
  destruct (stats_snapshot (stats c)) as [s|e|] eqn:Hs; [|by intros [= <- <-]..].
  assert (snap_active_sessions s = active_sessions (stats c)) as Hact.
  { unfold stats_snapshot in Hs. inv_ok. done. }
  case_bool_decide; intros [= <- <-]; [done|]. split; [done|]. intros _. lia.
Qed.

(** After a session is opened there is one more, and its tasks may be started. *)
Lemma attach_inv c sid rule leg (m : core_act unit) c1 n c' r :
  core_inv c → sessions c !! sid = None → active_sessions (stats c) < U64_MAX →
  insert_session sid rule leg c = (c1, Done n) →
  (∀ c2 c3 r3, core_inv c2 → m c2 = (c3, r3) → same_frame c2 c3) →
  (_ ← modify (fun c => set_core_stats (session_opened (stats c) rule) c);
   _ ← m; spawn_tasks n) c1 = (c', r) →
  core_inv c' ∧ limits c' = limits c
  ∧ active_sessions (stats c') = active_sessions (stats c) + 1.
Proof.
  intros Hi Hf Hlt Hins Hm H.
  destruct (inv_insert c sid rule leg Hi Hf Hlt)
    as (c1' & Hins' & Hi1 & Hst & Hlim & Hout & Hk & Hses).
  rewrite Hins in Hins'. apply pair_eq in Hins' as [<- [= ->]].
  unfold mbind, act_bind, modify in H. set (c2 := set_core_stats _ c1) in *.
  assert (active_sessions (stats c2) = active_sessions (stats c) + 1) as Hact.
  { cbn. rewrite Hst. unfold fetch_add, wrapping_add. apply N.mod_small. lia. }
  destruct (m c2) as [c3 r3] eqn:Hm3. apply Hm in Hm3 as (Hi3 & Hl3 & Ha3 & Hs3 & Hc3); [|done].
  assert (∀ c4, c4 = c3 → core_inv c4 ∧ limits c4 = limits c
    ∧ active_sessions (stats c4) = active_sessions (stats c) + 1) as Hfail.
  { intros c4 ->. split_and!; [done|by rewrite Hl3|by rewrite Ha3]. }
  destruct r3; try (injection H as <- <-; by apply Hfail).
  destruct (inv_spawn c3 (next_conn c) (conn_new sid rule leg)) as (c4 & Hsp & Hi4 & Hst4 & Hl4 & _);
    try done.
  { by rewrite Hc3. } { rewrite Hs3. cbn. rewrite Hses. apply lookup_insert_eq. }
  rewrite Hsp in H. injection H as <- <-. rewrite Hst4, Hl4. destruct (Hfail c3 eq_refl) as (_ & ? & ?). done.
Qed.

Lemma attach_egress_inv c sid rule c' r :
  core_inv c → sessions c !! sid = None → active_sessions (stats c) < U64_MAX →
  attach_egress sid rule c = (c', r) →
  core_inv c' ∧ limits c' = limits c
  ∧ active_sessions (stats c') = active_sessions (stats c) + 1.
Proof.
  intros Hi Hf Hlt H. unfold attach_egress, mbind at 1, act_bind at 1 in H.
  destruct (inv_insert c sid rule Egress Hi Hf Hlt) as (c1 & Hins & _). rewrite Hins in H.
  destruct ((_ ← modify (fun c => set_core_stats (session_opened (stats c) rule) c);
             _ ← mret tt; spawn_tasks (next_conn c)) c1) as [c2 r2] eqn:H2.
  assert (c' = c2) as ->.
  { cbv [mbind act_bind modify mret act_ret spawn_tasks] in H, H2. congruence. }
  eapply attach_inv; [done|done|done|exact Hins| |exact H2].
  intros c3 c4 r4 Hc3 [= <- <-]. by split_and!.
Qed.

Lemma attach_ingress_inv c now sid rule addr port peer c' r :
  core_inv c → sessions c !! sid = None → active_sessions (stats c) < U64_MAX →
  attach_ingress now sid rule addr port peer c = (c', r) →
  core_inv c' ∧ limits c' = limits c
  ∧ active_sessions (stats c') = active_sessions (stats c) + 1.
Proof.
  intros Hi Hf Hlt H. unfold attach_ingress, mbind at 1, act_bind at 1 in H.
  destruct (inv_insert c sid rule Ingress Hi Hf Hlt) as (c2 & Hins & _). rewrite Hins in H.
  set (push := fun payload : list byte => try_push now {| frame_type := SessionOpen; leg := Ingress;
    flags := x00; session_id := sid; payload := payload |}) in *.
  set (pay := map_err _ _) in H.
  destruct ((_ ← modify (fun c => set_core_stats (session_opened (stats c) rule) c);
             _ ← (payload ← try_ pay; push payload); spawn_tasks (next_conn c)) c2)
    as [c3 r3] eqn:H3.
  assert (c' = c3) as ->.
  { cbv [mbind act_bind modify try_] in H, H3.
    destruct pay as [p|e|]; [|congruence..].
    cbn beta iota in H, H3. unfold push in H3.
    destruct (try_push _ _ _) as [c4 [[]|e| |]];
      [destruct (spawn_tasks _ _)|..]; congruence. }
  eapply (attach_inv c) in H3; [done|done|done|done|exact Hins|].
  intros c4 c5 r5 Hc4 H5. unfold mbind, act_bind, try_ in H5.
  destruct pay as [p|e|]; [|by injection H5 as <- <-; split_and!..].
  by apply try_push_inv in H5 as [? _].
Qed.
End preservation.

Section preservation_rest.
Implicit Types c : AsyncTunnelCore.

(** The invariant is kept and no session is added. *)
Definition kept (c c' : AsyncTunnelCore) : Prop :=
  core_inv c' ∧ limits c' = limits c
  ∧ active_sessions (stats c') ≤ active_sessions (stats c).

Lemma kept_refl c : core_inv c → kept c c.
Proof. intros. by split_and!. Qed.

Lemma listeners_inv c l : core_inv c → kept c (set_listeners l c).
Proof. intros. split_and!; [by apply inv_set_listeners|done|cbn; lia]. Qed.

Lemma start_listener_inv c rule bind c' r :
  core_inv c → start_ingress_listener rule bind c = (c', r) → kept c c'.
Proof.
  intros Hi H. destruct bind; injection H as <- <-; [by apply kept_refl|by apply listeners_inv].
Qed.

Lemma stop_listener_inv c rule c' r :
  core_inv c → stop_ingress_listener rule c = (c', r) → kept c c'.
Proof. intros Hi H. injection H as <- <-. by apply listeners_inv. Qed.

Lemma handle_data_inv c sid leg bytes c' r :
  core_inv c → handle_session_data sid leg bytes c = (c', r) → kept c c'.
Proof.
  intros Hi H. unfold handle_session_data, mbind, act_bind, get in H.
  destruct (sessions c !! sid) as [n|]; cbn in H; [|injection H as <- <-; by apply kept_refl].
  destruct (conns c !! n) as [k|] eqn:Hk; cbn in H; [|injection H as <- <-; by apply kept_refl].
  unfold try_, reserve_pending_bytes, checked_add in H.
  case_bool_decide; [|injection H as <- <-; by apply kept_refl].
  case_bool_decide as Hlim; [injection H as <- <-; by apply kept_refl|].
  destruct (inv_conns c Hi n k Hk) as [(Hp & Hc & Hw & Hd) _].
  destruct (writer_alive k) eqn:Hwa; cbn [andb] in H.
  - destruct (N.ltb_spec (len (channel k)) CHANNEL_CAPACITY) as [Hlt|Hge].
    + injection H as <- <-. split; [|done]. apply (inv_set_conn c n k); try done.
      unfold conn_ok, bytes_held; cbn. rewrite len_app, len_cons, fmap_app, sumN_app.
      change (len (@nil (list byte))) with 0. rewrite Hwa. split_and!; [lia|lia| |done].
      intros _. specialize (Hw eq_refl). unfold bytes_held in Hw. cbn [fmap list_fmap].
      rewrite sumN_cons. change (sumN []) with 0. lia.
    + injection H as <- <-. split; [|done]. apply (inv_set_conn c n k); try done.
      unfold conn_ok, bytes_held, release_pending_bytes; cbn. rewrite Hwa. split_and!; [lia|done| |done].
      intros _. specialize (Hw eq_refl). unfold bytes_held in Hw. lia.
  - injection H as <- <-. split; [|done]. apply (inv_set_conn c n k); try done.
    unfold conn_ok, release_pending_bytes; cbn. rewrite Hwa. split_and!; try done; lia.
Qed.

Lemma filter_len_le {A} (P : A → Prop) `{!∀ x, Decision (P x)} (l : list A) :
  len (filter P l) ≤ len l.
Proof. unfold len. pose proof (length_filter P l). lia. Qed.

Lemma close_session_inv c sid c' r :
  core_inv c → close_session sid c = (c', r) → kept c c'.
Proof.
  intros Hi H. unfold close_session, mbind, act_bind, get in H.
  destruct (sessions c !! sid) as [n|] eqn:Hsn; cbn in H; [|injection H as <- <-; by apply kept_refl].
  destruct (conns c !! n) as [k|] eqn:Hk; cbn in H; [|injection H as <- <-; by apply kept_refl].
  injection H as <- <-. pose proof (inv_remove c sid n k (conn_rule_id k) Hi Hsn Hk) as Hi'.
  split_and!; [|done|cbn; lia].
  assert (len (filter (fun q => session_id (queued_frame q) ≠ sid) (outbound c))
          ≤ max_outbound_frames (limits c)) as Hq.
  { pose proof (inv_queue c Hi).
    pose proof (filter_len_le (fun q => session_id (queued_frame q) ≠ sid) (outbound c)). lia. }
  exact (inv_set_outbound _ _ Hi' Hq).
Qed.

(** The loop of [close_all_sessions] over the entries of the session map *)
Definition drop_entry (p : N * N) (c : AsyncTunnelCore) : AsyncTunnelCore :=
  match conns c !! p.2 with
  | Some k => set_core_stats (session_closed (stats c) (conn_rule_id k))
                (set_conns (<[p.2 := drop_conn k]> (conns c)) c)
  | None => c
  end.

Lemma drop_entries_spec l c :
  (∀ p, p ∈ l → is_Some (conns c !! p.2)) →
  let c' := foldl (fun c p => drop_entry p c) c l in
  limits c' = limits c ∧ outbound c' = outbound c ∧ sessions c' = sessions c
  ∧ next_conn c' = next_conn c
  ∧ active_sessions (stats c') = active_sessions (stats c) - len l
  ∧ (∀ n, conns c' !! n = if bool_decide (n ∈ l.*2) then drop_conn <$> conns c !! n else conns c !! n).
Proof.
  revert c. induction l as [|[s n] l IH]; intros c Hl; cbn zeta.
  { cbn. rewrite N.sub_0_r. split_and!; done. }
  cbn [foldl]. destruct (Hl (s, n)) as [k Hk]; [left|]. cbn in Hk.
  assert (drop_entry (s, n) c = set_core_stats (session_closed (stats c) (conn_rule_id k))
            (set_conns (<[n := drop_conn k]> (conns c)) c)) as Hd.
  { unfold drop_entry. cbn [snd]. by rewrite Hk. }
  rewrite Hd. set (c1 := set_core_stats _ _).
  destruct (IH c1) as (H1 & H2 & H3 & H4 & H5 & H6).
  { intros p Hp. cbn. destruct (decide (p.2 = n)) as [->|Hne].
    - rewrite lookup_insert_eq. eauto.
    - rewrite lookup_insert_ne by done. apply Hl. by right. }
  rewrite H1, H2, H3, H4, H5. split_and!; try done.
  - cbn. rewrite len_cons. lia.
  - intros m. rewrite H6. cbn.
    destruct (decide (m = n)) as [->|Hne].
    + rewrite lookup_insert_eq, Hk. rewrite (bool_decide_true (n ∈ n :: l.*2)) by left.
      by case_bool_decide.
    + rewrite lookup_insert_ne by done.
      assert (bool_decide (m ∈ n :: l.*2) = bool_decide (m ∈ l.*2)) as ->; [|done].
      apply bool_decide_ext. rewrite elem_of_cons. naive_solver.
Qed.

Lemma close_all_run c :
  close_all_sessions c
  = (set_outbound [] (foldl (fun c p => drop_entry p c) (set_sessions ∅ c) (live_conns c)), Done tt).
Proof.
  unfold close_all_sessions.
  assert (∀ c0 l, for_each (E:=TunnelRuntimeError) l (fun '(_, n) => modify (fun c =>
      match conns c !! n with
      | Some k => set_core_stats (session_closed (stats c) (conn_rule_id k))
                    (set_conns (<[n := drop_conn k]> (conns c)) c)
      | None => c
      end)) c0 = (foldl (fun c p => drop_entry p c) c0 l, Done tt)) as Hf.
  { intros c0 l. revert c0. induction l as [|[s n] l IH]; intros c0; [done|].
    cbn [for_each]. unfold mbind, act_bind, modify. apply IH. }
  unfold mbind, act_bind, get. unfold modify at 1. by rewrite Hf.
Qed.

Lemma close_all_inv c c' r :
  core_inv c → close_all_sessions c = (c', r) → kept c c'.
Proof.
  intros Hi H. rewrite close_all_run in H. injection H as <- <-.
  destruct Hi as [Hq Hc Hs Hr Ha].
  assert (∀ p, p ∈ live_conns c → sessions c !! p.1 = Some p.2) as Hlive.
  { intros [s n] Hp. by apply elem_of_map_to_list in Hp. }
  destruct (drop_entries_spec (live_conns c) (set_sessions ∅ c)) as (H1 & H2 & H3 & H4 & H5 & H6).
  { intros p Hp. apply Hlive in Hp. destruct (Hs _ _ Hp) as (k & Hk & _). cbn. eauto. }
  set (c2 := foldl _ _ _) in *. cbn in H5, H6.
  assert (len (live_conns c) = N.of_nat (size (sessions c))) as Hlen.
  { unfold len, live_conns. by rewrite length_map_to_list. }
  split_and!; [|done|cbn; lia]. split; cbn [outbound conns sessions stats limits next_conn set_outbound].
  - change (len (@nil QueuedKtpFrame)) with 0. lia.
  - intros n k Hn. rewrite H1, H4. rewrite H6 in Hn. cbn. case_bool_decide.
    + destruct (conns c !! n) as [k'|] eqn:Hk'; [|done]. injection Hn as <-. by apply Hc in Hk'.
    + by apply Hc.
  - rewrite H3. cbn. intros sid n Hn. by rewrite lookup_empty in Hn.
  - intros n k Hn Hal. exfalso. rewrite H6 in Hn. case_bool_decide as Hin.
    + destruct (conns c !! n); [|done]. by injection Hn as <-.
    + apply Hin. apply list_elem_of_fmap. exists (conn_session_id k, n). split; [done|].
      apply elem_of_map_to_list. by apply Hr.
  - rewrite H5, H3. cbn. rewrite map_size_empty. lia.
Qed.

Lemma frames_with_dwell_active now qs s fs s' :
  frames_with_dwell now qs s = (fs, s') → active_sessions s' = active_sessions s.
Proof.
  revert s fs. induction qs as [|q qs IH]; intros s fs H; cbn in H; [by injection H as <- <-|].
  destruct (frames_with_dwell now qs _) as [fs1 s1] eqn:H1. injection H as <- <-.
  by apply IH in H1.
Qed.

Lemma drain_inv c now max c' r :
  core_inv c → core_next_frames now max c = (c', r) → kept c c'.
Proof.
  intros Hi H. unfold core_next_frames, queue_drain in H.
  case_bool_decide; [injection H as <- <-; by apply kept_refl|].
  cbv [mbind act_bind get modify mret act_ret] in H.
  destruct (frames_with_dwell now _ (stats c)) as [fs s] eqn:Hf. injection H as <- <-.
  apply frames_with_dwell_active in Hf. split_and!; [|done|cbn; lia].
  apply inv_set_stats; [|done]. apply inv_set_outbound; [done|].
  rewrite len_drop. pose proof (inv_queue c Hi). lia.
Qed.

Lemma reader_exit_inv c n k c' r :
  core_inv c → conns c !! n = Some k → reader_alive k = true →
  reader_exit n k c = (c', r) → kept c c'.
Proof.
  intros Hi Hk Hal H. pose proof (inv_readers c Hi n k Hk Hal) as Hsid.
  unfold reader_exit in H. cbv [mbind act_bind get modify mret act_ret] in H.
  rewrite Hsid in H. injection H as <- <-. cbn [set_conns set_sessions set_core_stats conns sessions stats].
  pose proof (inv_remove c _ n k (conn_rule_id k) Hi Hsid Hk) as Hi'.
  split_and!; [|done|cbn; lia].
  erewrite (alter_as_insert _ (alter _ n (conns c)) n)
    by (rewrite lookup_alter_eq, Hk; reflexivity).
  rewrite (alter_as_insert _ (conns c) n k) by done. rewrite insert_insert_eq. exact Hi'.
Qed.

Lemma reader_step_inv c now n k rd c' r :
  core_inv c → conns c !! n = Some k → reader_alive k = true →
  reader_step now n k rd c = (c', r) → kept c c'.
Proof.
  intros Hi Hk Hal H. destruct rd as [|bs|]; cbn [reader_step] in H.
  - unfold mbind, act_bind in H. destruct (push_ignoring now _ c) as [c1 r1] eqn:H1.
    apply push_ignoring_inv in H1 as [(Hi1 & Hl1 & Ha1 & Hs1 & Hc1) ->]; [|done].
    apply reader_exit_inv in H as (? & ? & ?); [|done|by rewrite Hc1|done].
    split_and!; [done|congruence|lia].
  - unfold mbind, act_bind, modify in H.
    apply push_ignoring_inv in H as [(Hi1 & Hl1 & Ha1 & Hs1 & Hc1) ->].
    + split_and!; [done|done|]. rewrite Ha1. cbn. lia.
    + by apply inv_set_stats.
  - by eapply reader_exit_inv.
Qed.

Lemma writer_take_inv c n k c' r :
  core_inv c → conns c !! n = Some k → writer_alive k = true → writing k = None →
  writer_take n k c = (c', r) → kept c c'.
Proof.
  intros Hi Hk Hwa Hwn H. destruct (inv_conns c Hi n k Hk) as [(Hp & Hc & Hw & Hd) _].
  specialize (Hw Hwa). unfold bytes_held in Hw. rewrite Hwn in Hw. cbn in Hw.
  unfold writer_take in H. destruct (channel k) as [|p rest] eqn:Hch.
  - destruct (sender_alive k); [injection H as <- <-; by apply kept_refl|].
    injection H as <- <-. split; [|done]. by apply (inv_set_conn c n k).
  - cbv [mbind act_bind modify] in H. injection H as <- <-. split; [|done].
    apply inv_set_stats; [|done]. apply (inv_set_conn c n k); try done.
    unfold conn_ok, bytes_held; cbn. rewrite len_cons in Hc. rewrite Hwa.
    cbn in Hw. rewrite sumN_cons in Hw. split_and!; [done|lia|lia|done].
Qed.

Lemma writer_done_inv c n k p ok c' r :
  core_inv c → conns c !! n = Some k → writer_alive k = true → writing k = Some p →
  writer_done n k p ok c = (c', r) → kept c c'.
Proof.
  intros Hi Hk Hwa Hwp H. destruct (inv_conns c Hi n k Hk) as [(Hp & Hc & Hw & Hd) _].
  specialize (Hw Hwa). unfold bytes_held in Hw. rewrite Hwp in Hw. cbn in Hw.
  unfold writer_done, modify in H. injection H as <- <-. split; [|done].
  apply (inv_set_conn c n k); try done. unfold conn_ok, bytes_held, release_pending_bytes; cbn.
  destruct ok; cbn; split_and!; try done; lia.
Qed.
End preservation_rest.

(** The invariant is kept by every step, and the limits never change. *)
Lemma core_step_inv s e s' :
  system_inv s → core_step s e s' → system_inv s' ∧ limits (core s') = limits (core s).
Proof.
  intros (Hi & [Hb Ho] & Hm) Hstep.
  assert (∀ c' d' o', core_inv c' → limits c' = limits (core s) →
    active_sessions (stats c') + dials d' + len o'
      ≤ max_sessions_per_agent (limits (core s)) + WORKER_THREADS →
    len o' ≤ WORKER_THREADS →
    system_inv (mkSystem c' d' o') ∧ limits c' = limits (core s)) as Hmk.
  { intros c' d' o' ? Hl ? ?. unfold system_inv, sessions_bound; cbn. rewrite Hl. by split_and!. }
  assert (∀ c', kept (core s) c' →
    system_inv (mkSystem c' (dialling s) (accepting s)) ∧ limits c' = limits (core s)) as Hkept.
  { intros c' (? & Hl & ?). apply Hmk; [done|done|lia|done]. }
  unfold WORKER_THREADS in *.
  destruct Hstep; cbn [core dialling accepting dials] in *;
    try (apply Hkept;
         solve [by eapply handle_data_inv|by eapply close_session_inv|by eapply close_all_inv
               |by eapply drain_inv|by eapply reader_step_inv|by eapply writer_take_inv
               |by eapply writer_done_inv|by eapply start_listener_inv|by eapply stop_listener_inv]);
    rewrite ?len_app, ?len_cons in Hb, Ho.
  - apply capacity_run in H as [_ Hc]. specialize (Hc eq_refl). apply Hmk; cbn; [done|done|lia|done].
  - apply attach_egress_inv in H0 as (? & ? & Ha); [|done|done|lia]. apply Hmk; cbn; [done|done|lia|done].
  - apply Hmk; cbn; [done|done|lia|done].
  - apply capacity_run in H1 as [_ Hc]. specialize (Hc eq_refl). unfold WORKER_THREADS in H0.
    apply Hmk; rewrite ?len_cons; [by apply inv_set_next_session_id|done| |lia].
    destruct d; cbn in *; lia.
  - apply Hmk; cbn; [by apply inv_set_next_session_id|done|lia|done].
  - apply attach_ingress_inv in H0 as (? & ? & Ha); [|done|done|lia].
    apply Hmk; rewrite ?len_app; [done|done|lia|lia].
Qed.

(** The states a run reaches from a new core, with the events of the run *)
Inductive reaches (l : TunnelRuntimeLimits) : list event → system → Prop :=
  | reaches_init : reaches l [] (mkSystem (core_new l) None [])
  | reaches_step tr s e s' : reaches l tr s → core_step s e s' → reaches l (tr ++ [e]) s'.

Definition reachable (l : TunnelRuntimeLimits) (s : system) : Prop := ∃ tr, reaches l tr s.

Lemma reachable_step l s e s' : reachable l s → core_step s e s' → reachable l s'.
Proof. intros [tr H] Hs. exists (tr ++ [e]). by eapply reaches_step. Qed.

Lemma reachable_inv l s :
  max_sessions_per_agent l + WORKER_THREADS < U64_MAX → reachable l s →
  system_inv s ∧ limits (core s) = l.
Proof.
  intros Hm [tr Hr]. induction Hr as [|tr s e s' Hr [IH Hl] Hs].
  - split; [|done]. split_and!; [apply core_new_inv| |done].
    unfold sessions_bound; cbn. change (len (@nil Accepted)) with 0. unfold WORKER_THREADS. lia.
  - destruct (core_step_inv s e s' IH Hs) as [? Hl']. split; [done|]. by rewrite Hl'.
Qed.

(** A handled connection is the two steps of the transition system in a row. *)
Lemma accept_ingress_steps l c d now rule addr port allow peer c' r :
  reachable l (mkSystem c d []) → sessions c !! next_session_id c = None →
  accept_ingress now rule addr port allow peer c = (c', r) →
  reachable l (mkSystem c' d []).
Proof.
  intros Hr Hf H. unfold accept_ingress in H.
  destruct (source_addr_allowed peer allow) eqn:Hal; [|by injection H as <- <-].
  unfold attach_ingress_stream, mbind at 1, act_bind at 1 in H.
  destruct (ensure_agent_session_capacity (set_next_session_id _ c)) as [c1 r1] eqn:H1.
  assert (ensure_agent_session_capacity c = (c, r1)
    ∧ c1 = set_next_session_id (fetch_add (next_session_id c) 1) c) as [H2 ->].
  { revert H1. unfold ensure_agent_session_capacity. cbv [mbind act_bind get try_ mret act_ret fail].
    cbn. destruct (stats_snapshot (stats c)); [case_bool_decide|..]; by intros [= <- <-]. }
  destruct r1 as [[]|e| |];
    [|injection H as <- <-; (eapply reachable_step;
        [exact Hr|apply (step_ingress_full _ _ _ peer allow); [done|by rewrite H2]])..].
  destruct (attach_ingress _ _ _ _ _ _ _) as [c2 r2] eqn:H3. injection H as <- <-.
  eapply reachable_step; [eapply reachable_step; [exact Hr|]|].
  - by apply (step_ingress_check c d [] rule addr port allow peer).
  - eapply (step_ingress_attach _ _ _ [] []); [|exact H3]. done.
Qed.

(** ** Delivery to the TCP side *)

(** The payloads a connection has accepted and not yet written, oldest first *)
Definition held (k : Conn) : list (list byte) := option_list (writing k) ++ channel k.

Definition delivered (n : N) (tr : list event) : list (list byte) :=
  omap (fun e => match e with Delivered m p => if bool_decide (m = n) then Some p else None | _ => None end) tr.
Definition written (n : N) (tr : list event) : list (list byte) :=
  omap (fun e => match e with Written m p => if bool_decide (m = n) then Some p else None | _ => None end) tr.

Section delivery.
Implicit Types c : AsyncTunnelCore.

(** A step that neither accepts nor writes a payload keeps what live writers hold *)
Definition io_kept c c' : Prop :=
  ∀ n, match conns c !! n, conns c' !! n with
       | None, None => True
       | None, Some k' => held k' = []
       | Some k, Some k' => writer_alive k' = true → writer_alive k = true ∧ held k' = held k
       | Some _, None => False
       end.

Lemma io_kept_same c c' : conns c' = conns c → io_kept c c'.
Proof. intros H n. rewrite H. by destruct (conns c !! n). Qed.

(** Changing one connection *)
Lemma io_kept_insert c c' n k k' :
  conns c !! n = Some k → conns c' = <[n := k']> (conns c) →
  (writer_alive k' = true → writer_alive k = true ∧ held k' = held k) → io_kept c c'.
Proof.
  intros Hk Hc H m. rewrite Hc. destruct (decide (m = n)) as [->|Hne].
  - by rewrite lookup_insert_eq, Hk.
  - rewrite lookup_insert_ne by done. by destruct (conns c !! m).
Qed.

Lemma try_push_conns now f c : conns (try_push now f c).1 = conns c.
Proof. rewrite try_push_run. by case_bool_decide. Qed.

Lemma attach_io c (m : core_act unit) sid rule leg c1 n c' r :
  core_inv c → sessions c !! sid = None → active_sessions (stats c) < U64_MAX →
  insert_session sid rule leg c = (c1, Done n) →
  (∀ c2, conns (m c2).1 = conns c2) →
  (_ ← modify (fun c => set_core_stats (session_opened (stats c) rule) c);
   _ ← m; spawn_tasks n) c1 = (c', r) → io_kept c c'.
Proof.
  intros Hi Hf Hlt Hins Hm H. unfold insert_session in Hins.
  cbv [mbind act_bind get modify mret act_ret] in Hins. rewrite Hf in Hins.
  apply pair_eq in Hins as [Hc1 [= <-]].
  assert (conns c1 = <[next_conn c := conn_new sid rule leg]> (conns c)) as Hcc by (by rewrite <- Hc1).
  clear Hc1. unfold mbind, act_bind, modify in H.
  specialize (Hm (set_core_stats (session_opened (stats c1) rule) c1)).
  destruct (m _) as [c2 r2]. cbn in Hm.
  assert (∃ k, conns c' = <[next_conn c := k]> (conns c) ∧ held k = []) as (k & Hk & Hh).
  { destruct r2 as [[]|e| |]; try (injection H as <- <-; rewrite Hm, Hcc; by eexists).
    injection H as <- <-. cbn. rewrite Hm, Hcc.
    erewrite alter_as_insert by apply lookup_insert_eq. rewrite insert_insert_eq. by eexists. }
  intros j. rewrite Hk. destruct (decide (j = next_conn c)) as [->|Hne].
  - rewrite lookup_insert_eq. destruct (conns c !! next_conn c) eqn:Hold; [|done].
    apply (inv_conns c Hi) in Hold as [_ ?]. lia.
  - rewrite lookup_insert_ne by done. by destruct (conns c !! j).
Qed.

Lemma attach_egress_io c sid rule c' r :
  core_inv c → sessions c !! sid = None → active_sessions (stats c) < U64_MAX →
  attach_egress sid rule c = (c', r) → io_kept c c'.
Proof.
  intros Hi Hf Hlt H. unfold attach_egress, mbind at 1, act_bind at 1 in H.
  destruct (inv_insert c sid rule Egress Hi Hf Hlt) as (c1 & Hins & _). rewrite Hins in H.
  eapply (attach_io c (mret tt)); [done|done|done|exact Hins|done|].
  cbv [mbind act_bind modify mret act_ret spawn_tasks] in H |- *. injection H as <- <-. reflexivity.
Qed.

Lemma attach_ingress_io c now sid rule addr port peer c' r :
  core_inv c → sessions c !! sid = None → active_sessions (stats c) < U64_MAX →
  attach_ingress now sid rule addr port peer c = (c', r) → io_kept c c'.
Proof.
  intros Hi Hf Hlt H. unfold attach_ingress, mbind at 1, act_bind at 1 in H.
  destruct (inv_insert c sid rule Ingress Hi Hf Hlt) as (c1 & Hins & _). rewrite Hins in H.
  set (pay := map_err _ _) in H.
  eapply (attach_io c (payload ← try_ pay; try_push now {| frame_type := SessionOpen;
    leg := Ingress; flags := x00; session_id := sid; payload := payload |}));
    [done|done|done|exact Hins| |].
  - intros c2. cbv [mbind act_bind try_]. destruct pay; [apply try_push_conns|done..].
  - cbv [mbind act_bind modify try_] in H |- *. destruct pay as [p|e|]; [|exact H..].
    cbn beta iota in H |- *. destruct (try_push _ _ _) as [c4 [[]|e| |]]; exact H.
Qed.

Lemma close_session_io c sid c' r : close_session sid c = (c', r) → io_kept c c'.
Proof.
  intros H. unfold close_session, mbind, act_bind, get in H.
  destruct (sessions c !! sid) as [n|] eqn:Hsn; cbn in H; [|injection H as <- <-; by apply io_kept_same].
  destruct (conns c !! n) as [k|] eqn:Hk; cbn in H; [|injection H as <- <-; by apply io_kept_same].
  injection H as <- <-. by eapply io_kept_insert.
Qed.

Lemma close_all_io c c' r : core_inv c → close_all_sessions c = (c', r) → io_kept c c'.
Proof.
  intros Hi H. rewrite close_all_run in H. injection H as <- <-.
  destruct (drop_entries_spec (live_conns c) (set_sessions ∅ c)) as (_ & _ & _ & _ & _ & H6).
  { intros [s n] Hp%elem_of_map_to_list. destruct (inv_sessions c Hi _ _ Hp) as (k & Hk & _). cbn. eauto. }
  intros n. cbn [set_outbound conns]. rewrite H6. cbn [set_sessions conns].
  case_bool_decide; by destruct (conns c !! n).
Qed.

Lemma reader_exit_io c n k c' r :
  conns c !! n = Some k → reader_exit n k c = (c', r) → io_kept c c'.
Proof.
  intros Hk H. unfold reader_exit in H. cbv [mbind act_bind get modify mret act_ret] in H.
  destruct (sessions c !! conn_session_id k) as [m|]; injection H as <- <-; intros j; cbn;
    rewrite ?lookup_alter; repeat case_decide; subst;
    repeat match goal with |- context [conns c !! ?i] => destruct (conns c !! i) end; done.
Qed.

Lemma push_ignoring_conns now f c c' r : push_ignoring now f c = (c', r) → conns c' = conns c.
Proof.
  unfold push_ignoring. pose proof (try_push_conns now f c).
  destruct (try_push now f c) as [c1 []]; by intros [= <- <-].
Qed.

Lemma reader_step_io c now n k rd c' r :
  conns c !! n = Some k → reader_step now n k rd c = (c', r) → io_kept c c'.
Proof.
  intros Hk H. destruct rd as [|bs|]; cbn [reader_step] in H.
  - unfold mbind, act_bind in H. destruct (push_ignoring now _ c) as [c1 r1] eqn:H1.
    apply push_ignoring_conns in H1.
    assert (io_kept c c' ↔ io_kept c1 c') as -> by (unfold io_kept; by rewrite H1).
    destruct r1; [eapply reader_exit_io; [by rewrite H1|exact H]|injection H as <- <-; by apply io_kept_same..].
  - unfold mbind, act_bind, modify in H. apply push_ignoring_conns in H. by apply io_kept_same.
  - by eapply reader_exit_io.
Qed.

Lemma writer_take_io c n k c' r :
  conns c !! n = Some k → writer_alive k = true → writing k = None →
  writer_take n k c = (c', r) → io_kept c c'.
Proof.
  intros Hk Hwa Hwn H. unfold writer_take in H. destruct (channel k) as [|p rest] eqn:Hch.
  - destruct (sender_alive k); injection H as <- <-; [by apply io_kept_same|].
    by eapply io_kept_insert.
  - cbv [mbind act_bind modify] in H. injection H as <- <-.
    eapply io_kept_insert; [done|done|]. intros _. split; [done|].
    unfold held; cbn. by rewrite Hwn, Hch.
Qed.

Lemma drain_conns c now max c' r : core_next_frames now max c = (c', r) → conns c' = conns c.
Proof.
  unfold core_next_frames, queue_drain. case_bool_decide; [by intros [= <- <-]|].
  cbv [mbind act_bind get modify mret act_ret].
  destruct (frames_with_dwell now _ (stats c)) as [fs s]. by intros [= <- <-].
Qed.

(** A data frame either enters one channel, at its end, or changes no channel. *)
Lemma handle_data_io c sid leg bytes c' r :
  handle_session_data sid leg bytes c = (c', r) →
  (data_event c sid bytes r = Internal ∧ io_kept c c')
  ∨ ∃ n k k', data_event c sid bytes r = Delivered n bytes ∧ conns c !! n = Some k
      ∧ conns c' = <[n := k']> (conns c) ∧ writer_alive k = true ∧ held k' = held k ++ [bytes].
Proof.
  intros H. unfold handle_session_data, mbind, act_bind, get in H. unfold data_event.
  destruct (sessions c !! sid) as [n|]; cbn in H;
    [|injection H as <- <-; left; split; [done|by apply io_kept_same]].
  destruct (conns c !! n) as [k|] eqn:Hk; cbn in H;
    [|injection H as <- <-; left; split; [done|by apply io_kept_same]].
  unfold try_ in H. destruct (reserve_pending_bytes _ _ _) as [pending|e|];
    [|injection H as <- <-; left; split; [done|by apply io_kept_same]..].
  destruct (writer_alive k) eqn:Hwa; cbn [andb] in H;
    [destruct (len (channel k) <? CHANNEL_CAPACITY)|]; injection H as <- <-.
  - right. exists n, k. eexists. split_and!; [done|done|done|done|]. unfold held; cbn.
    by rewrite app_assoc.
  - left. split; [done|]. by eapply io_kept_insert.
  - left. split; [done|]. by eapply io_kept_insert.
Qed.

(** What a connection accepted is what was written followed by what it holds, while
    its writer lives; always, what was written is a prefix of what was accepted. *)
Definition delivery_ok (tr : list event) (c : AsyncTunnelCore) (n : N) : Prop :=
  match conns c !! n with
  | None => delivered n tr = [] ∧ written n tr = []
  | Some k =>
      written n tr `prefix_of` delivered n tr
      ∧ (writer_alive k = true → delivered n tr = written n tr ++ held k)
  end.

Lemma delivery_internal tr c c' n :
  io_kept c c' → delivery_ok tr c n → delivery_ok (tr ++ [Internal]) c' n.
Proof.
  intros Hio. specialize (Hio n). unfold delivery_ok, delivered, written. rewrite !omap_app. cbn.
  rewrite !app_nil_r. destruct (conns c !! n) as [k|], (conns c' !! n) as [k'|]; try done.
  - intros [Hpre Hd]. split; [done|]. intros Hwa. destruct (Hio Hwa) as [? ->]. by apply Hd.
  - intros [-> ->]. rewrite Hio. done.
Qed.

Lemma delivery_in tr c c' n k k' bytes m :
  conns c !! n = Some k → conns c' = <[n := k']> (conns c) → writer_alive k = true →
  held k' = held k ++ [bytes] →
  delivery_ok tr c m → delivery_ok (tr ++ [Delivered n bytes]) c' m.
Proof.
  intros Hk Hc Hwa Hh. unfold delivery_ok, delivered, written. rewrite !omap_app, Hc. cbn.
  destruct (decide (n = m)) as [->|Hne].
  - rewrite lookup_insert_eq, Hk, bool_decide_true, app_nil_r by done.
    intros [Hpre Hd]. split; [by apply prefix_app_r|].
    intros _. by rewrite (Hd Hwa), Hh, app_assoc.
  - by rewrite lookup_insert_ne, bool_decide_false, !app_nil_r by done.
Qed.

Lemma delivery_out tr c c' n k k' p m :
  conns c !! n = Some k → conns c' = <[n := k']> (conns c) → writer_alive k = true →
  held k = p :: held k' →
  delivery_ok tr c m → delivery_ok (tr ++ [Written n p]) c' m.
Proof.
  intros Hk Hc Hwa Hh. unfold delivery_ok, delivered, written. rewrite !omap_app, Hc. cbn.
  destruct (decide (n = m)) as [->|Hne].
  - rewrite lookup_insert_eq, Hk, bool_decide_true, app_nil_r by done.
    intros [Hpre Hd]. specialize (Hd Hwa). rewrite Hh, cons_middle, app_assoc in Hd.
    split; [|done]. rewrite Hd. by apply prefix_app_r.
  - by rewrite lookup_insert_ne, bool_decide_false, !app_nil_r by done.
Qed.

Lemma step_delivery tr s e s' n :
  system_inv s → core_step s e s' →
  delivery_ok tr (core s) n → delivery_ok (tr ++ [e]) (core s') n.
Proof.
  intros (Hi & [Hb Ho] & Hm) Hs. unfold WORKER_THREADS in *.
  destruct Hs; cbn [core dialling accepting dials] in *; rewrite ?len_app, ?len_cons in Hb;
    try (intros Hd; eapply delivery_internal; [|exact Hd];
         solve [by apply io_kept_same|by eapply close_session_io|by eapply close_all_io
               |by eapply io_kept_same, drain_conns|by eapply reader_step_io
               |by eapply writer_take_io]).
  - intros Hd. eapply delivery_internal; [|exact Hd]. eapply attach_egress_io; [done|done|lia|done].
  - intros Hd. eapply delivery_internal; [|exact Hd]. eapply attach_ingress_io; [done|done|lia|done].
  - apply delivery_internal, io_kept_same. by destruct bind; injection H as <- <-.
  - apply delivery_internal, io_kept_same. by injection H as <- <-.
  - apply handle_data_io in H as [[-> Hio]|(m & k & k' & -> & Hk & Hc & Hwa & Hh)];
      [by apply delivery_internal|by eapply delivery_in].
  - unfold writer_done, modify in H2. injection H2 as <- <-. destruct ok.
    + eapply delivery_out; [done|done|done|]. unfold held; cbn. by rewrite H1.
    + by eapply delivery_internal, io_kept_insert.
Qed.
End delivery.

(** C2: Delivery to the TCP side.  In every state a run reaches, whatever the
    interleaving of server frames, opens, closes and task iterations, a connection with
    a live writer has written exactly the payloads it accepted, in order, but for the
    ones it still holds (the one being written, then its channel); and what any
    connection has ever written is a prefix of what it accepted. *)
Theorem session_delivery_in_order l tr s n k :
  max_sessions_per_agent l + WORKER_THREADS < U64_MAX → reaches l tr s →
  conns (core s) !! n = Some k →
  written n tr `prefix_of` delivered n tr
  ∧ (writer_alive k = true → delivered n tr = written n tr ++ held k).
Proof.
  intros Hm Hr Hk.
  assert (delivery_ok tr (core s) n) as Hd; [clear Hk|by unfold delivery_ok in Hd; rewrite Hk in Hd].
  induction Hr as [|tr s e s' Hr IH Hs]; [done|].
  destruct (reachable_inv l s Hm (ex_intro _ tr Hr)) as [Hi _]. by eapply step_delivery.
Qed.


(** ** What goes wrong at the limits *)

(** An ingress connection accepted while the outbound queue is full is refused with
    [backpressure_limit], but only after its session was entered: the entry stays in the
    session map, and in the session count, with neither a reader nor a writer task to
    end it. *)
Theorem full_queue_leaks_ingress_session c now sid rule host port peer p :
  ensure_agent_session_capacity c = (c, Done tt) → sessions c !! sid = None →
  encode_session_open_payload (mkOpenPayload rule host port peer) = Ok p →
  max_outbound_frames (limits c) ≤ len (outbound c) →
  ∃ c' k, attach_ingress_stream now sid rule host port peer c = (c', Fail backpressure_limit)
    ∧ sessions c' !! sid = Some (next_conn c) ∧ conns c' !! next_conn c = Some k
    ∧ reader_alive k = false ∧ writer_alive k = false
    ∧ active_sessions (stats c') = fetch_add (active_sessions (stats c)) 1
    ∧ outbound c' = outbound c.
Proof.
  intros Hcap Hf Hp Hq. unfold attach_ingress_stream, attach_ingress, insert_session.
  cbv [mbind act_bind]. rewrite Hcap. cbv [get modify mret act_ret try_].
  rewrite Hf, Hp. cbn [map_err]. rewrite try_push_run. cbn [limits outbound set_core_stats set_sessions
    set_next_conn set_conns]. rewrite bool_decide_true by done.
  eexists _, (conn_new sid rule Ingress). split; [reflexivity|]. cbn. by rewrite !lookup_insert_eq.
Qed.

(** While the outbound queue is full, the reader of a session goes on reading: the
    bytes are counted as sent and dropped, no frame is queued for them, and the session
    stays open. *)
Theorem full_queue_drops_session_data c now n k bs :
  max_outbound_frames (limits c) ≤ len (outbound c) →
  ∃ c', reader_step now n k (TcpData bs) c = (c', Done tt)
    ∧ outbound c' = outbound c ∧ sessions c' = sessions c ∧ conns c' = conns c
    ∧ bytes_out (stats c') = fetch_add (bytes_out (stats c)) (len bs).
Proof.
  intros Hq. eexists. cbn [reader_step]. unfold mbind, act_bind, modify, push_ignoring.
  rewrite try_push_run. cbn [limits outbound set_core_stats]. rewrite bool_decide_true by done.
  by split_and!.
Qed.

(** The witnesses below run the core with room for one session and two frames. *)
Module Demo.
Definition l1 : TunnelRuntimeLimits :=
  mkRuntimeLimits 1 2 1024 1024 5000 600000 Fixed default_tuning.
Definition full : AsyncTunnelCore :=
  let f := {| frame_type := SessionClose; leg := Egress; flags := x00; session_id := 9; payload := [] |} in
  set_outbound [mkQueued f 0; mkQueued f 0] (core_new l1).
Definition c1 : AsyncTunnelCore := (attach_egress 7 1 (core_new l1)).1.
Definition c2 : AsyncTunnelCore := (handle_session_data 7 Egress [x61; x62] c1).1.
Definition c3 : AsyncTunnelCore := (handle_session_data 7 Egress [x63] c2).1.
Definition k3 : Conn := default (conn_new 0 0 Egress) (conns c3 !! 0).
Definition c4 : AsyncTunnelCore := (writer_take 0 k3 c3).1.
Definition k4 : Conn := default (conn_new 0 0 Egress) (conns c4 !! 0).
Definition c5 : AsyncTunnelCore := (writer_done 0 k4 [x61; x62] true c4).1.
Definition k5 : Conn := default (conn_new 0 0 Egress) (conns c5 !! 0).

Definition tr5 : list event :=
  [Internal; Internal; Delivered 0 [x61; x62]; Delivered 0 [x63]; Internal; Written 0 [x61; x62]].

(** Two connections accepted and one dial, admitted together *)
Definition acc (sid : N) : Accepted := mkAccepted sid 1 "0.0.0.0" 80 "10.0.0.1:99".
Definition o0 : AsyncTunnelCore := core_new l1.
Definition o1 : AsyncTunnelCore := set_next_session_id 2 o0.
Definition o2 : AsyncTunnelCore := set_next_session_id 3 o1.
Definition o3 : AsyncTunnelCore := Eval vm_compute in (attach_ingress 0 1 1 "0.0.0.0" 80 "10.0.0.1:99" o2).1.
Definition o4 : AsyncTunnelCore := Eval vm_compute in (attach_ingress 0 2 1 "0.0.0.0" 80 "10.0.0.1:99" o3).1.
Definition o5 : AsyncTunnelCore := Eval vm_compute in (attach_egress 7 1 o4).1.

Lemma run5 : reaches l1 tr5 (mkSystem c5 None []).
Proof.
  unfold tr5.
  apply (reaches_step _ [Internal; Internal; Delivered 0 [x61; x62]; Delivered 0 [x63]; Internal] (mkSystem c4 None []));
    [|by apply (step_writer_done c4 c5 None [] 0 k4 [x61; x62] true (Done tt)); vm_compute].
  apply (reaches_step _ [Internal; Internal; Delivered 0 [x61; x62]; Delivered 0 [x63]] (mkSystem c3 None []));
    [|by apply (step_writer_take c3 c4 None [] 0 k3 (Done tt)); vm_compute].
  apply (reaches_step _ [Internal; Internal; Delivered 0 [x61; x62]] (mkSystem c2 None []));
    [|by apply (step_data c2 c3 None [] 7 Egress [x63] (Done tt)); vm_compute].
  apply (reaches_step _ [Internal; Internal] (mkSystem c1 None []));
    [|by apply (step_data c1 c2 None [] 7 Egress [x61; x62] (Done tt)); vm_compute].
  apply (reaches_step _ [Internal] (mkSystem (core_new l1) (Some (7, 1)) []));
    [|by eapply (step_egress_attach (core_new l1) c1 [] 7 1); vm_compute].
  apply (reaches_step _ [] (mkSystem (core_new l1) None [])); [apply reaches_init|].
  by apply step_egress_check; vm_compute.
Qed.
End Demo.

Lemma session_delivery_in_order_witness :
  delivered 0 Demo.tr5 = [[x61; x62]; [x63]] ∧ written 0 Demo.tr5 = [[x61; x62]]
  ∧ delivered 0 Demo.tr5 = written 0 Demo.tr5 ++ held Demo.k5.
Proof.
  split_and!; [reflexivity|reflexivity|].
  apply (session_delivery_in_order Demo.l1 Demo.tr5 (mkSystem Demo.c5 None []) 0 Demo.k5);
    [by vm_compute|apply Demo.run5|by vm_compute|by vm_compute].
Defined.


Lemma full_queue_leaks_ingress_session_witness :
  ∃ c' k, attach_ingress_stream 5 3 1 "0.0.0.0" 80 "10.0.0.1:99" Demo.full
            = (c', Fail backpressure_limit)
    ∧ sessions c' !! 3 = Some 0 ∧ conns c' !! 0 = Some k
    ∧ reader_alive k = false ∧ writer_alive k = false
    ∧ active_sessions (stats c') = fetch_add (active_sessions (stats Demo.full)) 1
    ∧ outbound c' = outbound Demo.full.
Proof.
  eapply (full_queue_leaks_ingress_session Demo.full 5 3 1 "0.0.0.0" 80 "10.0.0.1:99");
    [by vm_compute|by vm_compute|by vm_compute|by vm_compute].
Defined.

Lemma full_queue_drops_session_data_witness :
  ∃ c', reader_step 5 0 (conn_new 3 1 Ingress) (TcpData [x61]) Demo.full = (c', Done tt)
    ∧ outbound c' = outbound Demo.full ∧ sessions c' = sessions Demo.full ∧ conns c' = conns Demo.full
    ∧ bytes_out (stats c') = fetch_add (bytes_out (stats Demo.full)) (len [x61]).
Proof. apply full_queue_drops_session_data. by vm_compute. Defined.

(** The agent's session limit can be exceeded: with a limit of one session, a dial
    and two accepted connections that pass the capacity check before any of them enters
    its session leave three sessions open. *)
Theorem session_limit_overshoot :
  ∃ s, reachable Demo.l1 s ∧ max_sessions_per_agent (limits (core s)) = 1
    ∧ active_sessions (stats (core s)) = 3 ∧ size (sessions (core s)) = 3%nat.
Proof.
  exists (mkSystem Demo.o5 None []). split; [|by vm_compute].
  apply (reachable_step _ (mkSystem Demo.o4 (Some (7, 1)) []) Internal);
    [|eapply step_egress_attach; by vm_compute].
  apply (reachable_step _ (mkSystem Demo.o3 (Some (7, 1)) [Demo.acc 2]) Internal);
    [|eapply (step_ingress_attach _ _ _ [] [] 0 2); by vm_compute].
  apply (reachable_step _ (mkSystem Demo.o2 (Some (7, 1)) [Demo.acc 2; Demo.acc 1]) Internal);
    [|eapply (step_ingress_attach _ _ _ [Demo.acc 2] [] 0 1); by vm_compute].
  apply (reachable_step _ (mkSystem Demo.o1 (Some (7, 1)) [Demo.acc 1]) Internal);
    [|apply (step_ingress_check Demo.o1 _ _ _ _ _ "" _); by vm_compute].
  apply (reachable_step _ (mkSystem Demo.o0 (Some (7, 1)) []) Internal);
    [|apply (step_ingress_check Demo.o0 _ _ _ _ _ "" _); by vm_compute].
  apply (reachable_step _ (mkSystem Demo.o0 None []) Internal); [|apply step_egress_check; by vm_compute].
  exists []. apply reaches_init.
Qed.

(** An egress open whose session id is already in use replaces the map entry without
    closing the session it replaces: two sessions are counted where one is registered,
    and the reader of the old connection, when it ends, removes the new session. *)
Theorem colliding_session_id_drifts :
  let c := (attach_egress 7 1 (core_new Demo.l1)).1 in
  let c' := (attach_egress 7 2 c).1 in
  active_sessions (stats c') = 2 ∧ size (sessions c') = 1%nat
  ∧ ∃ k, conns c' !! 0 = Some k ∧ reader_alive k = true
      ∧ sessions (reader_exit 0 k c').1 = ∅.
Proof. vm_compute. split_and!; [done|done|]. eexists. by split_and!. Qed.
