(* ===== verification/TunnelReady.v ===== *)
(** * Rules, listener health and readiness ([src/src/tunnel_runtime.rs], the rule state)

    [SharedTunnelRuleState] keeps the selected rules, the listeners that run and the
    health of each listener; the control loop, the runtime and the data loop share it
    behind a mutex, so every method is one function on the state (no code panics while
    it holds the lock, which is never poisoned).  From it is computed which rules the
    agent reports as ready, and why the others are not. *)
From S2P Require Import Prelude RustStd TunnelControl TunnelPreflight.
From Stdlib Require Import Strings.Byte.
From Stdlib Require Strings.String.
Local Open Scope N_scope.

(** tunnel_runtime.rs [TunnelTcpListenerSpec] *)
Record TunnelTcpListenerSpec := mkSpec {
  spec_rule_id : N;
  spec_name : string;
  spec_listen_address : string;
  spec_listen_port : N;
  spec_target_host : string;
  spec_target_port : N;
  spec_source_allowlist : string;
  spec_max_concurrent_sessions : N;
}.
#[export] Instance TunnelTcpListenerSpec_eq_dec : EqDecision TunnelTcpListenerSpec.
Proof. solve_decision. Defined.

(** tunnel_runtime.rs [TunnelListenerHealthStatus] *)
Inductive TunnelListenerHealthStatus := Running | StartFailed | Stopped | RuntimeError.
#[export] Instance TunnelListenerHealthStatus_eq_dec : EqDecision TunnelListenerHealthStatus.
Proof. solve_decision. Defined.

(** tunnel_runtime.rs [TunnelListenerHealthStatus::ready_status] *)
Definition ready_status (s : TunnelListenerHealthStatus) : string :=
  match s with
  | Running => "listener_running"
  | StartFailed => "listener_start_failed"
  | Stopped => "listener_stopped"
  | RuntimeError => "listener_runtime_error"
  end.

(** tunnel_runtime.rs [TunnelListenerHealth] *)
Record TunnelListenerHealth := mkHealth {
  health_spec : TunnelTcpListenerSpec;
  health_status : TunnelListenerHealthStatus;
  health_error : string;
}.

(** tunnel_runtime.rs [TunnelListenerHealth::running] *)
Definition health_running (spec : TunnelTcpListenerSpec) : TunnelListenerHealth :=
  mkHealth spec Running "".
(** tunnel_runtime.rs [TunnelListenerHealth::failure] *)
Definition health_failure (spec : TunnelTcpListenerSpec) (status : TunnelListenerHealthStatus)
    (error : string) : TunnelListenerHealth :=
  mkHealth spec status (trim error).

(** tunnel_runtime.rs [TunnelRuleSnapshot] *)
Record TunnelRuleSnapshot := mkRuleSnapshot {
  snapshot_revision : string; snapshot_rules : list SelectedTunnelRule }.

(** tunnel_runtime.rs [TunnelRuleSharedState] *)
Record TunnelRuleSharedState := mkRuleState {
  rs_revision : string;
  rs_rules : list SelectedTunnelRule;
  active_listeners : list TunnelTcpListenerSpec;
  listener_health : list TunnelListenerHealth;
}.

(** ** Listener identity *)

(** tunnel_runtime.rs [same_listener_endpoint] *)
Definition same_listener_endpoint (left right : TunnelTcpListenerSpec) : bool :=
  bool_decide (trim (spec_listen_address left) = trim (spec_listen_address right))
  && bool_decide (spec_listen_port left = spec_listen_port right)
  && bool_decide (trim (spec_source_allowlist left) = trim (spec_source_allowlist right)).

(** tunnel_runtime.rs [same_listener_identity] *)
Definition same_listener_identity (left right : TunnelTcpListenerSpec) : bool :=
  bool_decide (spec_rule_id left = spec_rule_id right) && same_listener_endpoint left right.

(** tunnel_runtime.rs [retain_listener_health_for_specs] *)
Definition retain_listener_health_for_specs (health : list TunnelListenerHealth)
    (specs : list TunnelTcpListenerSpec) : list TunnelListenerHealth :=
  filter (fun h => existsb (same_listener_identity (health_spec h)) specs = true) health.

Definition health_cmp (left right : TunnelListenerHealth) : comparison :=
  let l := health_spec left in
  let r := health_spec right in
  then_with (spec_rule_id l ?= spec_rule_id r)
    (then_with (str_cmp (spec_listen_address l) (spec_listen_address r))
       (then_with (spec_listen_port l ?= spec_listen_port r)
          (str_cmp (spec_source_allowlist l) (spec_source_allowlist r)))).

(** tunnel_runtime.rs [sort_listener_health] *)
Definition sort_listener_health (health : list TunnelListenerHealth) : list TunnelListenerHealth :=
  sort_by (leb_of health_cmp) health.

(** [listeners.sort_by_key(|listener| listener.rule_id)] *)
Definition sort_listeners (listeners : list TunnelTcpListenerSpec) : list TunnelTcpListenerSpec :=
  sort_by (fun l r => spec_rule_id l <=? spec_rule_id r) listeners.

(** ** The listener plan *)

(** tunnel_runtime.rs [listener_spec_for_rule] *)
Definition listener_spec_for_rule (rule : SelectedTunnelRule) : TunnelTcpListenerSpec :=
  mkSpec (rule_id rule) (trim (rule_name rule)) (trim (rule_listen_address rule))
    (rule_listen_port rule) (trim (rule_target_host rule)) (rule_target_port rule)
    (trim (rule_source_allowlist rule)) (rule_max_concurrent_sessions rule).

(** tunnel_runtime.rs [normalize_data_transport_filter] *)
Definition normalize_data_transport_filter (data_transport : string) : string :=
  if eq_ignore_ascii_case (trim data_transport) TUNNEL_DATA_TRANSPORT_KTP_TCP
  then TUNNEL_DATA_TRANSPORT_KTP_TCP else TUNNEL_DATA_TRANSPORT_WEBSOCKET.

(** tunnel_runtime.rs [rule_uses_data_transport] *)
Definition rule_uses_data_transport (rule : SelectedTunnelRule) (transport : string) : bool :=
  eq_ignore_ascii_case (trim (data_transport rule)) (trim transport).

(** What the filters of the plan keep, for the roles [roles] *)
Definition rule_serves (transport : string) (roles : list string) (rule : SelectedTunnelRule) : bool :=
  rule_enabled rule
  && eq_ignore_ascii_case (trim (rule_protocol rule)) "tcp"
  && rule_uses_data_transport rule transport
  && bool_decide (trim (rule_role rule) ∈ roles).

(** tunnel_runtime.rs [build_tcp_listener_plan_for_data_transport] *)
Definition build_tcp_listener_plan_for_data_transport (rules : list SelectedTunnelRule)
    (transport : string) : list TunnelTcpListenerSpec :=
  let transport := normalize_data_transport_filter transport in
  sort_listeners (listener_spec_for_rule <$>
    filter (fun rule => rule_serves transport ["ingress"; "both"] rule = true) rules).

(** tunnel_runtime.rs [build_tcp_listener_plan] *)
Definition build_tcp_listener_plan (rules : list SelectedTunnelRule) : list TunnelTcpListenerSpec :=
  build_tcp_listener_plan_for_data_transport rules TUNNEL_DATA_TRANSPORT_WEBSOCKET.

(** ** Operations on the shared state *)

(** tunnel_runtime.rs [SharedTunnelRuleState::new] *)
Definition rule_state_new : TunnelRuleSharedState := mkRuleState "" [] [] [].

(** tunnel_runtime.rs [SharedTunnelRuleState::snapshot] *)
Definition rule_snapshot (st : TunnelRuleSharedState) : TunnelRuleSnapshot :=
  mkRuleSnapshot (rs_revision st) (rs_rules st).

(** tunnel_runtime.rs [SharedTunnelRuleState::tcp_listener_plan] *)
Definition tcp_listener_plan (st : TunnelRuleSharedState) : list TunnelTcpListenerSpec :=
  build_tcp_listener_plan (snapshot_rules (rule_snapshot st)).
(** tunnel_runtime.rs [SharedTunnelRuleState::tcp_listener_plan_for_data_transport] *)
Definition tcp_listener_plan_for_data_transport (st : TunnelRuleSharedState) (transport : string)
    : list TunnelTcpListenerSpec :=
  build_tcp_listener_plan_for_data_transport (snapshot_rules (rule_snapshot st)) transport.

(** tunnel_runtime.rs [SharedTunnelRuleState::ready_snapshot] *)
Definition ready_snapshot (st : TunnelRuleSharedState)
    : TunnelRuleSnapshot * list TunnelTcpListenerSpec * list TunnelListenerHealth :=
  (mkRuleSnapshot (rs_revision st) (rs_rules st), active_listeners st, listener_health st).

Definition set_health (h : list TunnelListenerHealth) (st : TunnelRuleSharedState)
    : TunnelRuleSharedState :=
  mkRuleState (rs_revision st) (rs_rules st) (active_listeners st) h.

(** tunnel_runtime.rs [SharedTunnelRuleState::set_listener_health] *)
Definition set_listener_health (health : TunnelListenerHealth) (st : TunnelRuleSharedState)
    : TunnelRuleSharedState :=
  let kept := filter (fun existing =>
    same_listener_identity (health_spec existing) (health_spec health) = false) (listener_health st) in
  set_health (sort_listener_health (kept ++ [health])) st.

(** tunnel_runtime.rs [SharedTunnelRuleState::set_listener_running] *)
Definition set_listener_running (spec : TunnelTcpListenerSpec) : TunnelRuleSharedState → TunnelRuleSharedState :=
  set_listener_health (health_running spec).
(** tunnel_runtime.rs [SharedTunnelRuleState::set_listener_start_failed] *)
Definition set_listener_start_failed (spec : TunnelTcpListenerSpec) (error : string)
    : TunnelRuleSharedState → TunnelRuleSharedState :=
  set_listener_health (health_failure spec StartFailed error).
(** tunnel_runtime.rs [SharedTunnelRuleState::set_listener_stopped] *)
Definition set_listener_stopped (spec : TunnelTcpListenerSpec) (error : string)
    : TunnelRuleSharedState → TunnelRuleSharedState :=
  set_listener_health (health_failure spec Stopped error).
(** tunnel_runtime.rs [SharedTunnelRuleState::set_listener_runtime_error] *)
Definition set_listener_runtime_error (spec : TunnelTcpListenerSpec) (error : string)
    : TunnelRuleSharedState → TunnelRuleSharedState :=
  set_listener_health (health_failure spec RuntimeError error).

(** tunnel_runtime.rs [SharedTunnelRuleState::retain_listener_health_for_specs] *)
Definition retain_health (specs : list TunnelTcpListenerSpec) (st : TunnelRuleSharedState)
    : TunnelRuleSharedState :=
  set_health (retain_listener_health_for_specs (listener_health st) specs) st.

(** A listener with no health entry yet is entered as running. *)
Definition add_running (health : list TunnelListenerHealth) (listener : TunnelTcpListenerSpec)
    : list TunnelListenerHealth :=
  if existsb (fun h => same_listener_identity (health_spec h) listener) health
  then health else health ++ [health_running listener].

(** tunnel_runtime.rs [SharedTunnelRuleState::set_active_tcp_listeners] *)
Definition set_active_tcp_listeners (listeners : list TunnelTcpListenerSpec)
    (st : TunnelRuleSharedState) : TunnelRuleSharedState :=
  let listeners := sort_listeners listeners in
  let health := filter (fun h => health_status h ≠ Running
    ∨ existsb (same_listener_identity (health_spec h)) listeners = true) (listener_health st) in
  mkRuleState (rs_revision st) (rs_rules st) listeners
    (sort_listener_health (foldl add_running health listeners)).

(** tunnel_runtime.rs [TunnelRuleStateSink@SharedTunnelRuleState::update_rules] *)
Definition rule_state_update_rules (revision : string) (rules : list SelectedTunnelRule)
    (st : TunnelRuleSharedState) : TunnelRuleSharedState :=
  let plan := build_tcp_listener_plan rules in
  mkRuleState (trim revision) rules
    (filter (fun listener => existsb (same_listener_identity listener) plan = true) (active_listeners st))
    (retain_listener_health_for_specs (listener_health st) plan).

(** The control session updates this state. *)
#[export] Instance SharedTunnelRuleState_sink : TunnelRuleStateSink TunnelRuleSharedState := {|
  update_rules s revision rules := rule_state_update_rules revision rules s;
|}.

(** ** Readiness *)

(** tunnel_data.rs [TunnelDataRuleFailure] *)
Record TunnelDataRuleFailure := mkFailure {
  failure_rule_id : N; failure_status : string; failure_error : string }.
#[export] Instance TunnelDataRuleFailure_eq_dec : EqDecision TunnelDataRuleFailure.
Proof. solve_decision. Defined.

(** tunnel_data.rs [TunnelDataReadyState] *)
Record TunnelDataReadyState := mkReady {
  ready_revision : string;
  ingress_rule_ids : list N;
  egress_rule_ids : list N;
  failed_rules : list TunnelDataRuleFailure;
}.
#[export] Instance TunnelDataReadyState_eq_dec : EqDecision TunnelDataReadyState.
Proof. solve_decision. Defined.

(** tunnel_data.rs [TunnelDataReadyState::empty] *)
Definition ready_empty (revision : string) : TunnelDataReadyState := mkReady (trim revision) [] [] [].

Definition push_ingress (id : N) (r : TunnelDataReadyState) : TunnelDataReadyState :=
  mkReady (ready_revision r) (ingress_rule_ids r ++ [id]) (egress_rule_ids r) (failed_rules r).
Definition push_egress (id : N) (r : TunnelDataReadyState) : TunnelDataReadyState :=
  mkReady (ready_revision r) (ingress_rule_ids r) (egress_rule_ids r ++ [id]) (failed_rules r).

(** [ids.sort_unstable(); ids.dedup()] on both lists *)
Definition normalize_ready (r : TunnelDataReadyState) : TunnelDataReadyState :=
  mkReady (ready_revision r) (sort_dedup (ingress_rule_ids r)) (sort_dedup (egress_rule_ids r))
    (failed_rules r).

(** tunnel_data.rs [TunnelDataReadyState::from_selected_rules] *)
Definition from_selected_rules (revision : string) (rules : list SelectedTunnelRule)
    : TunnelDataReadyState :=
  normalize_ready (foldl (fun ready rule =>
    if bool_decide (rule_role rule = "ingress"%string) then push_ingress (rule_id rule) ready
    else if bool_decide (rule_role rule = "egress"%string) then push_egress (rule_id rule) ready
    else if bool_decide (rule_role rule = "both"%string)
    then push_egress (rule_id rule) (push_ingress (rule_id rule) ready)
    else ready) (ready_empty revision) rules).

(** The body the three [push_*_failure_once] functions share *)
Definition push_failure_once (f : TunnelDataRuleFailure) (r : TunnelDataReadyState)
    : TunnelDataReadyState :=
  if bool_decide (f ∈ failed_rules r) then r
  else mkReady (ready_revision r) (ingress_rule_ids r) (egress_rule_ids r) (failed_rules r ++ [f]).

(** tunnel_runtime.rs [push_listener_failure_once] *)
Definition push_listener_failure_once (rule_id : N) (status error : string)
    : TunnelDataReadyState → TunnelDataReadyState :=
  push_failure_once (mkFailure rule_id status (trim error)).

(** tunnel_runtime.rs [push_preflight_failure_once] *)
Definition push_preflight_failure_once (issue : TunnelPreflightIssue)
    : TunnelDataReadyState → TunnelDataReadyState :=
  push_failure_once
    (mkFailure (issue_rule_id issue) (tunnel_preflight_status (issue_code issue)) (issue_message issue)).

(** tunnel_runtime.rs [push_unsupported_data_transport_failure_once] *)
Definition push_unsupported_data_transport_failure_once (rule : SelectedTunnelRule)
    : TunnelDataReadyState → TunnelDataReadyState :=
  push_failure_once (mkFailure (rule_id rule) "unsupported_data_transport"
    ("data transport " +:+ data_transport rule +:+ " is not handled by websocket tunnel data runtime")).

(** tunnel_runtime.rs [tcp_target_addr] *)
Definition tcp_target_addr (host : string) (port : N) : string :=
  let host := trim host in
  if contains ":" host && negb (starts_with "[" host)
  then "[" +:+ host +:+ "]:" +:+ pretty port
  else host +:+ ":" +:+ pretty port.

Definition listener_active (active : list TunnelTcpListenerSpec) (expected : TunnelTcpListenerSpec) : bool :=
  existsb (fun listener => same_listener_identity listener expected) active.
Definition find_health (health : list TunnelListenerHealth) (expected : TunnelTcpListenerSpec)
    : option TunnelListenerHealth :=
  List.find (fun h => same_listener_identity (health_spec h) expected) health.

(** tunnel_runtime.rs [filter_runtime_owned_listener_bind_failure] *)
Definition filter_runtime_owned_listener_bind_failure (rule : SelectedTunnelRule)
    (side : TunnelPreflightSide) (issues : list TunnelPreflightIssue)
    (active : list TunnelTcpListenerSpec) : list TunnelPreflightIssue :=
  let expected := listener_spec_for_rule rule in
  if bool_decide (side ≠ SideIngress) || negb (listener_active active expected) then issues
  else filter (fun issue => issue_code issue ≠ ListenBindFailed) issues.

(** tunnel_runtime.rs [push_listener_health_failure] *)
Definition push_listener_health_failure (rule : SelectedTunnelRule)
    (active : list TunnelTcpListenerSpec) (health : list TunnelListenerHealth)
    (ready : TunnelDataReadyState) : bool * TunnelDataReadyState :=
  let expected := listener_spec_for_rule rule in
  let not_running := push_listener_failure_once (rule_id rule) (ready_status Stopped)
    ("listener is not running on "
     +:+ tcp_target_addr (spec_listen_address expected) (spec_listen_port expected)) ready in
  match find_health health expected with
  | Some h =>
      if bool_decide (health_status h = Running) then
        if listener_active active expected then (false, ready) else (true, not_running)
      else
        let error := trim (health_error h) in
        (true, push_listener_failure_once (rule_id rule) (ready_status (health_status h))
                 (if is_empty error then "listener is not running" else error) ready)
  | None => (true, not_running)
  end.

(** tunnel_runtime.rs [apply_ready_side] 868-875: the preflight input of a rule *)
Definition preflight_input (rule : SelectedTunnelRule) : TunnelTcpRulePreflightInput :=
  mkPreflightInput (rule_id rule) (rule_listen_address rule) (rule_listen_port rule)
    (rule_target_host rule) (rule_target_port rule) (rule_source_allowlist rule).

Section readiness.
(** The bind probe of the preflight, and whether the target is Linux *)
Context (bind_error : string → option string) (linux : bool).

(** tunnel_runtime.rs [apply_ready_side] *)
Definition apply_ready_side (rule : SelectedTunnelRule) (side : TunnelPreflightSide)
    (active : list TunnelTcpListenerSpec) (health : list TunnelListenerHealth)
    (ready : TunnelDataReadyState) : TunnelDataReadyState :=
  let issues := filter_runtime_owned_listener_bind_failure rule side
    (validate_tunnel_tcp_rule_for_side bind_error linux (preflight_input rule) side) active in
  let has_unsupported_os := existsb (fun i => bool_decide (issue_code i = UnsupportedOs)) issues in
  let '(blocked, ready) :=
    if bool_decide (side = SideIngress) && negb has_unsupported_os
    then push_listener_health_failure rule active health ready else (false, ready) in
  let ready := foldl (fun r issue => push_preflight_failure_once issue r) ready issues in
  if blocked || negb (bool_decide (issues = [])) then ready
  else match side with
       | SideIngress => push_ingress (rule_id rule) ready
       | SideEgress => push_egress (rule_id rule) ready
       end.

(** tunnel_runtime.rs [build_tunnel_ready_state_with_listener_health_for_data_transport]
    (the loop body) *)
Definition apply_ready_rule (transport : string) (active : list TunnelTcpListenerSpec)
    (health : list TunnelListenerHealth) (ready : TunnelDataReadyState)
    (rule : SelectedTunnelRule) : TunnelDataReadyState :=
  if negb (rule_enabled rule)
     || bool_decide (to_ascii_lowercase (trim (rule_protocol rule)) ≠ "tcp"%string) then ready else
  if negb (rule_uses_data_transport rule transport) then
    if bool_decide (transport = TUNNEL_DATA_TRANSPORT_WEBSOCKET)
    then push_unsupported_data_transport_failure_once rule ready else ready
  else
    let role := to_ascii_lowercase (trim (rule_role rule)) in
    if bool_decide (role = "ingress"%string)
    then apply_ready_side rule SideIngress active health ready
    else if bool_decide (role = "egress"%string)
    then apply_ready_side rule SideEgress active health ready
    else if bool_decide (role = "both"%string)
    then apply_ready_side rule SideEgress active health
           (apply_ready_side rule SideIngress active health ready)
    else ready.

(** tunnel_runtime.rs [build_tunnel_ready_state_with_listener_health_for_data_transport] *)
Definition build_tunnel_ready_state_for (revision : string) (rules : list SelectedTunnelRule)
    (active : list TunnelTcpListenerSpec) (health : list TunnelListenerHealth)
    (transport : string) : TunnelDataReadyState :=
  let transport := normalize_data_transport_filter transport in
  normalize_ready (foldl (apply_ready_rule transport active health) (ready_empty revision) rules).

(** tunnel_runtime.rs [build_tunnel_ready_state_with_listener_health] *)
Definition build_tunnel_ready_state_with_listener_health (revision : string)
    (rules : list SelectedTunnelRule) (active : list TunnelTcpListenerSpec)
    (health : list TunnelListenerHealth) : TunnelDataReadyState :=
  build_tunnel_ready_state_for revision rules active health TUNNEL_DATA_TRANSPORT_WEBSOCKET.

(** tunnel_runtime.rs [build_tunnel_ready_state] *)
Definition build_tunnel_ready_state (revision : string) (rules : list SelectedTunnelRule)
    : TunnelDataReadyState :=
  build_tunnel_ready_state_with_listener_health revision rules [] [].

(** tunnel_runtime.rs [SharedTunnelRuleState::current_ready_for_data_transport] *)
Definition current_ready_for_data_transport (st : TunnelRuleSharedState) (transport : string)
    : TunnelDataReadyState :=
  let '(snapshot, active, health) := ready_snapshot st in
  build_tunnel_ready_state_for (snapshot_revision snapshot) (snapshot_rules snapshot)
    active health transport.

(** tunnel_runtime.rs [TunnelDataReadySource@SharedTunnelRuleState::current_ready] *)
Definition current_ready (st : TunnelRuleSharedState) : TunnelDataReadyState :=
  current_ready_for_data_transport st TUNNEL_DATA_TRANSPORT_WEBSOCKET.

(** tunnel_runtime.rs [TunnelDataReadySource@TransportTunnelRuleStateReadySource::current_ready]
    ([transport] as given to [ready_source_for_data_transport]) *)
Definition source_current_ready (st : TunnelRuleSharedState) (transport : string)
    : TunnelDataReadyState :=
  current_ready_for_data_transport st (normalize_data_transport_filter transport).
End readiness.

(** ** The health list: sorted, one entry per listener *)

Definition identity (s : TunnelTcpListenerSpec) : N * string * N * string :=
  (spec_rule_id s, trim (spec_listen_address s), spec_listen_port s, trim (spec_source_allowlist s)).

Definition health_wf (health : list TunnelListenerHealth) : Prop :=
  StronglySorted (le_rel (leb_of health_cmp)) health
  ∧ NoDup ((fun h => identity (health_spec h)) <$> health).

(** The operations that change the shared state *)
Inductive RuleOp :=
  | SetHealth (health : TunnelListenerHealth)
  | RetainHealth (specs : list TunnelTcpListenerSpec)
  | SetActive (listeners : list TunnelTcpListenerSpec)
  | UpdateRules (revision : string) (rules : list SelectedTunnelRule).

Definition run_rule_op (st : TunnelRuleSharedState) (op : RuleOp) : TunnelRuleSharedState :=
  match op with
  | SetHealth health => set_listener_health health st
  | RetainHealth specs => retain_health specs st
  | SetActive listeners => set_active_tcp_listeners listeners st
  | UpdateRules revision rules => rule_state_update_rules revision rules st
  end.

Section health_lemmas.
Lemma same_identity_iff l r : same_listener_identity l r = true ↔ identity l = identity r.
Proof.
  unfold same_listener_identity, same_listener_endpoint, identity.
  rewrite !andb_true_iff, !bool_decide_eq_true. split.
  - intros (? & (? & ?) & ?). congruence.
  - intros H. injection H as ? ? ? ?. done.
Qed.

Lemma same_identity_false l r : same_listener_identity l r = false ↔ identity l ≠ identity r.
Proof. rewrite <- same_identity_iff. destruct (same_listener_identity l r); naive_solver. Qed.

Lemma existsb_identity (f : TunnelListenerHealth → TunnelTcpListenerSpec) s l :
  existsb (fun h => same_listener_identity (f h) s) l = true ↔ identity s ∈ (fun h => identity (f h)) <$> l.
Proof.
  rewrite existsb_exists, list_elem_of_fmap. split; intros (h & H).
  - destruct H as [Hin Hs%same_identity_iff]. exists h. by rewrite list_elem_of_In.
  - destruct H as [Hs Hin]. exists h. rewrite <- list_elem_of_In, same_identity_iff. done.
Qed.

Lemma good_health_cmp : good_cmp health_cmp.
Proof.
  unfold health_cmp.
  apply (good_then (fun l r => spec_rule_id (health_spec l) ?= spec_rule_id (health_spec r)));
    [apply (good_on (fun h => spec_rule_id (health_spec h))), good_N|].
  apply (good_then (fun l r => str_cmp (spec_listen_address (health_spec l)) (spec_listen_address (health_spec r))));
    [apply (good_on (fun h => spec_listen_address (health_spec h))), good_str|].
  apply (good_then (fun l r => spec_listen_port (health_spec l) ?= spec_listen_port (health_spec r)));
    [apply (good_on (fun h => spec_listen_port (health_spec h))), good_N|].
  apply (good_on (fun h => spec_source_allowlist (health_spec h))), good_str.
Qed.

Lemma sort_health_wf health :
  NoDup ((fun h => identity (health_spec h)) <$> health) → health_wf (sort_listener_health health).
Proof.
  intros H. split; [apply sort_leb_of_sorted, good_health_cmp|].
  unfold sort_listener_health. by rewrite sort_by_perm.
Qed.

Lemma filter_fmap_NoDup {A B} (f : A → B) (P : A → Prop) `{!∀ x, Decision (P x)} l :
  NoDup (f <$> l) → NoDup (f <$> filter P l).
Proof. intros Hn. eapply sublist_NoDup; [exact Hn|]. apply fmap_sublist, sublist_filter. Qed.

Lemma filter_health_wf (P : TunnelListenerHealth → Prop) `{!∀ x, Decision (P x)} health :
  health_wf health → health_wf (filter P health).
Proof. intros [Hs Hn]. split; [by apply StronglySorted_filter|by apply filter_fmap_NoDup]. Qed.

Lemma add_running_NoDup ls health :
  NoDup ((fun h => identity (health_spec h)) <$> health) →
  NoDup ((fun h => identity (health_spec h)) <$> foldl add_running health ls).
Proof.
  revert health. induction ls as [|s ls IH]; intros health Hn; [done|]. cbn. apply IH.
  unfold add_running. destruct (existsb _ health) eqn:He; [done|]. rewrite fmap_app.
  apply NoDup_app. split_and!; [done| |apply NoDup_singleton].
  intros i Hi Hi'. apply list_elem_of_singleton in Hi'. subst i.
  apply not_true_iff_false in He. by rewrite existsb_identity in He.
Qed.

Lemma run_rule_op_wf st op :
  health_wf (listener_health st) → health_wf (listener_health (run_rule_op st op)).
Proof.
  intros Hw. destruct op as [h|specs|ls|rev rules]; cbn.
  - apply sort_health_wf. rewrite fmap_app. apply NoDup_app. split_and!.
    + by apply filter_fmap_NoDup, Hw.
    + intros i (h' & -> & [Hf _]%list_elem_of_filter)%list_elem_of_fmap Hi.
      apply list_elem_of_singleton in Hi. by apply same_identity_false in Hf.
    + apply NoDup_singleton.
  - by apply filter_health_wf.
  - apply sort_health_wf, add_running_NoDup, filter_fmap_NoDup, Hw.
  - by apply filter_health_wf.
Qed.

Lemma add_running_has s health :
  identity s ∈ (fun h => identity (health_spec h)) <$> add_running health s.
Proof.
  unfold add_running. destruct (existsb _ health) eqn:He; [by apply existsb_identity in He|].
  rewrite fmap_app. apply elem_of_app. right. apply list_elem_of_here.
Qed.

Lemma add_running_mono i ls health :
  i ∈ (fun h => identity (health_spec h)) <$> health →
  i ∈ (fun h => identity (health_spec h)) <$> foldl add_running health ls.
Proof.
  revert health. induction ls as [|s ls IH]; intros health Hi; [done|]. cbn. apply IH.
  unfold add_running. destruct (existsb _ _); [done|]. rewrite fmap_app. apply elem_of_app. by left.
Qed.

Lemma active_has_health s ls health :
  s ∈ ls → identity s ∈ (fun h => identity (health_spec h)) <$> foldl add_running health ls.
Proof.
  intros Hs. revert health. induction Hs as [s ls|s t ls Hs IH]; intros health; cbn; [|apply IH].
  apply add_running_mono, add_running_has.
Qed.

Lemma elem_of_set_health h x st :
  h ∈ listener_health (set_listener_health x st)
  ↔ h = x ∨ h ∈ listener_health st ∧ identity (health_spec h) ≠ identity (health_spec x).
Proof.
  cbn. unfold sort_listener_health.
  rewrite elem_of_sort_by, elem_of_app, list_elem_of_filter, list_elem_of_singleton, same_identity_false.
  tauto.
Qed.

Lemma elem_of_add_running h ls health :
  h ∈ foldl add_running health ls →
  h ∈ health ∨ ∃ s, s ∈ ls ∧ h = health_running s.
Proof.
  revert health. induction ls as [|s ls IH]; intros health H; [by left|].
  apply IH in H as [H|(t & Ht & ->)]; [|right; exists t; split; [by right|done]].
  unfold add_running in H. destruct (existsb _ _); [by left|].
  apply elem_of_app in H as [H| ->%list_elem_of_singleton]; [by left|].
  right. exists s. split; [left|done].
Qed.

Lemma elem_of_set_active h ls st :
  h ∈ listener_health (set_active_tcp_listeners ls st) →
  h ∈ listener_health st ∨ ∃ s, s ∈ ls ∧ h = health_running s.
Proof.
  cbn. unfold sort_listener_health. rewrite elem_of_sort_by.
  intros [[_ H]%list_elem_of_filter|(s & Hs & ->)]%elem_of_add_running; [by left|].
  right. exists s. split; [|done]. by apply elem_of_sort_by in Hs.
Qed.

Lemma set_active_keeps h ls st :
  h ∈ listener_health st → health_status h ≠ Running →
  h ∈ listener_health (set_active_tcp_listeners ls st).
Proof.
  intros Hh Hs. cbn. unfold sort_listener_health. rewrite elem_of_sort_by.
  assert (∀ ls health, h ∈ health → h ∈ foldl add_running health ls) as Hm.
  { clear. induction ls as [|s ls IH]; intros health Hh; [done|]. cbn. apply IH.
    unfold add_running. destruct (existsb _ _); [done|]. apply elem_of_app. by left. }
  apply Hm, list_elem_of_filter. split; [by left|done].
Qed.
End health_lemmas.

(** Whatever the order of rule updates, health reports and listener synchronisations,
    the health list is sorted and holds at most one entry per listener (rule, address,
    port and allowlist), and right after the runtime reports its listeners every one of
    them has an entry. *)
Theorem listener_health_consistent ops listeners :
  let st := foldl run_rule_op rule_state_new ops in
  health_wf (listener_health st)
  ∧ ∀ s, s ∈ listeners →
      ∃ h, h ∈ listener_health (set_active_tcp_listeners listeners st)
        ∧ identity (health_spec h) = identity s.
Proof.
  cbn zeta. split.
  - assert (health_wf (listener_health rule_state_new)) as Hw by (split; constructor).
    revert Hw. generalize rule_state_new. induction ops as [|op ops IH]; intros st Hw; [done|].
    cbn. by apply IH, run_rule_op_wf.
  - intros s Hs. assert (s ∈ sort_listeners listeners) as Hs' by (by apply elem_of_sort_by).
    eapply active_has_health in Hs'. apply list_elem_of_fmap in Hs' as (h & Hh & Hin).
    exists h. split; [|done]. by apply elem_of_sort_by.
Qed.

(** ** What readiness means *)

(** The rule is one this runtime handles. *)
Definition eligible (transport : string) (rule : SelectedTunnelRule) : Prop :=
  rule_enabled rule = true ∧ to_ascii_lowercase (trim (rule_protocol rule)) = "tcp"%string
  ∧ rule_uses_data_transport rule transport = true.

Definition side_name (side : TunnelPreflightSide) : string :=
  match side with SideIngress => "ingress" | SideEgress => "egress" end.

Definition has_side (side : TunnelPreflightSide) (rule : SelectedTunnelRule) : Prop :=
  to_ascii_lowercase (trim (rule_role rule)) ∈ [side_name side; "both"%string].

Definition side_ids (side : TunnelPreflightSide) (r : TunnelDataReadyState) : list N :=
  match side with SideIngress => ingress_rule_ids r | SideEgress => egress_rule_ids r end.

Section ready_spec.
Context (bind_error : string → option string) (linux : bool).
Context (active : list TunnelTcpListenerSpec) (health : list TunnelListenerHealth).

(** A rule serves as ingress when the platform is supported, its allowlist is valid and
    its listener runs; as egress when the platform is supported and it has a target. *)
Definition side_ok (side : TunnelPreflightSide) (rule : SelectedTunnelRule) : bool :=
  linux && match side with
           | SideIngress =>
               allowlist_is_valid (rule_source_allowlist rule)
               && listener_active active (listener_spec_for_rule rule)
               && match find_health health (listener_spec_for_rule rule) with
                  | Some h => bool_decide (health_status h = Running)
                  | None => false
                  end
           | SideEgress =>
               negb (is_empty (trim (rule_target_host rule))) && negb (rule_target_port rule =? 0)
           end.

(** [r'] is [r] with failures for [rule] added. *)
Definition only_failures (rule : SelectedTunnelRule) (r r' : TunnelDataReadyState) : Prop :=
  (∀ side, side_ids side r' = side_ids side r) ∧ ready_revision r' = ready_revision r
  ∧ (∃ fs, failed_rules r' = failed_rules r ++ fs ∧ Forall (fun f => failure_rule_id f = rule_id rule) fs)
  ∧ (NoDup (failed_rules r) → NoDup (failed_rules r')).

Definition has_failure (rule : SelectedTunnelRule) (r : TunnelDataReadyState) : Prop :=
  ∃ f, f ∈ failed_rules r ∧ failure_rule_id f = rule_id rule.

Lemma only_failures_refl rule r : only_failures rule r r.
Proof. split_and!; try done. exists []. by rewrite app_nil_r. Qed.

Lemma only_failures_trans rule r1 r2 r3 :
  only_failures rule r1 r2 → only_failures rule r2 r3 → only_failures rule r1 r3.
Proof.
  intros (H1 & H2 & (fs & H3 & H4) & H5) (K1 & K2 & (gs & K3 & K4) & K5).
  split_and!; [intros; by rewrite K1|by rewrite K2| |by intros ?%H5%K5].
  exists (fs ++ gs). rewrite K3, H3, app_assoc. split; [done|]. by apply Forall_app.
Qed.

Lemma push_failure_spec rule f r :
  failure_rule_id f = rule_id rule →
  only_failures rule r (push_failure_once f r) ∧ has_failure rule (push_failure_once f r).
Proof.
  intros Hf. unfold push_failure_once. case_bool_decide as Hin.
  - split; [apply only_failures_refl|by exists f].
  - split; [|exists f; split; [apply elem_of_app; right; apply list_elem_of_here|done]].
    split_and!; [by intros []|done| |].
    + exists [f]. split; [done|]. by repeat constructor.
    + intros Hn. cbn. apply NoDup_app. split_and!; [done| |apply NoDup_singleton].
      by intros x Hx ->%list_elem_of_singleton.
Qed.

Lemma has_failure_mono rule rule' r r' :
  only_failures rule' r r' → has_failure rule r → has_failure rule r'.
Proof.
  intros (_ & _ & (fs & Hfs & _) & _) (f & Hf & Hid). exists f. split; [|done].
  rewrite Hfs. apply elem_of_app. by left.
Qed.

Lemma push_issues_spec rule issues r :
  Forall (fun i => issue_rule_id i = rule_id rule) issues →
  only_failures rule r (foldl (fun r issue => push_preflight_failure_once issue r) r issues)
  ∧ (issues ≠ [] ∨ has_failure rule r →
     has_failure rule (foldl (fun r issue => push_preflight_failure_once issue r) r issues)).
Proof.
  intros Hall. revert r. induction Hall as [|i issues Hi _ IH]; intros r; cbn.
  { split; [apply only_failures_refl|naive_solver]. }
  destruct (push_failure_spec rule (mkFailure (issue_rule_id i)
    (tunnel_preflight_status (issue_code i)) (issue_message i)) r Hi) as [Ho Hf].
  destruct (IH (push_preflight_failure_once i r)) as [Ho' Hf'].
  split; [by eapply only_failures_trans|]. intros _. apply Hf'. by right.
Qed.

Lemma push_health_spec rule r b r' :
  push_listener_health_failure rule active health r = (b, r') →
  only_failures rule r r' ∧ (b = true → has_failure rule r')
  ∧ (b = false → r' = r)
  ∧ b = negb (listener_active active (listener_spec_for_rule rule)
              && match find_health health (listener_spec_for_rule rule) with
                 | Some h => bool_decide (health_status h = Running)
                 | None => false
                 end).
Proof.
  unfold push_listener_health_failure, push_listener_failure_once.
  destruct (find_health _ _) as [h|].
  - destruct (bool_decide (health_status h = Running)).
    + destruct (listener_active _ _); intros [= <- <-].
      * split_and!; try done. apply only_failures_refl.
      * split_and!; try done; intros; by apply push_failure_spec.
    + rewrite andb_false_r. intros [= <- <-]. split_and!; try done; intros; by apply push_failure_spec.
  - rewrite andb_false_r. intros [= <- <-]. split_and!; try done; intros; by apply push_failure_spec.
Qed.

Lemma issues_rule_id rule side :
  Forall (fun i => issue_rule_id i = rule_id rule)
    (validate_tunnel_tcp_rule_for_side bind_error linux (preflight_input rule) side).
Proof.
  unfold validate_tunnel_tcp_rule_for_side, validate_tunnel_tcp_rule_for_side_with_os, bind_issues.
  apply Forall_app. split; [destruct (tunnel_supported_on_this_os _); by repeat constructor|].
  destruct side; [|destruct (target_is_invalid _); by repeat constructor].
  apply Forall_app. split; [destruct (allowlist_is_valid _); by repeat constructor|].
  destruct (check_listener_bindable _ _ _); by repeat constructor.
Qed.

Lemma bind_issues_filtered input :
  filter (fun i => issue_code i ≠ ListenBindFailed) (bind_issues bind_error input) = [].
Proof.
  unfold bind_issues, check_listener_bindable.
  destruct (bind_error _); [|done]. by rewrite filter_cons_False by naive_solver.
Qed.

Definition side_issues (side : TunnelPreflightSide) (rule : SelectedTunnelRule) : list TunnelPreflightIssue :=
  filter_runtime_owned_listener_bind_failure rule side
    (validate_tunnel_tcp_rule_for_side bind_error linux (preflight_input rule) side) active.

Lemma side_issues_rule_id rule side :
  Forall (fun i => issue_rule_id i = rule_id rule) (side_issues side rule).
Proof.
  unfold side_issues, filter_runtime_owned_listener_bind_failure.
  pose proof (issues_rule_id rule side) as H. destruct (_ || _); [done|].
  apply Forall_forall. rewrite Forall_forall in H. intros i [_ Hi]%list_elem_of_filter. by apply H.
Qed.

Lemma egress_issues rule :
  bool_decide (side_issues SideEgress rule = []) = side_ok SideEgress rule.
Proof.
  unfold side_issues, filter_runtime_owned_listener_bind_failure. cbn [orb].
  rewrite (bool_decide_true (SideEgress ≠ SideIngress)) by done. cbn [orb].
  unfold validate_tunnel_tcp_rule_for_side, validate_tunnel_tcp_rule_for_side_with_os,
    tunnel_supported_on_this_os, target_is_invalid, side_ok. cbn.
  by destruct linux, (is_empty _), (rule_target_port rule =? 0).
Qed.

Lemma ingress_issues rule :
  let issues := side_issues SideIngress rule in
  existsb (fun i => bool_decide (issue_code i = UnsupportedOs)) issues = negb linux
  ∧ (listener_active active (listener_spec_for_rule rule) = true →
     bool_decide (issues = []) = linux && allowlist_is_valid (rule_source_allowlist rule))
  ∧ (linux = false → issues ≠ []).
Proof.
  cbn zeta. unfold side_issues, filter_runtime_owned_listener_bind_failure.
  rewrite bool_decide_false by naive_solver. cbn [orb].
  unfold validate_tunnel_tcp_rule_for_side, validate_tunnel_tcp_rule_for_side_with_os,
    tunnel_supported_on_this_os. cbn [pi_source_allowlist preflight_input].
  assert (existsb (fun i => bool_decide (issue_code i = UnsupportedOs))
            (bind_issues bind_error (preflight_input rule)) = false) as Hb.
  { unfold bind_issues, check_listener_bindable. by destruct (bind_error _). }
  destruct (listener_active _ _); cbn [negb].
  - rewrite !filter_app, bind_issues_filtered, app_nil_r.
    by destruct linux, (allowlist_is_valid _).
  - rewrite !existsb_app, Hb. by destruct linux, (allowlist_is_valid _).
Qed.

Definition push_side (side : TunnelPreflightSide) : N → TunnelDataReadyState → TunnelDataReadyState :=
  match side with SideIngress => push_ingress | SideEgress => push_egress end.

(** One side of one rule: either its id is added, or the rule gets a failure. *)
Lemma apply_ready_side_spec side rule r :
  let r' := apply_ready_side bind_error linux rule side active health r in
  if side_ok side rule then r' = push_side side (rule_id rule) r
  else only_failures rule r r' ∧ has_failure rule r'.
Proof.
  cbn zeta. unfold apply_ready_side. fold (side_issues side rule).
  pose proof (side_issues_rule_id rule side) as Hid.
  destruct side.
  - destruct (ingress_issues rule) as (Hos & Hact & Hnl). rewrite Hos, negb_involutive.
    rewrite bool_decide_true by done. cbn [andb]. unfold side_ok. destruct linux; cbn [andb].
    + destruct (push_listener_health_failure rule active health r) as [b r1] eqn:Hp.
      apply push_health_spec in Hp as (Ho & Hf & Hr & Hb).
      destruct (push_issues_spec rule (side_issues SideIngress rule) r1 Hid) as [Ho' Hf'].
      destruct (listener_active _ _); cbn [andb negb] in Hb |- *.
      2: { subst b. rewrite andb_false_r. cbn. split; [by eapply only_failures_trans|].
           apply Hf'. right. by apply Hf. }
      rewrite andb_true_r. specialize (Hact eq_refl). cbn [andb] in Hact.
      destruct (allowlist_is_valid _); cbn [andb].
      * apply bool_decide_eq_true in Hact. rewrite Hact in *. cbn in *. subst b.
        destruct (match find_health _ _ with Some _ => _ | None => _ end); cbn in *.
        -- by rewrite (Hr eq_refl).
        -- split; [done|]. by apply Hf.
      * apply bool_decide_eq_false in Hact. rewrite (bool_decide_false _ Hact), orb_true_r.
        split; [by eapply only_failures_trans|]. apply Hf'. by left.
    + rewrite bool_decide_false by (by apply Hnl). cbn.
      destruct (push_issues_spec rule (side_issues SideIngress rule) r Hid) as [Ho' Hf'].
      split; [done|]. apply Hf'. left. by apply Hnl.
  - rewrite bool_decide_false by done. cbn [andb orb].
    destruct (push_issues_spec rule (side_issues SideEgress rule) r Hid) as [Ho' Hf'].
    rewrite egress_issues. pose proof (egress_issues rule) as He.
    destruct (side_ok SideEgress rule); cbn [negb].
    + apply bool_decide_eq_true in He. by rewrite He.
    + split; [done|]. apply Hf'. left. by apply bool_decide_eq_false in He.
Qed.

(** What handling a rule for the sides [sides] does *)
Record handled (sides : list TunnelPreflightSide) (rule : SelectedTunnelRule)
    (r r' : TunnelDataReadyState) : Prop := {
  handled_ids s x :
    x ∈ side_ids s r' ↔ x ∈ side_ids s r ∨ (s ∈ sides ∧ x = rule_id rule ∧ side_ok s rule = true);
  handled_revision : ready_revision r' = ready_revision r;
  handled_mono f : f ∈ failed_rules r → f ∈ failed_rules r';
  handled_blame f :
    f ∈ failed_rules r' → f ∈ failed_rules r
      ∨ (failure_rule_id f = rule_id rule ∧ ∃ s, s ∈ sides ∧ side_ok s rule = false);
  handled_NoDup : NoDup (failed_rules r) → NoDup (failed_rules r');
  handled_fail s : s ∈ sides → side_ok s rule = false → has_failure rule r';
}.

Lemma handled_nil rule r : handled [] rule r r.
Proof. split; try done; set_solver. Qed.

Lemma handled_app s1 s2 rule r1 r2 r3 :
  handled s1 rule r1 r2 → handled s2 rule r2 r3 → handled (s1 ++ s2) rule r1 r3.
Proof.
  intros [I1 R1 M1 B1 N1 F1] [I2 R2 M2 B2 N2 F2]. split.
  - intros s x. rewrite I2, I1, elem_of_app. tauto.
  - by rewrite R2.
  - auto.
  - intros f [Hf|(Hid & s & Hs & Hok)]%B2.
    + apply B1 in Hf as [Hf|(Hid & s & Hs & Hok)]; [by left|]. right. split; [done|].
      exists s. rewrite elem_of_app. auto.
    + right. split; [done|]. exists s. rewrite elem_of_app. auto.
  - auto.
  - intros s [Hs|Hs]%elem_of_app Hok; [|by eapply F2].
    destruct (F1 s Hs Hok) as (f & Hf & Hid). exists f. auto.
Qed.

Lemma side_handled side rule r :
  handled [side] rule r (apply_ready_side bind_error linux rule side active health r).
Proof.
  pose proof (apply_ready_side_spec side rule r) as H. cbn zeta in H.
  set (r' := apply_ready_side _ _ _ _ _ _ _) in *. clearbody r'.
  destruct (side_ok side rule) eqn:Hok.
  - subst r'. split; try (by destruct side).
    2: { intros f Hf. left. by destruct side. }
    2: { intros s Hs. apply list_elem_of_singleton in Hs as ->. congruence. }
    intros s x. rewrite list_elem_of_singleton.
    destruct s, side; cbn; rewrite ?elem_of_app, ?list_elem_of_singleton; naive_solver.
  - destruct H as [(Hids & Hrev & (fs & Hfs & Hall) & Hn) Hf]. split; try done.
    + intros s x. rewrite Hids, list_elem_of_singleton. naive_solver congruence.
    + intros f. rewrite Hfs, elem_of_app. auto.
    + intros f. rewrite Hfs, elem_of_app. intros [?|Hin]; [by left|]. right.
      rewrite Forall_forall in Hall. split; [auto|]. exists side. by rewrite list_elem_of_singleton.
Qed.

(** The sides a role names *)
Definition role_sides (rule : SelectedTunnelRule) : list TunnelPreflightSide :=
  let role := to_ascii_lowercase (trim (rule_role rule)) in
  if bool_decide (role = "ingress"%string) then [SideIngress]
  else if bool_decide (role = "egress"%string) then [SideEgress]
  else if bool_decide (role = "both"%string) then [SideIngress; SideEgress] else [].

Lemma role_sides_iff side rule : side ∈ role_sides rule ↔ has_side side rule.
Proof.
  unfold role_sides, has_side. generalize (to_ascii_lowercase (trim (rule_role rule))). intros role.
  rewrite !elem_of_cons, elem_of_nil.
  case_bool_decide as H1; [subst; rewrite list_elem_of_singleton; destruct side; naive_solver|].
  case_bool_decide as H2; [subst; rewrite list_elem_of_singleton; destruct side; naive_solver|].
  case_bool_decide as H3; [subst; rewrite !elem_of_cons; destruct side; naive_solver|].
  rewrite elem_of_nil. destruct side; naive_solver.
Qed.

Context (transport : string).

(** The rule is live but of another transport, which only the websocket runtime reports. *)
Definition unsupported (rule : SelectedTunnelRule) : Prop :=
  rule_enabled rule = true ∧ to_ascii_lowercase (trim (rule_protocol rule)) = "tcp"%string
  ∧ rule_uses_data_transport rule transport = false ∧ transport = TUNNEL_DATA_TRANSPORT_WEBSOCKET.

(** Readiness as reported for the rules [rules]: an id is listed for a side exactly when
    some eligible rule with that id can serve that side; a failure is listed only once, and
    for a reason; an eligible rule that cannot serve one of its sides has a failure. *)
Record ready_correct (rules : list SelectedTunnelRule) (r : TunnelDataReadyState) : Prop := {
  ready_ids s x :
    x ∈ side_ids s r ↔ ∃ rule, rule ∈ rules ∧ eligible transport rule ∧ has_side s rule
      ∧ side_ok s rule = true ∧ rule_id rule = x;
  ready_failures_once : NoDup (failed_rules r);
  ready_failures_blame f :
    f ∈ failed_rules r → ∃ rule, rule ∈ rules ∧ failure_rule_id f = rule_id rule
      ∧ (unsupported rule
         ∨ eligible transport rule ∧ ∃ s, has_side s rule ∧ side_ok s rule = false);
  ready_failures_complete rule s :
    rule ∈ rules → eligible transport rule → has_side s rule → side_ok s rule = false →
    has_failure rule r;
}.

Lemma apply_ready_rule_handled rule r :
  let r' := apply_ready_rule bind_error linux transport active health r rule in
  eligible transport rule ∧ handled (role_sides rule) rule r r'
  ∨ ¬ eligible transport rule ∧ (r' = r ∨ unsupported rule ∧ only_failures rule r r').
Proof.
  cbn zeta. unfold apply_ready_rule, eligible, unsupported.
  destruct (rule_enabled rule); cbn [negb orb]; [|right; split; [by intros [? _]|by left]].
  case_bool_decide as Hp; [right; split; [by intros (_ & ? & _)|by left]|].
  destruct (rule_uses_data_transport rule transport); cbn [negb].
  - left. split; [done|]. unfold role_sides.
    case_bool_decide; [apply side_handled|]. case_bool_decide; [apply side_handled|].
    case_bool_decide; [|apply handled_nil].
    apply (handled_app [SideIngress] [SideEgress]) with (2 := side_handled _ _ _), side_handled.
  - right. split; [by intros (_ & _ & ?)|]. case_bool_decide as Ht; [|by left].
    right. split; [done|]. by apply push_failure_spec.
Qed.

Lemma ready_correct_step rules rule r :
  ready_correct rules r →
  ready_correct (rules ++ [rule]) (apply_ready_rule bind_error linux transport active health r rule).
Proof.
  intros [Hids Hn Hb Hc]. pose proof (apply_ready_rule_handled rule r) as H. cbn zeta in H.
  set (r' := apply_ready_rule _ _ _ _ _ _ _) in *. clearbody r'.
  assert (∀ P : SelectedTunnelRule → Prop,
    (∃ x, x ∈ rules ++ [rule] ∧ P x) ↔ (∃ x, x ∈ rules ∧ P x) ∨ P rule) as Hex.
  { intros P. setoid_rewrite elem_of_app. setoid_rewrite list_elem_of_singleton. naive_solver. }
  destruct H as [[He [Hi _ Hm Hbl Hnd Hfl]]|[He H]].
  - split.
    + intros s x. rewrite Hi, Hids, Hex, role_sides_iff. naive_solver.
    + auto.
    + intros f [Hf|(Hid & s & Hs & Hok)]%Hbl; rewrite Hex; [left; by apply Hb|right].
      split; [done|]. right. split; [done|]. exists s. by rewrite <- role_sides_iff.
    + intros rule' s [Hr| ->%list_elem_of_singleton]%elem_of_app He' Hs Hok.
      * destruct (Hc rule' s Hr He' Hs Hok) as (f & Hf & Hid). exists f. auto.
      * apply (Hfl s); [by apply role_sides_iff|done].
  - assert ((∀ s, side_ids s r' = side_ids s r) ∧ (NoDup (failed_rules r'))
      ∧ (∀ f, f ∈ failed_rules r → f ∈ failed_rules r')
      ∧ (∀ f, f ∈ failed_rules r' → f ∈ failed_rules r
           ∨ failure_rule_id f = rule_id rule ∧ unsupported rule)) as (Hi & Hnd & Hm & Hbl).
    { destruct H as [->|[Hu (Hi & _ & (fs & Hfs & Hall) & Hnd)]]; [naive_solver|].
      split_and!; [done|auto| |]; intros f; rewrite Hfs, elem_of_app; [auto|].
      rewrite Forall_forall in Hall. naive_solver. }
    split.
    + intros s x. rewrite Hi, Hids, Hex. naive_solver.
    + done.
    + intros f [Hf|[Hid Hu]]%Hbl; rewrite Hex; [left; by apply Hb|right]. by split; [|left].
    + intros rule' s [Hr| ->%list_elem_of_singleton]%elem_of_app He' Hs Hok; [|done].
      destruct (Hc rule' s Hr He' Hs Hok) as (f & Hf & Hid). exists f. auto.
Qed.

Lemma ready_fold_correct rules r done_rules :
  ready_correct done_rules r →
  ready_correct (done_rules ++ rules)
    (foldl (apply_ready_rule bind_error linux transport active health) r rules).
Proof.
  revert r done_rules. induction rules as [|rule rules IH]; intros r dr Hr; cbn.
  - by rewrite app_nil_r.
  - rewrite cons_middle, app_assoc. apply IH. by apply ready_correct_step.
Qed.
End ready_spec.

Lemma build_ready_correct bind_error linux revision rules active health transport :
  let r := build_tunnel_ready_state_for bind_error linux revision rules active health transport in
  ready_correct linux active health (normalize_data_transport_filter transport) rules r
  ∧ (∀ s, StronglySorted N.lt (side_ids s r)) ∧ ready_revision r = trim revision.
Proof.
  cbn zeta. unfold build_tunnel_ready_state_for.
  set (t := normalize_data_transport_filter transport).
  set (r := foldl _ _ rules).
  assert (ready_correct linux active health t rules r) as [Hi Hn Hb Hc].
  { apply (ready_fold_correct bind_error linux active health t rules (ready_empty revision) []).
    split; try (by intros ? ?%elem_of_nil); [|constructor|by intros ? ? ?%elem_of_nil].
    intros s x. split; [by destruct s; intros ?%elem_of_nil|by intros (? & ?%elem_of_nil & _)]. }
  split_and!.
  - split; [|done..]. intros s x. rewrite <- Hi. destruct s; cbn; apply elem_of_sort_dedup.
  - intros s. destruct s; apply sort_dedup_sorted.
  - cbn. subst r. assert (∀ r0, ready_revision (foldl (apply_ready_rule bind_error linux t active health) r0 rules)
      = ready_revision r0) as ->; [|done].
    clear. induction rules as [|rule rules IH]; intros r0; [done|]. cbn. rewrite IH.
    destruct (apply_ready_rule_handled bind_error linux active health t rule r0)
      as [[_ [_ ? _ _ _ _]]|[_ [->|[_ (_ & ? & _)]]]]; done.
Qed.


(** A rule update forgets the listeners of the other transport: the update keeps health
    and active listeners by the websocket plan only, so with rules that all use [ktp_tcp] it
    drops every listener the [ktp_tcp] runtime still runs, and until the next refresh no
    ingress rule is reported ready, on any transport. *)
Theorem update_rules_forgets_ktp_listeners st revision rules :
  (∀ rule, rule ∈ rules → rule_uses_data_transport rule TUNNEL_DATA_TRANSPORT_WEBSOCKET = false) →
  let st' := rule_state_update_rules revision rules st in
  active_listeners st' = [] ∧ listener_health st' = []
  ∧ ∀ bind_error linux transport,
      ingress_rule_ids (current_ready_for_data_transport bind_error linux st' transport) = [].
Proof.
  intros Hr. cbn zeta.
  assert (build_tcp_listener_plan rules = []) as Hplan.
  { unfold build_tcp_listener_plan, build_tcp_listener_plan_for_data_transport.
    replace (filter _ rules) with (@nil SelectedTunnelRule); [done|].
    symmetry. apply filter_none. intros rule Hin Hs.
    unfold rule_serves in Hs. rewrite !andb_true_iff in Hs. destruct Hs as [[_ Hs] _].
    change (normalize_data_transport_filter TUNNEL_DATA_TRANSPORT_WEBSOCKET)
      with TUNNEL_DATA_TRANSPORT_WEBSOCKET in Hs. by rewrite Hr in Hs. }
  assert (active_listeners (rule_state_update_rules revision rules st) = []
    ∧ listener_health (rule_state_update_rules revision rules st) = []) as [Ha Hh].
  { unfold rule_state_update_rules, retain_listener_health_for_specs. rewrite Hplan. cbn.
    split; by apply filter_none. }
  split_and!; [done|done|]. intros bind_error linux transport.
  unfold current_ready_for_data_transport, ready_snapshot. rewrite Ha, Hh. cbn [snapshot_rules snapshot_revision].
  destruct (build_ready_correct bind_error linux (rs_revision (rule_state_update_rules revision rules st))
    (rs_rules (rule_state_update_rules revision rules st)) [] [] transport) as ([Hids _ _ _] & _).
  apply elem_of_nil_inv. intros x Hx. apply (Hids SideIngress) in Hx as (rule & _ & _ & _ & Hok & _).
  unfold side_ok in Hok. cbn in Hok. by rewrite !andb_false_r in Hok.
Qed.

Lemma update_rules_forgets_ktp_listeners_witness :
  let rule := mkRule 7 "r" true "tcp" "ingress" "" "0.0.0.0" 8080 "" "10.0.0.9" 22 "" 0 0%Z "ktp_tcp" in
  let spec := listener_spec_for_rule rule in
  let st := mkRuleState "1" [rule] [spec] [health_running spec] in
  ingress_rule_ids (current_ready_for_data_transport (fun _ => None) true st "ktp_tcp") = [7]
  ∧ ingress_rule_ids (current_ready_for_data_transport (fun _ => None) true
      (rule_state_update_rules "2" [rule] st) "ktp_tcp") = [].
Proof.
  split; [by vm_compute|]. apply update_rules_forgets_ktp_listeners.
  intros rule ->%list_elem_of_singleton. by vm_compute.
Defined.
