(* ===== verification/TunnelRuntime.v ===== *)
(** * The tunnel runtime ([src/src/tunnel_runtime.rs], [TunnelTcpRuntime])

    The runtime keeps one listener per planned ingress rule, in step with the rules, and
    turns the server's session frames into calls of the session core.  What the
    environment decides is an argument: the outcome of binding a listener, of dialling a
    target, and what the other tasks do to the core while the dial is awaited. *)
From S2P Require Import Prelude RustStd AsyncIo Ktp TunnelSession Transport TunnelControl.
From S2P Require Import TunnelPreflight TunnelStats TunnelCore TunnelReady.
From Stdlib Require Import Strings.Byte.
From Stdlib Require Strings.String.
Local Open Scope N_scope.

(** tunnel_runtime.rs [TcpListenerHandle] (its stop flag is set, and read by nothing) *)
Record TcpListenerHandle := mkHandle { handle_spec : TunnelTcpListenerSpec }.

(** tunnel_runtime.rs [TunnelTcpRuntime] ([listener_events] is what the event channel
    holds: the listeners that reported their end) *)
Record TunnelTcpRuntime := mkRuntime {
  rt_rule_state : TunnelRuleSharedState;
  rt_data_transport : string;
  rt_core : AsyncTunnelCore;
  rt_listeners : gmap N TcpListenerHandle;
  listener_events : list TunnelTcpListenerSpec;
}.

Abbreviation runtime_act := (act TunnelTcpRuntime TransportError).

Definition set_rule_state (s : TunnelRuleSharedState) (rt : TunnelTcpRuntime) : TunnelTcpRuntime :=
  mkRuntime s (rt_data_transport rt) (rt_core rt) (rt_listeners rt) (listener_events rt).
Definition set_core (c : AsyncTunnelCore) (rt : TunnelTcpRuntime) : TunnelTcpRuntime :=
  mkRuntime (rt_rule_state rt) (rt_data_transport rt) c (rt_listeners rt) (listener_events rt).
Definition set_handles (m : gmap N TcpListenerHandle) (rt : TunnelTcpRuntime) : TunnelTcpRuntime :=
  mkRuntime (rt_rule_state rt) (rt_data_transport rt) (rt_core rt) m (listener_events rt).
Definition set_events (es : list TunnelTcpListenerSpec) (rt : TunnelTcpRuntime) : TunnelTcpRuntime :=
  mkRuntime (rt_rule_state rt) (rt_data_transport rt) (rt_core rt) (rt_listeners rt) es.

(** tunnel_runtime.rs [TunnelTcpRuntime::new_internal] *)
Definition runtime_new (rule_state : TunnelRuleSharedState) (limits : TunnelRuntimeLimits)
    (data_transport : string) : TunnelTcpRuntime :=
  mkRuntime rule_state (normalize_data_transport_filter data_transport) (core_new limits) ∅ [].

(** ** Listeners *)

(** tunnel_runtime.rs [TunnelTcpRuntime::sync_active_listener_snapshot] *)
Definition sync_active_listener_snapshot (rt : TunnelTcpRuntime) : TunnelTcpRuntime :=
  set_rule_state (set_active_tcp_listeners (handle_spec <$> (map_to_list (rt_listeners rt)).*2)
                    (rt_rule_state rt)) rt.

(** [let _ = block_on(core.stop_ingress_listener(rule_id))] *)
Definition stop_listener (rule_id : N) (rt : TunnelTcpRuntime) : TunnelTcpRuntime :=
  set_core (stop_ingress_listener rule_id (rt_core rt)).1 rt.

(** tunnel_runtime.rs [TunnelTcpRuntime::drain_listener_runtime_events] (one event) *)
Definition handle_listener_event (acc : list TunnelTcpListenerSpec * TunnelTcpRuntime)
    (event : TunnelTcpListenerSpec) : list TunnelTcpListenerSpec * TunnelTcpRuntime :=
  let '(terminal, rt) := acc in
  match rt_listeners rt !! spec_rule_id event with
  | Some handle =>
      if same_listener_identity (handle_spec handle) event then
        (terminal ++ [event],
         stop_listener (spec_rule_id event)
           (set_handles (delete (spec_rule_id event) (rt_listeners rt)) rt))
      else (terminal, rt)
  | None => (terminal, rt)
  end.

(** tunnel_runtime.rs [TunnelTcpRuntime::drain_listener_runtime_events] *)
Definition drain_listener_runtime_events (rt : TunnelTcpRuntime)
    : list TunnelTcpListenerSpec * TunnelTcpRuntime :=
  let '(terminal, rt) := foldl handle_listener_event ([], set_events [] rt) (listener_events rt) in
  (terminal, if bool_decide (terminal = []) then rt else sync_active_listener_snapshot rt).

(** The closure of [listeners.retain] in [refresh_listeners] *)
Definition should_keep (plan : list TunnelTcpListenerSpec) (rule_id : N) (handle : TcpListenerHandle) : bool :=
  existsb (fun spec => spec_rule_id spec =? rule_id) plan
  && match List.find (fun spec => spec_rule_id spec =? rule_id) plan with
     | Some spec => same_listener_endpoint spec (handle_spec handle)
     | None => false
     end.

(** tunnel_runtime.rs [TunnelTcpRuntime::refresh_listeners] 460-474: listeners that are no
    longer planned, or planned at another endpoint, are stopped *)
Definition retain_listeners (plan : list TunnelTcpListenerSpec) (rt : TunnelTcpRuntime) : TunnelTcpRuntime :=
  let stale := filter (fun p => should_keep plan p.1 p.2 = false) (map_to_list (rt_listeners rt)) in
  let rt := foldl (fun rt id => stop_listener id rt) rt stale.*1 in
  set_handles (filter (fun p => should_keep plan p.1 p.2 = true) (rt_listeners rt)) rt.

Section refresh.
(** The error of binding a listener, if any *)
Context (bind : TunnelTcpListenerSpec → option string).

(** tunnel_runtime.rs [TunnelTcpRuntime::refresh_listeners] 477-502: one planned listener *)
Definition start_listener (terminal : list TunnelTcpListenerSpec) (rt : TunnelTcpRuntime)
    (spec : TunnelTcpListenerSpec) : TunnelTcpRuntime :=
  if bool_decide (is_Some (rt_listeners rt !! spec_rule_id spec)) then rt else
  if existsb (fun t => same_listener_identity t spec) terminal then rt else
  match start_ingress_listener (spec_rule_id spec) (bind spec) (rt_core rt) with
  | (c, Done _) =>
      set_handles (<[spec_rule_id spec := mkHandle spec]> (rt_listeners rt))
        (set_rule_state (set_listener_running spec (rt_rule_state rt)) (set_core c rt))
  | (c, Fail e) =>
      set_rule_state (set_listener_start_failed spec (error_message e) (rt_rule_state rt)) (set_core c rt)
  | (c, _) => set_core c rt
  end.

(** tunnel_runtime.rs [TunnelTcpRuntime::refresh_listeners] *)
Definition refresh_listeners (rt : TunnelTcpRuntime) : TunnelTcpRuntime :=
  let '(terminal, rt) := drain_listener_runtime_events rt in
  let plan := tcp_listener_plan_for_data_transport (rt_rule_state rt) (rt_data_transport rt) in
  let rt := set_rule_state (retain_health plan (rt_rule_state rt)) rt in
  let rt := sync_active_listener_snapshot (retain_listeners plan rt) in
  sync_active_listener_snapshot (foldl (start_listener terminal) rt plan).

(** tunnel_runtime.rs [TunnelSessionRuntime@TunnelTcpRuntime::tick] *)
Definition tick : runtime_act unit := modify refresh_listeners.
End refresh.

(** ** Session frames *)

(** tunnel_runtime.rs [runtime_error_to_transport] *)
Definition runtime_error_to_transport (e : TunnelRuntimeError) : TransportError :=
  RequestFailed (TunnelRuntimeError_to_string e).

(** tunnel_runtime.rs [split_runtime_error_message] *)
Definition split_runtime_error_message (message : string) : string * string :=
  default (message, message) (split_once ": " message).

(** tunnel_runtime.rs [session_error_frame] *)
Definition session_error_frame (session_id : N) (leg : FrameLeg) (rule_id : N) (code message : string)
    : result TransportError KtpFrame :=
  payload ← map_err (fun e => RequestFailed (TunnelSessionPayloadError_to_string e))
              (encode_session_error_payload (mkErrorPayload rule_id code message));
  Ok {| frame_type := SessionError; leg := leg; flags := x00; session_id := session_id;
        payload := payload |}.

(** tunnel_runtime.rs [TunnelTcpRuntime::find_egress_rule] *)
Definition find_egress_rule (rt : TunnelTcpRuntime) (id : N) : option SelectedTunnelRule :=
  List.find (fun rule => (rule_id rule =? id)
               && rule_serves (rt_data_transport rt) ["egress"; "both"] rule)
    (snapshot_rules (rule_snapshot (rt_rule_state rt))).

(** Run a call of the core, keeping its error as a value. *)
Definition call_core {A} (m : core_act A) : runtime_act (result TunnelRuntimeError A) := fun rt =>
  match m (rt_core rt) with
  | (c, Done a) => (set_core c rt, Done (Ok a))
  | (c, Fail e) => (set_core c rt, Done (Err e))
  | (c, Wait) => (set_core c rt, Wait)
  | (c, Crash) => (set_core c rt, Crash)
  end.

Definition reply (r : result TransportError KtpFrame) : runtime_act (list KtpFrame) :=
  f ← try_ r; mret [f].

(** tunnel_runtime.rs [TunnelTcpRuntime::handle_egress_open] *)
Definition handle_egress_open (dial : DialOutcome) (during_dial : AsyncTunnelCore → AsyncTunnelCore)
    (frame : KtpFrame) : runtime_act (list KtpFrame) :=
  match decode_session_open_payload (payload frame) with
  | Err e =>
      reply (session_error_frame (session_id frame) Egress 0 "protocol_error"
               (TunnelSessionPayloadError_to_string e))
  | Panic => fun rt => (rt, Crash)
  | Ok open =>
      rt ← get;
      match find_egress_rule rt (open_rule_id open) with
      | None =>
          reply (session_error_frame (session_id frame) Egress (open_rule_id open)
                   "runtime_unavailable" "egress rule is not ready")
      | Some rule =>
          r ← call_core (open_egress_session (session_id frame) (rule_id rule) dial during_dial);
          match map_err runtime_error_to_transport r with
          | Ok frames => mret frames
          | Err (RequestFailed message) =>
              let '(code, detail) := split_runtime_error_message message in
              reply (session_error_frame (session_id frame) Egress (rule_id rule) code detail)
          | Err error => fail error
          | Panic => fun rt => (rt, Crash)
          end
      end
  end.

(** tunnel_runtime.rs [TunnelSessionRuntime@TunnelTcpRuntime::handle_server_frame] *)
Definition handle_server_frame (dial : DialOutcome) (during_dial : AsyncTunnelCore → AsyncTunnelCore)
    (frame : KtpFrame) : runtime_act (list KtpFrame) :=
  match frame_type frame, leg frame with
  | SessionOpen, Egress => handle_egress_open dial during_dial frame
  | SessionData, _ =>
      r ← call_core (handle_session_data (session_id frame) (leg frame) (payload frame));
      match r with
      | Err e =>
          if bool_decide (error_code e ≠ "runtime_unavailable"%string)
          then fail (runtime_error_to_transport e) else mret []
      | _ => mret []
      end
  | (SessionClose | SessionError), _ =>
      _ ← call_core (close_session (session_id frame));
      mret []
  | _, _ => mret []
  end.

(** tunnel_runtime.rs [TunnelSessionRuntime@TunnelTcpRuntime::close_all_sessions] *)
Definition runtime_close_all_sessions : runtime_act unit :=
  r ← call_core close_all_sessions;
  try_ (map_err runtime_error_to_transport r).

(** tunnel_runtime.rs [TunnelSessionRuntime@TunnelTcpRuntime::next_client_frame] *)
Definition next_client_frame (now : N) : runtime_act (option KtpFrame) :=
  r ← call_core (core_next_frame now);
  try_ (map_err runtime_error_to_transport r).

(** tunnel_runtime.rs [TunnelSessionRuntime@TunnelTcpRuntime::next_client_frames] *)
Definition next_client_frames (now max_frames : N) : runtime_act (list KtpFrame) :=
  r ← call_core (core_next_frames now max_frames);
  try_ (map_err runtime_error_to_transport r).

(** tunnel_runtime.rs [TunnelSessionRuntime@TunnelTcpRuntime::next_client_frames_after_wait] *)
Definition next_client_frames_after_wait (now max_frames timeout : N)
    (while_waiting : AsyncTunnelCore → AsyncTunnelCore) : runtime_act (list KtpFrame) :=
  r ← call_core (core_next_frames_after_wait now max_frames timeout while_waiting);
  try_ (map_err runtime_error_to_transport r).

(** tunnel_runtime.rs [TunnelSessionRuntime@TunnelTcpRuntime::outbound_queue_dwell_snapshot] *)
Definition runtime_queue_dwell_snapshot : runtime_act (option TunnelQueueDwellStatsSnapshot) :=
  rt ← get;
  s ← try_ (stats_snapshot (stats (rt_core rt)));
  mret (Some (snap_outbound_queue_dwell s)).

(** tunnel_runtime.rs [TunnelSessionRuntime@TunnelTcpRuntime::recent_outbound_queue_dwell_snapshot] *)
Definition runtime_recent_queue_dwell_snapshot : runtime_act (option TunnelQueueDwellStatsSnapshot) :=
  rt ← get;
  s ← try_ (stats_snapshot (stats (rt_core rt)));
  mret (Some (snap_recent_outbound_queue_dwell s)).

(** tunnel_runtime.rs [TunnelSessionRuntime@TunnelTcpRuntime::client_frame_batch_limit] *)
Definition client_frame_batch_limit (requested_max_frames : N) : runtime_act N :=
  r ← call_core (effective_outbound_batch_frames requested_max_frames);
  try_ (map_err runtime_error_to_transport r).

(** tunnel_runtime.rs [TunnelSessionRuntime@TunnelTcpRuntime::tunnel_data_client_frame_wait_timeout]
    (microseconds) *)
Definition client_frame_wait_timeout (rt : TunnelTcpRuntime) : option N :=
  if bool_decide (rt_data_transport rt = TUNNEL_DATA_TRANSPORT_KTP_TCP) then Some 100 else None.
(** tunnel_runtime.rs [TunnelSessionRuntime@TunnelTcpRuntime::tunnel_data_socket_idle_timeout]
    (microseconds) *)
Definition socket_idle_timeout (rt : TunnelTcpRuntime) : option N :=
  if bool_decide (rt_data_transport rt = TUNNEL_DATA_TRANSPORT_KTP_TCP) then Some 10000 else None.

(** ** The listeners follow the plan *)

(** Each handle is stored under its rule, and the core runs exactly these listeners. *)
Definition runtime_wf (rt : TunnelTcpRuntime) : Prop :=
  (∀ id h, rt_listeners rt !! id = Some h → spec_rule_id (handle_spec h) = id)
  ∧ listeners (rt_core rt) = dom (rt_listeners rt).

Section refresh_lemmas.
Context (bind : TunnelTcpListenerSpec → option string).
Implicit Types rt : TunnelTcpRuntime.

Lemma runtime_new_wf rs l t : runtime_wf (runtime_new rs l t).
Proof. split; cbn; [intros id h Hh; by rewrite lookup_empty in Hh|by rewrite dom_empty_L]. Qed.

Lemma set_rule_state_wf s rt : runtime_wf rt → runtime_wf (set_rule_state s rt).
Proof. done. Qed.

Lemma event_wf acc e : runtime_wf acc.2 → runtime_wf (handle_listener_event acc e).2.
Proof.
  destruct acc as [ts rt]. intros [Hk Hd]. cbn in Hk, Hd. unfold handle_listener_event.
  destruct (rt_listeners rt !! spec_rule_id e); [|done]. destruct (same_listener_identity _ _); [|done].
  split; cbn.
  - intros id h [_ Hh]%lookup_delete_Some. by apply Hk.
  - rewrite Hd, dom_delete_L. done.
Qed.

Lemma drain_wf rt : runtime_wf rt → runtime_wf (drain_listener_runtime_events rt).2.
Proof.
  intros Hw. unfold drain_listener_runtime_events.
  assert (∀ es acc, runtime_wf acc.2 → runtime_wf (foldl handle_listener_event acc es).2) as Hf.
  { induction es as [|e es IH]; intros acc Ha; [done|]. by apply IH, event_wf. }
  specialize (Hf (listener_events rt) ([], set_events [] rt) Hw).
  destruct (foldl _ _ _) as [ts rt']. cbn in *. by case_bool_decide.
Qed.

Lemma stop_all ids rt :
  let rt' := foldl (fun rt id => stop_listener id rt) rt ids in
  rt_listeners rt' = rt_listeners rt ∧ rt_rule_state rt' = rt_rule_state rt
  ∧ listeners (rt_core rt') = listeners (rt_core rt) ∖ list_to_set ids.
Proof.
  cbn zeta. revert rt. induction ids as [|id ids IH]; intros rt; cbn.
  - split_and!; [done|done|set_solver].
  - destruct (IH (stop_listener id rt)) as (-> & -> & ->). split_and!; [done|done|]. cbn. set_solver.
Qed.

Lemma retain_listeners_spec plan rt :
  let rt' := retain_listeners plan rt in
  rt_rule_state rt' = rt_rule_state rt
  ∧ rt_listeners rt' = filter (fun p => should_keep plan p.1 p.2 = true) (rt_listeners rt)
  ∧ (runtime_wf rt → runtime_wf rt').
Proof.
  cbn zeta. unfold retain_listeners.
  set (ids := (filter _ (map_to_list (rt_listeners rt))).*1).
  destruct (stop_all ids rt) as (Hl & Hs & Hc). cbn.
  split_and!; [done|by rewrite Hl|]. intros [Hk Hd]. split; cbn.
  - rewrite Hl. intros id h [Hh _]%map_lookup_filter_Some. by apply Hk.
  - rewrite Hc, Hl, Hd. apply set_eq. intros id.
    rewrite elem_of_difference, elem_of_list_to_set, !elem_of_dom. split.
    + intros [[h Hh] Hn]. exists h. apply map_lookup_filter_Some. split; [done|]. cbn.
      apply not_false_iff_true. intros Hf. apply Hn. apply list_elem_of_fmap. exists (id, h).
      split; [done|]. apply list_elem_of_filter. split; [done|]. by apply elem_of_map_to_list.
    + intros [h [Hh Hk']%map_lookup_filter_Some]. split; [by exists h|].
      intros ([id' h'] & Heq & [Hf Hin]%list_elem_of_filter)%list_elem_of_fmap.
      cbn in *. subst id'. apply elem_of_map_to_list in Hin. congruence.
Qed.

Lemma start_listener_wf ts rt spec : runtime_wf rt → runtime_wf (start_listener bind ts rt spec).
Proof.
  intros [Hk Hd]. unfold start_listener. case_bool_decide; [done|].
  destruct (existsb _ _); [done|]. unfold start_ingress_listener.
  destruct (bind spec); [done|]. split; cbn.
  - intros id h [[<- <-]|[_ Hh]]%lookup_insert_Some; [done|by apply Hk].
  - by rewrite Hd, dom_insert_L.
Qed.

Lemma start_fold_wf ts plan rt : runtime_wf rt → runtime_wf (foldl (start_listener bind ts) rt plan).
Proof.
  revert rt. induction plan as [|s plan IH]; intros rt Hw; [done|]. by apply IH, start_listener_wf.
Qed.

Lemma refresh_wf rt : runtime_wf rt → runtime_wf (refresh_listeners bind rt).
Proof.
  intros Hw. unfold refresh_listeners. pose proof (drain_wf rt Hw) as Hd.
  destruct (drain_listener_runtime_events rt) as [ts rt1]. cbn in Hd.
  apply set_rule_state_wf, start_fold_wf, set_rule_state_wf.
  apply retain_listeners_spec. by apply set_rule_state_wf.
Qed.

Definition planned (plan : list TunnelTcpListenerSpec) rt : Prop :=
  ∀ id h, rt_listeners rt !! id = Some h →
    ∃ spec, spec ∈ plan ∧ spec_rule_id spec = id ∧ same_listener_endpoint spec (handle_spec h) = true.

Definition health_planned (plan : list TunnelTcpListenerSpec) rt : Prop :=
  ∀ h, h ∈ listener_health (rt_rule_state rt) →
    ∃ spec, spec ∈ plan ∧ identity (health_spec h) = identity spec.

Definition start_failed rt (spec : TunnelTcpListenerSpec) : Prop :=
  ∃ h, h ∈ listener_health (rt_rule_state rt) ∧ identity (health_spec h) = identity spec
    ∧ health_status h = StartFailed.

(** A planned listener runs, or has just ended, or could not be bound. *)
Definition settled (terminal : list TunnelTcpListenerSpec) rt (spec : TunnelTcpListenerSpec) : Prop :=
  is_Some (rt_listeners rt !! spec_rule_id spec)
  ∨ existsb (fun t => same_listener_identity t spec) terminal = true
  ∨ start_failed rt spec.

Lemma endpoint_refl s : same_listener_endpoint s s = true.
Proof. unfold same_listener_endpoint. by rewrite !bool_decide_true. Qed.

Lemma retain_planned plan rt : planned plan (retain_listeners plan rt).
Proof.
  intros id h. destruct (retain_listeners_spec plan rt) as (_ & -> & _).
  intros [_ Hk]%map_lookup_filter_Some. cbn in Hk. unfold should_keep in Hk.
  apply andb_true_iff in Hk as [_ Hk]. destruct (List.find _ plan) as [s|] eqn:Hf; [|done].
  apply find_some in Hf as [Hin Hid%N.eqb_eq]. exists s. by rewrite list_elem_of_In.
Qed.

Lemma sync_health_planned plan rt :
  runtime_wf rt → planned plan rt → health_planned plan rt →
  health_planned plan (sync_active_listener_snapshot rt).
Proof.
  intros [Hk _] Hp Hh h [Hin|(s & Hs & ->)]%elem_of_set_active; [by apply Hh|].
  apply list_elem_of_fmap in Hs as (hd & -> & ([id hd'] & Heq & Hin)%list_elem_of_fmap).
  cbn in Heq. subst hd'. apply elem_of_map_to_list in Hin.
  destruct (Hp id hd Hin) as (s & Hs & Hid & He). exists s. split; [done|]. symmetry.
  apply same_identity_iff. unfold same_listener_identity. cbn [health_spec health_running].
  rewrite He, andb_true_r.
  apply bool_decide_eq_true. rewrite Hid. symmetry. by apply Hk.
Qed.

Lemma start_listener_step ts plan rt spec seen :
  spec ∈ plan → planned plan rt → health_planned plan rt →
  (∀ s, s ∈ seen → settled ts rt s) →
  let rt' := start_listener bind ts rt spec in
  planned plan rt' ∧ health_planned plan rt' ∧ (∀ s, s ∈ seen ++ [spec] → settled ts rt' s)
  ∧ rs_rules (rt_rule_state rt') = rs_rules (rt_rule_state rt).
Proof.
  intros Hin Hp Hh Hs. cbn zeta. setoid_rewrite elem_of_app. setoid_rewrite list_elem_of_singleton.
  unfold start_listener. case_bool_decide as Hrun.
  { split_and!; [done|done| |done]. intros s [?| ->]; [by apply Hs|by left]. }
  destruct (existsb _ ts) eqn:Hts.
  { split_and!; [done|done| |done]. intros s [?| ->]; [by apply Hs|by right; left]. }
  unfold start_ingress_listener. destruct (bind spec) as [e|]; cbn [fail modify]; split_and!; try done.
  - intros h [->|[? _]]%elem_of_set_health; [by exists spec|by apply Hh].
  - intros s [Hseen| ->].
    + destruct (Hs s Hseen) as [?|[?|(h & Hh1 & Hh2 & Hh3)]]; [by left|by right; left|right; right].
      destruct (decide (identity s = identity spec)) as [Heq|Hne].
      * eexists. split; [apply elem_of_set_health; by left|done].
      * exists h. split; [|done]. apply elem_of_set_health. right. split; [done|]. cbn. congruence.
    + right; right. eexists. split; [apply elem_of_set_health; by left|done].
  - intros id h Hl. cbn in Hl. apply lookup_insert_Some in Hl as [[<- <-]|[_ Hl]]; [|by apply Hp].
    exists spec. split_and!; [done|done|apply endpoint_refl].
  - intros h [->|[? _]]%elem_of_set_health; [by exists spec|by apply Hh].
  - intros s Hseen. unfold settled. cbn.
    destruct (decide (spec_rule_id spec = spec_rule_id s)) as [Heq|Hne].
    { left. rewrite Heq, lookup_insert_eq. eauto. }
    rewrite lookup_insert_ne by done. destruct Hseen as [Hseen| ->]; [|done].
    destruct (Hs s Hseen) as [?|[?|(h & Hh1 & Hh2 & Hh3)]]; [by left|by right; left|right; right].
    exists h. split; [|done]. apply elem_of_set_health. right. split; [done|]. cbn.
    rewrite Hh2. intros Heq. apply Hne. by injection Heq.
Qed.

Lemma start_fold ts plan todo rt seen :
  (∀ s, s ∈ todo → s ∈ plan) → planned plan rt → health_planned plan rt →
  (∀ s, s ∈ seen → settled ts rt s) →
  let rt' := foldl (start_listener bind ts) rt todo in
  planned plan rt' ∧ health_planned plan rt' ∧ (∀ s, s ∈ seen ++ todo → settled ts rt' s)
  ∧ rs_rules (rt_rule_state rt') = rs_rules (rt_rule_state rt).
Proof.
  cbn zeta. revert rt seen. induction todo as [|s todo IH]; intros rt seen Ht Hp Hh Hs; cbn [foldl].
  { by rewrite app_nil_r. }
  destruct (start_listener_step ts plan rt s seen) as (Hp' & Hh' & Hs' & Hr'); [apply Ht; left|done..|].
  destruct (IH (start_listener bind ts rt s) (seen ++ [s])) as (? & ? & Hset & Hr); [|done..|].
  { intros x Hx. apply Ht. by right. }
  split_and!; [done|done| |by rewrite Hr]. intros x Hx. apply Hset. by rewrite <- app_assoc.
Qed.

Lemma drain_rules rt :
  let rt' := (drain_listener_runtime_events rt).2 in
  rs_rules (rt_rule_state rt') = rs_rules (rt_rule_state rt)
  ∧ rt_data_transport rt' = rt_data_transport rt.
Proof.
  cbn zeta. unfold drain_listener_runtime_events.
  assert (∀ es acc, let r := (foldl handle_listener_event acc es).2 in
    rt_rule_state r = rt_rule_state acc.2 ∧ rt_data_transport r = rt_data_transport acc.2) as Hf.
  { induction es as [|e es IH]; intros acc; [done|]. cbn. destruct (IH (handle_listener_event acc e)) as [-> ->].
    destruct acc as [ts r]. cbn. destruct (_ !! _); [destruct (same_listener_identity _ _)|]; done. }
  destruct (Hf (listener_events rt) ([], set_events [] rt)) as [H1 H2].
  destruct (foldl _ _ _) as [ts rt']. cbn in *. case_bool_decide; cbn; by rewrite H1, H2.
Qed.
End refresh_lemmas.

(** C5: Listeners follow the rules.  After a refresh, whatever listeners ran before: every
    handle is stored under its rule and runs in the core, and the core runs no other; no
    listener runs that the plan does not ask for at that endpoint; every planned listener
    runs, unless it has just reported its end or could not be bound, which its health then
    says; health is kept for planned listeners only; and the shared state lists exactly the
    running listeners. *)
Theorem refresh_follows_plan bind rt :
  runtime_wf rt →
  let rt' := refresh_listeners bind rt in
  let plan := tcp_listener_plan_for_data_transport (rt_rule_state rt) (rt_data_transport rt) in
  let terminal := (drain_listener_runtime_events rt).1 in
  runtime_wf rt' ∧ planned plan rt'
  ∧ (∀ spec, spec ∈ plan → settled terminal rt' spec) ∧ health_planned plan rt'
  ∧ (∀ spec, spec ∈ active_listeners (rt_rule_state rt') ↔
       ∃ id h, rt_listeners rt' !! id = Some h ∧ handle_spec h = spec).
Proof.
  intros Hw. cbn zeta. split; [by apply refresh_wf|]. unfold refresh_listeners.
  destruct (drain_rules rt) as [Hr Ht]. pose proof (drain_wf rt Hw) as Hwd.
  destruct (drain_listener_runtime_events rt) as [ts rt1]. cbn [fst snd] in *.
  unfold tcp_listener_plan_for_data_transport. cbn [rule_snapshot snapshot_rules]. rewrite Hr, Ht.
  set (plan := build_tcp_listener_plan_for_data_transport _ _).
  set (rt2 := set_rule_state (retain_health plan (rt_rule_state rt1)) rt1).
  destruct (retain_listeners_spec plan rt2) as (Hrs & Hls & Hwf).
  assert (runtime_wf rt2) as Hw2 by done. specialize (Hwf Hw2).
  set (rt3 := sync_active_listener_snapshot (retain_listeners plan rt2)).
  assert (health_planned plan rt3) as Hh3.
  { apply sync_health_planned; [done|apply retain_planned|].
    intros h. rewrite Hrs. cbn. intros [He _]%list_elem_of_filter.
    apply existsb_exists in He as (s & Hs%list_elem_of_In & He%same_identity_iff). by exists s. }
  destruct (start_fold bind ts plan plan rt3 []) as (Hp & Hh & Hs & _);
    [done|apply retain_planned|done|by intros ? ?%elem_of_nil|].
  set (rt4 := foldl (start_listener bind ts) rt3 plan) in *.
  assert (runtime_wf rt4) as Hw4 by (by apply start_fold_wf).
  split_and!; [done| |by apply sync_health_planned|].
  - intros spec [?|[?|(h & Hh1 & Hh2 & Hh3')]]%Hs; [by left|by right; left|right; right].
    exists h. split; [|done]. apply set_active_keeps; [done|]. by rewrite Hh3'.
  - intros spec. cbn. unfold sort_listeners. rewrite elem_of_sort_by, list_elem_of_fmap. split.
    + intros (h & -> & ([id h'] & -> & Hin)%list_elem_of_fmap). exists id, h'.
      by apply elem_of_map_to_list in Hin.
    + intros (id & h & Hh' & <-). exists h. split; [done|]. apply list_elem_of_fmap.
      exists (id, h). split; [done|]. by apply elem_of_map_to_list.
Qed.

(** ** Egress opens *)

(** The error frame a refusal is reported with *)
Definition is_error_frame (f : KtpFrame) (session_id rule_id : N) (code message : string) : Prop :=
  frame_type f = SessionError ∧ leg f = Egress ∧ Ktp.session_id f = session_id
  ∧ encode_session_error_payload (mkErrorPayload rule_id code message) = Ok (payload f).

(** What the code makes of the message of an error of [open_egress_session] *)
Definition reported_message (e : TunnelRuntimeError) : string :=
  if is_empty (trim (error_message e)) then error_code e else error_message e.

Section egress_open.
Implicit Types rt : TunnelTcpRuntime.

(** Splitting the displayed error gives back its code: no code contains a colon. *)
Lemma split_displayed e :
  error_code e = "session_limit"%string ∨ error_code e = "target_connect_failed"%string →
  split_runtime_error_message (TunnelRuntimeError_to_string e) = (error_code e, reported_message e).
Proof.
  intros Hc. unfold split_runtime_error_message, TunnelRuntimeError_to_string, reported_message.
  destruct (is_empty (trim (error_message e))); [by destruct Hc as [-> | ->]|].
  unfold split_once. rewrite !bytes_of_app.
  assert (split_once_bytes (bytes_of ": ") (bytes_of (error_code e) ++ bytes_of ": " ++ bytes_of (error_message e))
    = Some (bytes_of (error_code e), bytes_of (error_message e))) as ->;
    [|cbn; by rewrite !str_of_bytes_of].
  destruct Hc as [-> | ->];
    [set (b := bytes_of "session_limit")|set (b := bytes_of "target_connect_failed")];
    vm_compute in b; subst b; set (p := bytes_of ": "); vm_compute in p; subst p; reflexivity.
Qed.

Lemma error_frame_run sid rule code message rt :
  str_len code ≤ U16_MAX → str_len message ≤ U16_MAX →
  ∃ f, reply (session_error_frame sid Egress rule code message) rt = (rt, Done [f])
    ∧ is_error_frame f sid rule code message.
Proof.
  intros Hc Hm. unfold reply, session_error_frame.
  destruct (encode_session_error_payload (mkErrorPayload rule code message)) as [p|e|] eqn:He.
  - cbv [mbind act_bind try_ mret act_ret map_err result_bind]. eexists. split; [reflexivity|]. done.
  - exfalso. assert (∃ bs, encode_session_error_payload (mkErrorPayload rule code message) = Ok bs)
      as [bs Hbs] by (eexists; by apply encode_error_Ok). congruence.
  - exfalso. assert (∃ bs, encode_session_error_payload (mkErrorPayload rule code message) = Ok bs)
      as [bs Hbs] by (eexists; by apply encode_error_Ok). congruence.
Qed.

Lemma attach_egress_run sid rule c :
  ∃ c' k, attach_egress sid rule c
      = (c', Done [{| frame_type := SessionAccept; leg := Egress; flags := x00; session_id := sid;
                      payload := encode_session_accept_payload rule |}])
    ∧ sessions c' = <[sid := next_conn c]> (sessions c) ∧ conns c' !! next_conn c = Some k
    ∧ conn_session_id k = sid ∧ conn_rule_id k = rule ∧ reader_alive k = true ∧ writer_alive k = true.
Proof.
  eexists _, (mkConn sid rule Egress [] 0 true true true None). split; [reflexivity|].
  split; [reflexivity|]. split; [|done]. cbn. rewrite lookup_alter_eq, lookup_insert_eq. done.
Qed.

(** How opening a session for [rule] ends *)
Lemma open_egress_run sid rule dial during c :
  stats_small (stats c) →
  open_egress_session sid rule dial during c
  = if bool_decide (max_sessions_per_agent (limits c) ≤ active_sessions (stats c))
    then (c, Fail (session_limit "agent tunnel session limit reached"))
    else match dial_result dial with
         | Ok _ => attach_egress sid rule (during c)
         | Err e => (during c, Fail e)
         | Panic => (during c, Crash)
         end.
Proof.
  intros Hs. unfold open_egress_session, ensure_agent_session_capacity.
  cbv [mbind act_bind get try_ mret act_ret fail modify].
  destruct (stats_snapshot_ok (E:=TunnelRuntimeError) (stats c) Hs) as (snap & -> & ->).
  case_bool_decide; [done|]. by destruct (dial_result dial).
Qed.
End egress_open.

(** C6: Every egress open is answered, by exactly one frame on the same session.  A payload
    that does not parse is reported as [protocol_error]; a rule that is not an enabled TCP
    egress rule of this transport as [runtime_unavailable]; a full agent as [session_limit];
    a failed dial as [target_connect_failed] with its reason; and otherwise the session is
    registered, its connection's reader and writer run, and the open is accepted.  In the
    first three cases nothing changes. *)
Theorem egress_open_answered dial during frame rt :
  stats_small (stats (rt_core rt)) →
  (∀ e, decode_session_open_payload (payload frame) = Err e →
        str_len (TunnelSessionPayloadError_to_string e) ≤ U16_MAX) →
  (∀ e, dial = DialFailed e → str_len e ≤ U16_MAX) →
  ∃ f rt', handle_egress_open dial during frame rt = (rt', Done [f])
    ∧ leg f = Egress ∧ session_id f = session_id frame
    ∧ match decode_session_open_payload (payload frame) with
      | Ok open =>
          match find_egress_rule rt (open_rule_id open) with
          | Some rule =>
              if bool_decide (max_sessions_per_agent (limits (rt_core rt)) ≤ active_sessions (stats (rt_core rt)))
              then rt' = rt ∧ is_error_frame f (session_id frame) (rule_id rule) "session_limit"
                                "agent tunnel session limit reached"
              else match dial_result dial with
                   | Err e => rt' = set_core (during (rt_core rt)) rt
                              ∧ is_error_frame f (session_id frame) (rule_id rule)
                                  "target_connect_failed" (reported_message e)
                   | _ => frame_type f = SessionAccept
                          ∧ payload f = encode_session_accept_payload (rule_id rule)
                          ∧ ∃ n k, sessions (rt_core rt') !! session_id frame = Some n
                              ∧ conns (rt_core rt') !! n = Some k
                              ∧ conn_session_id k = session_id frame ∧ conn_rule_id k = rule_id rule
                              ∧ reader_alive k = true ∧ writer_alive k = true
                   end
          | None => rt' = rt ∧ is_error_frame f (session_id frame) (open_rule_id open)
                                 "runtime_unavailable" "egress rule is not ready"
          end
      | Err e => rt' = rt ∧ is_error_frame f (session_id frame) 0 "protocol_error"
                              (TunnelSessionPayloadError_to_string e)
      | Panic => False
      end.
Proof.
  intros Hs Hdec Hdial. unfold handle_egress_open.
  pose proof (decode_session_open_no_panic (payload frame)) as Hnp.
  destruct (decode_session_open_payload (payload frame)) as [open|e|]; [| |done].
  2: { destruct (error_frame_run (session_id frame) 0 "protocol_error"
         (TunnelSessionPayloadError_to_string e) rt) as (f & -> & Hf); [by vm_compute|by apply Hdec|].
       exists f, rt. split_and!; try done; apply Hf. }
  unfold mbind at 1, act_bind at 1, get.
  destruct (find_egress_rule rt (open_rule_id open)) as [rule|].
  2: { destruct (error_frame_run (session_id frame) (open_rule_id open) "runtime_unavailable"
         "egress rule is not ready" rt) as (f & -> & Hf); [by vm_compute|by vm_compute|].
       exists f, rt. split_and!; try done; apply Hf. }
  unfold mbind at 1, act_bind at 1, call_core. rewrite open_egress_run by done.
  assert (∀ e rt1, error_code e = "session_limit"%string ∨ error_code e = "target_connect_failed"%string →
    str_len (reported_message e) ≤ U16_MAX →
    ∃ f, (let '(code, detail) := split_runtime_error_message (TunnelRuntimeError_to_string e) in
          reply (session_error_frame (session_id frame) Egress (rule_id rule) code detail)) rt1
         = (rt1, Done [f])
      ∧ is_error_frame f (session_id frame) (rule_id rule) (error_code e) (reported_message e)) as Herr.
  { intros e rt1 Hc Hm. rewrite split_displayed by done.
    apply error_frame_run; [by destruct Hc as [-> | ->]; vm_compute|done]. }
  case_bool_decide.
  { destruct (Herr (session_limit "agent tunnel session limit reached") (set_core (rt_core rt) rt))
      as (f & Hf & He); [by left|by vm_compute|].
    exists f, rt. replace (set_core (rt_core rt) rt) with rt in * by (by destruct rt).
    cbn [map_err runtime_error_to_transport]. rewrite Hf. split_and!; try done; apply He. }
  destruct (dial_result dial) as [[]|e|] eqn:Hd; [| |by destruct dial].
  - destruct (attach_egress_run (session_id frame) (rule_id rule) (during (rt_core rt)))
      as (c' & k & -> & Hses & Hk & Hrest).
    eexists _, (set_core c' rt). split; [reflexivity|]. split_and!; try done.
    exists (next_conn (during (rt_core rt))), k. cbn. rewrite Hses, lookup_insert_eq. naive_solver.
  - assert (error_code e = "target_connect_failed"%string) as Hc
      by (destruct dial; [done|by injection Hd as <-..]).
    destruct (Herr e (set_core (during (rt_core rt)) rt)) as (f & Hf & He); [by right| |].
    { destruct dial as [| |m]; [done|injection Hd as <-..]; [by vm_compute|].
      unfold reported_message. cbn. destruct (is_empty _); [by vm_compute|by apply Hdial]. }
    exists f. eexists. cbn [map_err runtime_error_to_transport]. rewrite Hf.
    rewrite Hc in He. split_and!; try done; apply He.
Qed.

(** ** Where readiness and the runtime disagree *)

(** Roles are matched differently: readiness lowers the case of a role, the egress
    lookup does not.  A rule with the role [Egress] is reported ready as egress, and every
    session the server then opens for it is refused as "egress rule is not ready". *)
Theorem role_case_mismatch bind_error l :
  let rule := mkRule 7 "r" true "tcp" "Egress" "" "" 0 "" "10.0.0.9" 22 "" 0 0%Z "" in
  let st := rule_state_update_rules "1" [rule] rule_state_new in
  egress_rule_ids (current_ready bind_error true st) = [7]
  ∧ find_egress_rule (runtime_new st l TUNNEL_DATA_TRANSPORT_WEBSOCKET) 7 = None.
Proof. by split; vm_compute. Qed.

(** A data frame for one session whose TCP side has fallen behind (64 payloads queued)
    makes [handle_server_frame] fail, and with it the data connection that all sessions
    share, although the session stays registered. *)
Theorem session_backpressure_fails_connection dial during rt frame n k :
  frame_type frame = SessionData → sessions (rt_core rt) !! session_id frame = Some n →
  conns (rt_core rt) !! n = Some k → len (channel k) = CHANNEL_CAPACITY →
  pending_bytes k + len (payload frame) ≤ max_session_pending_bytes (limits (rt_core rt)) →
  max_session_pending_bytes (limits (rt_core rt)) ≤ USIZE_MAX →
  ∃ rt', handle_server_frame dial during frame rt
         = (rt', Fail (RequestFailed "backpressure_limit: tunnel outbound frame queue is full"))
    ∧ sessions (rt_core rt') = sessions (rt_core rt).
Proof.
  intros Ht Hs Hk Hc Hp Hm. eexists. unfold handle_server_frame. rewrite Ht.
  unfold mbind at 1, act_bind at 1, call_core, handle_session_data. cbv [mbind act_bind get].
  rewrite Hs. cbn [option_bind]. rewrite Hk. cbn [option_bind].
  unfold try_, reserve_pending_bytes, checked_add.
  rewrite bool_decide_true by lia. rewrite bool_decide_false by lia.
  rewrite Hc, N.ltb_irrefl, andb_false_r. split; reflexivity.
Qed.

(** ** Witnesses *)
Module RuntimeDemo.
Definition rule : SelectedTunnelRule :=
  mkRule 7 "r" true "tcp" "both" "" "0.0.0.0" 8080 "" "10.0.0.9" 22 "" 0 0%Z "".
Definition rt0 : TunnelTcpRuntime :=
  runtime_new (rule_state_update_rules "1" [rule] rule_state_new) Demo.l1 "websocket".
Definition open_frame : KtpFrame :=
  {| frame_type := SessionOpen; leg := Egress; flags := x00; session_id := 5;
     payload := match encode_session_open_payload (mkOpenPayload 7 "h" 80 "s") with Ok p => p | _ => [] end |}.
Definition data_frame : KtpFrame :=
  {| frame_type := SessionData; leg := Egress; flags := x00; session_id := 5; payload := [x61] |}.
(** A session whose channel is full *)
Definition busy : TunnelTcpRuntime :=
  set_core (set_sessions {[5 := 0]}
    (set_conns {[0 := mkConn 5 7 Egress (replicate 64 [x61]) 64 true true true None]}
       (core_new Demo.l1))) rt0.
End RuntimeDemo.

Lemma refresh_follows_plan_witness :
  let rt' := refresh_listeners (fun _ => None) RuntimeDemo.rt0 in
  is_Some (rt_listeners rt' !! 7) ∧ runtime_wf rt'.
Proof.
  split; [by vm_compute; eauto|].
  apply (refresh_follows_plan (fun _ => None) RuntimeDemo.rt0), runtime_new_wf.
Defined.

Lemma egress_open_answered_witness :
  ∃ f rt', handle_egress_open (DialFailed "refused") id RuntimeDemo.open_frame RuntimeDemo.rt0 = (rt', Done [f])
    ∧ leg f = Egress ∧ session_id f = 5
    ∧ is_error_frame f 5 7 "target_connect_failed" "refused".
Proof.
  destruct (egress_open_answered (DialFailed "refused") id RuntimeDemo.open_frame RuntimeDemo.rt0)
    as (f & rt' & H & Hl & Hs & Hm).
  - by split; vm_compute.
  - intros e He. vm_compute in He. discriminate He.
  - intros e [= <-]. by vm_compute.
  - exists f, rt'. split_and!; [exact H|exact Hl|exact Hs|]. vm_compute in Hm. apply Hm.
Defined.

Lemma session_backpressure_fails_connection_witness :
  ∃ rt', handle_server_frame DialOk id RuntimeDemo.data_frame RuntimeDemo.busy
         = (rt', Fail (RequestFailed "backpressure_limit: tunnel outbound frame queue is full"))
    ∧ sessions (rt_core rt') = sessions (rt_core RuntimeDemo.busy).
Proof.
  eapply (session_backpressure_fails_connection DialOk id RuntimeDemo.busy RuntimeDemo.data_frame 0);
    by vm_compute.
Defined.
