(* ===== verification/TunnelWire.v ===== *)
(** * The HELLO and READY payloads ([src/src/tunnel_data.rs], encoders)

    The agent only writes these payloads; the server reads them.  What the server needs is
    that the bytes determine the state they were made from, whatever follows them: the
    encodings are prefix codes, built from prefix codes for the fields. *)
From S2P Require Import Prelude RustStd Ktp Transport TunnelSession TunnelReady.
From Stdlib Require Import Strings.Byte.
From Stdlib Require Strings.String.
Local Open Scope N_scope.

(** tunnel_data.rs [write_count] *)
Definition write_count (output : list byte) (n : N) (field : string)
    : result TransportError (list byte) :=
  if bool_decide (n ≤ U16_MAX) then Ok (output ++ be_bytes 2 n)
  else Err (RequestFailed (field +:+ " too long: exceeds u16")).

(** tunnel_data.rs [write_string] *)
Definition data_write_string (output : list byte) (value : string)
    : result TransportError (list byte) :=
  output ← write_count output (str_len value) "string length";
  Ok (output ++ bytes_of value).

(** [for value in values { write(output, value)?; }] *)
Fixpoint write_all {A} (write : list byte → A → result TransportError (list byte))
    (output : list byte) (values : list A) : result TransportError (list byte) :=
  match values with
  | [] => Ok output
  | v :: vs => output ← write output v; write_all write output vs
  end.

(** tunnel_data.rs [write_string_list] *)
Definition write_string_list (output : list byte) (values : list string)
    : result TransportError (list byte) :=
  output ← write_count output (len values) "string list count";
  write_all data_write_string output values.

(** tunnel_data.rs [write_u64_list] *)
Definition write_u64_list (output : list byte) (values : list N)
    : result TransportError (list byte) :=
  output ← write_count output (len values) "u64 list count";
  write_all (fun output v => Ok (output ++ be_bytes 8 v)) output values.

(** tunnel_data.rs [encode_hello_payload] *)
Definition encode_hello_payload (agent_id_hint agent_version revision : string)
    : result TransportError (list byte) :=
  payload ← data_write_string [] agent_id_hint;
  payload ← data_write_string payload agent_version;
  payload ← data_write_string payload revision;
  write_string_list payload ["tcp"; "multiplex"; "flow_control"; "stats"].

Definition write_failure (output : list byte) (failure : TunnelDataRuleFailure)
    : result TransportError (list byte) :=
  let output := output ++ be_bytes 8 (failure_rule_id failure) in
  output ← data_write_string output (failure_status failure);
  data_write_string output (failure_error failure).

(** tunnel_data.rs [encode_ready_payload] *)
Definition encode_ready_payload (ready : TunnelDataReadyState) : result TransportError (list byte) :=
  payload ← data_write_string [] (ready_revision ready);
  payload ← write_u64_list payload (ingress_rule_ids ready);
  payload ← write_u64_list payload (egress_rule_ids ready);
  payload ← write_count payload (len (failed_rules ready)) "failed rule count";
  write_all write_failure payload (failed_rules ready).

(** ** Prefix codes

    [prefix_code P enc]: on values that satisfy [P], the encoding determines the value
    and where it ends. *)
Definition prefix_code {A} (P : A → Prop) (enc : A → list byte) : Prop :=
  ∀ x y s t, P x → P y → enc x ++ s = enc y ++ t → x = y ∧ s = t.

Definition fits16 (n : N) : Prop := n ≤ U16_MAX.

Section prefix_codes.
Lemma prefix_code_fixed n P :
  (∀ x, P x → be_value (be_bytes n x) = x) → prefix_code P (be_bytes n).
Proof.
  intros HP x y s t Hx Hy H. apply app_inj_1 in H as [H ->]; [|by rewrite !length_be_bytes].
  split; [|done]. by rewrite <- (HP x Hx), H, HP.
Qed.

Lemma prefix_code_u64 : prefix_code (fun x => x ≤ U64_MAX) (be_bytes 8).
Proof. apply prefix_code_fixed. intros. by apply be_value_bytes_8. Qed.
Lemma prefix_code_u16 : prefix_code fits16 (be_bytes 2).
Proof. apply prefix_code_fixed. intros. by apply be_value_bytes_2. Qed.

Lemma prefix_code_string : prefix_code (fun s => fits16 (str_len s)) field_string.
Proof.
  intros x y s t Hx Hy. unfold field_string. rewrite <- !app_assoc.
  intros [Hl H]%prefix_code_u16; [|done|done].
  apply app_inj_1 in H as [H ->]; [|unfold str_len, len in Hl; lia].
  split; [by apply bytes_of_inj|done].
Qed.

(** Two encodings in a row, of two parts of a value that determine it *)
Lemma prefix_code_pair {A B C} (f : A → B) (g : A → C) P Q eb ec :
  (∀ x y, f x = f y → g x = g y → x = y) → prefix_code P eb → prefix_code Q ec →
  prefix_code (fun x => P (f x) ∧ Q (g x)) (fun x => eb (f x) ++ ec (g x)).
Proof.
  intros Hinj Hb Hc x y s t [Hx1 Hx2] [Hy1 Hy2]. rewrite <- !app_assoc.
  intros [Hf H]%Hb; [|done|done]. apply Hc in H as [Hg ->]; [|done|done]. auto.
Qed.

Lemma prefix_code_concat {A} P (enc : A → list byte) l k s t :
  prefix_code P enc → Forall P l → Forall P k → length l = length k →
  concat (enc <$> l) ++ s = concat (enc <$> k) ++ t → l = k ∧ s = t.
Proof.
  intros Hc Hl. revert k. induction Hl as [|x l Hx Hl IH]; intros [|y k] Hk Hlen; try done.
  inversion_clear Hk as [|? ? Hy Hk']. cbn. rewrite <- !app_assoc.
  intros [-> H]%Hc; [|done|done]. injection Hlen as Hlen. by apply IH in H as [-> ->].
Qed.

(** A list behind its count *)
Definition counted {A} (enc : A → list byte) (l : list A) : list byte :=
  be_bytes 2 (len l) ++ concat (enc <$> l).

Lemma prefix_code_counted {A} P (enc : A → list byte) :
  prefix_code P enc → prefix_code (fun l => fits16 (len l) ∧ Forall P l) (counted enc).
Proof.
  intros Hc l k s t [Hl Hfl] [Hk Hfk]. unfold counted. rewrite <- !app_assoc.
  intros [Hlen H]%prefix_code_u16; [|done|done].
  eapply prefix_code_concat; [done|done|done| |exact H]. unfold len in Hlen. lia.
Qed.
End prefix_codes.

(** ** What the encoders write *)

Definition failure_bytes (f : TunnelDataRuleFailure) : list byte :=
  be_bytes 8 (failure_rule_id f) ++ field_string (failure_status f) ++ field_string (failure_error f).

Definition ready_bytes (r : TunnelDataReadyState) : list byte :=
  field_string (ready_revision r) ++ counted (be_bytes 8) (ingress_rule_ids r)
  ++ counted (be_bytes 8) (egress_rule_ids r) ++ counted failure_bytes (failed_rules r).

Definition failure_fits (f : TunnelDataRuleFailure) : Prop :=
  fits16 (str_len (failure_status f)) ∧ fits16 (str_len (failure_error f)).

(** Every count of the payload fits its two bytes. *)
Definition ready_fits (r : TunnelDataReadyState) : Prop :=
  fits16 (str_len (ready_revision r)) ∧ fits16 (len (ingress_rule_ids r))
  ∧ fits16 (len (egress_rule_ids r)) ∧ fits16 (len (failed_rules r))
  ∧ Forall failure_fits (failed_rules r).

(** The rule ids are 64-bit integers. *)
Definition ready_wf (r : TunnelDataReadyState) : Prop :=
  Forall (fun x => x ≤ U64_MAX) (ingress_rule_ids r) ∧ Forall (fun x => x ≤ U64_MAX) (egress_rule_ids r)
  ∧ Forall (fun f => failure_rule_id f ≤ U64_MAX) (failed_rules r).

Section encoders.
Lemma write_count_Ok out n f bs :
  write_count out n f = Ok bs ↔ fits16 n ∧ bs = out ++ be_bytes 2 n.
Proof. unfold write_count, fits16. case_bool_decide; naive_solver. Qed.

Lemma data_write_string_Ok out s bs :
  data_write_string out s = Ok bs ↔ fits16 (str_len s) ∧ bs = out ++ field_string s.
Proof.
  unfold data_write_string, field_string. rewrite bind_Ok. setoid_rewrite write_count_Ok. split.
  - intros (b & [H ->] & [= <-]). by rewrite <- app_assoc.
  - intros [H ->]. eexists. split; [done|]. by rewrite <- app_assoc.
Qed.

Lemma write_all_Ok {A} (P : A → Prop) enc write out (vs : list A) bs :
  (∀ out v bs, write out v = Ok bs ↔ P v ∧ bs = out ++ enc v) →
  write_all write out vs = Ok bs ↔ Forall P vs ∧ bs = out ++ concat (enc <$> vs).
Proof.
  intros Hw. revert out. induction vs as [|v vs IH]; intros out; cbn [write_all].
  - rewrite app_nil_r. split; [intros [= <-]|intros [_ ->]]; done.
  - rewrite bind_Ok. setoid_rewrite Hw. rewrite Forall_cons. cbn. split.
    + intros (b & [Hv ->] & [H ->]%IH). by rewrite <- app_assoc.
    + intros [[Hv H] ->]. eexists. split; [done|]. apply IH. by rewrite <- app_assoc.
Qed.

Lemma write_u64_list_Ok out vs bs :
  write_u64_list out vs = Ok bs ↔ fits16 (len vs) ∧ bs = out ++ counted (be_bytes 8) vs.
Proof.
  unfold write_u64_list, counted. rewrite bind_Ok. setoid_rewrite write_count_Ok.
  setoid_rewrite (write_all_Ok (fun _ => True) (be_bytes 8));
    [|intros; split; [by intros [= <-]|by intros [_ ->]]].
  split.
  - intros (b & [H ->] & _ & ->). by rewrite <- app_assoc.
  - intros [H ->]. eexists. split; [done|]. split; [by apply Forall_true|]. by rewrite <- app_assoc.
Qed.

Lemma write_failure_Ok out f bs :
  write_failure out f = Ok bs ↔ failure_fits f ∧ bs = out ++ failure_bytes f.
Proof.
  unfold write_failure, failure_bytes, failure_fits. cbn zeta. rewrite bind_Ok.
  setoid_rewrite data_write_string_Ok. split.
  - intros (b & [H1 ->] & [H2 ->]). by rewrite <- !app_assoc.
  - intros [[H1 H2] ->]. eexists. split; [done|]. by rewrite <- !app_assoc.
Qed.

Lemma encode_ready_Ok r bs : encode_ready_payload r = Ok bs ↔ ready_fits r ∧ bs = ready_bytes r.
Proof.
  unfold encode_ready_payload, ready_fits, ready_bytes. unfold counted at 3. split.
  - intros H. apply bind_Ok in H as (b1 & [H1 ->]%data_write_string_Ok & H).
    apply bind_Ok in H as (b2 & [H2 ->]%write_u64_list_Ok & H).
    apply bind_Ok in H as (b3 & [H3 ->]%write_u64_list_Ok & H).
    apply bind_Ok in H as (b4 & [H4 ->]%write_count_Ok & H).
    apply (write_all_Ok _ _ _ _ _ _ write_failure_Ok) in H as [H5 ->]. by rewrite <- !app_assoc.
  - intros [(H1 & H2 & H3 & H4 & H5) ->].
    apply bind_Ok. eexists. split; [by apply data_write_string_Ok|].
    apply bind_Ok. eexists. split; [by apply write_u64_list_Ok|].
    apply bind_Ok. eexists. split; [by apply write_u64_list_Ok|].
    apply bind_Ok. eexists. split; [by apply write_count_Ok|].
    apply (write_all_Ok _ _ _ _ _ _ write_failure_Ok). by rewrite <- !app_assoc.
Qed.

Lemma failure_prefix_code :
  prefix_code (fun f => failure_rule_id f ≤ U64_MAX ∧ failure_fits f) failure_bytes.
Proof.
  apply (prefix_code_pair failure_rule_id (fun f => (failure_status f, failure_error f))
    (fun x => x ≤ U64_MAX) (fun p => fits16 (str_len p.1) ∧ fits16 (str_len p.2)) (be_bytes 8)
    (fun p => field_string p.1 ++ field_string p.2)).
  - intros [] []; cbn; congruence.
  - apply prefix_code_u64.
  - apply (prefix_code_pair (A:=string * string) fst snd (fun s => fits16 (str_len s))
      (fun s => fits16 (str_len s)) field_string field_string); [|apply prefix_code_string..]. intros [] []; cbn; congruence.
Qed.

Lemma ready_prefix_code : prefix_code (fun r => ready_wf r ∧ ready_fits r) ready_bytes.
Proof.
  intros x y s t [(Hx1 & Hx2 & Hx3) (Fx1 & Fx2 & Fx3 & Fx4 & Fx5)]
    [(Hy1 & Hy2 & Hy3) (Fy1 & Fy2 & Fy3 & Fy4 & Fy5)].
  unfold ready_bytes. rewrite <- !app_assoc.
  intros [E1 H]%prefix_code_string; [|done|done].
  apply (prefix_code_counted _ _ prefix_code_u64) in H as [E2 H]; [|done|done].
  apply (prefix_code_counted _ _ prefix_code_u64) in H as [E3 H]; [|done|done].
  apply (prefix_code_counted _ _ failure_prefix_code) in H as [E4 ->];
    [|by split; [|apply Forall_and]..].
  split; [|done]. destruct x, y; cbn in *; congruence.
Qed.
End encoders.

(** READY is unambiguous: the payload is written exactly when every string, list and
    count of the state fits its two length bytes, and two states that write the same bytes,
    whatever follows either, are the same state. *)
Theorem ready_payload_unambiguous r r' bs bs' s t :
  ready_wf r → ready_wf r' →
  encode_ready_payload r = Ok bs → encode_ready_payload r' = Ok bs' → bs ++ s = bs' ++ t →
  r = r' ∧ s = t ∧ ready_fits r.
Proof.
  intros Hr Hr' [Hf ->]%encode_ready_Ok [Hf' ->]%encode_ready_Ok H.
  apply ready_prefix_code in H as [-> ->]; done.
Qed.

Lemma ready_payload_unambiguous_witness :
  let r := mkReady "r1" [1; 7] [7] [mkFailure 9 "invalid_target" "no target"] in
  ∃ bs, encode_ready_payload r = Ok bs ∧ r = r ∧ [x00] = [x00] ∧ ready_fits r.
Proof.
  cbn zeta. eexists. split; [vm_compute; reflexivity|].
  eapply (ready_payload_unambiguous
    (mkReady "r1" [1; 7] [7] [mkFailure 9 "invalid_target" "no target"])
    (mkReady "r1" [1; 7] [7] [mkFailure 9 "invalid_target" "no target"]));
    [repeat constructor; by vm_compute|repeat constructor; by vm_compute
    |vm_compute; reflexivity|vm_compute; reflexivity|reflexivity].
Defined.
