(* ===== verification/TunnelDiag.v ===== *)
(** * Data connection diagnostics ([src/src/tunnel_data.rs])

    Counters of one data connection, each an atomic [u64] updated by one thread; counters
    that are always written together are one record here.  [usize] counters that are only
    summed within one drain are unbounded. *)
From S2P Require Import Prelude RustStd TunnelStats.
From Stdlib Require Import Strings.Byte.
From Stdlib Require Strings.String.
Local Open Scope N_scope.

(** tunnel_data.rs [RUNTIME_WAIT_ELAPSED_MICROS_BUCKETS] *)
Definition RUNTIME_WAIT_ELAPSED_MICROS_BUCKETS : list N :=
  [10; 25; 50; 100; 250; 500; 1000; 2500; 5000; 10000; 25000; 50000; 100000; 250000;
   500000; 1000000; U64_MAX].

(** tunnel_data.rs [TUNNEL_DATA_FRAME_BATCH_LIMIT] *)
Definition TUNNEL_DATA_FRAME_BATCH_LIMIT : N := 64.

(** ** Statistics of one drain *)

(** tunnel_data.rs [TunnelDataWriteBatchStats] *)
Record TunnelDataWriteBatchStats := mkWriteStats {
  ws_batches : N;
  ws_frames : N;
  ws_max_batch_frames : N;
  ws_max_batch_limit : N;
  ws_min_batch_limit : N;
  ws_last_batch_limit : N;
}.
Definition write_stats_default : TunnelDataWriteBatchStats := mkWriteStats 0 0 0 0 0 0.

(** tunnel_data.rs [TunnelDataWriteBatchStats::record_batch_limit] *)
Definition record_batch_limit (max_frames : N) (s : TunnelDataWriteBatchStats) : TunnelDataWriteBatchStats :=
  let max_frames := N.max max_frames 1 in
  mkWriteStats (ws_batches s) (ws_frames s) (ws_max_batch_frames s)
    (N.max (ws_max_batch_limit s) max_frames)
    (if bool_decide (ws_min_batch_limit s = 0) then max_frames
     else N.min (ws_min_batch_limit s) max_frames)
    max_frames.

(** tunnel_data.rs [TunnelDataWriteBatchStats::record_batch] *)
Definition record_write_batch (frame_count : N) (s : TunnelDataWriteBatchStats) : TunnelDataWriteBatchStats :=
  if bool_decide (frame_count = 0) then s else
  mkWriteStats (ws_batches s + 1) (ws_frames s + frame_count)
    (N.max (ws_max_batch_frames s) frame_count) (ws_max_batch_limit s) (ws_min_batch_limit s)
    (ws_last_batch_limit s).

(** tunnel_data.rs [TunnelDataWriteBatchStats::merge] *)
Definition merge_write_stats (s other : TunnelDataWriteBatchStats) : TunnelDataWriteBatchStats :=
  mkWriteStats (ws_batches s + ws_batches other) (ws_frames s + ws_frames other)
    (N.max (ws_max_batch_frames s) (ws_max_batch_frames other))
    (N.max (ws_max_batch_limit s) (ws_max_batch_limit other))
    (if bool_decide (ws_min_batch_limit s = 0) then ws_min_batch_limit other
     else if bool_decide (ws_min_batch_limit other = 0) then ws_min_batch_limit s
     else N.min (ws_min_batch_limit s) (ws_min_batch_limit other))
    (if 0 <? ws_last_batch_limit other then ws_last_batch_limit other else ws_last_batch_limit s).

(** ** The counters of the connection *)

(** [runtime_wait_*] *)
Record WaitCounters := mkWait {
  wait_attempts : N;
  wait_hits : N;
  wait_elapsed_micros_total : N;
  wait_elapsed_micros_max : N;
  wait_elapsed_micros_buckets : list N;
}.

(** [socket_idle_*] and [socket_read_*] *)
Record ReadCounters := mkReads {
  idle_reads : N;
  idle_empty_reads : N;
  read_batches : N;
  read_frames : N;
  read_max_batch_frames : N;
}.

(** [socket_write_*] *)
Record WriteCounters := mkWrites {
  write_batches : N;
  write_frames : N;
  write_max_batch_frames : N;
  write_batch_limit_max : N;
  write_batch_limit_min : N;
  write_batch_limit_last : N;
}.

(** tunnel_data.rs [TunnelDataDiagnosticsInner] *)
Record Diagnostics := mkDiag {
  d_wait : WaitCounters;
  d_outbound_runtime_frames : N;
  d_outbound_queue_dwell : TunnelQueueDwellStatsSnapshot;
  d_recent_outbound_queue_dwell : TunnelQueueDwellStatsSnapshot;
  d_reads : ReadCounters;
  d_writes : WriteCounters;
}.

(** tunnel_data.rs [SharedTunnelDataDiagnostics::new] *)
Definition diagnostics_new : Diagnostics :=
  mkDiag (mkWait 0 0 0 0 (replicate 17 0)) 0 dwell_default dwell_default
    (mkReads 0 0 0 0 0) (mkWrites 0 0 0 0 0 0).

Definition set_wait (w : WaitCounters) (d : Diagnostics) : Diagnostics :=
  mkDiag w (d_outbound_runtime_frames d) (d_outbound_queue_dwell d) (d_recent_outbound_queue_dwell d)
    (d_reads d) (d_writes d).
Definition set_reads (r : ReadCounters) (d : Diagnostics) : Diagnostics :=
  mkDiag (d_wait d) (d_outbound_runtime_frames d) (d_outbound_queue_dwell d)
    (d_recent_outbound_queue_dwell d) r (d_writes d).
Definition set_writes (w : WriteCounters) (d : Diagnostics) : Diagnostics :=
  mkDiag (d_wait d) (d_outbound_runtime_frames d) (d_outbound_queue_dwell d)
    (d_recent_outbound_queue_dwell d) (d_reads d) w.

(** tunnel_data.rs [runtime_wait_elapsed_bucket_index] *)
Definition runtime_wait_elapsed_bucket_index (elapsed_micros : N) : nat :=
  default (length RUNTIME_WAIT_ELAPSED_MICROS_BUCKETS - 1)%nat
    (position (fun bucket => elapsed_micros <=? bucket) RUNTIME_WAIT_ELAPSED_MICROS_BUCKETS).

(** tunnel_data.rs [update_atomic_max] (one thread updates it) *)
Definition data_update_atomic_max (target candidate : N) : N :=
  if target <? candidate then candidate else target.

(** tunnel_data.rs [update_atomic_min_nonzero] *)
Definition update_atomic_min_nonzero (target candidate : N) : N :=
  if bool_decide (candidate = 0) then target
  else if bool_decide (target = 0) then candidate else N.min target candidate.

(** tunnel_data.rs [SharedTunnelDataDiagnostics::record_outbound_runtime_frames] *)
Definition record_outbound_runtime_frames (count : N) (d : Diagnostics) : Diagnostics :=
  mkDiag (d_wait d) (fetch_add (d_outbound_runtime_frames d) count) (d_outbound_queue_dwell d)
    (d_recent_outbound_queue_dwell d) (d_reads d) (d_writes d).

(** tunnel_data.rs [SharedTunnelDataDiagnostics::record_runtime_wait] *)
Definition record_runtime_wait (elapsed frame_count : N) (d : Diagnostics) : Diagnostics :=
  let elapsed_micros := N.min elapsed U64_MAX in
  let w := d_wait d in
  set_wait (mkWait (fetch_add (wait_attempts w) 1)
    (if 0 <? frame_count then fetch_add (wait_hits w) 1 else wait_hits w)
    (fetch_add (wait_elapsed_micros_total w) elapsed_micros)
    (data_update_atomic_max (wait_elapsed_micros_max w) elapsed_micros)
    (alter (fun c => fetch_add c 1) (runtime_wait_elapsed_bucket_index elapsed_micros)
       (wait_elapsed_micros_buckets w))) d.

(** tunnel_data.rs [SharedTunnelDataDiagnostics::record_outbound_queue_dwell_snapshot] *)
Definition record_outbound_queue_dwell_snapshot (s : option TunnelQueueDwellStatsSnapshot)
    (d : Diagnostics) : Diagnostics :=
  mkDiag (d_wait d) (d_outbound_runtime_frames d) (default (d_outbound_queue_dwell d) s)
    (d_recent_outbound_queue_dwell d) (d_reads d) (d_writes d).

(** tunnel_data.rs [SharedTunnelDataDiagnostics::record_recent_outbound_queue_dwell_snapshot] *)
Definition record_recent_outbound_queue_dwell_snapshot (s : option TunnelQueueDwellStatsSnapshot)
    (d : Diagnostics) : Diagnostics :=
  mkDiag (d_wait d) (d_outbound_runtime_frames d) (d_outbound_queue_dwell d)
    (default (d_recent_outbound_queue_dwell d) s) (d_reads d) (d_writes d).

(** tunnel_data.rs [SharedTunnelDataDiagnostics::record_socket_idle_read] *)
Definition record_socket_idle_read (d : Diagnostics) : Diagnostics :=
  let r := d_reads d in
  set_reads (mkReads (fetch_add (idle_reads r) 1) (idle_empty_reads r) (read_batches r)
    (read_frames r) (read_max_batch_frames r)) d.

(** tunnel_data.rs [SharedTunnelDataDiagnostics::record_socket_idle_empty_read] *)
Definition record_socket_idle_empty_read (d : Diagnostics) : Diagnostics :=
  let r := d_reads d in
  set_reads (mkReads (idle_reads r) (fetch_add (idle_empty_reads r) 1) (read_batches r)
    (read_frames r) (read_max_batch_frames r)) d.

(** tunnel_data.rs [SharedTunnelDataDiagnostics::record_socket_read_batch] *)
Definition record_socket_read_batch (frame_count : N) (d : Diagnostics) : Diagnostics :=
  if bool_decide (frame_count = 0) then d else
  let r := d_reads d in
  set_reads (mkReads (idle_reads r) (idle_empty_reads r) (fetch_add (read_batches r) 1)
    (fetch_add (read_frames r) frame_count)
    (data_update_atomic_max (read_max_batch_frames r) frame_count)) d.

(** tunnel_data.rs [SharedTunnelDataDiagnostics::record_socket_write_batches] *)
Definition record_socket_write_batches (s : TunnelDataWriteBatchStats) (d : Diagnostics) : Diagnostics :=
  let w := d_writes d in
  let limit_max := data_update_atomic_max (write_batch_limit_max w) (ws_max_batch_limit s) in
  let limit_min := update_atomic_min_nonzero (write_batch_limit_min w) (ws_min_batch_limit s) in
  let limit_last := if 0 <? ws_last_batch_limit s then ws_last_batch_limit s
                    else write_batch_limit_last w in
  if bool_decide (ws_frames s = 0) || bool_decide (ws_batches s = 0) then
    set_writes (mkWrites (write_batches w) (write_frames w) (write_max_batch_frames w)
      limit_max limit_min limit_last) d
  else
    set_writes (mkWrites (fetch_add (write_batches w) (ws_batches s))
      (fetch_add (write_frames w) (ws_frames s))
      (data_update_atomic_max (write_max_batch_frames w) (ws_max_batch_frames s))
      limit_max limit_min limit_last) d.

(** ** Snapshots *)

(** The loop of [runtime_wait_elapsed_percentile], from bucket [index] on *)
Fixpoint wait_percentile_loop (rank cumulative : N) (index : nat) (buckets : list N) : N :=
  match buckets with
  | [] => U64_MAX
  | count :: rest =>
      let cumulative := saturating_add U64_MAX cumulative count in
      if rank <=? cumulative then nth index RUNTIME_WAIT_ELAPSED_MICROS_BUCKETS U64_MAX
      else wait_percentile_loop rank cumulative (S index) rest
  end.

(** tunnel_data.rs [runtime_wait_elapsed_percentile] *)
Definition runtime_wait_elapsed_percentile {E} (buckets : list N) (total percentile : N) : result E N :=
  if bool_decide (total = 0) then Ok 0 else
  product ← mul_u64 total percentile;
  let rank := N.max (saturating_add U64_MAX product 99 / 100) 1 in
  Ok (wait_percentile_loop rank 0 0 buckets).

(** tunnel_data.rs [TunnelDataDiagnosticsSnapshot] *)
Record DiagnosticsSnapshot := mkDiagSnapshot {
  s_wait_attempts : N;
  s_wait_hits : N;
  s_wait_elapsed_micros_total : N;
  s_wait_elapsed_micros_max : N;
  s_wait_elapsed_p50_micros : N;
  s_wait_elapsed_p95_micros : N;
  s_wait_elapsed_p99_micros : N;
  s_outbound_runtime_frames : N;
  s_outbound_queue_dwell : TunnelQueueDwellStatsSnapshot;
  s_recent_outbound_queue_dwell : TunnelQueueDwellStatsSnapshot;
  s_reads : ReadCounters;
  s_writes : WriteCounters;
}.

(** tunnel_data.rs [SharedTunnelDataDiagnostics::snapshot] *)
Definition diagnostics_snapshot {E} (d : Diagnostics) : result E DiagnosticsSnapshot :=
  let w := d_wait d in
  p50 ← runtime_wait_elapsed_percentile (wait_elapsed_micros_buckets w) (wait_attempts w) 50;
  p95 ← runtime_wait_elapsed_percentile (wait_elapsed_micros_buckets w) (wait_attempts w) 95;
  p99 ← runtime_wait_elapsed_percentile (wait_elapsed_micros_buckets w) (wait_attempts w) 99;
  Ok (mkDiagSnapshot (wait_attempts w) (wait_hits w) (wait_elapsed_micros_total w)
        (wait_elapsed_micros_max w) p50 p95 p99 (d_outbound_runtime_frames d)
        (d_outbound_queue_dwell d) (d_recent_outbound_queue_dwell d) (d_reads d) (d_writes d)).

(** tunnel_data.rs [TunnelDataDiagnosticsSnapshot::has_activity] *)
Definition has_activity (s : DiagnosticsSnapshot) : bool :=
  (0 <? s_wait_attempts s) || (0 <? s_wait_hits s) || (0 <? s_outbound_runtime_frames s)
  || (0 <? dwell_frames (s_outbound_queue_dwell s))
  || (0 <? dwell_frames (s_recent_outbound_queue_dwell s))
  || (0 <? idle_reads (s_reads s)) || (0 <? idle_empty_reads (s_reads s))
  || (0 <? read_batches (s_reads s)) || (0 <? read_frames (s_reads s))
  || (0 <? write_batches (s_writes s)) || (0 <? write_frames (s_writes s)).

(** The fields of the line, in order *)
Definition diagnostics_fields (s : DiagnosticsSnapshot) : list (string * N) :=
  let d := s_outbound_queue_dwell s in
  let r := s_recent_outbound_queue_dwell s in
  [("runtime_wait_attempts"%string, s_wait_attempts s);
   ("runtime_wait_hits"%string, s_wait_hits s);
   ("runtime_wait_elapsed_micros_total"%string, s_wait_elapsed_micros_total s);
   ("runtime_wait_elapsed_micros_max"%string, s_wait_elapsed_micros_max s);
   ("runtime_wait_elapsed_p50_micros"%string, s_wait_elapsed_p50_micros s);
   ("runtime_wait_elapsed_p95_micros"%string, s_wait_elapsed_p95_micros s);
   ("runtime_wait_elapsed_p99_micros"%string, s_wait_elapsed_p99_micros s);
   ("outbound_runtime_frames"%string, s_outbound_runtime_frames s);
   ("outbound_queue_dwell_frames"%string, dwell_frames d);
   ("outbound_queue_dwell_micros_total"%string, dwell_micros_total d);
   ("outbound_queue_dwell_micros_max"%string, dwell_micros_max d);
   ("outbound_queue_dwell_p50_micros"%string, p50_micros d);
   ("outbound_queue_dwell_p95_micros"%string, p95_micros d);
   ("outbound_queue_dwell_p99_micros"%string, p99_micros d);
   ("recent_outbound_queue_dwell_frames"%string, dwell_frames r);
   ("recent_outbound_queue_dwell_micros_total"%string, dwell_micros_total r);
   ("recent_outbound_queue_dwell_micros_max"%string, dwell_micros_max r);
   ("recent_outbound_queue_dwell_p50_micros"%string, p50_micros r);
   ("recent_outbound_queue_dwell_p95_micros"%string, p95_micros r);
   ("recent_outbound_queue_dwell_p99_micros"%string, p99_micros r);
   ("socket_idle_reads"%string, idle_reads (s_reads s));
   ("socket_idle_empty_reads"%string, idle_empty_reads (s_reads s));
   ("socket_read_batches"%string, read_batches (s_reads s));
   ("socket_read_frames"%string, read_frames (s_reads s));
   ("socket_read_max_batch_frames"%string, read_max_batch_frames (s_reads s));
   ("socket_write_batches"%string, write_batches (s_writes s));
   ("socket_write_frames"%string, write_frames (s_writes s));
   ("socket_write_max_batch_frames"%string, write_max_batch_frames (s_writes s));
   ("socket_write_batch_limit_max"%string, write_batch_limit_max (s_writes s));
   ("socket_write_batch_limit_min"%string, write_batch_limit_min (s_writes s));
   ("socket_write_batch_limit_last"%string, write_batch_limit_last (s_writes s))].

(** tunnel_data.rs [tunnel_data_diagnostics_line] *)
Definition tunnel_data_diagnostics_line (s : DiagnosticsSnapshot) : string :=
  "tunnel data diagnostics: "
  +:+ join " " ((fun '(name, value) => name +:+ "=" +:+ pretty value) <$> diagnostics_fields s).
