(* ===== verification/TunnelSocket.v ===== *)
(** * Data sockets and session runtimes as interfaces

    The data loop of [src/src/tunnel_data.rs] is generic over two traits: the socket that
    carries KTP frames, and the session runtime behind it.  They are the classes
    [TunnelDataSocket] and [TunnelSessionRuntime]; an instance gives the operations of an
    implementation on its state.  The implementations are the web socket, the encrypted
    stream, the TCP runtime and the runtime that does nothing. *)
From S2P Require Import Prelude RustStd AsyncIo Ktp KtpCrypto KtpRecord KtpRelay Transport TunnelControl.
From S2P Require Import TunnelStats TunnelCore TunnelReady TunnelRuntime TunnelDiag.
From Stdlib Require Import Strings.Byte.
From Stdlib Require Strings.String.
Local Open Scope N_scope.

(** ** Sockets *)

(** tunnel_data.rs [TunnelDataSocket] 627-628 (the operations the loop uses; a batch read has a
    timeout of its own when one is given, in microseconds) *)
Class TunnelDataSocket (U : Type) := {
  send_ktp_frame : KtpFrame → act U TransportError unit;
  send_ktp_frame_batch : list KtpFrame → act U TransportError unit;
  read_frame : act U TransportError (list byte);
  read_optional_ktp_frame_batch : option N → N → act U TransportError (option (list KtpFrame));
}.

Definition frame_error {A} (r : result KtpError A) : result TransportError A :=
  map_err (fun e => RequestFailed (KtpError_to_string e)) r.

Section defaults.
Context {U : Type} (send_frame : list byte → act U TransportError unit).
Context (read_optional_frame : act U TransportError (option (list byte))).

(** tunnel_data.rs [TunnelDataSocket::send_ktp_frame] 629-633 *)
Definition default_send_ktp_frame (frame : KtpFrame) : act U TransportError unit :=
  bytes ← try_ (frame_error (encode_frame frame));
  send_frame bytes.

(** tunnel_data.rs [TunnelDataSocket::send_ktp_frame_batch] 634-639 *)
Definition default_send_ktp_frame_batch (frames : list KtpFrame) : act U TransportError unit :=
  for_each frames default_send_ktp_frame.

(** tunnel_data.rs [TunnelDataSocket::read_optional_ktp_frame_batch] 651-663 *)
Definition default_read_batch : act U TransportError (option (list KtpFrame)) :=
  o ← read_optional_frame;
  match o with
  | None => mret None
  | Some bytes =>
      frame ← try_ (frame_error (decode_frame bytes KTP_MAX_PAYLOAD_LEN));
      mret (Some [frame])
  end.
End defaults.

(** *** The web socket *)

(** What a read of the web socket gives: a message, or an error *)
Inductive WsRead :=
  | WsBinary (bs : list byte) | WsText (s : string) | WsClose | WsOther
  | WsInterrupted | WsIdle | WsError (error : string).

(** tunnel_data.rs [TungsteniteTunnelDataSocket] (the reads to come, the errors of the next
    sends, and the messages sent) *)
Record WsSocket := mkWs {
  ws_reads : list WsRead;
  ws_sends : list (option string);
  ws_sent : list (list byte);
}.

(** tunnel_data.rs [TunnelDataSocket@TungsteniteTunnelDataSocket::send_frame] *)
Definition ws_send_frame (frame : list byte) : act WsSocket TransportError unit := fun s =>
  match ws_sends s with
  | Some e :: rest => (mkWs (ws_reads s) rest (ws_sent s), Fail (RequestFailed e))
  | None :: rest => (mkWs (ws_reads s) rest (ws_sent s ++ [frame]), Done tt)
  | [] => (mkWs (ws_reads s) [] (ws_sent s ++ [frame]), Done tt)
  end.

(** The loop of [read_next_frame] *)
Fixpoint ws_read_loop (timeout_as_idle : bool) (reads : list WsRead)
    : act WsSocket TransportError (option (list byte)) := fun s =>
  match reads with
  | [] => (mkWs [] (ws_sends s) (ws_sent s), Wait)
  | r :: rest =>
      let s := mkWs rest (ws_sends s) (ws_sent s) in
      match r with
      | WsBinary bs => (s, Done (Some bs))
      | WsText t => (s, Done (Some (bytes_of t)))
      | WsClose => (s, Fail SocketClosed)
      | WsOther | WsInterrupted => ws_read_loop timeout_as_idle rest s
      | WsIdle =>
          if timeout_as_idle then (s, Done None)
          else (s, Fail (RequestFailed "tunnel data frame timeout"))
      | WsError e => (s, Fail (RequestFailed e))
      end
  end.

(** tunnel_data.rs [TungsteniteTunnelDataSocket::read_next_frame] (setting the timeout is
    not modelled) *)
Definition ws_read_next_frame (timeout_as_idle : bool)
    : act WsSocket TransportError (option (list byte)) :=
  fun s => ws_read_loop timeout_as_idle (ws_reads s) s.

(** tunnel_data.rs [TunnelDataSocket@TungsteniteTunnelDataSocket::read_frame] *)
Definition ws_read_frame : act WsSocket TransportError (list byte) :=
  o ← ws_read_next_frame false;
  match o with
  | Some bytes => mret bytes
  | None => fail (RequestFailed "tunnel data frame timeout")
  end.

(** tunnel_data.rs [TunnelDataSocket@TungsteniteTunnelDataSocket::read_optional_frame_with_timeout] *)
Definition ws_read_optional_frame : act WsSocket TransportError (option (list byte)) :=
  ws_read_next_frame true.

#[export] Instance TungsteniteTunnelDataSocket : TunnelDataSocket WsSocket := {|
  send_ktp_frame := default_send_ktp_frame ws_send_frame;
  send_ktp_frame_batch := default_send_ktp_frame_batch ws_send_frame;
  read_frame := ws_read_frame;
  read_optional_ktp_frame_batch _ _ := default_read_batch ws_read_optional_frame;
|}.

(** *** The encrypted stream *)

(** tunnel_data.rs [ktp_tcp_request_failed] *)
Definition ktp_tcp_request_failed (code detail : string) : TransportError :=
  RequestFailed ("ktp_tcp_error code=" +:+ code +:+ " detail=" +:+ detail).

(** tunnel_data.rs [ktp_tcp_transport_error_to_transport] *)
Definition ktp_tcp_transport_error_to_transport (e : KtpTcpTransportError) : TransportError :=
  match e with
  | TransportClosed => SocketClosed
  | other => ktp_tcp_request_failed (transport_error_code other) (KtpTcpTransportError_to_string other)
  end.

(** An action of the stream, with its error as a transport error *)
Definition on_stream {A} (m : tact A) : act KtpEncryptedStream TransportError A := fun st =>
  match m st with
  | (st, Done a) => (st, Done a)
  | (st, Fail e) => (st, Fail (ktp_tcp_transport_error_to_transport e))
  | (st, Wait) => (st, Wait)
  | (st, Crash) => (st, Crash)
  end.

(** [timeout(duration, m).await]: an action still waiting is given up *)
Definition with_timeout {S E A} (m : act S E A) : act S E (option A) := fun s =>
  match m s with
  | (s, Done a) => (s, Done (Some a))
  | (s, Fail e) => (s, Fail e)
  | (s, Wait) => (s, Done None)
  | (s, Crash) => (s, Crash)
  end.

(** tunnel_data.rs [KtpEncryptedTcpTunnelDataSocket] (over TCP or TLS: both are byte
    streams).  [ks_arrivals] are the reads that become ready from one call to the next. *)
Record KtpDataSocket := mkKtpSocket {
  ks_stream : KtpEncryptedStream;
  ks_arrivals : list (list io_read);
  ks_max_payload_len : N;
}.
Abbreviation ksact := (act KtpDataSocket TransportError).

Definition ks_set_stream (st : KtpEncryptedStream) (k : KtpDataSocket) : KtpDataSocket :=
  mkKtpSocket st (ks_arrivals k) (ks_max_payload_len k).

(** The next reads arrive. *)
Definition arrive (k : KtpDataSocket) : KtpDataSocket :=
  match ks_arrivals k with
  | [] => k
  | rs :: rest =>
      mkKtpSocket (KtpRelay.set_reads (io_reads (stream (ks_stream k)) ++ rs) (ks_stream k)) rest
        (ks_max_payload_len k)
  end.

Section ktp_socket.
Context `{A : Aead}.

Definition on_stream_of {B} (m : tact B) : ksact B := on_field ks_stream ks_set_stream (on_stream m).

(** [block_on(m)]: whenever [m] waits, more reads arrive. *)
Fixpoint block_on {B} (arrivals : list (list io_read)) (m : ksact B) : ksact B := fun k =>
  match arrivals, m k with
  | _ :: rest, (k, Wait) => block_on rest m (arrive k)
  | _, r => r
  end.

(** tunnel_data.rs [TunnelDataSocket@KtpEncryptedTcpTunnelDataSocket::send_frame] *)
Definition ktp_send_frame (bytes : list byte) : ksact unit :=
  k ← get;
  frame ← try_ (frame_error (decode_frame bytes (ks_max_payload_len k)));
  on_stream_of (send_frame frame).

(** tunnel_data.rs [TunnelDataSocket@KtpEncryptedTcpTunnelDataSocket::read_frame] *)
Definition ktp_read_frame : ksact (list byte) :=
  k ← get;
  frame ← block_on (ks_arrivals k) (on_stream_of next_frame);
  try_ (frame_error (encode_frame frame)).

(** tunnel_data.rs [TunnelDataSocket@KtpEncryptedTcpTunnelDataSocket::read_optional_frame_with_timeout] *)
Definition ktp_read_optional_frame : ksact (option (list byte)) :=
  _ ← modify arrive;
  o ← with_timeout (on_stream_of next_frame);
  match o with
  | Some frame => bytes ← try_ (frame_error (encode_frame frame)); mret (Some bytes)
  | None => mret None
  end.

(** tunnel_data.rs [TunnelDataSocket@KtpEncryptedTcpTunnelDataSocket::read_optional_ktp_frame_batch_with_timeout] *)
Definition ktp_read_batch (max_frames : N) : ksact (option (list KtpFrame)) :=
  _ ← modify arrive;
  with_timeout (on_stream_of (next_frames (N.max max_frames 1))).

(** tunnel_data.rs [TunnelDataSocket@KtpEncryptedTcpTunnelDataSocket::send_ktp_frame] *)
Definition ktp_send_ktp_frame (frame : KtpFrame) : ksact unit := on_stream_of (send_frame frame).

(** tunnel_data.rs [TunnelDataSocket@KtpEncryptedTcpTunnelDataSocket::send_ktp_frame_batch] *)
Definition ktp_send_ktp_frame_batch (frames : list KtpFrame) : ksact unit :=
  on_stream_of (send_frames frames).

#[export] Instance KtpEncryptedTcpTunnelDataSocket : TunnelDataSocket KtpDataSocket := {|
  send_ktp_frame := ktp_send_ktp_frame;
  send_ktp_frame_batch := ktp_send_ktp_frame_batch;
  read_frame := ktp_read_frame;
  read_optional_ktp_frame_batch _ max_frames := ktp_read_batch max_frames;
|}.
End ktp_socket.

(** ** What the sockets promise

    The data loop treats [SocketClosed] on a send as the orderly end of the connection in
    some places and ignores it in others.  Neither socket reports it on a send. *)
Class TunnelDataSocketLaws (U : Type) `{!TunnelDataSocket U} := {
  send_not_closed (f : KtpFrame) (u : U) : (send_ktp_frame f u).2 ≠ Fail SocketClosed;
  send_batch_not_closed (fs : list KtpFrame) (u : U) : (send_ktp_frame_batch fs u).2 ≠ Fail SocketClosed;
}.

Lemma frame_error_not_closed {A} (r : result KtpError A) : frame_error r ≠ Err SocketClosed.
Proof. by destruct r. Qed.
#[export] Hint Resolve frame_error_not_closed : never.

Lemma ws_send_not_closed bs : never SocketClosed (ws_send_frame bs).
Proof. intros s. unfold ws_send_frame. by destruct (ws_sends s) as [|[e|] rest]. Qed.
#[export] Hint Resolve ws_send_not_closed : never.

Lemma default_send_not_closed {U} (send : list byte → act U TransportError unit) f :
  (∀ bs, never SocketClosed (send bs)) → never SocketClosed (default_send_ktp_frame send f).
Proof. unfold default_send_ktp_frame. eauto with never. Qed.
#[export] Hint Resolve default_send_not_closed : never.

#[export] Instance TungsteniteLaws : TunnelDataSocketLaws WsSocket.
Proof.
  split; intros x; [change (never SocketClosed (default_send_ktp_frame ws_send_frame x))
                   |change (never SocketClosed (for_each x (default_send_ktp_frame ws_send_frame)))];
    auto with never.
Qed.

Section ktp_laws.
Context `{A : Aead}.

Lemma seal_into_not_closed call f : never TransportClosed (seal_into call f).
Proof.
  apply never_bind; [apply never_get|]. intros st. destruct (call (seal st) f (write_buffer st)) as [[r s] b].
  apply never_bind; [apply never_put|]. intros _. apply never_try. by destruct r.
Qed.

Lemma flush_not_closed : never TransportClosed flush_buffer.
Proof.
  apply never_bind; [apply never_get|]. intros st. apply never_field. intros io.
  unfold write_flush. by destruct (io_writes io) as [|[]].
Qed.

Lemma on_stream_not_closed {B} (m : tact B) :
  never TransportClosed m → never SocketClosed (on_stream_of m).
Proof.
  intros Hm. apply never_field. intros st. unfold on_stream. specialize (Hm st).
  destruct (m st) as [st1 [a|e| |]]; cbn in *; [done| |done..]. by destruct e.
Qed.
#[local] Hint Resolve seal_into_not_closed flush_not_closed on_stream_not_closed : never.

Lemma send_frames_not_closed fs : never TransportClosed (send_frames fs).
Proof. destruct fs; cbn [send_frames]; eauto 10 with never. Qed.
#[local] Hint Resolve send_frames_not_closed : never.

#[export] Instance KtpEncryptedTcpLaws : TunnelDataSocketLaws KtpDataSocket.
Proof.
  split; intros x; [change (never SocketClosed (on_stream_of (send_frame x)))
                   |change (never SocketClosed (on_stream_of (send_frames x)))];
    [apply on_stream_not_closed; unfold send_frame|]; eauto with never.
Qed.
End ktp_laws.

(** ** A socket and what has crossed it *)

(** A frame of a send that succeeded, or a frame a batch read returned *)
Inductive Traffic := Sent (f : KtpFrame) | Received (f : KtpFrame).
#[export] Instance Traffic_eq_dec : EqDecision Traffic.
Proof. solve_decision. Defined.

#[export] Instance logged_socket {U} `{!TunnelDataSocket U} : TunnelDataSocket (U * list Traffic) := {|
  send_ktp_frame f '(u, log) :=
    let '(u, r) := send_ktp_frame f u in
    ((u, match r with Done _ => log ++ [Sent f] | _ => log end), r);
  send_ktp_frame_batch fs '(u, log) :=
    let '(u, r) := send_ktp_frame_batch fs u in
    ((u, match r with Done _ => log ++ (Sent <$> fs) | _ => log end), r);
  read_frame '(u, log) := let '(u, r) := read_frame u in ((u, log), r);
  read_optional_ktp_frame_batch t n '(u, log) :=
    let '(u, r) := read_optional_ktp_frame_batch t n u in
    ((u, match r with Done (Some fs) => log ++ (Received <$> fs) | _ => log end), r);
|}.

(** ** Session runtimes *)

(** tunnel_runtime.rs [TunnelSessionRuntime] 288-343 (timeouts in microseconds) *)
Class TunnelSessionRuntime (R : Type) := {
  rt_tick : act R TransportError unit;
  rt_close_all_sessions : act R TransportError unit;
  rt_handle_server_frame : KtpFrame → act R TransportError (list KtpFrame);
  rt_next_client_frames : N → act R TransportError (list KtpFrame);
  rt_next_client_frames_after_wait : N → N → act R TransportError (list KtpFrame);
  rt_client_frame_batch_limit : N → act R TransportError N;
  rt_client_frame_wait_timeout : R → option N;
  rt_socket_idle_timeout : R → option N;
  rt_queue_dwell_snapshot : act R TransportError (option TunnelQueueDwellStatsSnapshot);
  rt_recent_queue_dwell_snapshot : act R TransportError (option TunnelQueueDwellStatsSnapshot);
}.

(** tunnel_runtime.rs [NoopTunnelSessionRuntime] (the defaults of the trait) *)
#[export] Instance NoopTunnelSessionRuntime : TunnelSessionRuntime unit := {|
  rt_tick := mret tt;
  rt_close_all_sessions := mret tt;
  rt_handle_server_frame _ := mret [];
  rt_next_client_frames _ := mret [];
  rt_next_client_frames_after_wait _ _ := mret [];
  rt_client_frame_batch_limit requested := mret (N.max requested 1);
  rt_client_frame_wait_timeout _ := None;
  rt_socket_idle_timeout _ := None;
  rt_queue_dwell_snapshot := mret None;
  rt_recent_queue_dwell_snapshot := mret None;
|}.

(** What the environment does to a TCP runtime: the outcomes of binds and dials, what the
    other tasks do during a dial and during a wait, and the clock *)
Record RuntimeEnv := mkEnv {
  env_bind : TunnelTcpListenerSpec → option string;
  env_dial : KtpFrame → DialOutcome;
  env_during_dial : KtpFrame → AsyncTunnelCore → AsyncTunnelCore;
  env_while_waiting : AsyncTunnelCore → AsyncTunnelCore;
  env_now : N;
}.

Definition tcp_session_runtime (env : RuntimeEnv) : TunnelSessionRuntime TunnelTcpRuntime := {|
  rt_tick := tick (env_bind env);
  rt_close_all_sessions := runtime_close_all_sessions;
  rt_handle_server_frame f := handle_server_frame (env_dial env f) (env_during_dial env f) f;
  rt_next_client_frames max := next_client_frames (env_now env) max;
  rt_next_client_frames_after_wait max t :=
    next_client_frames_after_wait (env_now env) max t (env_while_waiting env);
  rt_client_frame_batch_limit n := client_frame_batch_limit n;
  rt_client_frame_wait_timeout := client_frame_wait_timeout;
  rt_socket_idle_timeout := socket_idle_timeout;
  rt_queue_dwell_snapshot := runtime_queue_dwell_snapshot;
  rt_recent_queue_dwell_snapshot := runtime_recent_queue_dwell_snapshot;
|}.
