(* ===== verification/TunnelLaws.v ===== *)
(** * What session runtimes promise to the data loop

    The frames a runtime hands out are frames of sessions: HELLO, READY and PONG are the
    loop's own.  [TunnelSessionRuntimeLaws] states it, with the state in which it holds;
    the runtime that does nothing and the TCP runtime satisfy it. *)
From S2P Require Import Prelude RustStd AsyncIo Ktp Transport TunnelSession TunnelControl TunnelStats.
From S2P Require Import TunnelCore TunnelReady TunnelRuntime TunnelDiag TunnelSocket.
From Stdlib Require Import Strings.Byte.
Local Open Scope N_scope.

Definition session_frame (f : KtpFrame) : Prop := is_connection_level (frame_type f) = false.

Class TunnelSessionRuntimeLaws (R : Type) `{!TunnelSessionRuntime R} := {
  rt_ok : R → Prop;
  tick_ok : keeps rt_ok rt_tick;
  handle_ok f rt : rt_ok rt →
    wp (rt_handle_server_frame f) (fun fs rt => rt_ok rt ∧ Forall session_frame fs) rt_ok rt;
  next_ok n rt : rt_ok rt →
    wp (rt_next_client_frames n) (fun fs rt => rt_ok rt ∧ Forall session_frame fs) rt_ok rt;
  next_after_wait_ok n t rt : rt_ok rt →
    wp (rt_next_client_frames_after_wait n t) (fun fs rt => rt_ok rt ∧ Forall session_frame fs) rt_ok rt;
  batch_limit_ok n : keeps rt_ok (rt_client_frame_batch_limit n);
  dwell_ok : keeps rt_ok rt_queue_dwell_snapshot;
  recent_dwell_ok : keeps rt_ok rt_recent_queue_dwell_snapshot;
}.

#[export, refine] Instance NoopLaws : TunnelSessionRuntimeLaws unit := {| rt_ok _ := True |}.
Proof. all: repeat intro; unfold wp; cbn; auto. Qed.

(** ** The TCP runtime *)

(** Every frame that waits in the queue is a frame of a session. *)
Definition queue_ok (c : AsyncTunnelCore) : Prop :=
  Forall (fun q => session_frame (queued_frame q)) (outbound c).

Section queue.
Implicit Types c : AsyncTunnelCore.

Lemma set_outbound_ok q c : Forall (fun q => session_frame (queued_frame q)) q → queue_ok (set_outbound q c).
Proof. done. Qed.

(** An action on the core that does not change the queue *)
Lemma keeps_modify_outbound (f : AsyncTunnelCore → AsyncTunnelCore) :
  (∀ c, outbound (f c) = outbound c) → keeps queue_ok (modify (E:=TunnelRuntimeError) f).
Proof. intros Hf c. unfold queue_ok. cbn. by rewrite Hf. Qed.
#[local] Hint Extern 1 (keeps queue_ok (modify _)) =>
  apply keeps_modify_outbound; intros; done : keeps.

Lemma capacity_keeps_queue : keeps queue_ok ensure_agent_session_capacity.
Proof.
  unfold ensure_agent_session_capacity. apply keeps_bind; [auto with keeps|intros c].
  apply keeps_bind; [auto with keeps|intros s]. case_bool_decide; auto with keeps.
Qed.

Lemma insert_keeps_queue sid rule leg : keeps queue_ok (insert_session sid rule leg).
Proof. unfold insert_session. eauto 10 with keeps. Qed.

Lemma spawn_keeps_queue n : keeps queue_ok (spawn_tasks n).
Proof. unfold spawn_tasks. auto with keeps. Qed.
#[local] Hint Resolve capacity_keeps_queue insert_keeps_queue spawn_keeps_queue : keeps.

Lemma attach_egress_keeps_queue sid rule : keeps queue_ok (attach_egress sid rule).
Proof. unfold attach_egress. eauto 10 with keeps. Qed.

Lemma try_push_keeps_queue now f : session_frame f → keeps queue_ok (try_push now f).
Proof.
  intros Hf c Hc. rewrite try_push_run. case_bool_decide; cbn; [done|].
  unfold queue_ok. cbn. apply Forall_app. split; [done|]. by constructor.
Qed.

Lemma push_ignoring_keeps_queue now f : session_frame f → keeps queue_ok (push_ignoring now f).
Proof.
  intros Hf c Hc. unfold push_ignoring. pose proof (try_push_keeps_queue now f Hf c Hc) as H.
  by destruct (try_push now f c) as [c1 [a|e| |]].
Qed.
#[local] Hint Resolve attach_egress_keeps_queue try_push_keeps_queue push_ignoring_keeps_queue : keeps.
#[local] Hint Extern 0 (session_frame _) => reflexivity : keeps.

Lemma attach_ingress_keeps_queue now sid rule host port peer :
  keeps queue_ok (attach_ingress now sid rule host port peer).
Proof.
  unfold attach_ingress. apply keeps_bind; [auto with keeps|intros n].
  apply keeps_bind; [auto with keeps|intros _]. eauto 10 with keeps.
Qed.

Lemma handle_data_keeps_queue sid leg bs : keeps queue_ok (handle_session_data sid leg bs).
Proof.
  unfold handle_session_data. apply keeps_bind; [auto with keeps|intros c].
  destruct (sessions c !! sid ≫= _) as [[n k]|]; [|auto with keeps].
  apply keeps_bind; [auto with keeps|intros p]. case_match; eauto with keeps.
Qed.

Lemma remove_frames_keeps_queue sid : keeps queue_ok (remove_session_frames sid).
Proof.
  intros c Hc. unfold remove_session_frames, mbind, act_bind, queue_ok. cbn.
  apply Forall_forall. intros q [_ Hq]%list_elem_of_filter. by eapply Forall_forall in Hc.
Qed.
#[local] Hint Resolve remove_frames_keeps_queue : keeps.

Lemma close_session_keeps_queue sid : keeps queue_ok (close_session sid).
Proof.
  unfold close_session. apply keeps_bind; [auto with keeps|intros c].
  destruct (sessions c !! sid ≫= _) as [[n k]|]; eauto 10 with keeps.
Qed.

Lemma close_all_keeps_queue : keeps queue_ok close_all_sessions.
Proof. intros c Hc. rewrite close_all_run. constructor. Qed.

Lemma frames_with_dwell_frames now qs s : (frames_with_dwell now qs s).1 = queued_frame <$> qs.
Proof.
  revert s. induction qs as [|q qs IH]; intros s; cbn; [done|].
  specialize (IH (into_frame_with_dwell now q s).2). unfold into_frame_with_dwell in IH |- *.
  destruct (frames_with_dwell now qs _) as [fs s1]. cbn in *. by rewrite IH.
Qed.

(** The first frames of the queue leave it, in order. *)
Lemma queue_drain_run now max c :
  ∃ s, let n := N.to_nat max in
  queue_drain now max c
  = (set_core_stats s (set_outbound (drop n (outbound c)) c),
     Done (queued_frame <$> take n (outbound c))).
Proof.
  unfold queue_drain. case_bool_decide as Hm.
  { exists (stats c). subst max. cbn. by destruct c. }
  cbv [mbind act_bind get modify mret act_ret]. cbn zeta.
  assert (take (N.to_nat (N.min max (len (outbound c)))) (outbound c) = take (N.to_nat max) (outbound c)
        ∧ drop (N.to_nat (N.min max (len (outbound c)))) (outbound c) = drop (N.to_nat max) (outbound c))
    as [-> ->].
  { destruct (decide (max ≤ len (outbound c))); [by rewrite N.min_l by done|].
    rewrite N.min_r by lia. unfold len in *. rewrite !take_ge, !drop_ge by lia. done. }
  destruct (frames_with_dwell now _ (stats c)) as [fs s] eqn:Hf. exists s.
  by rewrite <- (frames_with_dwell_frames now _ (stats c)), Hf.
Qed.

Lemma queue_drain_ok now max c : queue_ok c →
  wp (queue_drain now max) (fun fs c => queue_ok c ∧ Forall session_frame fs) queue_ok c.
Proof.
  intros Hc. unfold wp. destruct (queue_drain_run now max c) as [s Hr]. cbn zeta in Hr. rewrite Hr.
  unfold queue_ok in *. cbn. split; [by apply Forall_drop|]. apply Forall_fmap.
  by apply Forall_take.
Qed.

Lemma reader_exit_keeps_queue n k : keeps queue_ok (reader_exit n k).
Proof.
  unfold reader_exit. apply keeps_bind; [auto with keeps|intros c].
  apply keeps_bind; [auto with keeps|intros _].
  destruct (sessions c !! conn_session_id k); eauto 10 with keeps.
Qed.
#[local] Hint Resolve reader_exit_keeps_queue : keeps.

Lemma reader_step_keeps_queue now n k rd : keeps queue_ok (reader_step now n k rd).
Proof. destruct rd; cbn [reader_step]; eauto 10 with keeps. Qed.

Lemma writer_take_keeps_queue n k : keeps queue_ok (writer_take n k).
Proof. unfold writer_take. repeat case_match; eauto 10 with keeps. by intros c. Qed.

Lemma writer_done_keeps_queue n k p ok : keeps queue_ok (writer_done n k p ok).
Proof. unfold writer_done. auto with keeps. Qed.

(** Whatever the tasks and the threads do, only frames of sessions are queued. *)
Lemma core_step_queue_ok s e s' : core_step s e s' → queue_ok (core s) → queue_ok (core s').
Proof.
  assert (∀ A (m : core_act A) c c' r, keeps queue_ok m → m c = (c', r) → queue_ok c → queue_ok c') as Hk.
  { intros A m c c' r Hm Hr Hc. apply Hm in Hc. by rewrite Hr in Hc. }
  intros Hs Hc. destruct Hs; cbn [core] in *; try done; (eapply Hk; [|eassumption|exact Hc]).
  - apply attach_egress_keeps_queue.
  - apply attach_ingress_keeps_queue.
  - destruct bind; cbn; auto with keeps.
  - unfold stop_ingress_listener. auto with keeps.
  - apply handle_data_keeps_queue.
  - apply close_session_keeps_queue.
  - apply close_all_keeps_queue.
  - intros c1 Hc1. unfold core_next_frames. destruct (queue_drain_run now max c1) as [s1 Hr].
    cbn zeta in Hr. rewrite Hr. unfold queue_ok in *. cbn. by apply Forall_drop.
  - apply reader_step_keeps_queue.
  - apply writer_take_keeps_queue.
  - apply writer_done_keeps_queue.
Qed.
End queue.

(** What the environment does meanwhile only queues frames of sessions. *)
Definition env_ok (env : RuntimeEnv) : Prop :=
  (∀ f c, queue_ok c → queue_ok (env_during_dial env f c))
  ∧ (∀ c, queue_ok c → queue_ok (env_while_waiting env c)).

Definition runtime_queue_ok (rt : TunnelTcpRuntime) : Prop := queue_ok (rt_core rt).

Section tcp_laws.
Implicit Types rt : TunnelTcpRuntime.

Lemma foldl_outbound {A} (f : TunnelTcpRuntime → A → TunnelTcpRuntime) l rt :
  (∀ rt x, outbound (rt_core (f rt x)) = outbound (rt_core rt)) →
  outbound (rt_core (foldl f rt l)) = outbound (rt_core rt).
Proof. intros Hf. revert rt. induction l as [|x l IH]; intros rt; cbn; [done|]. by rewrite IH. Qed.

Lemma drain_events_outbound rt :
  outbound (rt_core (drain_listener_runtime_events rt).2) = outbound (rt_core rt).
Proof.
  unfold drain_listener_runtime_events.
  assert (∀ es acc, outbound (rt_core (foldl handle_listener_event acc es).2)
                    = outbound (rt_core acc.2)) as Hf.
  { induction es as [|e es IH]; intros [ts rt1]; cbn [foldl]; [done|]. rewrite IH. cbn.
    case_match; [|done]. by case_match. }
  specialize (Hf (listener_events rt) ([], set_events [] rt)).
  destruct (foldl _ _ _) as [ts rt1]. cbn in *. by case_bool_decide.
Qed.

Lemma refresh_outbound bind rt :
  outbound (rt_core (refresh_listeners bind rt)) = outbound (rt_core rt).
Proof.
  unfold refresh_listeners. rewrite <- (drain_events_outbound rt).
  destruct (drain_listener_runtime_events rt) as [ts rt1]. cbn. rewrite foldl_outbound.
  - cbn. by rewrite foldl_outbound.
  - intros rt2 spec. unfold start_listener. repeat (case_match; [done|]).
    unfold start_ingress_listener. by destruct (bind spec).
Qed.

Lemma call_core_wp {A} (m : core_act A) (Q : result TunnelRuntimeError A → AsyncTunnelCore → Prop) rt :
  wp m (fun a c => Q (Ok a) c ∧ queue_ok c) (fun c => (∀ e, Q (Err e) c) ∧ queue_ok c) (rt_core rt) →
  wp (call_core m) (fun r rt => Q r (rt_core rt) ∧ runtime_queue_ok rt) runtime_queue_ok rt.
Proof. unfold wp, call_core. destruct (m (rt_core rt)) as [c [a|e| |]]; cbn; naive_solver. Qed.

Lemma call_core_keeps {A} (m : core_act A) : keeps queue_ok m → keeps runtime_queue_ok (call_core m).
Proof.
  intros Hm rt Hrt. apply Hm in Hrt. unfold call_core.
  by destruct (m (rt_core rt)) as [c [a|e| |]].
Qed.

Lemma reply_session r rt : runtime_queue_ok rt → (∀ f, r = Ok f → session_frame f) →
  wp (reply r) (fun fs rt => runtime_queue_ok rt ∧ Forall session_frame fs) runtime_queue_ok rt.
Proof.
  intros Hrt Hr. unfold reply, wp, mbind, act_bind, try_. destruct r; cbn; auto.
Qed.

Lemma error_frame_session sid leg rule code message f :
  session_error_frame sid leg rule code message = Ok f → session_frame f.
Proof. unfold session_error_frame. intros H. inv_ok. done. Qed.

Lemma open_egress_ok sid rule dial during c :
  (∀ c, queue_ok c → queue_ok (during c)) → queue_ok c →
  wp (open_egress_session sid rule dial during)
    (fun fs c => Forall session_frame fs ∧ queue_ok c) queue_ok c.
Proof.
  intros Hd Hc. unfold open_egress_session. apply wp_bind.
  eapply wp_mono; [apply (keeps_wp queue_ok); [apply capacity_keeps_queue|done]| |done].
  cbn beta. intros _ c1 Hc1. apply wp_bind.
  eapply wp_mono; [apply (keeps_wp queue_ok); [by apply keeps_modify|exact Hc1]| |done].
  cbn beta. intros _ c2 Hc2. apply wp_bind. apply wp_try; [|done]. intros _ _.
  pose proof (attach_egress_keeps_queue sid rule c2 Hc2) as Hk.
  unfold wp. destruct (attach_egress sid rule c2) as [c3 r] eqn:Hr. cbn in Hk.
  unfold attach_egress, insert_session, spawn_tasks in Hr.
  cbv [mbind act_bind get modify mret act_ret] in Hr. cbn zeta in Hr. injection Hr as <- <-.
  by split; [repeat constructor|].
Qed.

Lemma egress_open_ok dial during f rt :
  (∀ c, queue_ok c → queue_ok (during c)) → runtime_queue_ok rt →
  wp (handle_egress_open dial during f)
    (fun fs rt => runtime_queue_ok rt ∧ Forall session_frame fs) runtime_queue_ok rt.
Proof.
  intros Hd Hrt. unfold handle_egress_open.
  destruct (decode_session_open_payload (payload f)) as [open|e|]; [|by apply reply_session; eauto using error_frame_session|done].
  apply wp_bind. unfold wp at 1, get.
  destruct (find_egress_rule rt (open_rule_id open)) as [rule|];
    [|by apply reply_session; eauto using error_frame_session].
  apply wp_bind. eapply wp_mono; [apply (call_core_wp _ (fun r _ =>
    match r with Ok fs => Forall session_frame fs | _ => True end))| |done].
  - eapply wp_mono; [by apply open_egress_ok| |]; naive_solver.
  - cbn beta. intros [fs|e|] rt1 [Hr Hrt1]; cbn [map_err]; [done| |done].
    unfold runtime_error_to_transport. destruct (split_runtime_error_message _) as [code detail].
    apply reply_session; eauto using error_frame_session.
Qed.

Lemma call_core_result {A} (m : core_act A) rt (P : A → Prop) :
  wp m (fun a c => queue_ok c ∧ P a) queue_ok (rt_core rt) →
  wp (r ← call_core m; try_ (map_err runtime_error_to_transport r))
    (fun a rt => runtime_queue_ok rt ∧ P a) runtime_queue_ok rt.
Proof.
  unfold wp, mbind, act_bind, call_core, try_.
  destruct (m (rt_core rt)) as [c [a|e| |]]; cbn; auto.
Qed.

Lemma server_frame_ok dial during f rt :
  (∀ c, queue_ok c → queue_ok (during c)) → runtime_queue_ok rt →
  wp (handle_server_frame dial during f)
    (fun fs rt => runtime_queue_ok rt ∧ Forall session_frame fs) runtime_queue_ok rt.
Proof.
  intros Hd Hrt.
  assert (∀ m : core_act unit, keeps queue_ok m → ∀ k : result TunnelRuntimeError unit → runtime_act (list KtpFrame),
    (∀ r rt, runtime_queue_ok rt → wp (k r) (fun fs rt => runtime_queue_ok rt ∧ Forall session_frame fs)
       runtime_queue_ok rt) →
    wp (call_core m ≫= k) (fun fs rt => runtime_queue_ok rt ∧ Forall session_frame fs)
       runtime_queue_ok rt) as Hcall.
  { intros m Hm k Hk. apply wp_bind.
    eapply wp_mono; [apply (keeps_wp runtime_queue_ok); [by apply call_core_keeps|done]| |done]. auto. }
  unfold handle_server_frame.
  destruct (frame_type f), (leg f); try (unfold wp; cbn; by auto); try by apply egress_open_ok.
  all: apply Hcall; [apply handle_data_keeps_queue || apply close_session_keeps_queue|].
  all: intros r rt1 Hrt1; unfold wp; destruct r; try case_bool_decide; cbn; by auto.
Qed.
End tcp_laws.

(** The TCP runtime keeps the promise, in an environment that does. *)
#[refine] Instance tcp_runtime_laws env (Henv : env_ok env) :
  @TunnelSessionRuntimeLaws _ (tcp_session_runtime env) :=
  @Build_TunnelSessionRuntimeLaws _ (tcp_session_runtime env) runtime_queue_ok _ _ _ _ _ _ _.
Proof.
  - intros rt Hrt. unfold runtime_queue_ok, queue_ok. cbn. by rewrite refresh_outbound.
  - intros f rt Hrt. apply server_frame_ok; [apply Henv|done].
  - intros n rt Hrt. apply call_core_result. by apply queue_drain_ok.
  - intros n t rt Hrt. apply call_core_result. unfold core_next_frames_after_wait, drain_after_wait.
    case_bool_decide; [unfold wp; cbn; by auto|]. apply wp_bind. unfold wp at 1, get. apply wp_bind.
    eapply wp_mono; [apply (keeps_wp queue_ok)| |done]; [|done|].
    + case_match; [apply keeps_modify, Henv|apply keeps_mret].
    + cbn beta. intros _ c Hc. by apply queue_drain_ok.
  - intros n. apply keeps_bind; [|intros; apply keeps_try]. apply call_core_keeps.
    unfold effective_outbound_batch_frames. eauto 10 with keeps.
  - unfold rt_queue_dwell_snapshot. cbn. unfold runtime_queue_dwell_snapshot. eauto 10 with keeps.
  - unfold rt_recent_queue_dwell_snapshot. cbn. unfold runtime_recent_queue_dwell_snapshot.
    eauto 10 with keeps.
Defined.
