(* ===== verification/TunnelData.v ===== *)
(** * The data connection ([src/src/tunnel_data.rs], session loop)

    One connection: HELLO, the wait for HELLO_ACK, READY, and then the loop: READY again
    whenever it changes, the frames the runtime has queued, and one read whose frames are
    handled in order.  The loop is generic in the socket and in the runtime
    ([TunnelSocket]).  What it reads from elsewhere is given as sequences: the values of
    the ready source ([ready_at]) and of the clock ([clock_at], microseconds), one per
    call.  [fuel] bounds the iterations of the loops; an exhausted loop is still running,
    [Wait]. *)
From S2P Require Import Prelude RustStd AsyncIo Ktp Transport TunnelControl TunnelStats TunnelCore.
From S2P Require Import TunnelReady TunnelRuntime TunnelWire TunnelDiag TunnelSocket TunnelLaws.
From Stdlib Require Import Strings.Byte.
From Stdlib Require Strings.String.
Local Open Scope N_scope.

(** tunnel_data.rs [SendFrameOutcome] *)
Inductive SendFrameOutcome := SendSent | SendClosed.
(** tunnel_data.rs [ReadFrameOutcome] *)
Inductive ReadFrameOutcome := ReadFrame | ReadClosed.

(** tunnel_data.rs [is_nonfatal_connect_error] *)
Definition is_nonfatal_connect_error (error : TransportError) : bool :=
  match error with
  | RequestFailed message =>
      let message := to_ascii_lowercase message in
      contains "404" message || contains "403" message || contains "feature_disabled" message
  | SocketClosed => true
  | InvalidClientToken _ _ _ _ | EmptyEndpoint | EmptyToken | UnsupportedScheme _ => false
  end.

(** [{:?}] of a [FrameType] *)
Definition FrameType_debug (t : FrameType) : string :=
  match t with
  | Hello => "Hello" | HelloAck => "HelloAck" | Ready => "Ready"
  | SessionOpen => "SessionOpen" | SessionAccept => "SessionAccept" | SessionData => "SessionData"
  | SessionWindow => "SessionWindow" | SessionClose => "SessionClose"
  | SessionError => "SessionError" | Ping => "Ping" | Pong => "Pong" | Stats => "Stats"
  end.

(** Reconnection delays are in nanoseconds; [Duration::MAX] *)
Definition DURATION_MAX : N := U64_MAX * 1000000000 + 999999999.
Definition from_secs (seconds : N) : N := seconds * 1000000000.

(** tunnel_data.rs [tunnel_data_reconnect_delay_after_attempt] *)
Definition tunnel_data_reconnect_delay_after_attempt (current_delay : N) (session_succeeded : bool)
    : N * N :=
  let current_delay := if bool_decide (current_delay = 0) then from_secs 5 else current_delay in
  let sleep_delay := if session_succeeded then from_secs 15 else current_delay in
  let next_delay := N.min
    (default DURATION_MAX (checked_add DURATION_MAX sleep_delay sleep_delay)) (from_secs 60) in
  (sleep_delay, next_delay).

(** ** One socket *)
Section sockets.
Context {U : Type} `{!TunnelDataSocket U}.

(** tunnel_data.rs [send_tunnel_data_ktp_frame] *)
Definition send_tunnel_data_ktp_frame (frame : KtpFrame) : act U TransportError SendFrameOutcome :=
  fun u => match send_ktp_frame frame u with
  | (u, Done _) => (u, Done SendSent)
  | (u, Fail SocketClosed) => (u, Done SendClosed)
  | (u, Fail error) => (u, Fail error)
  | (u, Wait) => (u, Wait)
  | (u, Crash) => (u, Crash)
  end.

(** tunnel_data.rs [send_tunnel_data_ktp_frame_batch] *)
Definition send_tunnel_data_ktp_frame_batch (frames : list KtpFrame)
    : act U TransportError SendFrameOutcome :=
  fun u => match send_ktp_frame_batch frames u with
  | (u, Done _) => (u, Done SendSent)
  | (u, Fail SocketClosed) => (u, Done SendClosed)
  | (u, Fail error) => (u, Fail error)
  | (u, Wait) => (u, Wait)
  | (u, Crash) => (u, Crash)
  end.

(** tunnel_data.rs [read_tunnel_data_hello_ack] *)
Definition read_tunnel_data_hello_ack : act U TransportError ReadFrameOutcome := fun u =>
  match read_frame u with
  | (u, Fail SocketClosed) => (u, Done ReadClosed)
  | (u, Fail error) => (u, Fail error)
  | (u, Wait) => (u, Wait)
  | (u, Crash) => (u, Crash)
  | (u, Done bytes) =>
      (frame ← try_ (frame_error (decode_frame bytes KTP_MAX_PAYLOAD_LEN));
       if bool_decide (frame_type frame ≠ HelloAck)
       then fail (RequestFailed ("expected tunnel data hello_ack, got "
                                 +:+ FrameType_debug (frame_type frame)))
       else mret ReadFrame) u
  end.

(** tunnel_data.rs [send_ready_frame] *)
Definition send_ready_frame (ready : TunnelDataReadyState) : act U TransportError SendFrameOutcome :=
  ready_payload ← try_ (encode_ready_payload ready);
  send_tunnel_data_ktp_frame (KtpFrame_connection Ready ready_payload).

(** tunnel_data.rs [send_tunnel_session_runtime_frame_batch] *)
Definition send_tunnel_session_runtime_frame_batch (frames : list KtpFrame) : act U TransportError N :=
  match frames with
  | [] => mret 0
  | _ =>
      let frame_count := len frames in
      _ ← send_tunnel_data_ktp_frame_batch frames;
      mret frame_count
  end.

(** tunnel_data.rs [run_tunnel_data_once] *)
Definition run_tunnel_data_once (connected : result TransportError U)
    (agent_id_hint agent_version : string) (ready : TunnelDataReadyState)
    : option U * outcome TransportError unit :=
  match connected with
  | Err error =>
      (None, if is_nonfatal_connect_error error then Done tt else Fail error)
  | Panic => (None, Crash)
  | Ok socket =>
      let '(u, r) :=
        (hello_payload ← try_ (encode_hello_payload agent_id_hint agent_version (ready_revision ready));
         o ← send_tunnel_data_ktp_frame (KtpFrame_connection Hello hello_payload);
         match o with
         | SendClosed => mret tt
         | SendSent =>
             a ← read_tunnel_data_hello_ack;
             match a with
             | ReadClosed => mret tt
             | ReadFrame => _ ← send_ready_frame ready; mret tt
             end
         end) socket in
      (Some u, r)
  end.
End sockets.

(** ** A connected session *)

(** The variables of [run_connected_…]: the socket, the runtime, how many values the ready
    source and the clock have given, the diagnostics, and the reports made *)
Record DataSession (U R : Type) := mkData {
  dd_socket : U;
  dd_runtime : R;
  dd_readies : nat;
  dd_clock : nat;
  dd_diagnostics : Diagnostics;
  dd_last_report : N;
  dd_reports : list DiagnosticsSnapshot;
}.
Arguments mkData {U R}.
Arguments dd_socket {U R}.
Arguments dd_runtime {U R}.
Arguments dd_readies {U R}.
Arguments dd_clock {U R}.
Arguments dd_diagnostics {U R}.
Arguments dd_last_report {U R}.
Arguments dd_reports {U R}.

Section session.
Context {U R : Type} `{!TunnelDataSocket U} `{!TunnelSessionRuntime R}.
Context (ready_at : nat → TunnelDataReadyState) (clock_at : nat → N).
Context (agent_id_hint agent_version : string) (report_interval : option N).
Abbreviation dact := (act (DataSession U R) TransportError).

Definition dd_set_socket (u : U) (s : DataSession U R) : DataSession U R :=
  mkData u (dd_runtime s) (dd_readies s) (dd_clock s) (dd_diagnostics s) (dd_last_report s) (dd_reports s).
Definition dd_set_runtime (rt : R) (s : DataSession U R) : DataSession U R :=
  mkData (dd_socket s) rt (dd_readies s) (dd_clock s) (dd_diagnostics s) (dd_last_report s) (dd_reports s).
Definition dd_set_diagnostics (d : Diagnostics) (s : DataSession U R) : DataSession U R :=
  mkData (dd_socket s) (dd_runtime s) (dd_readies s) (dd_clock s) d (dd_last_report s) (dd_reports s).

Definition on_socket {A} (m : act U TransportError A) : dact A := on_field dd_socket dd_set_socket m.
Definition on_runtime {A} (m : act R TransportError A) : dact A := on_field dd_runtime dd_set_runtime m.

(** [ready_source.current_ready()] *)
Definition data_current_ready : dact TunnelDataReadyState := fun s =>
  (mkData (dd_socket s) (dd_runtime s) (S (dd_readies s)) (dd_clock s) (dd_diagnostics s)
     (dd_last_report s) (dd_reports s), Done (ready_at (dd_readies s))).

(** [Instant::now()] *)
Definition instant_now : dact N := fun s =>
  (mkData (dd_socket s) (dd_runtime s) (dd_readies s) (S (dd_clock s)) (dd_diagnostics s)
     (dd_last_report s) (dd_reports s), Done (clock_at (dd_clock s))).

Definition diagnose (f : Diagnostics → Diagnostics) : dact unit :=
  modify (fun s => dd_set_diagnostics (f (dd_diagnostics s)) s).

Definition set_last_report (now : N) : dact unit := modify (fun s =>
  mkData (dd_socket s) (dd_runtime s) (dd_readies s) (dd_clock s) (dd_diagnostics s) now (dd_reports s)).
Definition add_report (snapshot : DiagnosticsSnapshot) : dact unit := modify (fun s =>
  mkData (dd_socket s) (dd_runtime s) (dd_readies s) (dd_clock s) (dd_diagnostics s)
    (dd_last_report s) (dd_reports s ++ [snapshot])).

(** tunnel_data.rs [tunnel_session_runtime_frame_batch_limit] *)
Definition tunnel_session_runtime_frame_batch_limit : dact N :=
  limit ← on_runtime (rt_client_frame_batch_limit TUNNEL_DATA_FRAME_BATCH_LIMIT);
  mret (N.min (N.max limit 1) TUNNEL_DATA_FRAME_BATCH_LIMIT).

(** tunnel_data.rs [drain_tunnel_session_runtime_frames] 1842-1849: its loop *)
Fixpoint drain_loop (fuel : nat) (max_frames : N) (stats : TunnelDataWriteBatchStats)
    : dact TunnelDataWriteBatchStats :=
  match fuel with
  | O => wait
  | S fuel =>
      frames ← on_runtime (rt_next_client_frames max_frames);
      match frames with
      | [] => mret stats
      | _ =>
          frame_count ← on_socket (send_tunnel_session_runtime_frame_batch frames);
          drain_loop fuel max_frames (record_write_batch frame_count stats)
      end
  end.

(** tunnel_data.rs [drain_tunnel_session_runtime_frames] *)
Definition drain_tunnel_session_runtime_frames (fuel : nat) : dact TunnelDataWriteBatchStats :=
  max_frames ← tunnel_session_runtime_frame_batch_limit;
  drain_loop fuel max_frames (record_batch_limit max_frames write_stats_default).

(** tunnel_data.rs [drain_tunnel_session_runtime_frames_after_wait] *)
Definition drain_tunnel_session_runtime_frames_after_wait (fuel : nat) (timeout : N)
    : dact TunnelDataWriteBatchStats :=
  max_frames ← tunnel_session_runtime_frame_batch_limit;
  let stats := record_batch_limit max_frames write_stats_default in
  frames ← on_runtime (rt_next_client_frames_after_wait max_frames timeout);
  match frames with
  | [] => mret stats
  | _ =>
      frame_count ← on_socket (send_tunnel_session_runtime_frame_batch frames);
      let stats := record_write_batch frame_count stats in
      more ← drain_tunnel_session_runtime_frames fuel;
      mret (merge_write_stats stats more)
  end.

(** tunnel_data.rs [handle_tunnel_data_session_frame] *)
Definition handle_tunnel_data_session_frame (frame : KtpFrame) : dact unit :=
  match frame_type frame with
  | Ping =>
      _ ← on_socket (send_tunnel_data_ktp_frame (KtpFrame_connection Pong (payload frame)));
      mret tt
  | SessionOpen | SessionAccept | SessionData | SessionWindow | SessionClose | SessionError =>
      responses ← on_runtime (rt_handle_server_frame frame);
      for_each responses (fun response =>
        _ ← on_socket (send_tunnel_data_ktp_frame response); mret tt)
  | _ => mret tt
  end.

(** tunnel_data.rs [handle_tunnel_data_session_frames] *)
Definition handle_tunnel_data_session_frames (frames : list KtpFrame) : dact unit :=
  for_each frames handle_tunnel_data_session_frame.

(** tunnel_data.rs [report_tunnel_data_diagnostics_if_due] ([None] is [Duration::MAX]) *)
Definition report_tunnel_data_diagnostics_if_due : dact unit :=
  match report_interval with
  | None => mret tt
  | Some interval =>
      now ← instant_now;
      s ← get;
      if now - dd_last_report s <? interval then mret tt else
      snapshot ← try_ (diagnostics_snapshot (dd_diagnostics s));
      if has_activity snapshot then
        _ ← add_report snapshot;
        now ← instant_now;
        set_last_report now
      else mret tt
  end.

(** What follows each drain: the counters and the dwell times *)
Definition record_drain (sent : TunnelDataWriteBatchStats) : dact unit :=
  _ ← diagnose (record_outbound_runtime_frames (ws_frames sent));
  _ ← diagnose (record_socket_write_batches sent);
  dwell ← on_runtime rt_queue_dwell_snapshot;
  _ ← diagnose (record_outbound_queue_dwell_snapshot dwell);
  recent ← on_runtime rt_recent_queue_dwell_snapshot;
  diagnose (record_recent_outbound_queue_dwell_snapshot recent).

(** tunnel_data.rs [run_connected_tunnel_data_session_with_ready_source_runtime_diagnostics_and_reporter] 1610-1632: the wait for the runtime when a drain found nothing *)
Definition wait_for_runtime_frames (fuel : nat) : dact unit :=
  s ← get;
  match rt_client_frame_wait_timeout (dd_runtime s) with
  | None => mret tt
  | Some timeout =>
      wait_started ← instant_now;
      waited ← drain_tunnel_session_runtime_frames_after_wait fuel timeout;
      now ← instant_now;
      _ ← diagnose (record_runtime_wait (now - wait_started) (ws_frames waited));
      _ ← record_drain waited;
      if 0 <? ws_frames waited then report_tunnel_data_diagnostics_if_due else mret tt
  end.

(** tunnel_data.rs [run_connected_tunnel_data_session_with_ready_source_runtime_diagnostics_and_reporter] 1640-1656: one batch read; [None] when the peer has closed the
    connection *)
Definition read_batch : dact (option (option (list KtpFrame))) := fun s =>
  match on_socket (read_optional_ktp_frame_batch (rt_socket_idle_timeout (dd_runtime s))
                     TUNNEL_DATA_FRAME_BATCH_LIMIT) s with
  | (s, Done o) => (s, Done (Some o))
  | (s, Fail SocketClosed) => (s, Done None)
  | (s, Fail error) => (s, Fail error)
  | (s, Wait) => (s, Wait)
  | (s, Crash) => (s, Crash)
  end.

(** tunnel_data.rs [run_connected_tunnel_data_session_with_ready_source_runtime_diagnostics_and_reporter] 1594-1657: one iteration of the loop: the ready state last
    sent, or [None] to return [Ok(())] *)
Definition data_iteration (fuel : nat) (last_ready : TunnelDataReadyState)
    : dact (option TunnelDataReadyState) :=
  _ ← on_runtime rt_tick;
  current_ready ← data_current_ready;
  o ← (if bool_decide (current_ready ≠ last_ready) then on_socket (send_ready_frame current_ready)
       else mret SendSent);
  match o with
  | SendClosed => mret None
  | SendSent =>
      sent ← drain_tunnel_session_runtime_frames fuel;
      _ ← record_drain sent;
      _ ← (if bool_decide (ws_frames sent = 0) then wait_for_runtime_frames fuel else mret tt);
      _ ← report_tunnel_data_diagnostics_if_due;
      _ ← diagnose record_socket_idle_read;
      read_result ← read_batch;
      match read_result with
      | None => mret None
      | Some None =>
          _ ← diagnose record_socket_idle_empty_read;
          mret (Some current_ready)
      | Some (Some frames) =>
          _ ← diagnose (record_socket_read_batch (len frames));
          _ ← handle_tunnel_data_session_frames frames;
          mret (Some current_ready)
      end
  end.

(** tunnel_data.rs [run_connected_tunnel_data_session_with_ready_source_runtime_diagnostics_and_reporter] 1593-1658: the loop *)
Fixpoint data_loop (fuel : nat) (last_ready : TunnelDataReadyState) (drain_fuel : nat) : dact unit :=
  match fuel with
  | O => wait
  | S fuel =>
      o ← data_iteration drain_fuel last_ready;
      match o with
      | None => mret tt
      | Some ready => data_loop fuel ready drain_fuel
      end
  end.

(** tunnel_data.rs [run_connected_tunnel_data_session_with_ready_source_runtime_diagnostics_and_reporter] *)
Definition run_connected_tunnel_data_session (fuel drain_fuel : nat) : dact unit :=
  now ← instant_now;
  _ ← set_last_report now;
  hello_ready ← data_current_ready;
  hello_payload ← try_ (encode_hello_payload agent_id_hint agent_version (ready_revision hello_ready));
  o ← on_socket (send_tunnel_data_ktp_frame (KtpFrame_connection Hello hello_payload));
  match o with
  | SendClosed => mret tt
  | SendSent =>
      a ← on_socket read_tunnel_data_hello_ack;
      match a with
      | ReadClosed => mret tt
      | ReadFrame =>
          _ ← on_runtime rt_tick;
          last_ready ← data_current_ready;
          o ← on_socket (send_ready_frame last_ready);
          match o with
          | SendClosed => mret tt
          | SendSent => data_loop fuel last_ready drain_fuel
          end
      end
  end.

(** tunnel_data.rs [run_tunnel_data_session_with_ready_source_runtime_diagnostics_and_reporter]
    (the result, the runtime, and the session when there was one) *)
Definition run_tunnel_data_session (connected : result TransportError U) (runtime : R)
    (diagnostics : Diagnostics) (fuel drain_fuel : nat)
    : R * option (DataSession U R) * outcome TransportError unit :=
  match connected with
  | Err error =>
      (runtime, None, if is_nonfatal_connect_error error then Done tt else Fail error)
  | Panic => (runtime, None, Crash)
  | Ok socket =>
      let '(s, result) := run_connected_tunnel_data_session fuel drain_fuel
                            (mkData socket runtime 0 0 diagnostics 0 []) in
      match result with
      | Wait | Crash => (dd_runtime s, Some s, result)
      | Done _ | Fail _ =>
          let '(runtime, cleanup_result) := rt_close_all_sessions (dd_runtime s) in
          (runtime, Some s,
           match result, cleanup_result with
           | Fail error, (Done _ | Fail _) => Fail error
           | _, cleanup => cleanup
           end)
      end
  end.
End session.

(** ** The entry points *)

(** tunnel_data.rs [run_tunnel_data_session_with_ready_source_runtime_and_diagnostics] *)
Definition run_tunnel_data_session_with_diagnostics {U R} `{!TunnelDataSocket U}
    `{!TunnelSessionRuntime R} (ready_at : nat → TunnelDataReadyState) (clock_at : nat → N)
    (agent_id_hint agent_version : string) (connected : result TransportError U) (runtime : R)
    (diagnostics : Diagnostics) (fuel drain_fuel : nat) :=
  run_tunnel_data_session ready_at clock_at agent_id_hint agent_version None connected runtime
    diagnostics fuel drain_fuel.

(** tunnel_data.rs [run_tunnel_data_session_with_ready_source_and_runtime] *)
Definition run_tunnel_data_session_with_runtime {U R} `{!TunnelDataSocket U}
    `{!TunnelSessionRuntime R} (ready_at : nat → TunnelDataReadyState) (clock_at : nat → N)
    (agent_id_hint agent_version : string) (connected : result TransportError U) (runtime : R)
    (fuel drain_fuel : nat) :=
  run_tunnel_data_session_with_diagnostics ready_at clock_at agent_id_hint agent_version connected
    runtime diagnostics_new fuel drain_fuel.

(** tunnel_data.rs [run_tunnel_data_session_with_ready_source] *)
Definition run_tunnel_data_session_with_ready_source {U} `{!TunnelDataSocket U}
    (ready_at : nat → TunnelDataReadyState) (clock_at : nat → N) (agent_id_hint agent_version : string)
    (connected : result TransportError U) (fuel drain_fuel : nat) :=
  run_tunnel_data_session_with_runtime (R:=unit) ready_at clock_at agent_id_hint agent_version connected
    tt fuel drain_fuel.

(** tunnel_data.rs [run_tunnel_data_session] *)
Definition run_tunnel_data_session_fixed_ready {U} `{!TunnelDataSocket U}
    (ready : TunnelDataReadyState) (clock_at : nat → N) (agent_id_hint agent_version : string)
    (connected : result TransportError U) (fuel drain_fuel : nat) :=
  run_tunnel_data_session_with_ready_source (fun _ => ready) clock_at agent_id_hint agent_version
    connected fuel drain_fuel.

(** ** The conversation of a session *)

Definition sent (log : list Traffic) : list KtpFrame :=
  omap (fun t => if t is Sent f then Some f else None) log.
Definition received (log : list Traffic) : list KtpFrame :=
  omap (fun t => if t is Received f then Some f else None) log.
Definition of_type (t : FrameType) (fs : list KtpFrame) : list KtpFrame :=
  filter (fun f => frame_type f = t) fs.

(** A sequence without the values that repeat their predecessor *)
Fixpoint changes_from {A} `{EqDecision A} (x : A) (l : list A) : list A :=
  match l with
  | [] => []
  | y :: l => if bool_decide (y ≠ x) then y :: changes_from y l else changes_from x l
  end.
Definition changes {A} `{EqDecision A} (l : list A) : list A :=
  match l with [] => [] | x :: l => x :: changes_from x l end.

(** The frame that reports a ready state, when it can be encoded *)
Definition ready_frame (r : TunnelDataReadyState) : option KtpFrame :=
  match encode_ready_payload r with
  | Ok p => Some (KtpFrame_connection Ready p)
  | _ => None
  end.
Definition hello_frame (agent_id_hint agent_version : string) (r : TunnelDataReadyState) : option KtpFrame :=
  match encode_hello_payload agent_id_hint agent_version (ready_revision r) with
  | Ok p => Some (KtpFrame_connection Hello p)
  | _ => None
  end.
Definition pong_of (ping : KtpFrame) : KtpFrame := KtpFrame_connection Pong (payload ping).

(** What may follow the HELLO *)
Definition later_frame (f : KtpFrame) : Prop :=
  frame_type f = Ready ∨ frame_type f = Pong ∨ session_frame f.

(** One HELLO, first; the READY frames are the ready states read after it, less repetitions
    and at most the last; the PONG frames answer the PING frames in order.  Nothing is
    missing when the session is [complete]. *)
Definition conversation (hello : option KtpFrame) (readies : list TunnelDataReadyState)
    (complete : Prop) (log : list Traffic) : Prop :=
  (∃ h rest, hello = Some h ∧ sent log = h :: rest ∧ Forall later_frame rest)
  ∧ (∃ owed, (Some <$> of_type Ready (sent log)) ++ (ready_frame <$> owed)
             = ready_frame <$> changes readies
             ∧ (length owed ≤ 1)%nat ∧ (complete → owed = []))
  ∧ (∃ owed, of_type Pong (sent log) ++ (pong_of <$> owed) = pong_of <$> of_type Ping (received log)
             ∧ (complete → owed = [])).

Section logs.
Lemma sent_app l k : sent (l ++ k) = sent l ++ sent k.
Proof. apply omap_app. Qed.
Lemma received_app l k : received (l ++ k) = received l ++ received k.
Proof. apply omap_app. Qed.
Lemma sent_Sent fs : sent (Sent <$> fs) = fs.
Proof. induction fs as [|f fs IH]; [done|]. cbn. f_equal. exact IH. Qed.
Lemma sent_Received fs : sent (Received <$> fs) = [].
Proof. induction fs as [|f fs IH]; [done|]. exact IH. Qed.
Lemma received_Sent fs : received (Sent <$> fs) = [].
Proof. induction fs as [|f fs IH]; [done|]. exact IH. Qed.
Lemma received_Received fs : received (Received <$> fs) = fs.
Proof. induction fs as [|f fs IH]; [done|]. cbn. f_equal. exact IH. Qed.
Lemma of_type_app t l k : of_type t (l ++ k) = of_type t l ++ of_type t k.
Proof. apply filter_app. Qed.
Lemma of_type_session t fs :
  is_connection_level t = true → Forall session_frame fs → of_type t fs = [].
Proof.
  intros Ht Hf. apply filter_none. intros f Hin E. eapply Forall_forall in Hf; [|done].
  unfold session_frame in Hf. congruence.
Qed.

Lemma changes_snoc {A} `{EqDecision A} (l : list A) x y :
  changes ((l ++ [x]) ++ [y]) = changes (l ++ [x]) ++ (if bool_decide (y ≠ x) then [y] else []).
Proof.
  destruct l as [|z l]; cbn; [by case_bool_decide|]. f_equal.
  revert z. induction l as [|w l IH]; intros z; cbn.
  - repeat case_bool_decide; cbn; repeat case_bool_decide; try done; naive_solver.
  - destruct (bool_decide (w ≠ z)); cbn; [f_equal|]; apply IH.
Qed.
End logs.

Section conversation_lemmas.
Context {U R : Type} `{!TunnelDataSocket U} `{!TunnelDataSocketLaws U}.
Context `{!TunnelSessionRuntime R} `{!TunnelSessionRuntimeLaws R}.
Context (ready_at : nat → TunnelDataReadyState) (clock_at : nat → N).
Context (agent_id_hint agent_version : string) (report_interval : option N).
Abbreviation session := (DataSession (U * list Traffic) R).
Implicit Types s : session.

Definition log_of s : list Traffic := (dd_socket s).2.
Definition readings (n : nat) : list TunnelDataReadyState := ready_at <$> seq 1 n.

(** After the HELLO and [n] values of the ready source: [owed] are the ready states and
    [pings] the PING frames that are not yet answered. *)
Record conv (n : nat) (owed : list TunnelDataReadyState) (pings : list KtpFrame) s : Prop := mkConv {
  conv_rt : rt_ok (dd_runtime s);
  conv_readies : dd_readies s = S n;
  conv_hello : ∃ h rest, hello_frame agent_id_hint agent_version (ready_at 0) = Some h
                 ∧ sent (log_of s) = h :: rest ∧ Forall later_frame rest;
  conv_ready : (Some <$> of_type Ready (sent (log_of s))) ++ (ready_frame <$> owed)
               = ready_frame <$> changes (readings n);
  conv_pong : of_type Pong (sent (log_of s)) ++ (pong_of <$> pings)
              = pong_of <$> of_type Ping (received (log_of s));
}.

(** The state in which a session may be left *)
Definition cut s : Prop := ∃ n owed pings, (length owed ≤ 1)%nat ∧ conv n owed pings s.

Lemma conv_cut n pings s : conv n [] pings s → cut s.
Proof. intros H. exists n, [], pings. split; [cbn; lia|done]. Qed.
#[local] Hint Resolve conv_cut : core.

(** Only the log, the runtime and the number of readings matter. *)
Definition same_view s s' : Prop :=
  log_of s' = log_of s ∧ dd_runtime s' = dd_runtime s ∧ dd_readies s' = dd_readies s.

Lemma conv_view n owed pings s s' : same_view s s' → conv n owed pings s → conv n owed pings s'.
Proof. intros (E1 & E2 & E3) []. by split; rewrite ?E1, ?E2, ?E3. Qed.

Lemma keeps_view n owed pings (f : session → session) :
  (∀ s, same_view s (f s)) → keeps (conv n owed pings) (modify (E:=TransportError) f).
Proof. intros Hf s. by apply conv_view. Qed.
#[local] Hint Extern 1 (keeps (conv _ _ _) (modify _)) => apply keeps_view; by repeat split : keeps.
#[local] Hint Extern 1 (keeps (conv _ _ _) (diagnose _)) => apply keeps_view; by repeat split : keeps.

Lemma keeps_now n owed pings : keeps (conv n owed pings) (instant_now clock_at).
Proof. intros s. by apply conv_view. Qed.

Lemma keeps_runtime {A} n owed pings (m : act R TransportError A) :
  keeps rt_ok m → keeps (conv n owed pings) (on_runtime m).
Proof.
  intros Hm s []. unfold on_runtime, on_field. specialize (Hm (dd_runtime s)).
  destruct (m (dd_runtime s)) as [rt r]. by split; [apply Hm|..].
Qed.
#[local] Hint Resolve keeps_now keeps_runtime tick_ok dwell_ok recent_dwell_ok batch_limit_ok : keeps.

Lemma keeps_report n owed pings :
  keeps (conv n owed pings) (report_tunnel_data_diagnostics_if_due clock_at report_interval).
Proof.
  unfold report_tunnel_data_diagnostics_if_due. destruct report_interval as [i|]; [|auto with keeps].
  apply keeps_bind; [auto with keeps|intros now]. apply keeps_bind; [auto with keeps|intros s].
  case_match; [auto with keeps|]. apply keeps_bind; [auto with keeps|intros snapshot].
  case_match; [|auto with keeps]. unfold add_report, set_last_report. eauto with keeps.
Qed.

Lemma keeps_record_drain n owed pings stats : keeps (conv n owed pings) (record_drain stats).
Proof. unfold record_drain. eauto 20 with keeps. Qed.
#[local] Hint Resolve keeps_report keeps_record_drain : keeps.

(** *** Sends *)
Definition with_log (u : U) (l : list Traffic) s : session := dd_set_socket (u, l) s.

Lemma wp_send f (Q : SendFrameOutcome → session → Prop) F s :
  (∀ u, Q SendSent (with_log u (log_of s ++ (Sent <$> [f])) s)) → (∀ u, F (with_log u (log_of s) s)) →
  wp (on_socket (send_tunnel_data_ktp_frame f)) Q F s.
Proof.
  intros HQ HF. apply wp_on_field. unfold log_of in *. destruct (dd_socket s) as [u l].
  unfold wp, send_tunnel_data_ktp_frame. cbn. pose proof (send_not_closed f u) as Hn.
  destruct (send_ktp_frame f u) as [u1 [[]|e| |]]; cbn in *; [apply HQ| |apply HF..].
  destruct e; try apply HF. by destruct Hn.
Qed.

(** A send that is still under way *)
Definition some_send_waits : Prop := ∃ (fs : list KtpFrame) (u : U), (send_ktp_frame_batch fs u).2 = Wait.

Lemma send_batch_cases fs s :
  match on_socket (send_tunnel_session_runtime_frame_batch fs) s with
  | (s', Done k) => k = len fs ∧ ∃ u, s' = with_log u (log_of s ++ (Sent <$> fs)) s
  | (s', r) => (∃ u, s' = with_log u (log_of s) s) ∧ (r = Wait → some_send_waits)
  end.
Proof.
  unfold on_socket, on_field, log_of, send_tunnel_session_runtime_frame_batch.
  destruct (dd_socket s) as [u l] eqn:Hs. destruct fs as [|f fs].
  { split; [done|]. exists u. cbn. by rewrite app_nil_r. }
  unfold mbind, act_bind, send_tunnel_data_ktp_frame_batch. cbn [send_ktp_frame_batch logged_socket].
  pose proof (send_batch_not_closed (f :: fs) u) as Hn.
  destruct (send_ktp_frame_batch (f :: fs) u) as [u1 r1] eqn:Hr. destruct r1 as [[]|e| |]; cbn [snd] in *.
  - split; [done|]. by exists u1.
  - destruct e; try (by split; [exists u1|]). by destruct Hn.
  - split; [by exists u1|]. intros _. exists (f :: fs), u. by rewrite Hr.
  - by split; [exists u1|].
Qed.

Lemma wp_send_batch fs (Q : N → session → Prop) F s :
  (∀ u, Q (len fs) (with_log u (log_of s ++ (Sent <$> fs)) s)) → (∀ u, F (with_log u (log_of s) s)) →
  wp (on_socket (send_tunnel_session_runtime_frame_batch fs)) Q F s.
Proof.
  intros HQ HF. pose proof (send_batch_cases fs s) as Hc. unfold wp.
  destruct (on_socket _ s) as [s1 [k|e| |]]; naive_solver.
Qed.

Lemma conv_same n owed pings u s : conv n owed pings s → conv n owed pings (with_log u (log_of s) s).
Proof. by apply conv_view. Qed.

(** Frames that pay part of what is owed *)
Lemma conv_append n owed owed' pings pings' fs u s :
  Forall later_frame fs →
  (Some <$> of_type Ready fs) ++ (ready_frame <$> owed') = ready_frame <$> owed →
  of_type Pong fs ++ (pong_of <$> pings') = pong_of <$> pings →
  conv n owed pings s → conv n owed' pings' (with_log u (log_of s ++ (Sent <$> fs)) s).
Proof.
  intros Hf Hready Hpong [H1 H2 (h & rest & Hh & Hs & Hr) H4 H5].
  split; unfold with_log, log_of in *; cbn [dd_socket dd_set_socket snd]; try done;
    rewrite ?sent_app, ?received_app, ?sent_Sent, ?received_Sent, ?app_nil_r, ?of_type_app.
  - exists h, (rest ++ fs). rewrite Hs. split_and!; [done|done|]. by apply Forall_app.
  - by rewrite fmap_app, <- app_assoc, Hready.
  - by rewrite <- app_assoc, Hpong.
Qed.

(** Frames of sessions may be sent at any time. *)
Lemma conv_session n owed pings u fs s :
  Forall session_frame fs → conv n owed pings s →
  conv n owed pings (with_log u (log_of s ++ (Sent <$> fs)) s).
Proof.
  intros Hf. apply conv_append; [|by rewrite of_type_session..].
  eapply Forall_impl; [done|]. intros f Hs. by right; right.
Qed.

(** The READY that is owed *)
Lemma conv_send_ready n r p u s :
  ready_frame r = Some p → conv n [r] [] s → conv n [] [] (with_log u (log_of s ++ (Sent <$> [p])) s).
Proof.
  intros Hp.
  assert (frame_type p = Ready) as Ht.
  { unfold ready_frame in Hp. destruct (encode_ready_payload r); by simplify_eq/=. }
  apply conv_append; [by constructor; [left|]|..]; unfold of_type.
  - by rewrite filter_cons_True, filter_nil by done; cbn; rewrite Hp.
  - by rewrite filter_cons_False by (by rewrite Ht).
Qed.

(** The PONG that is owed *)
Lemma conv_send_pong n f pings u s :
  conv n [] (f :: pings) s → conv n [] pings (with_log u (log_of s ++ (Sent <$> [pong_of f])) s).
Proof. apply conv_append; [|done..]. constructor; [by right; left|done]. Qed.

(** *** The loop *)
Abbreviation J n s := (conv n [] [] s).

Lemma wp_keeps {A} n pings (m : act session TransportError A) s (Q : A → session → Prop) :
  keeps (conv n [] pings) m → conv n [] pings s → (∀ a s', conv n [] pings s' → Q a s') → wp m Q cut s.
Proof. intros Hm Hs HQ. eapply wp_mono; [by apply keeps_wp|auto|cbn beta; eauto]. Qed.

(** Frames the runtime hands out, sent or dropped with the connection *)
Lemma wp_frames n pings (m : act R TransportError (list KtpFrame)) s (Q : list KtpFrame → session → Prop) :
  (∀ rt, rt_ok rt → wp m (fun fs rt => rt_ok rt ∧ Forall session_frame fs) rt_ok rt) →
  conv n [] pings s → (∀ fs s', Forall session_frame fs → conv n [] pings s' → Q fs s') →
  wp (on_runtime m) Q cut s.
Proof.
  intros Hm Hc HQ. apply wp_on_field. eapply wp_mono; [apply Hm, Hc| |].
  - intros fs rt [Hrt Hf]. apply HQ; [done|]. by destruct Hc; split.
  - intros rt Hrt. apply (conv_cut n pings). by destruct Hc; split.
Qed.

Lemma wp_send_frames n pings fs s (Q : N → session → Prop) :
  Forall session_frame fs → conv n [] pings s → (∀ k s', conv n [] pings s' → Q k s') →
  wp (on_socket (send_tunnel_session_runtime_frame_batch fs)) Q cut s.
Proof.
  intros Hf Hc HQ. apply wp_send_batch; intros u.
  - by apply HQ, conv_session.
  - apply (conv_cut n pings). by apply conv_same.
Qed.

Lemma wp_drain_loop fuel n max stats s :
  J n s → wp (drain_loop fuel max stats) (fun _ s => J n s) cut s.
Proof.
  revert stats s. induction fuel as [|fuel IH]; intros stats s Hs; [by apply (conv_cut n [])|].
  cbn [drain_loop]. apply wp_bind. eapply wp_frames; [apply next_ok|done|].
  intros [|f fs] s1 Hf Hs1; [done|]. apply wp_bind. eapply wp_send_frames; [done|done|]. auto.
Qed.

Lemma wp_drain fuel n s :
  J n s → wp (drain_tunnel_session_runtime_frames fuel) (fun _ s => J n s) cut s.
Proof.
  intros Hs. unfold drain_tunnel_session_runtime_frames, tunnel_session_runtime_frame_batch_limit.
  apply wp_bind. eapply wp_keeps; [eauto with keeps|done|]. intros max s1 Hs1. by apply wp_drain_loop.
Qed.

Lemma wp_wait_for_runtime fuel n s :
  J n s → wp (wait_for_runtime_frames clock_at report_interval fuel) (fun _ s => J n s) cut s.
Proof.
  intros Hs. unfold wait_for_runtime_frames. apply wp_bind. unfold wp at 1, get.
  destruct (rt_client_frame_wait_timeout (dd_runtime s)) as [t|]; [|done].
  apply wp_bind. eapply wp_keeps; [eauto with keeps|done|]. intros t0 s1 Hs1.
  apply wp_bind. eapply (wp_mono _ (fun _ s => J n s)); [|intros waited s2 Hs2|done].
  - unfold drain_tunnel_session_runtime_frames_after_wait, tunnel_session_runtime_frame_batch_limit.
    apply wp_bind. eapply wp_keeps; [eauto with keeps|done|]. intros max s2 Hs2. cbn zeta.
    apply wp_bind. eapply wp_frames; [apply next_after_wait_ok|done|].
    intros [|f fs] s3 Hf Hs3; [done|]. apply wp_bind. eapply wp_send_frames; [done|done|].
    intros k s4 Hs4. apply wp_bind. eapply wp_mono; [by apply wp_drain|done|done].
  - apply wp_bind. eapply wp_keeps; [eauto with keeps|done|]. intros now s3 Hs3.
    apply wp_bind. eapply wp_keeps; [eauto with keeps|done|]. intros _ s4 Hs4.
    apply wp_bind. eapply wp_keeps; [eauto with keeps|done|]. intros _ s5 Hs5.
    eapply wp_keeps; [|done|done]. case_match; eauto with keeps.
Qed.

Lemma wp_handle_frame n f pings s :
  conv n [] (of_type Ping [f] ++ pings) s →
  wp (handle_tunnel_data_session_frame f) (fun _ s => conv n [] pings s) cut s.
Proof.
  unfold handle_tunnel_data_session_frame, of_type.
  destruct (decide (frame_type f = Ping)) as [Ht|Ht].
  - rewrite filter_cons_True, Ht by done. cbn [app filter]. intros Hs. apply wp_bind.
    apply wp_send; intros u; [by apply conv_send_pong|]. eapply conv_cut, conv_same, Hs.
  - rewrite filter_cons_False by done. cbn [app filter]. intros Hs.
    assert (wp (responses ← on_runtime (rt_handle_server_frame f);
                for_each responses (fun response =>
                  _ ← on_socket (send_tunnel_data_ktp_frame response); mret tt))
              (fun _ s => conv n [] pings s) cut s) as Hr; [|by destruct (frame_type f)].
    apply wp_bind. eapply wp_frames; [apply handle_ok|done|]. intros fs s1 Hf Hs1.
    eapply wp_mono; [apply (wp_for_each (fun fs s => Forall session_frame fs ∧ conv n [] pings s) cut)
                    |by intros _ s2 [_ H]|done]; [|done].
    intros g l s2 [Hg Hs2]. apply Forall_cons in Hg as [Hg Hl]. apply wp_bind.
    apply wp_send; intros u; [|by eapply conv_cut, conv_same, Hs2]. split; [done|].
    apply conv_session; [by constructor|done].
Qed.

Lemma wp_handle_frames n fs s :
  conv n [] (of_type Ping fs) s →
  wp (handle_tunnel_data_session_frames fs) (fun _ s => J n s) cut s.
Proof.
  intros Hs. apply (wp_for_each (fun fs s => conv n [] (of_type Ping fs) s) cut); [|done].
  intros f l s1 Hs1. apply wp_handle_frame. by rewrite <- of_type_app.
Qed.

(** The frames a read returns; a closed connection ends the session. *)
Lemma wp_read_batch n s :
  J n s →
  wp read_batch (fun o s => conv n [] (of_type Ping (default [] (o ≫= id))) s) cut s.
Proof.
  intros Hs. unfold wp, read_batch, on_socket, on_field.
  destruct (dd_socket s) as [u l] eqn:Hl. cbn [read_optional_ktp_frame_batch logged_socket].
  assert (∀ u' l', l' = l → J n (dd_set_socket (u', l') s)) as Hkeep.
  { intros u' l' ->. eapply conv_view; [|done]. unfold same_view, log_of. by rewrite Hl. }
  destruct (read_optional_ktp_frame_batch _ _ u) as [u1 [[fs|]|e| |]]; cbn;
    try (by apply Hkeep); try (by eapply conv_cut, Hkeep).
  - destruct Hs as [H1 H2 H3 H4 H5]. unfold log_of in *. rewrite Hl in *. cbn [snd] in *.
    split; unfold log_of; cbn [dd_socket dd_set_socket snd dd_runtime dd_readies]; try done;
      rewrite ?sent_app, ?sent_Received, ?app_nil_r; try done.
    + exact (eq_trans (eq_sym (app_nil_r _)) H4).
    + rewrite received_app, received_Received, of_type_app, fmap_app, <- H5, <- app_assoc. done.
  - destruct e; cbn; try (by apply Hkeep); by eapply conv_cut, Hkeep.
Qed.

(** A reading of the ready source, and the READY it may call for *)
Lemma readings_S n : readings (S n) = readings n ++ [ready_at (S n)].
Proof. unfold readings. rewrite seq_S, fmap_app. done. Qed.

Lemma conv_current_ready n s : J n s → ∃ s', data_current_ready ready_at s = (s', Done (ready_at (S n)))
  ∧ conv (S n) (if bool_decide (n = O ∨ ready_at (S n) ≠ ready_at n) then [ready_at (S n)] else []) [] s'.
Proof.
  intros [H1 H2 H3 H4 H5]. unfold data_current_ready. rewrite H2. eexists. split; [done|].
  split; cbn [dd_runtime dd_readies]; rewrite ?H2; [done|done|exact H3| |exact H5].
  unfold log_of in *. cbn [dd_socket]. apply (eq_trans (eq_sym (app_nil_r _))) in H4.
  rewrite H4, readings_S. destruct n as [|n].
  - by rewrite bool_decide_true by auto.
  - rewrite readings_S, changes_snoc, fmap_app. f_equal. f_equal.
    erewrite (bool_decide_ext (S n = O ∨ _)); [done|]. naive_solver.
Qed.

Lemma wp_send_ready n r s :
  conv n [r] [] s → wp (on_socket (send_ready_frame r)) (fun o s => o = SendSent ∧ J n s) cut s.
Proof.
  intros Hs. assert (∀ u, cut (with_log u (log_of s) s)) as Hcut.
  { intros u. exists n, [r], []. split; [cbn; lia|]. by apply conv_same. }
  assert (ready_frame r = match encode_ready_payload r with
            Ok p => Some (KtpFrame_connection Ready p) | _ => None end) as Hr by done.
  assert (with_log (dd_socket s).1 (log_of s) s = s) as Hw.
  { unfold with_log, log_of. destruct s as [[] ? ? ? ? ? ?]. done. }
  unfold send_ready_frame. apply wp_on_field, wp_bind, wp_try.
  - intros p Hp. rewrite Hp in Hr.
    apply (wp_on_field dd_socket dd_set_socket _ (fun o s => o = SendSent ∧ J n s) cut s).
    apply wp_send; [|exact Hcut]. intros u. split; [done|].
    by eapply conv_send_ready.
  - intros _. specialize (Hcut (dd_socket s).1). rewrite Hw in Hcut. by destruct s.
Qed.

Lemma wp_iteration fuel n s :
  J (S n) s →
  wp (data_iteration ready_at clock_at report_interval fuel (ready_at (S n)))
    (fun o s => J (S (S n)) s ∧ (o = None ∨ o = Some (ready_at (S (S n))))) cut s.
Proof.
  intros Hs. unfold data_iteration. apply wp_bind.
  eapply wp_keeps; [apply keeps_runtime, tick_ok|done|]. intros _ s1 Hs1. apply wp_bind.
  apply conv_current_ready in Hs1 as (s2 & Hr & Hs2). unfold wp at 1. rewrite Hr.
  rewrite (bool_decide_ext _ (ready_at (S (S n)) ≠ ready_at (S n))) in Hs2 by naive_solver.
  apply wp_bind. eapply (wp_mono _ (fun o s => o = SendSent ∧ J (S (S n)) s)); [|intros o s3 [-> Hs3]|done].
  { case_bool_decide; [by apply wp_send_ready|done]. }
  clear Hs2.
  apply wp_bind. eapply wp_mono; [by apply wp_drain|cbn beta|done]. intros stats s4 Hs4.
  apply wp_bind. eapply wp_keeps; [eauto with keeps|done|]. intros _ s5 Hs5.
  apply wp_bind. eapply (wp_mono _ (fun _ s => J (S (S n)) s)); [|intros _ s6 Hs6|done].
  { case_bool_decide; [by apply wp_wait_for_runtime|done]. }
  apply wp_bind. eapply wp_keeps; [eauto with keeps|done|]. intros _ s7 Hs7.
  apply wp_bind. eapply wp_keeps; [eauto with keeps|done|]. intros _ s8 Hs8.
  apply wp_bind. eapply wp_mono; [by apply wp_read_batch|cbn beta|done].
  intros [[fs|]|] s9 Hs9; cbn in Hs9; [| |by split; [|left]].
  - apply wp_bind. eapply wp_keeps; [eauto with keeps|done|]. intros _ s10 Hs10.
    apply wp_bind. eapply wp_mono; [by apply wp_handle_frames|cbn beta|done]. by intros _ s11 Hs11; split; [|right].
  - apply wp_bind. eapply wp_keeps; [eauto with keeps|done|]. by intros _ s10 Hs10; split; [|right].
Qed.

Lemma wp_data_loop fuel drain_fuel n s :
  J (S n) s →
  wp (data_loop ready_at clock_at report_interval fuel (ready_at (S n)) drain_fuel)
    (fun _ s => ∃ n, J n s) cut s.
Proof.
  revert n s. induction fuel as [|fuel IH]; intros n s Hs; cbn [data_loop].
  { by apply (conv_cut (S n) []). }
  apply wp_bind. eapply wp_mono; [by apply wp_iteration|cbn beta|done].
  intros o s1 [Hs1 [->| ->]]; [|by apply IH]. by exists (S (S n)).
Qed.

Lemma wp_hello_ack n s :
  J n s → wp (on_socket read_tunnel_data_hello_ack) (fun _ s => J n s) cut s.
Proof.
  intros Hs. unfold wp, on_socket, on_field, read_tunnel_data_hello_ack.
  destruct (dd_socket s) as [u l] eqn:Hl. cbn [read_frame logged_socket].
  assert (∀ u', J n (dd_set_socket (u', l) s)) as Hkeep.
  { intros u'. eapply conv_view; [|done]. unfold same_view, log_of. by rewrite Hl. }
  assert (∀ u', cut (dd_set_socket (u', l) s)) as Hcut by eauto.
  destruct (read_frame u) as [u1 [bytes|e| |]]; [|destruct e; auto|auto..].
  unfold mbind, act_bind, try_. destruct (frame_error _) as [f|e|]; [|auto..].
  case_bool_decide; cbn; auto.
Qed.

Lemma wp_session fuel drain_fuel u rt d :
  rt_ok rt →
  wp (run_connected_tunnel_data_session ready_at clock_at agent_id_hint agent_version report_interval
        fuel drain_fuel)
    (fun _ s => ∃ n, J n s) (fun s => log_of s = [] ∨ cut s) (mkData (u, []) rt 0 0 d 0 []).
Proof.
  intros Hrt. unfold run_connected_tunnel_data_session.
  apply wp_bind. unfold wp at 1, instant_now at 1. apply wp_bind. unfold wp at 1, set_last_report, modify.
  apply wp_bind. unfold wp at 1, data_current_ready at 1.
  cbn [dd_socket dd_runtime dd_readies dd_clock dd_diagnostics dd_last_report dd_reports].
  apply wp_bind, wp_try; [|by left]. intros p Hp. apply wp_bind. apply wp_send; [|by left]. intros u1.
  set (s0 := with_log _ _ _).
  assert (J 0 s0) as H0.
  { split; try done. exists (KtpFrame_connection Hello p), []. split_and!; [|done|done].
    unfold hello_frame. by rewrite Hp. }
  clearbody s0. apply wp_bind. eapply wp_mono; [by apply wp_hello_ack|cbn beta|auto].
  intros [] s1 Hs1; [|by exists 0%nat]. apply wp_bind.
  eapply wp_mono; [eapply (wp_keeps 0 []); [apply keeps_runtime, tick_ok|done|intros a s2 Hs2; exact Hs2]|cbn beta|auto].
  intros _ s2 Hs2. apply wp_bind. apply conv_current_ready in Hs2 as (s3 & Hr & Hs3).
  unfold wp at 1. rewrite Hr. rewrite bool_decide_true in Hs3 by auto.
  apply wp_bind. eapply wp_mono; [by apply wp_send_ready|cbn beta|auto]. intros o s4 [-> Hs4].
  eapply wp_mono; [by apply wp_data_loop|done|auto].
Qed.
End conversation_lemmas.

(** ** Draining the runtime of the agent *)
Section tcp_drain.
Context {U : Type} `{!TunnelDataSocket U} `{!TunnelDataSocketLaws U} (env : RuntimeEnv).
#[local] Instance tcp_runtime_of : TunnelSessionRuntime TunnelTcpRuntime := tcp_session_runtime env.
Abbreviation tcp_session := (DataSession (U * list Traffic) TunnelTcpRuntime).
Implicit Types s : tcp_session.

Definition queue_of s : list KtpFrame := queued_frame <$> outbound (rt_core (dd_runtime s)).

Definition record_batches (stats : TunnelDataWriteBatchStats) (batches : list (list KtpFrame)) :=
  foldl (fun stats b => record_write_batch (len b) stats) stats batches.

Lemma record_batches_spec batches stats max :
  Forall (fun b => 1 ≤ len b ≤ max) batches → ws_max_batch_frames stats ≤ max →
  let st := record_batches stats batches in
  ws_batches st = ws_batches stats + len batches
  ∧ ws_frames st = ws_frames stats + len (concat batches) ∧ ws_max_batch_frames st ≤ max.
Proof.
  intros Hb. revert stats. induction Hb as [|b bs [H1 H2] Hb IH]; intros stats Hm; cbn zeta.
  { unfold len. cbn. lia. }
  change (record_batches stats (b :: bs)) with (record_batches (record_write_batch (len b) stats) bs).
  assert (ws_batches (record_write_batch (len b) stats) = ws_batches stats + 1
    ∧ ws_frames (record_write_batch (len b) stats) = ws_frames stats + len b
    ∧ ws_max_batch_frames (record_write_batch (len b) stats) ≤ max) as (E1 & E2 & E3).
  { unfold record_write_batch. rewrite bool_decide_false by lia. cbn. lia. }
  destruct (IH _ E3) as (-> & -> & E4). rewrite E1, E2. split_and!; [| |done].
  - unfold len. cbn [length]. lia.
  - unfold len. cbn [concat]. rewrite length_app. lia.
Qed.

Lemma tcp_next_frames max s :
  ∃ rt, on_runtime (rt_next_client_frames max) s
        = (dd_set_runtime rt s, Done (take (N.to_nat max) (queue_of s)))
        ∧ queue_of (dd_set_runtime rt s) = drop (N.to_nat max) (queue_of s).
Proof.
  destruct (queue_drain_run (env_now env) max (rt_core (dd_runtime s))) as [st Hr]. cbn zeta in Hr.
  cbn [rt_next_client_frames tcp_runtime_of tcp_session_runtime].
  unfold on_runtime, on_field, next_client_frames, call_core, core_next_frames, mbind, act_bind.
  rewrite Hr. cbn. eexists. split; [by rewrite fmap_take|]. unfold queue_of. cbn. by rewrite fmap_drop.
Qed.

Lemma tcp_drain_loop fuel max stats s :
  1 ≤ max → (length (queue_of s) < fuel)%nat →
  ∃ batches, let '(s', r) := drain_loop fuel max stats s in
  Forall (fun b => 1 ≤ len b ≤ max) batches ∧ queue_of s = concat batches ++ queue_of s'
  ∧ match r with
    | Done st => queue_of s' = [] ∧ log_of s' = log_of s ++ (Sent <$> queue_of s)
                 ∧ st = record_batches stats batches
    | Wait => some_send_waits
    | _ => True
    end.
Proof.
  intros Hmax. revert stats s. induction fuel as [|fuel IH]; intros stats s Hf; [lia|].
  cbn [drain_loop]. destruct (tcp_next_frames max s) as (rt & Hr & Hq).
  unfold mbind at 1, act_bind at 1. rewrite Hr.
  set (s1 := dd_set_runtime rt s) in *. remember (take (N.to_nat max) (queue_of s)) as b eqn:Hb.
  assert (queue_of s = b ++ queue_of s1) as Hsplit by (rewrite Hq, Hb; symmetry; apply take_drop).
  apply (f_equal length) in Hb, Hsplit as Hl. rewrite length_app in Hl. rewrite length_take in Hb.
  destruct b as [|f fs].
  { exists []. assert (queue_of s = []) as E by (destruct (queue_of s); cbn in Hb; [done|lia]).
    rewrite E in Hsplit |- *. cbn in *. rewrite <- Hsplit, app_nil_r. done. }
  set (b := f :: fs) in *. assert (1 ≤ len b ≤ max) as Hlen by (unfold len, b in *; cbn in *; lia).
  pose proof (send_batch_cases b s1) as Hsend. unfold mbind at 1, act_bind at 1.
  destruct (on_socket _ s1) as [s2 [k|e| |]]; [|destruct Hsend as [[u ->] Hw]..].
  - destruct Hsend as [-> [u ->]]. set (s2 := with_log _ _ _).
    destruct (IH (record_write_batch (len b) stats) s2) as [bs Hbs]; [unfold b in *; cbn in Hl; change (queue_of s2) with (queue_of s1); lia|].
    destruct (drain_loop fuel max _ s2) as [s3 r]. destruct Hbs as (H1 & H2 & H3).
    exists (b :: bs). split_and!; [by constructor|cbn [concat]; by rewrite <- app_assoc, <- H2|].
    destruct r; [|done..]. destruct H3 as (H3 & H4 & ->). split_and!; [done| |done].
    change (queue_of s2) with (queue_of s1) in H4. rewrite H4, Hsplit, fmap_app, (assoc_L (++)). done.
  - exists [b]. split_and!; [by repeat constructor; lia|cbn [concat]; by rewrite app_nil_r|done].
  - exists [b]. split_and!; [by repeat constructor; lia|cbn [concat]; by rewrite app_nil_r|auto].
  - exists [b]. split_and!; [by repeat constructor; lia|cbn [concat]; by rewrite app_nil_r|done].
Qed.

Lemma tcp_batch_limit s :
  ∃ r, tunnel_session_runtime_frame_batch_limit s = (s, r)
  ∧ (∀ max, r = Done max → 1 ≤ max ≤ TUNNEL_DATA_FRAME_BATCH_LIMIT) ∧ r ≠ Wait.
Proof.
  unfold tunnel_session_runtime_frame_batch_limit, on_runtime, on_field. unfold mbind at 1, act_bind at 1.
  cbn [rt_client_frame_batch_limit tcp_runtime_of tcp_session_runtime].
  unfold client_frame_batch_limit, call_core, effective_outbound_batch_frames.
  cbv [mbind act_bind get try_ mret act_ret].
  assert (dd_set_runtime (set_core (rt_core (dd_runtime s)) (dd_runtime s)) s = s) as Hs.
  { destruct s as [? [] ? ? ? ? ?]. done. }
  destruct (stats_snapshot (stats (rt_core (dd_runtime s)))) as [snap|e|]; cbn; rewrite ?Hs;
    (eexists; split; [done|split; [|done]]; intros max [= <-]).
  unfold TUNNEL_DATA_FRAME_BATCH_LIMIT. lia.
Qed.
End tcp_drain.

(** ** Cleaning up *)
Section cleanup.
Implicit Types c : AsyncTunnelCore.

(** Neither the reader nor the channel of a connection is kept alive. *)
Definition released c (n : N) : Prop :=
  ∀ k, conns c !! n = Some k → sender_alive k = false ∧ reader_alive k = false.

Lemma drop_entry_released c p n : released c n ∨ n = p.2 → released (drop_entry p c) n.
Proof.
  unfold released, drop_entry. intros Hn k. destruct (conns c !! p.2) as [k0|] eqn:Hk; cbn.
  - destruct (decide (n = p.2)) as [->|Hne].
    + rewrite lookup_insert_eq. by intros [= <-].
    + rewrite lookup_insert_ne by done. destruct Hn; [auto|done].
  - destruct Hn as [Hn| ->]; [auto|]. by rewrite Hk.
Qed.

Lemma drop_entries_released l c n :
  released c n ∨ n ∈ l.*2 → released (foldl (fun c p => drop_entry p c) c l) n.
Proof.
  revert c. induction l as [|p l IH]; intros c; cbn; [by intros [|?%elem_of_nil]|].
  intros [H|[->|H]%elem_of_cons]; apply IH; [left; apply drop_entry_released; auto..|by right].
Qed.

Lemma drop_entries_sessions l c : sessions (foldl (fun c p => drop_entry p c) c l) = sessions c.
Proof.
  revert c. induction l as [|p l IH]; intros c; cbn; [done|]. rewrite IH. unfold drop_entry. by case_match.
Qed.
End cleanup.

(** ** Theorems *)

(** C7: A data session is a well-formed conversation, whatever the server sends, whichever
    sends fail and whatever the runtime does: HELLO is sent once and first; READY is sent
    for the ready states read after it, in order, each time they differ from the one before,
    with at most the latest missing when the session breaks off; every PING received is
    answered by a PONG with its payload, in order; all else are frames of the runtime's
    sessions.  Nothing is missing when the session ends in order. *)
Theorem data_session_conversation {U R} `{!TunnelDataSocket U} `{!TunnelDataSocketLaws U}
    `{!TunnelSessionRuntime R} `{!TunnelSessionRuntimeLaws R} ready_at clock_at id version interval
    (u : U) (rt : R) d fuel drain_fuel rt' s r :
  rt_ok rt →
  run_tunnel_data_session ready_at clock_at id version interval (Ok (u, [])) rt d fuel drain_fuel
  = (rt', Some s, r) →
  (log_of s = [] ∧ r ≠ Done tt)
  ∨ conversation (hello_frame id version (ready_at 0%nat)) (readings ready_at (dd_readies s - 1))
      (r = Done tt) (log_of s).
Proof.
  intros Hrt H. unfold run_tunnel_data_session in H.
  pose proof (wp_session ready_at clock_at id version interval fuel drain_fuel u rt d Hrt) as Hw.
  unfold wp in Hw. destruct (run_connected_tunnel_data_session _ _ _ _ _ _ _ _) as [s1 r1].
  assert (∀ n owed pings, conv ready_at id version n owed pings s1 → (length owed ≤ 1)%nat →
    (r = Done tt → owed = [] ∧ pings = []) →
    conversation (hello_frame id version (ready_at 0%nat)) (readings ready_at (dd_readies s1 - 1))
      (r = Done tt) (log_of s1)) as Hconv.
  { intros n owed pings [H1 H2 H3 H4 H5] Hl Hdone. rewrite H2. cbn [Nat.sub]. rewrite Nat.sub_0_r.
    split_and!; [done|exists owed; naive_solver|exists pings; naive_solver]. }
  destruct r1 as [[]|e| |].
  - destruct (rt_close_all_sessions (dd_runtime s1)) as [rt1 cl]. destruct Hw as [n Hn].
    injection H as <- <- <-. right. apply (Hconv n [] []); [done|cbn; lia|done].
  - destruct (rt_close_all_sessions (dd_runtime s1)) as [rt1 cl].
    assert (r ≠ Done tt ∧ s = s1) as [Hne ->] by (destruct cl; simplify_eq; done).
    destruct Hw as [Hw|(n & owed & pings & Hl & Hn)]; [by left|right]. by eapply Hconv.
  - injection H as <- <- <-. destruct Hw as [Hw|(n & owed & pings & Hl & Hn)]; [by left|right]. by eapply Hconv.
  - injection H as <- <- <-. destruct Hw as [Hw|(n & owed & pings & Hl & Hn)]; [by left|right]. by eapply Hconv.
Qed.



(** Reconnection backs off: after [k] failed attempts in a row the delay is 5 s doubled
    [k] times, at most 60 s; after a session that succeeded it is 15 s. *)
Theorem reconnect_backoff k :
  let failed := Nat.iter k (fun delay => (tunnel_data_reconnect_delay_after_attempt delay false).2) (from_secs 5) in
  (tunnel_data_reconnect_delay_after_attempt failed false).1 = N.min (from_secs 5 * 2 ^ N.of_nat k) (from_secs 60)
  ∧ (tunnel_data_reconnect_delay_after_attempt failed true).1 = from_secs 15
  ∧ (tunnel_data_reconnect_delay_after_attempt failed true).2 ≤ from_secs 60.
Proof.
  cbn zeta. set (step := fun delay => (tunnel_data_reconnect_delay_after_attempt delay false).2).
  assert (∀ p, p ≠ 0 → N.min (from_secs 5 * p) (from_secs 60) ≠ 0) as Hnz by (unfold from_secs; lia).
  assert (∀ n, 2 ^ n ≠ 0) as Hp by (intros n; by apply N.pow_nonzero).
  assert (Nat.iter k step (from_secs 5) = N.min (from_secs 5 * 2 ^ N.of_nat k) (from_secs 60)) as ->.
  { induction k as [|k IH]; [done|]. rewrite Nat.iter_succ, IH, Nat2N.inj_succ, N.pow_succ_r'.
    assert (from_secs 120 ≤ DURATION_MAX) by by_decide.
    unfold step, tunnel_data_reconnect_delay_after_attempt, checked_add. cbn [snd]. cbv zeta.
    rewrite (bool_decide_false (N.min _ _ = 0)) by auto. cbn iota.
    rewrite bool_decide_true by (unfold from_secs in *; lia). unfold from_option, id, from_secs in *. lia. }
  unfold tunnel_data_reconnect_delay_after_attempt. rewrite bool_decide_false by auto. cbn [fst snd].
  split_and!; [done|done|lia].
Qed.

(** ** Witnesses *)
Module DataDemo.
Definition bytes (f : KtpFrame) : list byte := match encode_frame f with Ok b => b | _ => [] end.
Definition ping : KtpFrame := KtpFrame_connection Ping [x70].
(** The server acknowledges the HELLO, pings, is silent once, and closes. *)
Definition socket : WsSocket :=
  mkWs [WsBinary (bytes (KtpFrame_connection HelloAck [])); WsBinary (bytes ping); WsIdle; WsClose] [] [].
Definition ready1 : TunnelDataReadyState := mkReady "r1" [1] [] [].
Definition ready2 : TunnelDataReadyState := mkReady "r2" [1] [2] [].
Definition ready_at (n : nat) : TunnelDataReadyState := if (n <? 3)%nat then ready1 else ready2.
Definition env : RuntimeEnv := mkEnv (fun _ => None) (fun _ => DialOk) (fun _ c => c) (fun c => c) 5.
Definition queued : TunnelTcpRuntime :=
  set_core (set_outbound [mkQueued RuntimeDemo.open_frame 0; mkQueued RuntimeDemo.data_frame 1]
    (rt_core RuntimeDemo.busy)) RuntimeDemo.busy.
Abbreviation run := (run_tunnel_data_session (TunnelSessionRuntime0 := tcp_session_runtime env)
  ready_at (fun n => N.of_nat n) "" "1.0" None (Ok (socket, [])) queued diagnostics_new 9 9).
Lemma env_fine : env_ok env.
Proof. by split. Qed.
Lemma queued_ok : runtime_queue_ok queued.
Proof. by repeat constructor. Qed.
End DataDemo.

Lemma data_session_conversation_witness :
  ∃ s, DataDemo.run.1.2 = Some s ∧ DataDemo.run.2 = Done tt
    ∧ (frame_type <$> sent (log_of s)) = [Hello; Ready; SessionOpen; SessionData; Pong; Ready]
    ∧ ((log_of s = [] ∧ DataDemo.run.2 ≠ Done tt)
       ∨ conversation (hello_frame "" "1.0" (DataDemo.ready_at 0))
           (readings DataDemo.ready_at (dd_readies s - 1)) (DataDemo.run.2 = Done tt) (log_of s)).
Proof.
  destruct DataDemo.run as [[rt [s|]] r] eqn:Hrun.
  - exists s. assert (DataDemo.run.2 = Done tt) as Hr by (vm_compute; reflexivity).
    assert (match DataDemo.run.1.2 with Some s => frame_type <$> sent (log_of s) | None => [] end
      = [Hello; Ready; SessionOpen; SessionData; Pong; Ready]) as Ht by (vm_compute; reflexivity).
    rewrite Hrun in Hr, Ht. cbn [fst snd] in *. split_and!; [reflexivity|exact Hr|exact Ht|].
    apply (data_session_conversation
      (TunnelSessionRuntimeLaws0 := tcp_runtime_laws DataDemo.env DataDemo.env_fine)
      DataDemo.ready_at (fun n => N.of_nat n) "" "1.0" None DataDemo.socket DataDemo.queued diagnostics_new 9 9 rt).
    + apply DataDemo.queued_ok.
    + exact Hrun.
  - exfalso. assert (DataDemo.run.1.2 <> None) as Hne by (vm_compute; discriminate).
    apply Hne. rewrite Hrun. reflexivity.
Defined.


