(* ===== verification/TunnelAuth.v ===== *)
(** * Connecting and authenticating a data connection ([src/src/tunnel_data.rs])

    The address of the data URL, the preface that proves possession of the client token,
    the session key derived from it, and the whole of
    [KtpEncryptedTcpTunnelDataTransport::connect_tunnel_data].  SHA-256 and HMAC-SHA-256
    are parameters with the length of their results; so are the system calls. *)
From S2P Require Import Prelude RustStd AsyncIo Ktp KtpCrypto KtpRecord KtpRelay Transport TunnelControl.
From S2P Require Import TunnelSocket.
From Stdlib Require Import Strings.Byte.
From Stdlib Require Strings.String.
Local Open Scope N_scope.

(** ** The data URL *)

(** tunnel_data.rs [KtpTunnelDataCarrier] *)
Inductive KtpTunnelDataCarrier := CarrierTcp | CarrierTls.
#[export] Instance KtpTunnelDataCarrier_eq_dec : EqDecision KtpTunnelDataCarrier.
Proof. solve_decision. Defined.

(** tunnel_data.rs [KtpTunnelDataEndpoint] *)
Record KtpTunnelDataEndpoint := mkEndpoint {
  carrier : KtpTunnelDataCarrier;
  address : string;
  tls_server_name : string;
}.

(** The first piece of a split *)
Definition first_piece (seps : list (list byte)) (s : string) : string :=
  default ""%string (head (split seps s)).

(** tunnel_data.rs [parse_ktp_tunnel_data_authority] *)
Definition parse_ktp_tunnel_data_authority (rest : string) : result TransportError string :=
  let address := trim (first_piece [[x2f]; [x3f]; [x23]] rest) in
  if is_empty address then Err EmptyEndpoint else Ok address.

(** tunnel_data.rs [ktp_tunnel_data_query_value] (its loop) *)
Fixpoint query_items_value (key : string) (items : list string) : option string :=
  match items with
  | [] => None
  | item :: items =>
      match split_once "=" item with
      | Some (name, value) =>
          if eq_ignore_ascii_case name key && negb (is_empty (trim value))
          then Some (trim value) else query_items_value key items
      | None => query_items_value key items
      end
  end.

(** tunnel_data.rs [ktp_tunnel_data_query_value] *)
Definition ktp_tunnel_data_query_value (rest key : string) : option string :=
  '(_, after) ← split_once "?" rest;
  query_items_value key (split [[x26]] (first_piece [[x23]] after)).

(** tunnel_data.rs [ktp_tunnel_data_authority_host] *)
Definition ktp_tunnel_data_authority_host (address : string) : string :=
  let address := trim address in
  match strip_prefix "[" address with
  | Some rest => first_piece [[x5d]] rest
  | None =>
      match rsplit_once x3a address with
      | Some (host, _) => if contains ":" host then address else host
      | None => address
      end
  end.

(** tunnel_data.rs [ktp_tls_server_name] *)
Definition ktp_tls_server_name (rest address : string) : result TransportError string :=
  let server_name :=
    match ktp_tunnel_data_query_value rest "server_name" with
    | Some v => v
    | None =>
        match ktp_tunnel_data_query_value rest "sni" with
        | Some v => v
        | None => ktp_tunnel_data_authority_host address
        end
    end in
  if is_empty (trim server_name) then Err EmptyEndpoint else Ok server_name.

(** The schemes of a data URL, in the order they are tried *)
Definition strip_data_scheme (url : string) : option (KtpTunnelDataCarrier * string) :=
  match strip_prefix "ktp+tcp://" url with Some rest => Some (CarrierTcp, rest) | None =>
  match strip_prefix "tcp://" url with Some rest => Some (CarrierTcp, rest) | None =>
  match strip_prefix "ktp+tls://" url with Some rest => Some (CarrierTls, rest) | None =>
  match strip_prefix "tls://" url with Some rest => Some (CarrierTls, rest) | None => None
  end end end end.

(** tunnel_data.rs [parse_ktp_tunnel_data_endpoint] *)
Definition parse_ktp_tunnel_data_endpoint (url : string) : result TransportError KtpTunnelDataEndpoint :=
  let trimmed := trim url in
  match strip_data_scheme trimmed with
  | None => Err (UnsupportedScheme trimmed)
  | Some (carrier, rest) =>
      address ← parse_ktp_tunnel_data_authority rest;
      name ← (if bool_decide (carrier = CarrierTls) then ktp_tls_server_name rest address else Ok ""%string);
      Ok (mkEndpoint carrier address name)
  end.

(** ** The preface and the key *)

(** tunnel_data.rs [KtpTcpAuthVersion] *)
Inductive KtpTcpAuthVersion := V1 | V2.
#[export] Instance KtpTcpAuthVersion_eq_dec : EqDecision KtpTcpAuthVersion.
Proof. solve_decision. Defined.

(** tunnel_data.rs [KtpTcpAuthVersion::magic] *)
Definition magic (v : KtpTcpAuthVersion) : list byte :=
  bytes_of (match v with V1 => "KTA1" | V2 => "KTA2" end).

(** SHA-256 and HMAC-SHA-256: 32 bytes each *)
Class Hashes := { sha256 : list byte → list byte; hmac_sha256_raw : list byte → list byte → list byte }.
Class HashLaws `{!Hashes} := {
  length_sha256 bs : length (sha256 bs) = 32%nat;
  length_hmac key bs : length (hmac_sha256_raw key bs) = 32%nat;
}.

Section auth.
Context `{HH : !Hashes}.

(** tunnel_data.rs [hmac_sha256] *)
Definition hmac_sha256 (key : list byte) (parts : list (list byte)) : list byte :=
  hmac_sha256_raw key (concat parts).

(** tunnel_data.rs [ktp_tcp_auth_v2_prk] *)
Definition ktp_tcp_auth_v2_prk (token : string) (nonce : list byte) : list byte :=
  hmac_sha256 nonce [bytes_of (trim token)].

(** tunnel_data.rs [ktp_tcp_auth_tag] *)
Definition ktp_tcp_auth_tag (token : string) (nonce fingerprint : list byte) (version : KtpTcpAuthVersion)
    : list byte :=
  match version with
  | V1 => hmac_sha256 (bytes_of token) [bytes_of "kelicloud ktp tcp auth v1"; nonce; fingerprint]
  | V2 => hmac_sha256 (ktp_tcp_auth_v2_prk token nonce)
            [bytes_of "kelicloud ktp tcp auth v2"; nonce; fingerprint]
  end.

(** tunnel_data.rs [build_ktp_tcp_auth_preface_with_version] *)
Definition build_ktp_tcp_auth_preface_with_version (token : string) (nonce : list byte)
    (version : KtpTcpAuthVersion) : result TransportError (list byte) :=
  let token := trim token in
  if is_empty token then Err EmptyToken else
  let fingerprint := sha256 (bytes_of token) in
  let preface := magic version ++ nonce ++ fingerprint in
  let tag := ktp_tcp_auth_tag token nonce fingerprint version in
  Ok (preface ++ tag).

(** tunnel_data.rs [build_ktp_tcp_auth_preface] *)
Definition build_ktp_tcp_auth_preface (token : string) (nonce : list byte) :=
  build_ktp_tcp_auth_preface_with_version token nonce V1.

(** tunnel_data.rs [derive_ktp_tcp_crypto_key_v1] *)
Definition derive_ktp_tcp_crypto_key_v1 (token : string) (nonce : list byte) : KtpCryptoKey :=
  sha256 (bytes_of "kelicloud ktp tcp data v1" ++ bytes_of (trim token) ++ nonce).

(** tunnel_data.rs [derive_ktp_tcp_crypto_key_v2] *)
Definition derive_ktp_tcp_crypto_key_v2 (token : string) (nonce : list byte) : KtpCryptoKey :=
  let prk := ktp_tcp_auth_v2_prk token nonce in
  hmac_sha256 prk [bytes_of "kelicloud ktp tcp data v2 key"; [x01]].

(** tunnel_data.rs [derive_ktp_tcp_crypto_key_with_version] *)
Definition derive_ktp_tcp_crypto_key_with_version (token : string) (nonce : list byte)
    (version : KtpTcpAuthVersion) : KtpCryptoKey :=
  match version with
  | V1 => derive_ktp_tcp_crypto_key_v1 token nonce
  | V2 => derive_ktp_tcp_crypto_key_v2 token nonce
  end.

(** tunnel_data.rs [derive_ktp_tcp_crypto_key] *)
Definition derive_ktp_tcp_crypto_key (token : string) (nonce : list byte) : KtpCryptoKey :=
  derive_ktp_tcp_crypto_key_with_version token nonce V1.

(** ** Connecting *)

(** tunnel_data.rs [KtpEncryptedTcpTunnelDataAuth] *)
Inductive KtpEncryptedTcpTunnelDataAuth :=
  | StaticKey (key : KtpCryptoKey)
  | TokenAuth (token : string) (version : KtpTcpAuthVersion).

(** tunnel_data.rs [KtpEncryptedTcpTunnelDataTransport] (the timeout and the TLS settings
    only reach the system calls) *)
Record KtpEncryptedTcpTunnelDataTransport := mkTransport {
  tr_auth : KtpEncryptedTcpTunnelDataAuth;
  tr_max_payload_len : N;
  tr_max_buffer_len : N;
  tr_tls_server_name : option string;
}.

(** tunnel_data.rs [KtpEncryptedTcpTunnelDataTransport::new] *)
Definition transport_new (key : KtpCryptoKey) : KtpEncryptedTcpTunnelDataTransport :=
  mkTransport (StaticKey key) KTP_MAX_PAYLOAD_LEN (1024 * 1024) None.

(** tunnel_data.rs [KtpEncryptedTcpTunnelDataTransport::new_with_token_auth_version] *)
Definition transport_new_with_token_auth_version (token : string) (version : KtpTcpAuthVersion)
    : KtpEncryptedTcpTunnelDataTransport :=
  mkTransport (TokenAuth (trim token) version) KTP_MAX_PAYLOAD_LEN (1024 * 1024) None.

(** tunnel_data.rs [KtpEncryptedTcpTunnelDataTransport::new_with_token] *)
Definition transport_new_with_token (token : string) : KtpEncryptedTcpTunnelDataTransport :=
  transport_new_with_token_auth_version token V1.

(** tunnel_data.rs [KtpEncryptedTcpTunnelDataTransport::with_tls_server_name] *)
Definition with_tls_server_name (server_name : string) (t : KtpEncryptedTcpTunnelDataTransport)
    : KtpEncryptedTcpTunnelDataTransport :=
  mkTransport (tr_auth t) (tr_max_payload_len t) (tr_max_buffer_len t) (Some (trim server_name)).

(** The results of the system calls: the tokio runtime, the TCP connection to an address,
    the check of a server name, the TLS handshake, random bytes, and the reads to come *)
Record ConnectEnv := mkConnectEnv {
  ce_runtime : result string unit;
  ce_connect : string → result string Io;
  ce_server_name : string → result string unit;
  ce_tls : string → Io → result string Io;
  ce_nonce : result string (list byte);
  ce_arrivals : list (list io_read);
}.

(** [write_all], with no flush *)
Definition write_all_io {E} (io_error : string → E) (bs : list byte) (io : Io) : result E Io :=
  match io_writes io with
  | WriteFail n e :: ws => Err (io_error e)
  | _ :: ws => Ok (mkIo (io_reads io) ws (io_written io ++ bs))
  | [] => Ok (mkIo (io_reads io) [] (io_written io ++ bs))
  end.

(** tunnel_data.rs [random_ktp_tcp_auth_nonce] *)
Definition random_ktp_tcp_auth_nonce (random : result string (list byte))
    : result TransportError (list byte) := map_err RequestFailed random.

(** tunnel_data.rs [apply_ktp_tunnel_data_auth] *)
Definition apply_ktp_tunnel_data_auth (random : result string (list byte)) (stream : Io)
    (auth : KtpEncryptedTcpTunnelDataAuth) (write_error_code : string)
    : result TransportError (Io * KtpCryptoKey) :=
  match auth with
  | StaticKey key => Ok (stream, key)
  | TokenAuth token version =>
      nonce ← random_ktp_tcp_auth_nonce random;
      preface ← build_ktp_tcp_auth_preface_with_version token nonce version;
      stream ← write_all_io (ktp_tcp_request_failed write_error_code) preface stream;
      Ok (stream, derive_ktp_tcp_crypto_key_with_version token nonce version)
  end.

(** The server name of a TLS connection: the configured one unless it is blank *)
Definition connect_server_name (t : KtpEncryptedTcpTunnelDataTransport) (endpoint : KtpTunnelDataEndpoint)
    : string :=
  match tr_tls_server_name t with
  | Some name => if is_empty (trim name) then tls_server_name endpoint else name
  | None => tls_server_name endpoint
  end.

(** tunnel_data.rs [TunnelDataTransport@KtpEncryptedTcpTunnelDataTransport::connect_tunnel_data] *)
Definition connect_tunnel_data (env : ConnectEnv) (t : KtpEncryptedTcpTunnelDataTransport) (url : string)
    : result TransportError KtpDataSocket :=
  endpoint ← parse_ktp_tunnel_data_endpoint url;
  _ ← map_err (ktp_tcp_request_failed "ktp_tcp_runtime_init_failed") (ce_runtime env);
  stream ← map_err (ktp_tcp_request_failed "ktp_tcp_connect_failed") (ce_connect env (address endpoint));
  '(stream, key) ←
    match carrier endpoint with
    | CarrierTcp =>
        apply_ktp_tunnel_data_auth (ce_nonce env) stream (tr_auth t) "ktp_tcp_auth_write_failed"
    | CarrierTls =>
        let domain := connect_server_name t endpoint in
        _ ← map_err (ktp_tcp_request_failed "ktp_tls_server_name_invalid") (ce_server_name env domain);
        stream ← map_err (ktp_tcp_request_failed "ktp_tls_connect_failed") (ce_tls env domain stream);
        apply_ktp_tunnel_data_auth (ce_nonce env) stream (tr_auth t) "ktp_tls_auth_write_failed"
    end;
  Ok (mkKtpSocket (from_io stream key ClientToRelay RelayToClient (tr_max_payload_len t)
                     (tr_max_buffer_len t)) (ce_arrivals env) (tr_max_payload_len t)).
End auth.

(** ** Start-up lines *)

(** tunnel_data.rs [ktp_tcp_auth_version_label] *)
Definition ktp_tcp_auth_version_label (v : KtpTcpAuthVersion) : string :=
  match v with V1 => "v1" | V2 => "v2" end.

(** tunnel_data.rs [tunnel_data_startup_transport_fields] *)
Definition tunnel_data_startup_transport_fields (url : string) (v : KtpTcpAuthVersion) : string :=
  let url := trim url in
  if starts_with "ktp+tls://" url || starts_with "tls://" url
  then " carrier=ktp_tls crypto=ktp_aead auth=ktp_token_preface_" +:+ ktp_tcp_auth_version_label v
  else if starts_with "ktp+tcp://" url || starts_with "tcp://" url
  then " carrier=ktp_tcp crypto=ktp_aead auth=ktp_token_preface_" +:+ ktp_tcp_auth_version_label v
  else "".

(** tunnel_data.rs [redact_token_in_url] (the same text as in [tunnel_control.rs]) *)
Definition data_redact_token_in_url (url : string) : string := redact_token_in_url url.

(** tunnel_data.rs [tunnel_data_startup_line_with_ktp_auth_version] *)
Definition tunnel_data_startup_line_with_ktp_auth_version (url : string) (enabled : bool)
    (v : KtpTcpAuthVersion) : string :=
  if negb enabled then "tunnel data: disabled"
  else "tunnel data: enabled url=" +:+ data_redact_token_in_url url
       +:+ tunnel_data_startup_transport_fields url v.

(** tunnel_data.rs [tunnel_data_startup_line] *)
Definition tunnel_data_startup_line (url : string) (enabled : bool) : string :=
  tunnel_data_startup_line_with_ktp_auth_version url enabled V1.

(** ** Visible text and URLs *)

(** Printable ASCII without the space *)
Definition visible (b : byte) : Prop := 33 ≤ u8 b ≤ 126.
#[export] Instance visible_dec b : Decision (visible b).
Proof. unfold visible. apply _. Defined.

(** What a host or a port is made of *)
Definition plain (s : string) : Prop :=
  Forall visible (bytes_of s) ∧ x2f ∉ bytes_of s ∧ x3f ∉ bytes_of s ∧ x23 ∉ bytes_of s.

Section urls.
Lemma white_space_invisible p :
  p ∈ white_space ∨ p ∈ (reverse <$> white_space) → ∃ b q, p = b :: q ∧ ¬ visible b.
Proof.
  assert (Forall (fun p => ¬ visible (default x41 (head p)))
    (white_space ++ (reverse <$> white_space))) as H by by_decide.
  intros Hp. rewrite <- elem_of_app in Hp. eapply Forall_forall in H; [|exact Hp].
  destruct p as [|b q]; [by destruct H|]. by exists b, q.
Qed.

Lemma visible_no_strip pats l :
  (∀ p, p ∈ pats → p ∈ white_space ∨ p ∈ (reverse <$> white_space)) → Forall visible l →
  strip_any pats l = None.
Proof.
  intros Hpats Hl. apply strip_any_None. intros p r Hp ->.
  apply Hpats, white_space_invisible in Hp as (b & q & -> & Hb). cbn in Hl. by inversion Hl.
Qed.

Lemma trim_visible s : Forall visible (bytes_of s) → trim s = s.
Proof.
  intros Hs. unfold trim, trim_bytes.
  rewrite trim_front_id by (by apply visible_no_strip; auto).
  rewrite trim_back_id; [by rewrite str_of_bytes_of|].
  apply visible_no_strip; [auto|]. by apply Forall_reverse.
Qed.

Lemma split_pats_absent fuel seps cur l :
  (∀ b, [b] ∈ seps → b ∉ l) → Forall (fun p => ∃ b, p = [b]) seps → (length l < fuel)%nat →
  split_pats fuel seps cur l = [reverse cur ++ l].
Proof.
  intros Hc Hseps. revert cur l Hc. induction fuel as [|fuel IH]; intros cur l Hc Hf; [lia|].
  cbn [split_pats]. assert (strip_any seps l = None) as ->.
  { apply strip_any_None. intros p r Hp ->. destruct (proj1 (Forall_forall _ _) Hseps p Hp) as [b ->].
    apply (Hc b Hp). cbn. by left. }
  destruct l as [|b l]; [by rewrite app_nil_r|]. rewrite IH; [|set_solver|cbn in Hf; lia].
  by rewrite reverse_cons, <- app_assoc.
Qed.

Lemma first_piece_clean seps s :
  (∀ b, [b] ∈ seps → b ∉ bytes_of s) → Forall (fun p => ∃ b, p = [b]) seps → first_piece seps s = s.
Proof.
  intros Hc Hs. unfold first_piece, split. rewrite split_pats_absent by (done || lia). cbn.
  by rewrite str_of_bytes_of.
Qed.

Lemma split_once_absent c s : c ∉ bytes_of s → split_once (str_of [c]) s = None.
Proof.
  intros Hc. destruct (split_once (str_of [c]) s) as [[a b]|] eqn:H; [|done].
  unfold split_once in H. rewrite bytes_of_str_of in H.
  destruct (split_once_bytes [c] (bytes_of s)) as [[x y]|] eqn:E; [|done].
  apply split_once_bytes_Some in E as [E _]. rewrite E in Hc. set_solver.
Qed.

Lemma plain_app a b : plain a → plain b → plain (a +:+ b).
Proof.
  unfold plain. rewrite bytes_of_app. intros (H1 & H2 & H3 & H4) (K1 & K2 & K3 & K4).
  rewrite !elem_of_app, Forall_app. naive_solver.
Qed.

Lemma plain_authority a : plain a → a ≠ ""%string → parse_ktp_tunnel_data_authority a = Ok a.
Proof.
  intros (H1 & H2 & H3 & H4) Hne. unfold parse_ktp_tunnel_data_authority.
  rewrite first_piece_clean, trim_visible; [|done| |].
  - unfold is_empty. by rewrite bool_decide_false.
  - intros b Hb. rewrite !elem_of_cons, elem_of_nil in Hb. destruct Hb as [Hb|[Hb|[Hb|[]]]]; by simplify_eq.
  - repeat constructor; eauto.
Qed.

Lemma authority_host host port :
  Forall visible (bytes_of (host +:+ ":" +:+ port)) → x3a ∉ bytes_of host → x3a ∉ bytes_of port →
  head (bytes_of host) ≠ Some x5b →
  ktp_tunnel_data_authority_host (host +:+ ":" +:+ port) = host.
Proof.
  intros Hv Hh Hp Hb. unfold ktp_tunnel_data_authority_host. rewrite trim_visible by done.
  assert (strip_prefix "[" (host +:+ ":" +:+ port) = None) as ->.
  { unfold strip_prefix. rewrite !bytes_of_app. destruct (bytes_of host) as [|b l]; [done|].
    change (bytes_of "[") with [x5b]. cbn. rewrite bool_decide_false; [done|]. intros <-. by destruct Hb. }
  assert (rsplit_once x3a (host +:+ ":" +:+ port) = Some (host, port)) as ->.
  { unfold rsplit_once. rewrite !bytes_of_app. change (bytes_of ":") with [x3a].
    rewrite !reverse_app, reverse_singleton, <- app_assoc. cbn [app].
    rewrite split_once_bytes_single by by rewrite elem_of_reverse.
    cbn. by rewrite !reverse_involutive, !str_of_bytes_of. }
  unfold contains. change ":"%string with (str_of [x3a]). by rewrite split_once_absent.
Qed.

Lemma strip_prefix_app p s : strip_prefix p (p +:+ s) = Some s.
Proof.
  unfold strip_prefix. rewrite bytes_of_app, (proj2 (strip_bytes_Some _ _ (bytes_of s)) eq_refl).
  cbn. by rewrite str_of_bytes_of.
Qed.

Lemma starts_with_plain p s : plain s → x2f ∈ bytes_of p → starts_with p s = false ∧ strip_prefix p s = None.
Proof.
  intros (_ & Hs & _) Hp. assert (strip_prefix p s = None) as H; [|unfold starts_with; by rewrite H].
  unfold strip_prefix. destruct (strip_bytes (bytes_of p) (bytes_of s)) eqn:E; [|done].
  apply strip_bytes_Some in E. rewrite E in Hs. set_solver.
Qed.

Lemma build_plain scheme a :
  scheme ∈ [""; "tcp://"; "ktp+tcp://"; "tls://"; "ktp+tls://"]%string → plain a → a ≠ ""%string →
  build_tunnel_data_ktp_tcp_url (scheme +:+ a)
  = Ok ((if bool_decide (scheme ∈ ["tls://"; "ktp+tls://"]%string) then "ktp+tls://" else "ktp+tcp://") +:+ a).
Proof.
  intros Hs Ha Hne. unfold build_tunnel_data_ktp_tcp_url, require_non_empty.
  assert (Forall visible (bytes_of (scheme +:+ a))) as Hv.
  { rewrite bytes_of_app. apply Forall_app. split; [|apply Ha]. list_cases; by_decide. }
  assert (scheme +:+ a ≠ ""%string) as Hne'.
  { destruct a; [done|]. by destruct scheme. }
  rewrite trim_visible by done. unfold is_empty. rewrite bool_decide_false by done. cbn [mbind result_bind].
  pose proof (starts_with_plain "ktp+tcp://" a Ha ltac:(by_decide)) as [E1 _].
  pose proof (starts_with_plain "ktp+tls://" a Ha ltac:(by_decide)) as [E2 _].
  pose proof (starts_with_plain "tcp://" a Ha ltac:(by_decide)) as [_ E3].
  pose proof (starts_with_plain "tls://" a Ha ltac:(by_decide)) as [_ E4].
  unfold starts_with in *.
  list_cases; rewrite ?strip_prefix_app; try reflexivity.
  change ("" +:+ a)%string with a. cbn in E1, E2 |- *.
  destruct (strip_prefix "ktp+tcp://" a), (strip_prefix "ktp+tls://" a); try done. by rewrite E3, E4.
Qed.
End urls.

(** An address of the configuration survives the trip through its data URL: with any of the
    schemes, or none, the URL that is built parses to the carrier of the scheme, to the
    address as it was, and for TLS to its host as the server name. *)
Theorem data_url_roundtrip host port :
  let a := (host +:+ ":" +:+ port)%string in
  plain host → plain port → host ≠ ""%string → x3a ∉ bytes_of host → x3a ∉ bytes_of port →
  head (bytes_of host) ≠ Some x5b →
  (∀ scheme, scheme ∈ [""; "tcp://"; "ktp+tcp://"]%string →
     ∃ url, build_tunnel_data_ktp_tcp_url (scheme +:+ a) = Ok url
            ∧ parse_ktp_tunnel_data_endpoint url = Ok (mkEndpoint CarrierTcp a ""))
  ∧ (∀ scheme, scheme ∈ ["tls://"; "ktp+tls://"]%string →
     ∃ url, build_tunnel_data_ktp_tcp_url (scheme +:+ a) = Ok url
            ∧ parse_ktp_tunnel_data_endpoint url = Ok (mkEndpoint CarrierTls a host)).
Proof.
  intros a Hh Hp Hne Hch Hcp Hb.
  assert (plain a) as Ha.
  { apply plain_app; [done|]. apply plain_app; [|done]. split_and!; by_decide. }
  assert (a ≠ ""%string) as Hane by by destruct host.
  assert (∀ p, p ∈ ["ktp+tcp://"; "ktp+tls://"]%string → trim (p +:+ a) = (p +:+ a)%string) as Htrim.
  { intros p Hpp. apply trim_visible. rewrite bytes_of_app. apply Forall_app. split; [|apply Ha].
    list_cases; by_decide. }
  split; intros scheme Hs; (eexists; split; [apply build_plain; [set_solver|done|done]|]);
    unfold parse_ktp_tunnel_data_endpoint, strip_data_scheme.
  - replace (bool_decide (scheme ∈ ["tls://"; "ktp+tls://"]%string)) with false by (list_cases; reflexivity).
    rewrite Htrim, strip_prefix_app by set_solver.
    rewrite plain_authority by done. reflexivity.
  - rewrite bool_decide_true by done. rewrite Htrim, strip_prefix_app by set_solver.
    replace (strip_prefix "ktp+tcp://" ("ktp+tls://" +:+ a)) with (@None string) by reflexivity.
    replace (strip_prefix "tcp://" ("ktp+tls://" +:+ a)) with (@None string) by reflexivity.
    rewrite plain_authority by done. cbn [mbind result_bind]. rewrite bool_decide_true by done.
    assert (∀ key, ktp_tunnel_data_query_value a key = None) as Hq.
    { intros key. unfold ktp_tunnel_data_query_value. change "?"%string with (str_of [x3f]).
      rewrite split_once_absent; [done|]. apply Ha. }
    unfold ktp_tls_server_name. rewrite !Hq.
    assert (ktp_tunnel_data_authority_host a = host) as -> by (by apply authority_host; [apply Ha|..]).
    rewrite trim_visible by apply Hh. unfold is_empty. by rewrite bool_decide_false.
Qed.

Lemma data_url_roundtrip_witness :
  ∃ url, build_tunnel_data_ktp_tcp_url "tls://relay.example:7443" = Ok url
    ∧ parse_ktp_tunnel_data_endpoint url = Ok (mkEndpoint CarrierTls "relay.example:7443" "relay.example").
Proof.
  destruct (data_url_roundtrip "relay.example" "7443") as [_ H];
    [split_and!; by_decide|split_and!; by_decide|discriminate|by_decide|by_decide|by_decide|].
  apply (H "tls://"%string). by_decide.
Defined.

(** ** Authentication *)
Section auth_lemmas.
Context `{HH : !Hashes}.

Lemma preface_Ok token nonce v p :
  build_ktp_tcp_auth_preface_with_version token nonce v = Ok p ↔
  trim token ≠ ""%string
  ∧ p = magic v ++ nonce ++ sha256 (bytes_of (trim token))
        ++ ktp_tcp_auth_tag (trim token) nonce (sha256 (bytes_of (trim token))) v.
Proof.
  unfold build_ktp_tcp_auth_preface_with_version, is_empty. rewrite <- !app_assoc.
  case_bool_decide; naive_solver.
Qed.

Lemma derive_trim token nonce v :
  derive_ktp_tcp_crypto_key_with_version (trim token) nonce v
  = derive_ktp_tcp_crypto_key_with_version token nonce v.
Proof.
  destruct v; cbn; unfold derive_ktp_tcp_crypto_key_v1, derive_ktp_tcp_crypto_key_v2, ktp_tcp_auth_v2_prk;
    by rewrite trim_idem.
Qed.

Lemma write_all_io_Ok {E} (f : string → E) bs io io' :
  write_all_io f bs io = Ok io' → io_written io' = io_written io ++ bs ∧ io_reads io' = io_reads io.
Proof. unfold write_all_io. intros Hw. case_all. Qed.

Lemma auth_token_Ok random io token v code io' key :
  apply_ktp_tunnel_data_auth random io (TokenAuth token v) code = Ok (io', key) →
  ∃ nonce p, random = Ok nonce ∧ build_ktp_tcp_auth_preface_with_version token nonce v = Ok p
    ∧ io_written io' = io_written io ++ p ∧ key = derive_ktp_tcp_crypto_key_with_version token nonce v.
Proof.
  cbn [apply_ktp_tunnel_data_auth]. intros H.
  apply bind_Ok in H as (nonce & Hn & H). apply bind_Ok in H as (p & Hp & H).
  apply bind_Ok in H as (io1 & Hw & H). injection H as <- <-. apply write_all_io_Ok in Hw as [Hw _].
  unfold random_ktp_tcp_auth_nonce in Hn. apply map_err_Ok in Hn. by exists nonce, p.
Qed.

(** Connecting is reaching a byte stream, TCP or TLS, and authenticating on it. *)
Lemma connect_Ok env t url k :
  connect_tunnel_data env t url = Ok k →
  ∃ io io' key code, apply_ktp_tunnel_data_auth (ce_nonce env) io (tr_auth t) code = Ok (io', key)
    ∧ k = mkKtpSocket (from_io io' key ClientToRelay RelayToClient (tr_max_payload_len t)
            (tr_max_buffer_len t)) (ce_arrivals env) (tr_max_payload_len t)
    ∧ ((∃ a, ce_connect env a = Ok io) ∨ (∃ a name io0, ce_connect env a = Ok io0 ∧ ce_tls env name io0 = Ok io)).
Proof.
  unfold connect_tunnel_data. intros H.
  apply bind_Ok in H as (ep & _ & H). apply bind_Ok in H as (_ & _ & H).
  apply bind_Ok in H as (io & Hio & H). apply map_err_Ok in Hio.
  apply bind_Ok in H as ([io' key] & Ha & [= <-]). destruct (carrier ep).
  - exists io, io', key, "ktp_tcp_auth_write_failed"%string. eauto 10.
  - cbn zeta in Ha. apply bind_Ok in Ha as (_ & _ & Ha). apply bind_Ok in Ha as (io1 & H1 & Ha).
    apply map_err_Ok in H1. exists io1, io', key, "ktp_tls_auth_write_failed"%string. eauto 10.
Qed.
End auth_lemmas.

(** C10: A data connection made with a token starts, over TCP or TLS, with a preface of 84 bytes:
    magic, nonce, SHA-256 of the trimmed token, and tag; and its records are sealed and
    opened, in the two directions, with the key that the token, the nonce read back from the
    preface and the version give.  Whoever knows the token can recompute tag and key. *)
Theorem connect_authenticates `{HH : !Hashes, HL : !HashLaws} env token v url k :
  (∀ nonce, ce_nonce env = Ok nonce → length nonce = 16%nat) →
  connect_tunnel_data env (transport_new_with_token_auth_version token v) url = Ok k →
  ∃ io io' p,
    ((∃ a, ce_connect env a = Ok io) ∨ (∃ a name io0, ce_connect env a = Ok io0 ∧ ce_tls env name io0 = Ok io))
    ∧ io_written io' = io_written io ++ p ∧ length p = 84%nat
    ∧ take 4 p = magic v
    ∧ let nonce := take 16 (drop 4 p) in
      take 32 (drop 20 p) = sha256 (bytes_of (trim token))
      ∧ drop 52 p = ktp_tcp_auth_tag (trim token) nonce (take 32 (drop 20 p)) v
      ∧ trim token ≠ ""%string
      ∧ ks_stream k = from_io io' (derive_ktp_tcp_crypto_key_with_version token nonce v)
                        ClientToRelay RelayToClient KTP_MAX_PAYLOAD_LEN (1024 * 1024).
Proof.
  intros Hn H. apply connect_Ok in H as (io & io' & key & code & Ha & -> & Hio).
  cbn [tr_auth transport_new_with_token_auth_version] in Ha.
  apply auth_token_Ok in Ha as (nonce & p & Hr & Hp & Hw & ->).
  apply preface_Ok in Hp as [Hne Hp]. rewrite trim_idem in Hp, Hne. apply Hn in Hr.
  pose proof (length_sha256 (bytes_of (trim token))) as Hs.
  assert (∀ t fp, length (ktp_tcp_auth_tag t nonce fp v) = 32%nat) as Ht by (intros; destruct v; apply length_hmac).
  assert (length (magic v) = 4%nat) as Hm by by destruct v.
  exists io, io', p. rewrite derive_trim. cbn zeta.
  assert (take 4 p = magic v) as E1 by (rewrite Hp; by apply take_app_length').
  assert (drop 4 p = nonce ++ sha256 (bytes_of (trim token)) ++
    ktp_tcp_auth_tag (trim token) nonce (sha256 (bytes_of (trim token))) v) as D1
    by (rewrite Hp; by apply drop_app_length').
  assert (take 16 (drop 4 p) = nonce) as E2 by (rewrite D1; by apply take_app_length').
  assert (drop 20 p = sha256 (bytes_of (trim token)) ++
    ktp_tcp_auth_tag (trim token) nonce (sha256 (bytes_of (trim token))) v) as D2.
  { change 20%nat with (4 + 16)%nat. rewrite <- drop_drop, D1. by apply drop_app_length'. }
  assert (take 32 (drop 20 p) = sha256 (bytes_of (trim token))) as E3 by (rewrite D2; by apply take_app_length').
  rewrite E2, E3. split_and!; try done.
  - rewrite Hp, !length_app, Hm, Hr, Hs, Ht. done.
  - change 52%nat with (20 + 32)%nat. rewrite <- drop_drop, D2. by apply drop_app_length'.
Qed.

(** Hashes without collisions *)
Definition ideal `{!Hashes} : Prop :=
  (∀ a b, sha256 a = sha256 b → a = b)
  ∧ (∀ k a k' b, hmac_sha256_raw k a = hmac_sha256_raw k' b → k = k' ∧ a = b).

Lemma app_nonce_inj (d t t' n n' : list byte) :
  length n = length n' → d ++ t ++ n = d ++ t' ++ n' → t = t' ∧ n = n'.
Proof. intros Hl H. apply app_inv_head in H. by apply app_inj_2 in H. Qed.

Section bind_lemmas.
Context `{HH : !Hashes} (Hideal : ideal).

Lemma prk_inj token token' nonce nonce' :
  ktp_tcp_auth_v2_prk token nonce = ktp_tcp_auth_v2_prk token' nonce' →
  trim token = trim token' ∧ nonce = nonce'.
Proof.
  intros H. apply Hideal in H as [-> H]. cbn in H. rewrite !app_nil_r in H.
  split; [by apply bytes_of_inj|done].
Qed.

Lemma tag_message_inj (d nonce nonce' fp fp' : list byte) :
  length nonce = length nonce' → concat [d; nonce; fp] = concat [d; nonce'; fp'] → nonce = nonce' ∧ fp = fp'.
Proof.
  cbn. rewrite !app_nil_r. intros Hl H. apply app_inv_head in H. by apply app_inj_1 in H.
Qed.
End bind_lemmas.


(** ** Witnesses *)
Module ToyHashes.
Definition fixed (bs : list byte) : list byte := take 32 (bs ++ replicate 32 x00).
(** 32 bytes, as the real ones *)
Definition short : Hashes := {| sha256 := fixed; hmac_sha256_raw key bs := fixed (key ++ bs) |}.
Lemma short_laws : @HashLaws short.
Proof. split; intros; cbn; unfold fixed; rewrite length_take, length_app, length_replicate; lia. Qed.
(** No collisions *)
Definition free : Hashes :=
  {| sha256 bs := bs; hmac_sha256_raw key bs := replicate (length key) x00 ++ [x01] ++ key ++ bs |}.
Lemma free_ideal : @ideal free.
Proof.
  split; [done|]. intros k a k' b. cbn. intros H.
  assert (length k = length k') as Hl.
  { revert H. generalize (k ++ a), (k' ++ b). generalize (length k), (length k').
    intros n. induction n as [|n IH]; intros [|m] x y H; cbn in H; try discriminate H; [done|].
    f_equal. eapply IH. injection H as H. exact H. }
  rewrite Hl in H. apply app_inv_head in H. injection H as H. by apply app_inj_1 in H.
Qed.
Definition io0 : Io := mkIo [] [] [].
Definition env : ConnectEnv :=
  mkConnectEnv (Ok tt) (fun _ => Ok io0) (fun _ => Ok tt) (fun _ io => Ok io) (Ok (replicate 16 x07)) [].
End ToyHashes.

Lemma connect_authenticates_witness :
  ∃ k p, connect_tunnel_data (HH := ToyHashes.short) ToyHashes.env
           (transport_new_with_token_auth_version " tok " V2) "ktp+tls://h:1" = Ok k
    ∧ length p = 84%nat ∧ take 4 p = magic V2
    ∧ io_written (stream (ks_stream k)) = p.
Proof.
  destruct (connect_tunnel_data (HH := ToyHashes.short) ToyHashes.env
    (transport_new_with_token_auth_version " tok " V2) "ktp+tls://h:1") as [k|e|] eqn:Hk;
    [|vm_compute in Hk; discriminate Hk..].
  destruct (connect_authenticates (HH := ToyHashes.short) (HL := ToyHashes.short_laws) ToyHashes.env " tok " V2
    "ktp+tls://h:1" k) as (io & io' & p & Hio & Hw & Hl & Hm & _ & _ & _ & Hs).
  - intros nonce [= <-]. reflexivity.
  - exact Hk.
  - exists k, p. rewrite Hs. split_and!; [reflexivity|exact Hl|exact Hm|].
    assert (io_written io = []) as Hio0.
    { destruct Hio as [[a [= <-]]|(a & name & i & [= <-] & [= <-])]; reflexivity. }
    cbn. rewrite Hw, Hio0. reflexivity.
Defined.

