(* ===== verification/Config.v ===== *)
(** * Configuration ([src/src/config.rs])

    [AgentConfig::from_args_and_env] keeps some thirty local variables, the [Draft], and
    changes them in three passes: the command line, the environment, the configuration
    file.  An arm of the [match] over an argument is an [arm]; the arms are tried in the
    order of the source.  The environment is a function; reading a file, deserialising JSON
    and printing an [f64] are parameters. *)
From S2P Require Import Prelude RustStd RustF64 TunnelStats TunnelAuth.
From Stdlib Require Import Strings.Byte.
From Stdlib Require Strings.String.
Local Open Scope N_scope.

(** config.rs [AgentConfig] *)
Record AgentConfig := mkConfig {
  cfg_endpoint : string;
  cfg_token : string;
  cfg_auto_discovery_key : string;
  cfg_insecure : bool;
  cfg_disable_web_ssh : bool;
  cfg_tunnel_control_enabled : bool;
  cfg_tunnel_data_enabled : bool;
  cfg_tunnel_ktp_tcp_address : string;
  cfg_tunnel_ktp_tls_ca_cert : string;
  cfg_tunnel_ktp_tcp_auth_version : KtpTcpAuthVersion;
  cfg_tunnel_ktp_relay_batch_policy : TunnelRelayBatchPolicy;
  cfg_tunnel_ktp_relay_batch_tuning : TunnelRelayBatchTuning;
  cfg_interval_seconds : float64;
  cfg_max_retries : N;
  cfg_reconnect_interval_seconds : N;
  cfg_info_report_interval_minutes : N;
  cfg_cf_access_client_id : string;
  cfg_cf_access_client_secret : string;
  cfg_include_nics : string;
  cfg_exclude_nics : string;
  cfg_include_mountpoints : string;
  cfg_custom_ipv4 : string;
  cfg_custom_ipv6 : string;
  cfg_custom_dns : string;
  cfg_get_ip_addr_from_nic : bool;
  cfg_memory_include_cache : bool;
  cfg_memory_report_raw_used : bool;
  cfg_enable_gpu : bool;
  cfg_month_rotate : N;
  cfg_host_proc : string;
  cfg_once : bool;
}.

(** config.rs [ConfigError] *)
Inductive ConfigError :=
  | MissingEndpoint
  | MissingToken
  | MissingValue (flag : string)
  | InvalidValue (flag value : string)
  | ConfigFileRead (message : string)
  | ConfigFileParse (message : string)
  | UnknownArgument (arg : string).
#[export] Instance ConfigError_eq_dec : EqDecision ConfigError.
Proof. solve_decision. Defined.

(** config.rs [Display@ConfigError::fmt] *)
Definition ConfigError_to_string (e : ConfigError) : string :=
  match e with
  | MissingEndpoint => "endpoint is required"
  | MissingToken => "token is required"
  | MissingValue flag => flag +:+ " requires a value"
  | InvalidValue flag value => flag +:+ " has invalid value: " +:+ value
  | ConfigFileRead message => "failed to read config file: " +:+ message
  | ConfigFileParse message => "failed to parse config file: " +:+ message
  | UnknownArgument arg => "unknown argument: " +:+ arg
  end.

(** config.rs [FileConfig] *)
Record FileConfig := mkFile {
  file_endpoint : option string;
  file_token : option string;
  file_auto_discovery_key : option string;
  file_ignore_unsafe_cert : option bool;
  file_disable_web_ssh : option bool;
  file_tunnel_control_enabled : option bool;
  file_tunnel_data_enabled : option bool;
  file_tunnel_ktp_tcp_address : option string;
  file_tunnel_ktp_tls_ca_cert : option string;
  file_tunnel_ktp_tcp_auth_version : option string;
  file_tunnel_ktp_relay_batch_policy : option string;
  file_tunnel_ktp_relay_adaptive_high_sessions : option N;
  file_tunnel_ktp_relay_adaptive_elevated_dwell_us : option N;
  file_tunnel_ktp_relay_adaptive_severe_dwell_us : option N;
  file_tunnel_ktp_relay_adaptive_elevated_cap : option N;
  file_tunnel_ktp_relay_adaptive_severe_cap : option N;
  file_interval : option float64;
  file_max_retries : option N;
  file_reconnect_interval : option N;
  file_info_report_interval : option N;
  file_cf_access_client_id : option string;
  file_cf_access_client_secret : option string;
  file_include_nics : option string;
  file_exclude_nics : option string;
  file_include_mountpoints : option string;
  file_custom_ipv4 : option string;
  file_custom_ipv6 : option string;
  file_custom_dns : option string;
  file_get_ip_addr_from_nic : option bool;
  file_memory_include_cache : option bool;
  file_memory_report_raw_used : option bool;
  file_enable_gpu : option bool;
  file_month_rotate : option N;
  file_host_proc : option string;
}.

(** The local variables of [from_args_and_env] *)
Record Draft := mkDraft {
  d_endpoint : option string;
  d_token : option string;
  d_auto_discovery_key : option string;
  d_insecure : bool;
  d_disable_web_ssh : bool;
  d_tunnel_control_enabled : bool;
  d_tunnel_data_enabled : bool;
  d_tunnel_ktp_tcp_address : string;
  d_tunnel_ktp_tls_ca_cert : string;
  d_tunnel_ktp_tcp_auth_version : KtpTcpAuthVersion;
  d_tunnel_ktp_relay_batch_policy : TunnelRelayBatchPolicy;
  d_tunnel_ktp_relay_batch_policy_explicit : bool;
  d_tunnel_ktp_relay_batch_tuning : TunnelRelayBatchTuning;
  d_interval_seconds : float64;
  d_max_retries : N;
  d_reconnect_interval_seconds : N;
  d_info_report_interval_minutes : N;
  d_cf_access_client_id : string;
  d_cf_access_client_secret : string;
  d_include_nics : string;
  d_exclude_nics : string;
  d_include_mountpoints : string;
  d_custom_ipv4 : string;
  d_custom_ipv6 : string;
  d_custom_dns : string;
  d_get_ip_addr_from_nic : bool;
  d_memory_include_cache : bool;
  d_memory_report_raw_used : bool;
  d_enable_gpu : bool;
  d_month_rotate : N;
  d_host_proc : string;
  d_config_file : string;
  d_once : bool;
}.

(** [d <| field := v |>]: the draft with one variable assigned *)
Ltac assign_field d f v :=
  let e := constr:(mkDraft
    (d_endpoint d) (d_token d) (d_auto_discovery_key d) (d_insecure d) (d_disable_web_ssh d)
    (d_tunnel_control_enabled d) (d_tunnel_data_enabled d) (d_tunnel_ktp_tcp_address d)
    (d_tunnel_ktp_tls_ca_cert d) (d_tunnel_ktp_tcp_auth_version d)
    (d_tunnel_ktp_relay_batch_policy d) (d_tunnel_ktp_relay_batch_policy_explicit d)
    (d_tunnel_ktp_relay_batch_tuning d) (d_interval_seconds d) (d_max_retries d)
    (d_reconnect_interval_seconds d) (d_info_report_interval_minutes d)
    (d_cf_access_client_id d) (d_cf_access_client_secret d) (d_include_nics d)
    (d_exclude_nics d) (d_include_mountpoints d) (d_custom_ipv4 d) (d_custom_ipv6 d)
    (d_custom_dns d) (d_get_ip_addr_from_nic d) (d_memory_include_cache d)
    (d_memory_report_raw_used d) (d_enable_gpu d) (d_month_rotate d) (d_host_proc d)
    (d_config_file d) (d_once d)) in
  lazymatch e with
  | context C [f d] => let r := context C [v] in exact r
  end.
Notation "d '<|' f ':=' v '|>'" := (ltac:(assign_field d f v))
  (at level 1, left associativity, only parsing).

(** ** Cleaning and parsing values *)

(** [matches!(value, "a" | "b" | …)] *)
Definition one_of (value : string) (alternatives : list string) : bool :=
  existsb (fun a => bool_decide (value = a)) alternatives.

(** config.rs [clean_required] *)
Definition clean_required (value flag : string) : result ConfigError (option string) :=
  let value := trim value in
  if is_empty value then Err (MissingValue flag) else Ok (Some value).

(** config.rs [next_value]: the value and the rest of the iterator *)
Definition next_value (iter : list string) (flag : string)
  : result ConfigError (string * list string) :=
  match iter with
  | [] => Err (MissingValue flag)
  | value :: iter =>
      cleaned ← clean_required value flag;
      value ← ok_or cleaned (MissingValue flag);
      Ok (value, iter)
  end.

(** config.rs [clean_config_required_string] *)
Definition clean_config_required_string (value : string) : option string :=
  let value := trim value in
  if is_empty value then None else Some value.

(** config.rs [clean_optional] *)
Definition clean_optional (value : option string) : option string :=
  value ← value;
  let value := trim value in
  if is_empty value then None else Some value.

(** config.rs [clean_config_string] *)
Definition clean_config_string (value : string) : string := trim value.

(** config.rs [parse_bool] *)
Definition parse_bool (value : string) : bool :=
  one_of (to_ascii_lowercase (trim value)) ["1"; "true"].

(** config.rs [parse_tunnel_control_enabled] *)
Definition parse_tunnel_control_enabled (value : string) : option bool :=
  let value := to_ascii_lowercase (trim value) in
  if one_of value ["1"; "true"; "enabled"; "enable"; "auto"; "on"; "yes"] then Some true
  else if one_of value ["0"; "false"; "disabled"; "disable"; "off"; "no"] then Some false
  else None.

(** config.rs [parse_tunnel_relay_batch_policy] *)
Definition parse_tunnel_relay_batch_policy (flag value : string)
  : result ConfigError TunnelRelayBatchPolicy :=
  ok_or (parse_config_value (to_ascii_lowercase (trim value))) (InvalidValue flag (trim value)).

(** config.rs [parse_ktp_tcp_auth_version] *)
Definition parse_ktp_tcp_auth_version (flag value : string) : result ConfigError KtpTcpAuthVersion :=
  let lower := to_ascii_lowercase (trim value) in
  if one_of lower ["1"; "v1"; "kta1"] then Ok V1
  else if one_of lower ["2"; "v2"; "kta2"] then Ok V2
  else Err (InvalidValue flag (trim value)).

(** config.rs [parse_u32] *)
Definition parse_u32 (flag value : string) : result ConfigError N :=
  ok_or (parse_uint U32_MAX (trim value)) (InvalidValue flag value).

(** config.rs [validate_positive_usize] *)
Definition validate_positive_usize (flag : string) (parsed : N) : result ConfigError N :=
  if parsed =? 0 then Err (InvalidValue flag (pretty parsed)) else Ok parsed.

(** config.rs [parse_usize] *)
Definition parse_usize (flag value : string) : result ConfigError N :=
  parsed ← ok_or (parse_uint USIZE_MAX (trim value)) (InvalidValue flag value);
  validate_positive_usize flag parsed.

(** config.rs [validate_positive_u64] *)
Definition validate_positive_u64 (flag : string) (parsed : N) : result ConfigError N :=
  if parsed =? 0 then Err (InvalidValue flag (pretty parsed)) else Ok parsed.

(** config.rs [parse_u64] *)
Definition parse_u64 (flag value : string) : result ConfigError N :=
  parsed ← ok_or (parse_uint U64_MAX (trim value)) (InvalidValue flag value);
  validate_positive_u64 flag parsed.

(** config.rs [parse_u64_allow_zero] *)
Definition parse_u64_allow_zero (flag value : string) : result ConfigError N :=
  ok_or (parse_uint U64_MAX (trim value)) (InvalidValue flag value).

(** config.rs [validate_tunnel_relay_batch_tuning] *)
Definition validate_tunnel_relay_batch_tuning (tuning : TunnelRelayBatchTuning)
  : result ConfigError unit :=
  if severe_dwell_p95_micros tuning <? elevated_dwell_p95_micros tuning
  then Err (InvalidValue "--tunnel-ktp-relay-adaptive-severe-dwell-us"
    (pretty (severe_dwell_p95_micros tuning) +:+ " < "
     +:+ pretty (elevated_dwell_p95_micros tuning)))
  else if elevated_batch_cap tuning <? severe_batch_cap tuning
  then Err (InvalidValue "--tunnel-ktp-relay-adaptive-severe-cap"
    (pretty (severe_batch_cap tuning) +:+ " > " +:+ pretty (elevated_batch_cap tuning)))
  else Ok tt.

(** [result.unwrap_or(default)] *)
Definition unwrap_or {E A} (r : result E A) (default : A) : A :=
  match r with Ok a => a | _ => default end.

Section config.
(** The shortest decimal form of an [f64], the file system, [serde_json::from_str] (the
    error of either as its message) and [env_lookup] *)
Context (fmt_f64 : float64 → string).
Context (read_to_string : string → string + string).
Context (from_json : string → string + FileConfig).
Context (env_lookup : string → option string).

(** config.rs [validate_positive_f64] *)
Definition validate_positive_f64 (flag : string) (parsed : float64) : result ConfigError float64 :=
  if negb (f_is_finite parsed) || f_le parsed f_zero
  then Err (InvalidValue flag (fmt_f64 parsed)) else Ok parsed.

(** config.rs [parse_f64] *)
Definition parse_f64 (flag value : string) : result ConfigError float64 :=
  parsed ← ok_or (f_parse (trim value)) (InvalidValue flag value);
  validate_positive_f64 flag parsed.

(** config.rs [read_file_config] *)
Definition read_file_config (path : string) : result ConfigError FileConfig :=
  contents ← match read_to_string path with
             | inr contents => Ok contents
             | inl error => Err (ConfigFileRead (path +:+ ": " +:+ error))
             end;
  match from_json contents with
  | inr file => Ok file
  | inl error => Err (ConfigFileParse (path +:+ ": " +:+ error))
  end.

(** ** The environment *)

(** config.rs [parse_env_f64] *)
Definition parse_env_f64 (key : string) (default : float64) : result ConfigError float64 :=
  match clean_optional (env_lookup key) with
  | Some value => Ok (unwrap_or (parse_f64 key value) default)
  | None => Ok default
  end.

(** config.rs [parse_env_u32] *)
Definition parse_env_u32 (key : string) (default : N) : result ConfigError N :=
  match clean_optional (env_lookup key) with
  | Some value => Ok (unwrap_or (parse_u32 key value) default)
  | None => Ok default
  end.

(** config.rs [parse_env_u64] *)
Definition parse_env_u64 (key : string) (default : N) : result ConfigError N :=
  match clean_optional (env_lookup key) with
  | Some value => Ok (unwrap_or (parse_u64 key value) default)
  | None => Ok default
  end.

(** config.rs [parse_env_u64_allow_zero] *)
Definition parse_env_u64_allow_zero (key : string) (default : N) : result ConfigError N :=
  match clean_optional (env_lookup key) with
  | Some value => Ok (unwrap_or (parse_u64_allow_zero key value) default)
  | None => Ok default
  end.

(** config.rs [apply_optional_string_env] *)
Definition apply_optional_string_env (key : string) (target : option string) : option string :=
  match clean_optional (env_lookup key) with Some value => Some value | None => target end.

(** config.rs [apply_string_env] *)
Definition apply_string_env (key target : string) : string :=
  match clean_optional (env_lookup key) with Some value => value | None => target end.

(** config.rs [apply_bool_true_env] *)
Definition apply_bool_true_env (key : string) (target : bool) : bool :=
  match env_lookup key with Some value => if parse_bool value then true else target | None => target end.

(** config.rs [apply_bool_env] *)
Definition apply_bool_env (key : string) (target : bool) : bool :=
  match env_lookup key with Some value => parse_bool value | None => target end.

(** config.rs [apply_tunnel_control_enabled_env] *)
Definition apply_tunnel_control_enabled_env (target : bool) : bool :=
  match env_lookup "AGENT_TUNNEL_CONTROL_ENABLED" ≫= parse_tunnel_control_enabled with
  | Some value => value
  | None => target
  end.

(** config.rs [apply_tunnel_relay_batch_policy_env]: the target and whether it was set *)
Definition apply_tunnel_relay_batch_policy_env (target : TunnelRelayBatchPolicy)
  : result ConfigError (TunnelRelayBatchPolicy * bool) :=
  match clean_optional (env_lookup "AGENT_TUNNEL_KTP_RELAY_BATCH_POLICY") with
  | Some value =>
      policy ← parse_tunnel_relay_batch_policy "AGENT_TUNNEL_KTP_RELAY_BATCH_POLICY" value;
      Ok (policy, true)
  | None => Ok (target, false)
  end.

(** config.rs [apply_ktp_tcp_auth_version_env] *)
Definition apply_ktp_tcp_auth_version_env (target : KtpTcpAuthVersion)
  : result ConfigError KtpTcpAuthVersion :=
  match clean_optional (env_lookup "AGENT_TUNNEL_KTP_TCP_AUTH_VERSION") with
  | Some value => parse_ktp_tcp_auth_version "AGENT_TUNNEL_KTP_TCP_AUTH_VERSION" value
  | None => Ok target
  end.

(** config.rs [apply_f64_env] *)
Definition apply_f64_env (key : string) (target : float64) : float64 :=
  match clean_optional (env_lookup key) with
  | Some value => unwrap_or (parse_f64 key value) target
  | None => target
  end.

(** config.rs [apply_u32_env] *)
Definition apply_u32_env (key : string) (target : N) : N :=
  match clean_optional (env_lookup key) with
  | Some value => unwrap_or (parse_u32 key value) target
  | None => target
  end.

(** config.rs [apply_u64_env] *)
Definition apply_u64_env (key : string) (target : N) : N :=
  match clean_optional (env_lookup key) with
  | Some value => unwrap_or (parse_u64 key value) target
  | None => target
  end.

(** config.rs [apply_u64_env_allow_zero] *)
Definition apply_u64_env_allow_zero (key : string) (target : N) : N :=
  match clean_optional (env_lookup key) with
  | Some value => unwrap_or (parse_u64_allow_zero key value) target
  | None => target
  end.

(** config.rs [apply_usize_env] *)
Definition apply_usize_env (key : string) (target : N) : result ConfigError N :=
  match clean_optional (env_lookup key) with
  | Some value => parse_usize key value
  | None => Ok target
  end.

(** config.rs [apply_u64_env_strict] *)
Definition apply_u64_env_strict (key : string) (target : N) : result ConfigError N :=
  match clean_optional (env_lookup key) with
  | Some value => parse_u64 key value
  | None => Ok target
  end.

(** config.rs [apply_tunnel_relay_batch_tuning_env] *)
Definition apply_tunnel_relay_batch_tuning_env (target : TunnelRelayBatchTuning)
  : result ConfigError TunnelRelayBatchTuning :=
  high ← apply_usize_env "AGENT_TUNNEL_KTP_RELAY_ADAPTIVE_HIGH_SESSIONS"
    (high_session_threshold target);
  elevated_dwell ← apply_u64_env_strict "AGENT_TUNNEL_KTP_RELAY_ADAPTIVE_ELEVATED_DWELL_US"
    (elevated_dwell_p95_micros target);
  severe_dwell ← apply_u64_env_strict "AGENT_TUNNEL_KTP_RELAY_ADAPTIVE_SEVERE_DWELL_US"
    (severe_dwell_p95_micros target);
  elevated_cap ← apply_usize_env "AGENT_TUNNEL_KTP_RELAY_ADAPTIVE_ELEVATED_CAP"
    (elevated_batch_cap target);
  severe_cap ← apply_usize_env "AGENT_TUNNEL_KTP_RELAY_ADAPTIVE_SEVERE_CAP"
    (severe_batch_cap target);
  Ok (mkTuning high elevated_dwell severe_dwell elevated_cap severe_cap).

(** [env_lookup(key).as_deref().map(parse_bool).unwrap_or(false)] *)
Definition env_flag (value : option string) : bool := default false (parse_bool <$> value).

(** [clean_optional(env_lookup(key)).unwrap_or_default()] *)
Definition env_string (key : string) : string :=
  default ""%string (clean_optional (env_lookup key)).

(** config.rs [AgentConfig::from_args_and_env] 85-149 *)
Definition initial_draft : result ConfigError Draft :=
  interval_seconds ← parse_env_f64 "AGENT_INTERVAL" f_one;
  max_retries ← parse_env_u32 "AGENT_MAX_RETRIES" 3;
  reconnect_interval_seconds ← parse_env_u64 "AGENT_RECONNECT_INTERVAL" 5;
  info_report_interval_minutes ← parse_env_u64_allow_zero "AGENT_INFO_REPORT_INTERVAL" 5;
  month_rotate ← parse_env_u32 "AGENT_MONTH_ROTATE" 0;
  Ok {|
    d_endpoint := clean_optional (env_lookup "AGENT_ENDPOINT");
    d_token := clean_optional (env_lookup "AGENT_TOKEN");
    d_auto_discovery_key := clean_optional (env_lookup "AGENT_AUTO_DISCOVERY_KEY");
    d_insecure := env_flag (match env_lookup "AGENT_IGNORE_UNSAFE_CERT" with
                            | Some value => Some value
                            | None => env_lookup "AGENT_INSECURE"
                            end);
    d_disable_web_ssh := env_flag (env_lookup "AGENT_DISABLE_WEB_SSH");
    d_tunnel_control_enabled :=
      default true (env_lookup "AGENT_TUNNEL_CONTROL_ENABLED" ≫= parse_tunnel_control_enabled);
    d_tunnel_data_enabled := false;
    d_tunnel_ktp_tcp_address := env_string "AGENT_TUNNEL_KTP_TCP_ADDRESS";
    d_tunnel_ktp_tls_ca_cert := env_string "AGENT_TUNNEL_KTP_TLS_CA_CERT";
    d_tunnel_ktp_tcp_auth_version := V1;
    d_tunnel_ktp_relay_batch_policy := Fixed;
    d_tunnel_ktp_relay_batch_policy_explicit := false;
    d_tunnel_ktp_relay_batch_tuning := default_tuning;
    d_interval_seconds := interval_seconds;
    d_max_retries := max_retries;
    d_reconnect_interval_seconds := reconnect_interval_seconds;
    d_info_report_interval_minutes := info_report_interval_minutes;
    d_cf_access_client_id := env_string "AGENT_CF_ACCESS_CLIENT_ID";
    d_cf_access_client_secret := env_string "AGENT_CF_ACCESS_CLIENT_SECRET";
    d_include_nics := env_string "AGENT_INCLUDE_NICS";
    d_exclude_nics := env_string "AGENT_EXCLUDE_NICS";
    d_include_mountpoints := env_string "AGENT_INCLUDE_MOUNTPOINTS";
    d_custom_ipv4 := env_string "AGENT_CUSTOM_IPV4";
    d_custom_ipv6 := env_string "AGENT_CUSTOM_IPV6";
    d_custom_dns := env_string "AGENT_CUSTOM_DNS";
    d_get_ip_addr_from_nic := env_flag (env_lookup "AGENT_GET_IP_ADDR_FROM_NIC");
    d_memory_include_cache := env_flag (env_lookup "AGENT_MEMORY_INCLUDE_CACHE");
    d_memory_report_raw_used := env_flag (env_lookup "AGENT_MEMORY_REPORT_RAW_USED");
    d_enable_gpu := env_flag (env_lookup "AGENT_ENABLE_GPU");
    d_month_rotate := month_rotate;
    d_host_proc := env_string "HOST_PROC";
    d_config_file := env_string "AGENT_CONFIG_FILE";
    d_once := env_flag (env_lookup "AGENT_ONCE");
  |}.

(** ** The command line *)

(** An arm of the [match] over an argument: when it applies, and what it does with the
    argument, the rest of the iterator and the draft *)
Record arm := mkArm {
  arm_matches : string → bool;
  arm_run : string → list string → Draft → result ConfigError (list string * Draft);
}.

(** [names => { …next_value(&mut iter, flag)?… }] *)
Definition with_value (names : list string) (flag : string)
    (f : string → Draft → result ConfigError Draft) : arm :=
  mkArm (fun arg => one_of arg names) (fun _ iter d =>
    '(value, iter) ← next_value iter flag;
    d ← f value d;
    Ok (iter, d)).

(** [names => { … }] *)
Definition switch (names : list string) (f : Draft → Draft) : arm :=
  mkArm (fun arg => one_of arg names) (fun _ iter d => Ok (iter, f d)).

(** [_ if arg.starts_with("flag=") => { …&arg["flag=".len()..]… }] *)
Definition prefixed (flag : string) (f : string → Draft → result ConfigError Draft) : arm :=
  mkArm (starts_with (flag +:+ "=")) (fun arg iter d =>
    d ← f (default ""%string (strip_prefix (flag +:+ "=") arg)) d;
    Ok (iter, d)).

(** [clean_required(value, flag)?.unwrap()] *)
Definition required (value flag : string) : result ConfigError string :=
  cleaned ← clean_required value flag; expect cleaned.

(** Assignments of the fields of the batch tuning *)
Definition set_high_sessions (n : N) (d : Draft) : Draft :=
  let t := d_tunnel_ktp_relay_batch_tuning d in
  d <| d_tunnel_ktp_relay_batch_tuning := mkTuning n (elevated_dwell_p95_micros t)
    (severe_dwell_p95_micros t) (elevated_batch_cap t) (severe_batch_cap t) |>.
Definition set_elevated_dwell (n : N) (d : Draft) : Draft :=
  let t := d_tunnel_ktp_relay_batch_tuning d in
  d <| d_tunnel_ktp_relay_batch_tuning := mkTuning (high_session_threshold t) n
    (severe_dwell_p95_micros t) (elevated_batch_cap t) (severe_batch_cap t) |>.
Definition set_severe_dwell (n : N) (d : Draft) : Draft :=
  let t := d_tunnel_ktp_relay_batch_tuning d in
  d <| d_tunnel_ktp_relay_batch_tuning := mkTuning (high_session_threshold t)
    (elevated_dwell_p95_micros t) n (elevated_batch_cap t) (severe_batch_cap t) |>.
Definition set_elevated_cap (n : N) (d : Draft) : Draft :=
  let t := d_tunnel_ktp_relay_batch_tuning d in
  d <| d_tunnel_ktp_relay_batch_tuning := mkTuning (high_session_threshold t)
    (elevated_dwell_p95_micros t) (severe_dwell_p95_micros t) n (severe_batch_cap t) |>.
Definition set_severe_cap (n : N) (d : Draft) : Draft :=
  let t := d_tunnel_ktp_relay_batch_tuning d in
  d <| d_tunnel_ktp_relay_batch_tuning := mkTuning (high_session_threshold t)
    (elevated_dwell_p95_micros t) (severe_dwell_p95_micros t) (elevated_batch_cap t) n |>.

(** The policy is assigned together with the mark that it was given. *)
Definition set_policy (policy : TunnelRelayBatchPolicy) (d : Draft) : Draft :=
  let d := d <| d_tunnel_ktp_relay_batch_policy := policy |> in
  d <| d_tunnel_ktp_relay_batch_policy_explicit := true |>.

(** config.rs [AgentConfig::from_args_and_env] 156-238 *)
Definition exact_arms_tunnel : list arm := [
  with_value ["--endpoint"] "--endpoint" (fun v d => Ok (d <| d_endpoint := Some v |>));
  with_value ["-e"] "-e" (fun v d => Ok (d <| d_endpoint := Some v |>));
  with_value ["--token"] "--token" (fun v d => Ok (d <| d_token := Some v |>));
  with_value ["-t"] "-t" (fun v d => Ok (d <| d_token := Some v |>));
  with_value ["--auto-discovery"] "--auto-discovery"
    (fun v d => Ok (d <| d_auto_discovery_key := Some v |>));
  switch ["--insecure"] (fun d => d <| d_insecure := true |>);
  switch ["--ignore-unsafe-cert"] (fun d => d <| d_insecure := true |>);
  switch ["-u"] (fun d => d <| d_insecure := true |>);
  switch ["--disable-web-ssh"] (fun d => d <| d_disable_web_ssh := true |>);
  switch ["--once"] (fun d => d <| d_once := true |>);
  with_value ["--tunnel-ktp-tcp-address"; "--ktp-tcp-address"] "--tunnel-ktp-tcp-address"
    (fun v d => Ok (d <| d_tunnel_ktp_tcp_address := v |>));
  with_value ["--tunnel-ktp-tls-ca-cert"; "--ktp-tls-ca-cert"] "--tunnel-ktp-tls-ca-cert"
    (fun v d => Ok (d <| d_tunnel_ktp_tls_ca_cert := v |>));
  with_value ["--tunnel-ktp-tcp-auth-version"; "--ktp-tcp-auth-version"]
    "--tunnel-ktp-tcp-auth-version"
    (fun v d => version ← parse_ktp_tcp_auth_version "--tunnel-ktp-tcp-auth-version" v;
                Ok (d <| d_tunnel_ktp_tcp_auth_version := version |>));
  with_value ["--tunnel-ktp-relay-batch-policy"; "--ktp-relay-batch-policy"]
    "--tunnel-ktp-relay-batch-policy"
    (fun v d => policy ← parse_tunnel_relay_batch_policy "--tunnel-ktp-relay-batch-policy" v;
                Ok (set_policy policy d));
  with_value ["--tunnel-ktp-relay-adaptive-high-sessions"; "--ktp-relay-adaptive-high-sessions"]
    "--tunnel-ktp-relay-adaptive-high-sessions"
    (fun v d => n ← parse_usize "--tunnel-ktp-relay-adaptive-high-sessions" v;
                Ok (set_high_sessions n d));
  with_value ["--tunnel-ktp-relay-adaptive-elevated-dwell-us";
              "--ktp-relay-adaptive-elevated-dwell-us"]
    "--tunnel-ktp-relay-adaptive-elevated-dwell-us"
    (fun v d => n ← parse_u64 "--tunnel-ktp-relay-adaptive-elevated-dwell-us" v;
                Ok (set_elevated_dwell n d));
  with_value ["--tunnel-ktp-relay-adaptive-severe-dwell-us";
              "--ktp-relay-adaptive-severe-dwell-us"]
    "--tunnel-ktp-relay-adaptive-severe-dwell-us"
    (fun v d => n ← parse_u64 "--tunnel-ktp-relay-adaptive-severe-dwell-us" v;
                Ok (set_severe_dwell n d));
  with_value ["--tunnel-ktp-relay-adaptive-elevated-cap"; "--ktp-relay-adaptive-elevated-cap"]
    "--tunnel-ktp-relay-adaptive-elevated-cap"
    (fun v d => n ← parse_usize "--tunnel-ktp-relay-adaptive-elevated-cap" v;
                Ok (set_elevated_cap n d));
  with_value ["--tunnel-ktp-relay-adaptive-severe-cap"; "--ktp-relay-adaptive-severe-cap"]
    "--tunnel-ktp-relay-adaptive-severe-cap"
    (fun v d => n ← parse_usize "--tunnel-ktp-relay-adaptive-severe-cap" v;
                Ok (set_severe_cap n d))
].

(** config.rs [AgentConfig::from_args_and_env] 239-314 *)
Definition exact_arms_host : list arm := [
  with_value ["--interval"] "--interval"
    (fun v d => x ← parse_f64 "--interval" v; Ok (d <| d_interval_seconds := x |>));
  with_value ["-i"] "-i" (fun v d => x ← parse_f64 "-i" v; Ok (d <| d_interval_seconds := x |>));
  with_value ["--max-retries"] "--max-retries"
    (fun v d => n ← parse_u32 "--max-retries" v; Ok (d <| d_max_retries := n |>));
  with_value ["-r"] "-r" (fun v d => n ← parse_u32 "-r" v; Ok (d <| d_max_retries := n |>));
  with_value ["--reconnect-interval"] "--reconnect-interval"
    (fun v d => n ← parse_u64 "--reconnect-interval" v;
                Ok (d <| d_reconnect_interval_seconds := n |>));
  with_value ["-c"] "-c"
    (fun v d => n ← parse_u64 "-c" v; Ok (d <| d_reconnect_interval_seconds := n |>));
  with_value ["--info-report-interval"] "--info-report-interval"
    (fun v d => n ← parse_u64_allow_zero "--info-report-interval" v;
                Ok (d <| d_info_report_interval_minutes := n |>));
  with_value ["--cf-access-client-id"] "--cf-access-client-id"
    (fun v d => Ok (d <| d_cf_access_client_id := v |>));
  with_value ["--cf-access-client-secret"] "--cf-access-client-secret"
    (fun v d => Ok (d <| d_cf_access_client_secret := v |>));
  with_value ["--include-nics"] "--include-nics" (fun v d => Ok (d <| d_include_nics := v |>));
  with_value ["--exclude-nics"] "--exclude-nics" (fun v d => Ok (d <| d_exclude_nics := v |>));
  with_value ["--include-mountpoints"; "--include-mountpoint"] "--include-mountpoint"
    (fun v d => Ok (d <| d_include_mountpoints := v |>));
  with_value ["--custom-ipv4"] "--custom-ipv4" (fun v d => Ok (d <| d_custom_ipv4 := v |>));
  with_value ["--custom-ipv6"] "--custom-ipv6" (fun v d => Ok (d <| d_custom_ipv6 := v |>));
  with_value ["--custom-dns"] "--custom-dns" (fun v d => Ok (d <| d_custom_dns := v |>));
  switch ["--get-ip-addr-from-nic"] (fun d => d <| d_get_ip_addr_from_nic := true |>);
  switch ["--memory-include-cache"] (fun d => d <| d_memory_include_cache := true |>);
  switch ["--memory-exclude-bcf"] (fun d => d <| d_memory_report_raw_used := true |>);
  switch ["--memory-mode-available"; "-memory-mode-available"] (fun d => d);
  switch ["--enable-gpu"; "--gpu"] (fun d => d <| d_enable_gpu := true |>);
  with_value ["--month-rotate"] "--month-rotate"
    (fun v d => n ← parse_u32 "--month-rotate" v; Ok (d <| d_month_rotate := n |>));
  with_value ["--host-proc"] "--host-proc" (fun v d => Ok (d <| d_host_proc := v |>));
  with_value ["--config"] "--config" (fun v d => Ok (d <| d_config_file := v |>))
].

(** config.rs [AgentConfig::from_args_and_env] 315-415 *)
Definition prefix_arms_host : list arm := [
  prefixed "--endpoint" (fun v d => o ← clean_required v "--endpoint"; Ok (d <| d_endpoint := o |>));
  prefixed "-e" (fun v d => o ← clean_required v "-e"; Ok (d <| d_endpoint := o |>));
  prefixed "--token" (fun v d => o ← clean_required v "--token"; Ok (d <| d_token := o |>));
  prefixed "-t" (fun v d => o ← clean_required v "-t"; Ok (d <| d_token := o |>));
  prefixed "--auto-discovery"
    (fun v d => o ← clean_required v "--auto-discovery"; Ok (d <| d_auto_discovery_key := o |>));
  prefixed "--interval"
    (fun v d => x ← parse_f64 "--interval" v; Ok (d <| d_interval_seconds := x |>));
  prefixed "-i" (fun v d => x ← parse_f64 "-i" v; Ok (d <| d_interval_seconds := x |>));
  prefixed "--max-retries"
    (fun v d => n ← parse_u32 "--max-retries" v; Ok (d <| d_max_retries := n |>));
  prefixed "-r" (fun v d => n ← parse_u32 "-r" v; Ok (d <| d_max_retries := n |>));
  prefixed "--reconnect-interval"
    (fun v d => n ← parse_u64 "--reconnect-interval" v;
                Ok (d <| d_reconnect_interval_seconds := n |>));
  prefixed "-c" (fun v d => n ← parse_u64 "-c" v; Ok (d <| d_reconnect_interval_seconds := n |>));
  prefixed "--info-report-interval"
    (fun v d => n ← parse_u64_allow_zero "--info-report-interval" v;
                Ok (d <| d_info_report_interval_minutes := n |>));
  prefixed "--cf-access-client-id"
    (fun v d => s ← required v "--cf-access-client-id"; Ok (d <| d_cf_access_client_id := s |>));
  prefixed "--cf-access-client-secret"
    (fun v d => s ← required v "--cf-access-client-secret";
                Ok (d <| d_cf_access_client_secret := s |>));
  prefixed "--include-nics"
    (fun v d => s ← required v "--include-nics"; Ok (d <| d_include_nics := s |>));
  prefixed "--exclude-nics"
    (fun v d => s ← required v "--exclude-nics"; Ok (d <| d_exclude_nics := s |>));
  prefixed "--include-mountpoints"
    (fun v d => s ← required v "--include-mountpoints"; Ok (d <| d_include_mountpoints := s |>));
  prefixed "--include-mountpoint"
    (fun v d => s ← required v "--include-mountpoint"; Ok (d <| d_include_mountpoints := s |>));
  prefixed "--custom-ipv4"
    (fun v d => s ← required v "--custom-ipv4"; Ok (d <| d_custom_ipv4 := s |>));
  prefixed "--custom-ipv6"
    (fun v d => s ← required v "--custom-ipv6"; Ok (d <| d_custom_ipv6 := s |>));
  prefixed "--custom-dns"
    (fun v d => s ← required v "--custom-dns"; Ok (d <| d_custom_dns := s |>));
  prefixed "--month-rotate"
    (fun v d => n ← parse_u32 "--month-rotate" v; Ok (d <| d_month_rotate := n |>));
  prefixed "--host-proc" (fun v d => s ← required v "--host-proc"; Ok (d <| d_host_proc := s |>));
  prefixed "--config" (fun v d => s ← required v "--config"; Ok (d <| d_config_file := s |>))
].

(** config.rs [AgentConfig::from_args_and_env] 416-525 *)
Definition prefix_arms_tunnel : list arm := [
  prefixed "--tunnel-ktp-tcp-address"
    (fun v d => s ← required v "--tunnel-ktp-tcp-address";
                Ok (d <| d_tunnel_ktp_tcp_address := s |>));
  prefixed "--ktp-tcp-address"
    (fun v d => s ← required v "--ktp-tcp-address"; Ok (d <| d_tunnel_ktp_tcp_address := s |>));
  prefixed "--tunnel-ktp-tls-ca-cert"
    (fun v d => s ← required v "--tunnel-ktp-tls-ca-cert";
                Ok (d <| d_tunnel_ktp_tls_ca_cert := s |>));
  prefixed "--ktp-tls-ca-cert"
    (fun v d => s ← required v "--ktp-tls-ca-cert"; Ok (d <| d_tunnel_ktp_tls_ca_cert := s |>));
  prefixed "--tunnel-ktp-tcp-auth-version"
    (fun v d => version ← parse_ktp_tcp_auth_version "--tunnel-ktp-tcp-auth-version" v;
                Ok (d <| d_tunnel_ktp_tcp_auth_version := version |>));
  prefixed "--ktp-tcp-auth-version"
    (fun v d => version ← parse_ktp_tcp_auth_version "--ktp-tcp-auth-version" v;
                Ok (d <| d_tunnel_ktp_tcp_auth_version := version |>));
  prefixed "--tunnel-ktp-relay-batch-policy"
    (fun v d => policy ← parse_tunnel_relay_batch_policy "--tunnel-ktp-relay-batch-policy" v;
                Ok (set_policy policy d));
  prefixed "--ktp-relay-batch-policy"
    (fun v d => policy ← parse_tunnel_relay_batch_policy "--ktp-relay-batch-policy" v;
                Ok (set_policy policy d));
  prefixed "--tunnel-ktp-relay-adaptive-high-sessions"
    (fun v d => n ← parse_usize "--tunnel-ktp-relay-adaptive-high-sessions" v;
                Ok (set_high_sessions n d));
  prefixed "--ktp-relay-adaptive-high-sessions"
    (fun v d => n ← parse_usize "--ktp-relay-adaptive-high-sessions" v;
                Ok (set_high_sessions n d));
  prefixed "--tunnel-ktp-relay-adaptive-elevated-dwell-us"
    (fun v d => n ← parse_u64 "--tunnel-ktp-relay-adaptive-elevated-dwell-us" v;
                Ok (set_elevated_dwell n d));
  prefixed "--ktp-relay-adaptive-elevated-dwell-us"
    (fun v d => n ← parse_u64 "--ktp-relay-adaptive-elevated-dwell-us" v;
                Ok (set_elevated_dwell n d));
  prefixed "--tunnel-ktp-relay-adaptive-severe-dwell-us"
    (fun v d => n ← parse_u64 "--tunnel-ktp-relay-adaptive-severe-dwell-us" v;
                Ok (set_severe_dwell n d));
  prefixed "--ktp-relay-adaptive-severe-dwell-us"
    (fun v d => n ← parse_u64 "--ktp-relay-adaptive-severe-dwell-us" v;
                Ok (set_severe_dwell n d));
  prefixed "--tunnel-ktp-relay-adaptive-elevated-cap"
    (fun v d => n ← parse_usize "--tunnel-ktp-relay-adaptive-elevated-cap" v;
                Ok (set_elevated_cap n d));
  prefixed "--ktp-relay-adaptive-elevated-cap"
    (fun v d => n ← parse_usize "--ktp-relay-adaptive-elevated-cap" v;
                Ok (set_elevated_cap n d));
  prefixed "--tunnel-ktp-relay-adaptive-severe-cap"
    (fun v d => n ← parse_usize "--tunnel-ktp-relay-adaptive-severe-cap" v;
                Ok (set_severe_cap n d));
  prefixed "--ktp-relay-adaptive-severe-cap"
    (fun v d => n ← parse_usize "--ktp-relay-adaptive-severe-cap" v;
                Ok (set_severe_cap n d))
].

Definition arms : list arm :=
  exact_arms_tunnel ++ exact_arms_host ++ prefix_arms_host ++ prefix_arms_tunnel.

(** The first arm that matches; [_ => {}] *)
Definition match_arg (arg : string) (iter : list string) (d : Draft)
  : result ConfigError (list string * Draft) :=
  match List.find (fun a => arm_matches a arg) arms with
  | Some a => arm_run a arg iter d
  | None => Ok (iter, d)
  end.

(** The loop over the arguments.  An arm takes at most one more argument, so as many steps
    as there are arguments are enough. *)
Fixpoint parse_args_loop (fuel : nat) (iter : list string) (d : Draft) : result ConfigError Draft :=
  match fuel, iter with
  | _, [] => Ok d
  | O, _ => Ok d
  | S fuel, arg :: iter =>
      '(iter, d) ← match_arg arg iter d;
      parse_args_loop fuel iter d
  end.

(** config.rs [AgentConfig::from_args_and_env] 151-155 *)
Definition parse_args (args : list string) (d : Draft) : result ConfigError Draft :=
  let iter := tail args in
  parse_args_loop (length iter) iter d.

(** ** The environment and the configuration file *)

(** Statements run one after the other; an error ends them. *)
Fixpoint run_steps (steps : list (Draft → result ConfigError Draft)) (d : Draft)
  : result ConfigError Draft :=
  match steps with
  | [] => Ok d
  | step :: steps => d ← step d; run_steps steps d
  end.

(** config.rs [AgentConfig::from_args_and_env] 530-611 *)
Definition env_steps : list (Draft → result ConfigError Draft) := [
  (fun d => Ok (d <| d_endpoint := apply_optional_string_env "AGENT_ENDPOINT" (d_endpoint d) |>));
  (fun d => Ok (d <| d_token := apply_optional_string_env "AGENT_TOKEN" (d_token d) |>));
  (fun d => Ok (d <| d_auto_discovery_key :=
    apply_optional_string_env "AGENT_AUTO_DISCOVERY_KEY" (d_auto_discovery_key d) |>));
  (fun d => Ok (d <| d_insecure := apply_bool_true_env "AGENT_IGNORE_UNSAFE_CERT" (d_insecure d) |>));
  (fun d => Ok (d <| d_insecure := apply_bool_true_env "AGENT_INSECURE" (d_insecure d) |>));
  (fun d => Ok (d <| d_disable_web_ssh :=
    apply_bool_true_env "AGENT_DISABLE_WEB_SSH" (d_disable_web_ssh d) |>));
  (fun d => Ok (d <| d_tunnel_control_enabled :=
    apply_tunnel_control_enabled_env (d_tunnel_control_enabled d) |>));
  (fun d => Ok (d <| d_tunnel_data_enabled :=
    apply_bool_env "AGENT_TUNNEL_DATA_ENABLED" (d_tunnel_data_enabled d) |>));
  (fun d => Ok (d <| d_tunnel_ktp_tcp_address :=
    apply_string_env "AGENT_TUNNEL_KTP_TCP_ADDRESS" (d_tunnel_ktp_tcp_address d) |>));
  (fun d => Ok (d <| d_tunnel_ktp_tls_ca_cert :=
    apply_string_env "AGENT_TUNNEL_KTP_TLS_CA_CERT" (d_tunnel_ktp_tls_ca_cert d) |>));
  (fun d => version ← apply_ktp_tcp_auth_version_env (d_tunnel_ktp_tcp_auth_version d);
            Ok (d <| d_tunnel_ktp_tcp_auth_version := version |>));
  (fun d => '(policy, set) ← apply_tunnel_relay_batch_policy_env (d_tunnel_ktp_relay_batch_policy d);
            let d := d <| d_tunnel_ktp_relay_batch_policy := policy |> in
            Ok (d <| d_tunnel_ktp_relay_batch_policy_explicit :=
                  d_tunnel_ktp_relay_batch_policy_explicit d || set |>));
  (fun d => tuning ← apply_tunnel_relay_batch_tuning_env (d_tunnel_ktp_relay_batch_tuning d);
            Ok (d <| d_tunnel_ktp_relay_batch_tuning := tuning |>));
  (fun d => Ok (d <| d_interval_seconds := apply_f64_env "AGENT_INTERVAL" (d_interval_seconds d) |>));
  (fun d => Ok (d <| d_max_retries := apply_u32_env "AGENT_MAX_RETRIES" (d_max_retries d) |>));
  (fun d => Ok (d <| d_reconnect_interval_seconds :=
    apply_u64_env "AGENT_RECONNECT_INTERVAL" (d_reconnect_interval_seconds d) |>));
  (fun d => Ok (d <| d_info_report_interval_minutes :=
    apply_u64_env_allow_zero "AGENT_INFO_REPORT_INTERVAL" (d_info_report_interval_minutes d) |>));
  (fun d => Ok (d <| d_cf_access_client_id :=
    apply_string_env "AGENT_CF_ACCESS_CLIENT_ID" (d_cf_access_client_id d) |>));
  (fun d => Ok (d <| d_cf_access_client_secret :=
    apply_string_env "AGENT_CF_ACCESS_CLIENT_SECRET" (d_cf_access_client_secret d) |>));
  (fun d => Ok (d <| d_include_nics := apply_string_env "AGENT_INCLUDE_NICS" (d_include_nics d) |>));
  (fun d => Ok (d <| d_exclude_nics := apply_string_env "AGENT_EXCLUDE_NICS" (d_exclude_nics d) |>));
  (fun d => Ok (d <| d_include_mountpoints :=
    apply_string_env "AGENT_INCLUDE_MOUNTPOINTS" (d_include_mountpoints d) |>));
  (fun d => Ok (d <| d_custom_ipv4 := apply_string_env "AGENT_CUSTOM_IPV4" (d_custom_ipv4 d) |>));
  (fun d => Ok (d <| d_custom_ipv6 := apply_string_env "AGENT_CUSTOM_IPV6" (d_custom_ipv6 d) |>));
  (fun d => Ok (d <| d_custom_dns := apply_string_env "AGENT_CUSTOM_DNS" (d_custom_dns d) |>));
  (fun d => Ok (d <| d_get_ip_addr_from_nic :=
    apply_bool_true_env "AGENT_GET_IP_ADDR_FROM_NIC" (d_get_ip_addr_from_nic d) |>));
  (fun d => Ok (d <| d_memory_include_cache :=
    apply_bool_true_env "AGENT_MEMORY_INCLUDE_CACHE" (d_memory_include_cache d) |>));
  (fun d => Ok (d <| d_memory_report_raw_used :=
    apply_bool_true_env "AGENT_MEMORY_REPORT_RAW_USED" (d_memory_report_raw_used d) |>));
  (fun d => Ok (d <| d_enable_gpu := apply_bool_true_env "AGENT_ENABLE_GPU" (d_enable_gpu d) |>));
  (fun d => Ok (d <| d_month_rotate := apply_u32_env "AGENT_MONTH_ROTATE" (d_month_rotate d) |>));
  (fun d => Ok (d <| d_host_proc := apply_string_env "HOST_PROC" (d_host_proc d) |>));
  (fun d => Ok (d <| d_config_file := apply_string_env "AGENT_CONFIG_FILE" (d_config_file d) |>));
  (fun d => Ok (d <| d_once := apply_bool_true_env "AGENT_ONCE" (d_once d) |>))
].

(** [if let Some(value) = field { … }] *)
Definition if_some {A} (field : option A) (f : A → Draft → result ConfigError Draft) (d : Draft)
  : result ConfigError Draft :=
  match field with Some value => f value d | None => Ok d end.

(** config.rs [AgentConfig::from_args_and_env] 615-670 *)
Definition file_steps_tunnel (file : FileConfig) : list (Draft → result ConfigError Draft) := [
  if_some (file_endpoint file)
    (fun v d => Ok (d <| d_endpoint := clean_config_required_string v |>));
  if_some (file_token file) (fun v d => Ok (d <| d_token := clean_config_required_string v |>));
  if_some (file_auto_discovery_key file)
    (fun v d => Ok (d <| d_auto_discovery_key := clean_config_required_string v |>));
  if_some (file_ignore_unsafe_cert file) (fun v d => Ok (d <| d_insecure := v |>));
  if_some (file_disable_web_ssh file) (fun v d => Ok (d <| d_disable_web_ssh := v |>));
  if_some (file_tunnel_control_enabled file)
    (fun v d => Ok (d <| d_tunnel_control_enabled := v |>));
  if_some (file_tunnel_data_enabled file) (fun v d => Ok (d <| d_tunnel_data_enabled := v |>));
  if_some (file_tunnel_ktp_tcp_address file)
    (fun v d => Ok (d <| d_tunnel_ktp_tcp_address := clean_config_string v |>));
  if_some (file_tunnel_ktp_tls_ca_cert file)
    (fun v d => Ok (d <| d_tunnel_ktp_tls_ca_cert := clean_config_string v |>));
  if_some (file_tunnel_ktp_tcp_auth_version file)
    (fun v d => version ← parse_ktp_tcp_auth_version "tunnel_ktp_tcp_auth_version" v;
                Ok (d <| d_tunnel_ktp_tcp_auth_version := version |>));
  if_some (file_tunnel_ktp_relay_batch_policy file)
    (fun v d => policy ← parse_tunnel_relay_batch_policy "tunnel_ktp_relay_batch_policy" v;
                Ok (set_policy policy d));
  if_some (file_tunnel_ktp_relay_adaptive_high_sessions file)
    (fun v d => n ← validate_positive_usize "tunnel_ktp_relay_adaptive_high_sessions" v;
                Ok (set_high_sessions n d));
  if_some (file_tunnel_ktp_relay_adaptive_elevated_dwell_us file)
    (fun v d => n ← validate_positive_u64 "tunnel_ktp_relay_adaptive_elevated_dwell_us" v;
                Ok (set_elevated_dwell n d));
  if_some (file_tunnel_ktp_relay_adaptive_severe_dwell_us file)
    (fun v d => n ← validate_positive_u64 "tunnel_ktp_relay_adaptive_severe_dwell_us" v;
                Ok (set_severe_dwell n d));
  if_some (file_tunnel_ktp_relay_adaptive_elevated_cap file)
    (fun v d => n ← validate_positive_usize "tunnel_ktp_relay_adaptive_elevated_cap" v;
                Ok (set_elevated_cap n d));
  if_some (file_tunnel_ktp_relay_adaptive_severe_cap file)
    (fun v d => n ← validate_positive_usize "tunnel_ktp_relay_adaptive_severe_cap" v;
                Ok (set_severe_cap n d))
].

(** config.rs [AgentConfig::from_args_and_env] 671-725 *)
Definition file_steps_host (file : FileConfig) : list (Draft → result ConfigError Draft) := [
  if_some (file_interval file)
    (fun v d => x ← validate_positive_f64 "interval" v; Ok (d <| d_interval_seconds := x |>));
  if_some (file_max_retries file) (fun v d => Ok (d <| d_max_retries := v |>));
  if_some (file_reconnect_interval file)
    (fun v d => n ← validate_positive_u64 "reconnect_interval" v;
                Ok (d <| d_reconnect_interval_seconds := n |>));
  if_some (file_info_report_interval file)
    (fun v d => Ok (d <| d_info_report_interval_minutes := v |>));
  if_some (file_cf_access_client_id file)
    (fun v d => Ok (d <| d_cf_access_client_id := clean_config_string v |>));
  if_some (file_cf_access_client_secret file)
    (fun v d => Ok (d <| d_cf_access_client_secret := clean_config_string v |>));
  if_some (file_include_nics file) (fun v d => Ok (d <| d_include_nics := clean_config_string v |>));
  if_some (file_exclude_nics file) (fun v d => Ok (d <| d_exclude_nics := clean_config_string v |>));
  if_some (file_include_mountpoints file)
    (fun v d => Ok (d <| d_include_mountpoints := clean_config_string v |>));
  if_some (file_custom_ipv4 file) (fun v d => Ok (d <| d_custom_ipv4 := clean_config_string v |>));
  if_some (file_custom_ipv6 file) (fun v d => Ok (d <| d_custom_ipv6 := clean_config_string v |>));
  if_some (file_custom_dns file) (fun v d => Ok (d <| d_custom_dns := clean_config_string v |>));
  if_some (file_get_ip_addr_from_nic file) (fun v d => Ok (d <| d_get_ip_addr_from_nic := v |>));
  if_some (file_memory_include_cache file) (fun v d => Ok (d <| d_memory_include_cache := v |>));
  if_some (file_memory_report_raw_used file)
    (fun v d => Ok (d <| d_memory_report_raw_used := v |>));
  if_some (file_enable_gpu file) (fun v d => Ok (d <| d_enable_gpu := v |>));
  if_some (file_month_rotate file) (fun v d => Ok (d <| d_month_rotate := v |>));
  if_some (file_host_proc file) (fun v d => Ok (d <| d_host_proc := clean_config_string v |>))
].

(** The configuration file, when one is named *)
Definition file_config (d : Draft) : result ConfigError (option FileConfig) :=
  if is_empty (d_config_file d) then Ok None
  else file ← read_file_config (d_config_file d); Ok (Some file).

(** config.rs [AgentConfig::from_args_and_env] 613-614 *)
Definition apply_file (file : option FileConfig) (d : Draft) : result ConfigError Draft :=
  match file with
  | Some file => run_steps (file_steps_tunnel file ++ file_steps_host file) d
  | None => Ok d
  end.

(** config.rs [AgentConfig::from_args_and_env] 727-773 *)
Definition finish (d : Draft) : result ConfigError AgentConfig :=
  let policy :=
    if d_tunnel_data_enabled d && negb (d_tunnel_ktp_relay_batch_policy_explicit d)
    then Adaptive else d_tunnel_ktp_relay_batch_policy d in
  _ ← validate_tunnel_relay_batch_tuning (d_tunnel_ktp_relay_batch_tuning d);
  endpoint ← ok_or (d_endpoint d) MissingEndpoint;
  let token := default ""%string (d_token d) in
  let auto_discovery_key := default ""%string (d_auto_discovery_key d) in
  if is_empty token && is_empty auto_discovery_key then Err MissingToken
  else Ok {|
    cfg_endpoint := endpoint;
    cfg_token := token;
    cfg_auto_discovery_key := auto_discovery_key;
    cfg_insecure := d_insecure d;
    cfg_disable_web_ssh := d_disable_web_ssh d;
    cfg_tunnel_control_enabled := d_tunnel_control_enabled d;
    cfg_tunnel_data_enabled := d_tunnel_data_enabled d;
    cfg_tunnel_ktp_tcp_address := d_tunnel_ktp_tcp_address d;
    cfg_tunnel_ktp_tls_ca_cert := d_tunnel_ktp_tls_ca_cert d;
    cfg_tunnel_ktp_tcp_auth_version := d_tunnel_ktp_tcp_auth_version d;
    cfg_tunnel_ktp_relay_batch_policy := policy;
    cfg_tunnel_ktp_relay_batch_tuning := d_tunnel_ktp_relay_batch_tuning d;
    cfg_interval_seconds := d_interval_seconds d;
    cfg_max_retries := d_max_retries d;
    cfg_reconnect_interval_seconds := d_reconnect_interval_seconds d;
    cfg_info_report_interval_minutes := d_info_report_interval_minutes d;
    cfg_cf_access_client_id := d_cf_access_client_id d;
    cfg_cf_access_client_secret := d_cf_access_client_secret d;
    cfg_include_nics := d_include_nics d;
    cfg_exclude_nics := d_exclude_nics d;
    cfg_include_mountpoints := d_include_mountpoints d;
    cfg_custom_ipv4 := d_custom_ipv4 d;
    cfg_custom_ipv6 := d_custom_ipv6 d;
    cfg_custom_dns := d_custom_dns d;
    cfg_get_ip_addr_from_nic := d_get_ip_addr_from_nic d;
    cfg_memory_include_cache := d_memory_include_cache d;
    cfg_memory_report_raw_used := d_memory_report_raw_used d;
    cfg_enable_gpu := d_enable_gpu d;
    cfg_month_rotate := d_month_rotate d;
    cfg_host_proc := d_host_proc d;
    cfg_once := d_once d;
  |}.

(** config.rs [AgentConfig::from_args_and_env] 79-84 *)
Definition from_args_and_env (args : list string) : result ConfigError AgentConfig :=
  d ← initial_draft;
  d ← parse_args args d;
  d ← run_steps env_steps d;
  file ← file_config d;
  d ← apply_file file d;
  finish d.

End config.

(** config.rs [AgentConfig::tunnel_runtime_limits] *)
Definition tunnel_runtime_limits (self : AgentConfig) : TunnelRuntimeLimits :=
  let limits := default_limits in
  mkRuntimeLimits (max_sessions_per_agent limits) (max_outbound_frames limits)
    (max_session_pending_bytes limits) (tcp_read_chunk_size limits)
    (target_dial_timeout_ms limits) (idle_timeout_ms limits)
    (cfg_tunnel_ktp_relay_batch_policy self) (cfg_tunnel_ktp_relay_batch_tuning self).

(** ** Well-formed values *)

Definition trimmed (s : string) : Prop := trim s = s.
(** A cleaned value: trimmed and not empty *)
Definition cleaned (s : string) : Prop := trimmed s ∧ s ≠ ""%string.
Definition opt_cleaned (o : option string) : Prop := ∀ s, o = Some s → cleaned s.
Definition positive (max n : N) : Prop := 1 ≤ n ≤ max.
(** A finite number above zero *)
Definition positive_f64 (x : float64) : Prop := f_is_finite x = true ∧ f_gt x f_zero = true.

Definition tuning_positive (t : TunnelRelayBatchTuning) : Prop :=
  positive USIZE_MAX (high_session_threshold t) ∧
  positive U64_MAX (elevated_dwell_p95_micros t) ∧ positive U64_MAX (severe_dwell_p95_micros t) ∧
  positive USIZE_MAX (elevated_batch_cap t) ∧ positive USIZE_MAX (severe_batch_cap t).

(** The bounds of an adaptive batch are in order. *)
Definition tuning_ordered (t : TunnelRelayBatchTuning) : Prop :=
  elevated_dwell_p95_micros t ≤ severe_dwell_p95_micros t ∧
  severe_batch_cap t ≤ elevated_batch_cap t.

(** The integers of a deserialised file are of their types. *)
Definition file_in_range (file : FileConfig) : Prop :=
  (∀ n, file_max_retries file = Some n → n ≤ U32_MAX) ∧
  (∀ n, file_month_rotate file = Some n → n ≤ U32_MAX) ∧
  (∀ n, file_reconnect_interval file = Some n → n ≤ U64_MAX) ∧
  (∀ n, file_info_report_interval file = Some n → n ≤ U64_MAX) ∧
  (∀ n, file_tunnel_ktp_relay_adaptive_high_sessions file = Some n → n ≤ USIZE_MAX) ∧
  (∀ n, file_tunnel_ktp_relay_adaptive_elevated_dwell_us file = Some n → n ≤ U64_MAX) ∧
  (∀ n, file_tunnel_ktp_relay_adaptive_severe_dwell_us file = Some n → n ≤ U64_MAX) ∧
  (∀ n, file_tunnel_ktp_relay_adaptive_elevated_cap file = Some n → n ≤ USIZE_MAX) ∧
  (∀ n, file_tunnel_ktp_relay_adaptive_severe_cap file = Some n → n ≤ USIZE_MAX).

(** The invariant of the local variables *)
Record draft_ok (d : Draft) : Prop := mkDraftOk {
  ok_endpoint : opt_cleaned (d_endpoint d);
  ok_token : opt_cleaned (d_token d);
  ok_key : opt_cleaned (d_auto_discovery_key d);
  ok_tuning : tuning_positive (d_tunnel_ktp_relay_batch_tuning d);
  ok_interval : positive_f64 (d_interval_seconds d);
  ok_retries : d_max_retries d ≤ U32_MAX;
  ok_reconnect : positive U64_MAX (d_reconnect_interval_seconds d);
  ok_info : d_info_report_interval_minutes d ≤ U64_MAX;
  ok_month : d_month_rotate d ≤ U32_MAX;
  ok_address : trimmed (d_tunnel_ktp_tcp_address d);
  ok_ca_cert : trimmed (d_tunnel_ktp_tls_ca_cert d);
  ok_cf_id : trimmed (d_cf_access_client_id d);
  ok_cf_secret : trimmed (d_cf_access_client_secret d);
  ok_include_nics : trimmed (d_include_nics d);
  ok_exclude_nics : trimmed (d_exclude_nics d);
  ok_mountpoints : trimmed (d_include_mountpoints d);
  ok_ipv4 : trimmed (d_custom_ipv4 d);
  ok_ipv6 : trimmed (d_custom_ipv6 d);
  ok_dns : trimmed (d_custom_dns d);
  ok_host_proc : trimmed (d_host_proc d);
}.

(** A configuration the agent can run with *)
Record config_wf (c : AgentConfig) : Prop := mkConfigWf {
  wf_endpoint : cleaned (cfg_endpoint c);
  wf_identity : cleaned (cfg_token c) ∨ cleaned (cfg_auto_discovery_key c);
  wf_tuning : tuning_positive (cfg_tunnel_ktp_relay_batch_tuning c);
  wf_order : tuning_ordered (cfg_tunnel_ktp_relay_batch_tuning c);
  wf_interval : positive_f64 (cfg_interval_seconds c);
  wf_retries : cfg_max_retries c ≤ U32_MAX;
  wf_reconnect : positive U64_MAX (cfg_reconnect_interval_seconds c);
  wf_info : cfg_info_report_interval_minutes c ≤ U64_MAX;
  wf_month : cfg_month_rotate c ≤ U32_MAX;
  wf_strings : Forall trimmed [cfg_token c; cfg_auto_discovery_key c; cfg_tunnel_ktp_tcp_address c;
    cfg_tunnel_ktp_tls_ca_cert c; cfg_cf_access_client_id c; cfg_cf_access_client_secret c;
    cfg_include_nics c; cfg_exclude_nics c; cfg_include_mountpoints c; cfg_custom_ipv4 c;
    cfg_custom_ipv6 c; cfg_custom_dns c; cfg_host_proc c];
}.

Lemma parse_digits_le max acc l n : parse_digits max acc l = Some n → acc ≤ max → n ≤ max.
Proof.
  revert acc. induction l as [|b l IH]; cbn [parse_digits]; intros acc H Hacc; [by simplify_eq|].
  destruct (digit_val 10 b) as [k|]; [|done]. destruct (N.leb_spec (acc * 10 + k) max); [|done].
  eauto.
Qed.

Lemma parse_uint_le max s n : parse_uint max s = Some n → n ≤ max.
Proof.
  unfold parse_uint. destruct (bytes_of s) as [|b [|c l]]; [done| |];
    destruct (bool_decide (b = x2b)); try done;
    intros H; apply (parse_digits_le _ 0 _ _ H), N.le_0_l.
Qed.

Lemma trimmed_trim s : trimmed (trim s).
Proof. apply trim_idem. Qed.
Lemma trimmed_empty : trimmed "".
Proof. done. Qed.

Lemma cleaned_trim s : is_empty (trim s) = false → cleaned (trim s).
Proof.
  intros He. split; [apply trimmed_trim|]. intros Hs. rewrite Hs in He. done.
Qed.

Lemma clean_required_ok v flag o : clean_required v flag = Ok o → ∃ s, o = Some s ∧ cleaned s.
Proof.
  unfold clean_required. destruct (is_empty (trim v)) eqn:He; intros [= <-].
  eauto using cleaned_trim.
Qed.

Lemma required_ok v flag s : required v flag = Ok s → cleaned s.
Proof.
  unfold required. intros (o & (s' & -> & Hs)%clean_required_ok & H)%bind_Ok.
  cbn in H. by inv_ok.
Qed.

Lemma next_value_ok iter flag v iter' :
  next_value iter flag = Ok (v, iter') → cleaned v ∧ ∃ x, iter = x :: iter'.
Proof.
  destruct iter as [|x iter]; [done|]. cbn [next_value].
  intros (o & (s & -> & Hs)%clean_required_ok & H)%bind_Ok. cbn in H. inv_ok. eauto.
Qed.

Lemma clean_optional_ok o : opt_cleaned (clean_optional o).
Proof.
  destruct o as [v|]; [|done]. cbn. destruct (is_empty (trim v)) eqn:He; [done|].
  intros s [= <-]. by apply cleaned_trim.
Qed.

Lemma clean_config_required_string_ok v : opt_cleaned (clean_config_required_string v).
Proof. apply (clean_optional_ok (Some v)). Qed.

Lemma opt_cleaned_Some s : cleaned s → opt_cleaned (Some s).
Proof. by intros Hs ? [= <-]. Qed.

Lemma cleaned_trimmed s : cleaned s → trimmed s.
Proof. by intros []. Qed.

Lemma validate_positive_ok max flag n m :
  n ≤ max → validate_positive_u64 flag n = Ok m → positive max m.
Proof.
  unfold validate_positive_u64. destruct (N.eqb_spec n 0); [done|]. intros Hn H. inv_ok.
  unfold positive. lia.
Qed.

Lemma parse_u64_ok flag v n : parse_u64 flag v = Ok n → positive U64_MAX n.
Proof.
  unfold parse_u64. intros (m & Hm & H)%bind_Ok.
  destruct (parse_uint _ _) as [k|] eqn:Hk; cbn in Hm; inv_ok.
  eapply validate_positive_ok; [by eapply parse_uint_le|done].
Qed.

Lemma parse_usize_ok flag v n : parse_usize flag v = Ok n → positive USIZE_MAX n.
Proof. apply parse_u64_ok. Qed.

Lemma parse_u64_allow_zero_ok flag v n : parse_u64_allow_zero flag v = Ok n → n ≤ U64_MAX.
Proof.
  unfold parse_u64_allow_zero. destruct (parse_uint _ _) as [k|] eqn:Hk; cbn; intros H; inv_ok.
  by eapply parse_uint_le.
Qed.

Lemma parse_u32_ok flag v n : parse_u32 flag v = Ok n → n ≤ U32_MAX.
Proof.
  unfold parse_u32. destruct (parse_uint _ _) as [k|] eqn:Hk; cbn; intros H; inv_ok.
  by eapply parse_uint_le.
Qed.

Create HintDb config.
#[export] Hint Resolve trimmed_trim trimmed_empty clean_optional_ok opt_cleaned_Some
  clean_config_required_string_ok cleaned_trimmed required_ok parse_u64_ok parse_usize_ok
  parse_u64_allow_zero_ok parse_u32_ok : config.

(** ** Every pass keeps the invariant *)
Section invariant.
Context (fmt_f64 : float64 → string).

Lemma validate_positive_f64_ok flag x y :
  validate_positive_f64 fmt_f64 flag x = Ok y → positive_f64 y.
Proof.
  unfold validate_positive_f64. destruct (f_is_finite x) eqn:Hf; [|done]. cbn [negb orb].
  rewrite f_le_finite by done. case_bool_decide as Hle; [done|]. intros H; inv_ok.
  split; [done|]. rewrite f_gt_finite by done. apply bool_decide_eq_true. lia.
Qed.

Lemma parse_f64_ok flag v x : parse_f64 fmt_f64 flag v = Ok x → positive_f64 x.
Proof. unfold parse_f64. intros (p & _ & H)%bind_Ok. by eapply validate_positive_f64_ok. Qed.

Lemma positive_f64_one : positive_f64 f_one.
Proof. split; vm_compute; reflexivity. Qed.

Lemma default_tuning_positive : tuning_positive default_tuning.
Proof. repeat split; vm_compute; discriminate. Qed.

Definition keeps_ok (f : Draft → result ConfigError Draft) : Prop :=
  ∀ d d', draft_ok d → f d = Ok d' → draft_ok d'.

Definition arm_ok (a : arm) : Prop :=
  ∀ arg iter, ∀ d iter' d', draft_ok d → arm_run a arg iter d = Ok (iter', d') →
    draft_ok d'.

Lemma with_value_ok names flag f :
  (∀ v, cleaned v → keeps_ok (f v)) → arm_ok (with_value names flag f).
Proof.
  intros Hf arg iter d iter' d' Hd H. cbn in H.
  apply bind_Ok in H as ([v it] & (Hv & x & ->)%next_value_ok & H).
  apply bind_Ok in H as (d1 & Hd1 & H). inv_ok. by eapply Hf.
Qed.

Lemma switch_ok names f : keeps_ok (fun d => Ok (f d)) → arm_ok (switch names f).
Proof. intros Hf arg iter d iter' d' Hd H. cbn in H. inv_ok. by eapply Hf. Qed.

Lemma prefixed_ok flag f : (∀ v, keeps_ok (f v)) → arm_ok (prefixed flag f).
Proof.
  intros Hf arg iter d iter' d' Hd H. cbn in H.
  apply bind_Ok in H as (d1 & Hd1 & H). inv_ok. by eapply Hf.
Qed.

Lemma if_some_ok {A} (o : option A) f :
  (∀ v, o = Some v → keeps_ok (f v)) → keeps_ok (if_some o f).
Proof. intros Hf d d' Hd H. destruct o; cbn in H; [by eapply Hf|by inv_ok]. Qed.

(** Assigning one field of the tuning *)
Lemma set_tuning_ok (d : Draft) t :
  draft_ok d → tuning_positive t → draft_ok (d <| d_tunnel_ktp_relay_batch_tuning := t |>).
Proof. intros [] Ht. by constructor. Qed.

(** An assignment whose value satisfies what the invariant says of its field *)
Ltac keeps :=
  intros d d' Hd Heq;
  repeat match type of Heq with
  | (_ ≫= _) = Ok _ =>
      let Hm := fresh "Hm" in apply bind_Ok in Heq as (? & Hm & Heq);
      first [apply clean_required_ok in Hm as (? & -> & ?)
            |apply parse_f64_ok in Hm|apply validate_positive_f64_ok in Hm|idtac]
  end;
  apply (inj Ok) in Heq; subst d';
  first
  [ progress unfold set_high_sessions, set_elevated_dwell, set_severe_dwell, set_elevated_cap,
      set_severe_cap;
    apply set_tuning_ok; [exact Hd|]; destruct Hd; unfold tuning_positive in *; cbn;
    intuition (first [assumption|eauto with config|idtac])
  | destruct Hd; constructor; cbn; first [assumption|eauto with config|idtac] ].

Lemma arms_ok : Forall arm_ok (arms fmt_f64).
Proof.
  unfold arms, exact_arms_tunnel, exact_arms_host, prefix_arms_host, prefix_arms_tunnel.
  repeat (apply Forall_cons; split); [..|apply Forall_nil; done];
    first [apply with_value_ok; intros v Hv|apply prefixed_ok; intros v|apply switch_ok]; keeps.
Qed.

Lemma match_arg_ok arg iter d iter' d' :
  draft_ok d → match_arg fmt_f64 arg iter d = Ok (iter', d') →
  draft_ok d'.
Proof.
  unfold match_arg. intros Hd H. destruct (List.find _ _) as [a|] eqn:Ha; [|by inv_ok].
  apply List.find_some in Ha as [Ha _]. eapply (proj1 (List.Forall_forall _ _) arms_ok a Ha); eauto.
Qed.

Lemma parse_args_loop_ok fuel iter : keeps_ok (parse_args_loop fmt_f64 fuel iter).
Proof.
  revert iter. induction fuel as [|fuel IH]; intros [|arg iter] d d' Hd H; cbn in H;
    [by inv_ok..|]. apply bind_Ok in H as ([it d1] & Hd1%match_arg_ok & H); [|done].
  by eapply IH.
Qed.

Context (env_lookup : string → option string).

Lemma apply_optional_string_env_ok key o :
  opt_cleaned o → opt_cleaned (apply_optional_string_env env_lookup key o).
Proof.
  intros Ho. unfold apply_optional_string_env.
  destruct (clean_optional (env_lookup key)) eqn:He; [|done]. rewrite <-He. apply clean_optional_ok.
Qed.

Lemma apply_string_env_ok key s : trimmed s → trimmed (apply_string_env env_lookup key s).
Proof.
  intros Hs. unfold apply_string_env.
  destruct (clean_optional (env_lookup key)) eqn:He; [|done].
  by apply cleaned_trimmed, (clean_optional_ok (env_lookup key)).
Qed.

Lemma env_string_ok key : trimmed (env_string env_lookup key).
Proof. apply apply_string_env_ok, trimmed_empty. Qed.

Lemma apply_f64_env_ok key x : positive_f64 x → positive_f64 (apply_f64_env fmt_f64 env_lookup key x).
Proof.
  intros Hx. unfold apply_f64_env. destruct (clean_optional _) as [v|]; [|done].
  destruct (parse_f64 fmt_f64 key v) eqn:Hp; [|done..]. by eapply parse_f64_ok.
Qed.

Lemma apply_u32_env_ok key n : n ≤ U32_MAX → apply_u32_env env_lookup key n ≤ U32_MAX.
Proof.
  intros Hx. unfold apply_u32_env. destruct (clean_optional _) as [v|]; [|done].
  destruct (parse_u32 key v) eqn:Hp; [|done..]. by eapply parse_u32_ok.
Qed.

Lemma apply_u64_env_ok key n :
  positive U64_MAX n → positive U64_MAX (apply_u64_env env_lookup key n).
Proof.
  intros Hx. unfold apply_u64_env. destruct (clean_optional _) as [v|]; [|done].
  destruct (parse_u64 key v) eqn:Hp; [|done..]. by eapply parse_u64_ok.
Qed.

Lemma apply_u64_env_allow_zero_ok key n :
  n ≤ U64_MAX → apply_u64_env_allow_zero env_lookup key n ≤ U64_MAX.
Proof.
  intros Hx. unfold apply_u64_env_allow_zero. destruct (clean_optional _) as [v|]; [|done].
  destruct (parse_u64_allow_zero key v) eqn:Hp; [|done..]. by eapply parse_u64_allow_zero_ok.
Qed.

Lemma apply_u64_env_strict_ok key n m :
  positive U64_MAX n → apply_u64_env_strict env_lookup key n = Ok m → positive U64_MAX m.
Proof.
  unfold apply_u64_env_strict. intros Hn H.
  destruct (clean_optional _) as [v|]; [by eapply parse_u64_ok|by inv_ok].
Qed.

Lemma apply_usize_env_ok key n m :
  positive USIZE_MAX n → apply_usize_env env_lookup key n = Ok m → positive USIZE_MAX m.
Proof. apply apply_u64_env_strict_ok. Qed.

Lemma apply_tuning_env_ok t t' :
  tuning_positive t → apply_tunnel_relay_batch_tuning_env env_lookup t = Ok t' → tuning_positive t'.
Proof.
  unfold apply_tunnel_relay_batch_tuning_env. intros (H1 & H2 & H3 & H4 & H5) H.
  apply bind_Ok in H as (a & Ha & H). apply bind_Ok in H as (b & Hb & H).
  apply bind_Ok in H as (c & Hc & H). apply bind_Ok in H as (e & He & H).
  apply bind_Ok in H as (g & Hg & H). apply (inj Ok) in H as <-.
  refine (conj (apply_usize_env_ok _ _ _ H1 Ha) (conj (apply_u64_env_strict_ok _ _ _ H2 Hb)
    (conj (apply_u64_env_strict_ok _ _ _ H3 Hc) (conj (apply_usize_env_ok _ _ _ H4 He)
    (apply_usize_env_ok _ _ _ H5 Hg))))).
Qed.

#[local] Hint Resolve apply_optional_string_env_ok apply_string_env_ok env_string_ok
  apply_f64_env_ok apply_u32_env_ok apply_u64_env_ok apply_u64_env_allow_zero_ok
  apply_tuning_env_ok positive_f64_one default_tuning_positive : config.

(** The defaults read the environment the way the later pass does. *)
Lemma parse_env_f64_eq key x :
  parse_env_f64 fmt_f64 env_lookup key x = Ok (apply_f64_env fmt_f64 env_lookup key x).
Proof. unfold parse_env_f64, apply_f64_env. by case_match. Qed.
Lemma parse_env_u32_eq key n : parse_env_u32 env_lookup key n = Ok (apply_u32_env env_lookup key n).
Proof. unfold parse_env_u32, apply_u32_env. by case_match. Qed.
Lemma parse_env_u64_eq key n : parse_env_u64 env_lookup key n = Ok (apply_u64_env env_lookup key n).
Proof. unfold parse_env_u64, apply_u64_env. by case_match. Qed.
Lemma parse_env_u64_allow_zero_eq key n :
  parse_env_u64_allow_zero env_lookup key n = Ok (apply_u64_env_allow_zero env_lookup key n).
Proof. unfold parse_env_u64_allow_zero, apply_u64_env_allow_zero. by case_match. Qed.

Lemma initial_draft_ok d : initial_draft fmt_f64 env_lookup = Ok d → draft_ok d.
Proof.
  unfold initial_draft.
  rewrite parse_env_f64_eq, !parse_env_u32_eq, parse_env_u64_eq, parse_env_u64_allow_zero_eq.
  step_ok. intros H. apply (inj Ok) in H as <-.
  constructor; cbn; auto with config.
  - by apply apply_u32_env_ok.
  - apply apply_u64_env_ok. by split.
  - by apply apply_u64_env_allow_zero_ok.
  - by apply apply_u32_env_ok.
Qed.

Lemma env_steps_ok : Forall keeps_ok (env_steps fmt_f64 env_lookup).
Proof.
  unfold env_steps. repeat (apply Forall_cons; split); [..|apply Forall_nil; done].
  1-11,14-33: keeps.
  - intros d d' Hd H. apply bind_Ok in H as ([policy set] & _ & H). inv_ok.
    destruct Hd; by constructor.
  - intros d d' Hd H. apply bind_Ok in H as (t & Ht & H). apply (inj Ok) in H as <-.
    apply set_tuning_ok; [done|]. eapply apply_tuning_env_ok; [apply Hd|done].
Qed.

Lemma file_steps_ok file :
  file_in_range file → Forall keeps_ok (file_steps_tunnel file ++ file_steps_host fmt_f64 file).
Proof.
  intros (H1 & H2 & H3 & H4 & H5 & H6 & H7 & H8 & H9). unfold file_steps_tunnel, file_steps_host.
  repeat (apply Forall_cons; split); [..|apply Forall_nil; done];
    apply if_some_ok; intros v Hv;
    repeat match goal with
    | H : ∀ n, ?f = Some n → _, Hv : ?f = Some _ |- _ => pose proof (H _ Hv); clear Hv
    end; keeps; eauto using validate_positive_ok.
Qed.

Lemma run_steps_ok steps : Forall keeps_ok steps → keeps_ok (run_steps steps).
Proof.
  induction 1 as [|f steps Hf _ IH]; intros d d' Hd H; cbn in H; [by inv_ok|].
  apply bind_Ok in H as (d1 & Hd1 & H). eauto.
Qed.
End invariant.
