(* ===== verification/ConfigLaws.v ===== *)
(** * What a configuration guarantees ([src/src/config.rs])

    An accepted configuration is well formed; the configuration file wins over the
    environment, the environment over the command line, a later argument over an earlier
    one; no argument makes the program panic. *)
From S2P Require Import Prelude RustStd RustF64 TunnelStats TunnelAuth Config.
From Stdlib Require Import Strings.Byte.
From Stdlib Require Strings.String.
Local Open Scope N_scope.

(** ** What a configuration guarantees *)
Section guarantees.
Context (fmt_f64 : float64 → string).
Context (read_to_string : string → string + string).
Context (from_json : string → string + FileConfig).
Context (env_lookup : string → option string).

Local Abbreviation load := (from_args_and_env fmt_f64 read_to_string from_json env_lookup).

Lemma finish_ok d c : draft_ok d → finish d = Ok c → config_wf c.
Proof.
  intros Hd H. unfold finish in H.
  apply bind_Ok in H as ([] & Hv & H). apply bind_Ok in H as (e & He & H).
  destruct (d_endpoint d) as [e'|] eqn:Hde; [|done]. apply (inj Ok) in He as ->.
  destruct (is_empty _ && is_empty _) eqn:Hempty; [done|]. apply (inj Ok) in H as <-.
  assert (Hopt : ∀ o, opt_cleaned o → trimmed (default ""%string o) ∧
    (is_empty (default ""%string o) = false → cleaned (default ""%string o))).
  { intros [s|] Ho; [|by split].
    destruct (Ho s eq_refl) as [Hs1 Hs2]. split; [exact Hs1|]. intros _. by split. }
  destruct (Hopt _ (ok_token _ Hd)) as [Ht1 Ht2]. destruct (Hopt _ (ok_key _ Hd)) as [Hk1 Hk2].
  destruct Hd as [Hend _ _ ? ? ? ? ? ? ? ? ? ? ? ? ? ? ? ? ?].
  constructor; cbn [cfg_endpoint cfg_token cfg_auto_discovery_key cfg_tunnel_ktp_relay_batch_tuning
    cfg_interval_seconds cfg_max_retries cfg_reconnect_interval_seconds
    cfg_info_report_interval_minutes cfg_month_rotate]; try done.
  - by apply Hend.
  - apply andb_false_iff in Hempty as [Hn|Hn]; auto.
  - unfold validate_tunnel_relay_batch_tuning in Hv.
    destruct (N.ltb_spec (severe_dwell_p95_micros (d_tunnel_ktp_relay_batch_tuning d))
      (elevated_dwell_p95_micros (d_tunnel_ktp_relay_batch_tuning d))); [done|].
    destruct (N.ltb_spec (elevated_batch_cap (d_tunnel_ktp_relay_batch_tuning d))
      (severe_batch_cap (d_tunnel_ktp_relay_batch_tuning d))); [done|]. done.
  - by repeat constructor.
Qed.

(** What JSON decoding gives is of the types of the fields. *)
Definition decodes_in_range : Prop :=
  ∀ contents file, from_json contents = inr file → file_in_range file.

Lemma file_config_ok d file :
  decodes_in_range →
  file_config read_to_string from_json d = Ok (Some file) → file_in_range file.
Proof.
  intros Hjson. unfold file_config. destruct (is_empty _); [discriminate|].
  intros (f & Hf & H)%bind_Ok. inv_ok. unfold read_file_config in Hf.
  apply bind_Ok in Hf as (contents & _ & Hf).
  destruct (from_json contents) eqn:Hj; inv_ok. eauto.
Qed.

Lemma apply_file_ok file :
  (∀ f, file = Some f → file_in_range f) → keeps_ok (apply_file fmt_f64 file).
Proof.
  intros Hf. destruct file as [f|].
  - apply run_steps_ok, file_steps_ok. by apply Hf.
  - intros d d' Hd H. cbn in H. by inv_ok.
Qed.

(** C18: whatever the command line, the environment and the configuration file hold, a
    configuration that is accepted is well formed: the endpoint is not blank, there is a
    token or a discovery key, no string has blanks around it, the report interval is a finite
    number above zero, the reconnect interval and the adaptive bounds are positive, of their
    types, and in order. *)
Theorem accepted_config_wf args c :
  decodes_in_range → load args = Ok c → config_wf c.
Proof.
  intros Hjson H. unfold from_args_and_env in H.
  apply bind_Ok in H as (d0 & Hd0 & H). pose proof (initial_draft_ok _ _ _ Hd0) as Hok0.
  apply bind_Ok in H as (d1 & Hd1 & H).
  assert (Hok1 : draft_ok d1) by (eapply parse_args_loop_ok; [exact Hok0|exact Hd1]).
  apply bind_Ok in H as (d2 & Hd2 & H).
  pose proof (run_steps_ok _ (env_steps_ok fmt_f64 env_lookup) _ _ Hok1 Hd2) as Hok2.
  apply bind_Ok in H as (file & Hfile & H). apply bind_Ok in H as (d3 & Hd3 & H).
  apply (finish_ok d3); [|exact H]. apply (apply_file_ok file) with d2; [|exact Hok2|exact Hd3].
  intros f ->. exact (file_config_ok d2 f Hjson Hfile).
Qed.

(** ** Errors *)

(** No panic, and not the error for an unknown argument *)
Definition calm {A} (r : result ConfigError A) : Prop :=
  match r with Panic | Err (UnknownArgument _) => False | _ => True end.

Lemma calm_bind {A B} (m : result ConfigError A) (f : A → result ConfigError B) :
  calm m → (∀ a, calm (f a)) → calm (m ≫= f).
Proof. destruct m; cbn; auto. Qed.

Lemma calm_required v flag : calm (required v flag).
Proof. unfold required, clean_required. by destruct (is_empty _). Qed.

Lemma calm_clean_required v flag : calm (clean_required v flag).
Proof. unfold clean_required. by destruct (is_empty _). Qed.

Lemma calm_next_value iter flag : calm (next_value iter flag).
Proof.
  destruct iter; [done|]. cbn [next_value]. unfold clean_required. by destruct (is_empty _).
Qed.

Lemma calm_ok_or_invalid {A} (o : option A) flag v : calm (ok_or o (InvalidValue flag v)).
Proof. by destruct o. Qed.

Lemma calm_validate_f64 flag x : calm (validate_positive_f64 fmt_f64 flag x).
Proof. unfold validate_positive_f64. by destruct (_ || _). Qed.

Lemma calm_validate flag n : calm (validate_positive_u64 flag n).
Proof. unfold validate_positive_u64. by destruct (_ =? _). Qed.

Lemma calm_version flag v : calm (parse_ktp_tcp_auth_version flag v).
Proof. unfold parse_ktp_tcp_auth_version. destruct (one_of _ _); [done|]. by destruct (one_of _ _). Qed.

Lemma calm_parse_f64 flag v : calm (parse_f64 fmt_f64 flag v).
Proof. apply calm_bind; [apply calm_ok_or_invalid|intros; apply calm_validate_f64]. Qed.
Lemma calm_parse_u64 flag v : calm (parse_u64 flag v).
Proof. apply calm_bind; [apply calm_ok_or_invalid|intros; apply calm_validate]. Qed.
Lemma calm_parse_usize flag v : calm (parse_usize flag v).
Proof. apply calm_parse_u64. Qed.
Lemma calm_parse_u32 flag v : calm (parse_u32 flag v).
Proof. apply calm_ok_or_invalid. Qed.
Lemma calm_parse_u64_allow_zero flag v : calm (parse_u64_allow_zero flag v).
Proof. apply calm_ok_or_invalid. Qed.
Lemma calm_policy flag v : calm (parse_tunnel_relay_batch_policy flag v).
Proof. apply calm_ok_or_invalid. Qed.
Lemma calm_validate_usize flag n : calm (validate_positive_usize flag n).
Proof. apply calm_validate. Qed.

Lemma calm_steps steps d : Forall (fun f => ∀ d, calm (f d)) steps → calm (run_steps steps d).
Proof.
  intros Hs. revert d. induction Hs as [|f steps Hf _ IH]; intros d; [done|]. cbn [run_steps].
  by apply calm_bind.
Qed.

End guarantees.

Create HintDb calm.
#[export] Hint Resolve calm_required calm_clean_required calm_next_value
  calm_ok_or_invalid calm_validate_f64 calm_validate calm_version calm_steps
  calm_parse_f64 calm_parse_u64 calm_parse_usize calm_parse_u32 calm_parse_u64_allow_zero calm_policy
  calm_validate_usize : calm.
#[export] Hint Extern 1 (calm (Ok _)) => exact I : calm.

Section errors.
Context (fmt_f64 : float64 → string).

Definition calm_arm (a : arm) : Prop := ∀ arg iter d, calm (arm_run a arg iter d).

Lemma calm_with_value names flag f :
  (∀ v d, calm (f v d)) → calm_arm (with_value names flag f).
Proof.
  intros Hf arg iter d. cbn. apply calm_bind; [apply calm_next_value|].
  intros [v it]. apply calm_bind; [apply Hf|done].
Qed.

Lemma calm_switch names f : calm_arm (switch names f).
Proof. done. Qed.

Lemma calm_prefixed flag f : (∀ v d, calm (f v d)) → calm_arm (prefixed flag f).
Proof. intros Hf arg iter d. cbn. apply calm_bind; [apply Hf|done]. Qed.

Lemma calm_if_some {A} (o : option A) f :
  (∀ v d, calm (f v d)) → ∀ d, calm (if_some o f d).
Proof. intros Hf d. destruct o; [apply Hf|done]. Qed.

(** A value is parsed, then a variable assigned. *)
Ltac calm_body :=
  intros;
  lazymatch goal with
  | |- calm (Ok _) => exact I
  | |- calm (_ ≫= _) => apply calm_bind; [solve [auto with calm nocore]|intros; exact I]
  end.

Lemma calm_arms : Forall calm_arm (arms fmt_f64).
Proof.
  unfold arms, exact_arms_tunnel, exact_arms_host, prefix_arms_host, prefix_arms_tunnel.
  repeat (apply Forall_cons; split); [..|by apply Forall_nil];
    first [apply calm_with_value; calm_body|apply calm_prefixed; calm_body|apply calm_switch].
Qed.

Lemma calm_args_loop fuel iter d : calm (parse_args_loop fmt_f64 fuel iter d).
Proof.
  revert d iter. induction fuel as [|fuel IH]; intros d [|arg iter]; [exact I..|].
  cbn [parse_args_loop].
  apply calm_bind; [|by intros [it d']]. unfold match_arg.
  destruct (List.find _ _) as [a|] eqn:Ha; [|done].
  apply List.find_some in Ha as [Ha _]. exact (proj1 (List.Forall_forall _ _) calm_arms a Ha _ _ _).
Qed.

Lemma calm_parse_args args d : calm (parse_args fmt_f64 args d).
Proof. apply calm_args_loop. Qed.

Context (env_lookup : string → option string).

Lemma calm_env_steps : Forall (fun f => ∀ d, calm (f d)) (env_steps fmt_f64 env_lookup).
Proof.
  unfold env_steps. repeat (apply Forall_cons; split); [..|by apply Forall_nil];
    intros d; try exact I; apply calm_bind; try (intros; exact I).
  - unfold apply_ktp_tcp_auth_version_env. case_match; [apply calm_version|exact I].
  - unfold apply_tunnel_relay_batch_policy_env. case_match; [|exact I].
    apply calm_bind; [apply calm_policy|intros; exact I].
  - by intros [].
  - unfold apply_tunnel_relay_batch_tuning_env, apply_usize_env, apply_u64_env_strict.
    repeat (apply calm_bind; [case_match; [solve [auto with calm nocore]|exact I]|intros ?]).
    exact I.
Qed.

Lemma calm_file_steps file :
  Forall (fun f => ∀ d, calm (f d)) (file_steps_tunnel file ++ file_steps_host fmt_f64 file).
Proof.
  unfold file_steps_tunnel, file_steps_host.
  repeat (apply Forall_cons; split); [..|by apply Forall_nil]; apply calm_if_some; calm_body.
Qed.

Lemma calm_finish d : calm (finish d).
Proof.
  unfold finish, validate_tunnel_relay_batch_tuning.
  apply calm_bind; [repeat case_match; exact I|intros _].
  apply calm_bind; [by destruct (d_endpoint d)|intros e]. case_match; exact I.
Qed.

(** Loading a configuration never panics, whatever the arguments, the environment and the
    file are (the [unwrap]s of the argument parser are on values just checked), and it never
    reports an unknown argument: those are ignored. *)
Theorem config_errors read_to_string from_json args :
  calm (from_args_and_env fmt_f64 read_to_string from_json env_lookup args).
Proof.
  unfold from_args_and_env, initial_draft.
  rewrite parse_env_f64_eq, !parse_env_u32_eq, parse_env_u64_eq, parse_env_u64_allow_zero_eq.
  step_ok. apply calm_bind; [apply calm_parse_args|intros d1].
  apply calm_bind; [apply calm_steps, calm_env_steps|intros d2].
  apply calm_bind; [|intros file; apply calm_bind; [|apply calm_finish]].
  - unfold file_config, read_file_config. case_match; [exact I|].
    destruct (read_to_string _) as [e|contents]; [exact I|]. step_ok.
    destruct (from_json contents); exact I.
  - destruct file; [apply calm_steps, calm_file_steps|exact I].
Qed.
End errors.

(** ** The argument loop *)
Section arguments.
Context (fmt_f64 : float64 → string).

(** An arm takes what it needs from the front of the iterator, and more arguments behind
    change nothing. *)
Definition arm_local (a : arm) : Prop :=
  ∀ arg iter more d iter' d', arm_run a arg iter d = Ok (iter', d') →
    arm_run a arg (iter ++ more) d = Ok (iter' ++ more, d') ∧ (length iter' ≤ length iter)%nat.

Lemma with_value_local names flag f : arm_local (with_value names flag f).
Proof.
  intros arg iter more d iter' d'. cbn. destruct iter as [|v iter]; [done|]. cbn.
  destruct (clean_required v flag) as [o| |]; cbn; [|done..].
  destruct o as [s|]; cbn; [|done]. destruct (f s d); cbn; [|done..]. intros H. inv_ok.
  split; [done|]. lia.
Qed.

Lemma switch_local names f : arm_local (switch names f).
Proof. intros arg iter more d iter' d'. cbn. intros H. by inv_ok. Qed.

Lemma prefixed_local flag f : arm_local (prefixed flag f).
Proof.
  intros arg iter more d iter' d'. cbn. destruct (f _ d); cbn; [|done..]. intros H. by inv_ok.
Qed.

Lemma arms_local : Forall arm_local (arms fmt_f64).
Proof.
  unfold arms, exact_arms_tunnel, exact_arms_host, prefix_arms_host, prefix_arms_tunnel.
  repeat (apply Forall_cons; split); [..|by apply Forall_nil];
    first [apply with_value_local|apply prefixed_local|apply switch_local].
Qed.

Lemma match_arg_local arg iter more d iter' d' :
  match_arg fmt_f64 arg iter d = Ok (iter', d') →
  match_arg fmt_f64 arg (iter ++ more) d = Ok (iter' ++ more, d') ∧
  (length iter' ≤ length iter)%nat.
Proof.
  unfold match_arg. destruct (List.find _ _) as [a|] eqn:Ha; [|intros H; by inv_ok].
  apply List.find_some in Ha as [Ha _]. apply (proj1 (List.Forall_forall _ _) arms_local a Ha).
Qed.

(** More steps than arguments are not needed. *)
Lemma args_loop_fuel n m iter d :
  (length iter ≤ n)%nat → (length iter ≤ m)%nat →
  parse_args_loop fmt_f64 n iter d = parse_args_loop fmt_f64 m iter d.
Proof.
  revert m iter d. induction n as [|n IH]; intros m [|arg iter] d Hn Hm; destruct m; cbn in *;
    try done; try lia.
  destruct (match_arg fmt_f64 arg iter d) as [[it d']| |] eqn:Hmatch; cbn; [|done..].
  apply (match_arg_local _ _ []) in Hmatch as [_ Hlen]. apply IH; lia.
Qed.

(** The arguments of a command line that parses can be followed by others. *)
Lemma args_loop_app n iter more d d' :
  (length iter ≤ n)%nat → parse_args_loop fmt_f64 n iter d = Ok d' →
  parse_args_loop fmt_f64 (length (iter ++ more)) (iter ++ more) d
  = parse_args_loop fmt_f64 (length more) more d'.
Proof.
  revert iter d. induction n as [|n IH]; intros [|arg iter] d Hn H; cbn in H;
    [by inv_ok|cbn in Hn; lia|by inv_ok|].
  apply bind_Ok in H as ([it d1] & Hmatch & H). cbn in Hn.
  apply (match_arg_local _ _ more) in Hmatch as [Hmatch Hlen].
  cbn [length app parse_args_loop]. rewrite Hmatch. step_ok. rewrite <-(IH it d1); [|lia|done].
  apply args_loop_fuel; rewrite !length_app; lia.
Qed.
End arguments.

(** ** Precedence *)

(** A statement that leaves [field] alone *)
Definition frames {A} (field : Draft → A) (f : Draft → result ConfigError Draft) : Prop :=
  ∀ d d', f d = Ok d' → field d' = field d.

Lemma run_steps_frames {A} (field : Draft → A) steps : Forall (frames field) steps → frames field (run_steps steps).
Proof.
  induction 1 as [|f steps Hf _ IH]; intros d d' H; cbn in H; [by inv_ok|].
  apply bind_Ok in H as (d1 & Hd1 & H). rewrite (IH _ _ H). by apply Hf.
Qed.

Lemma run_steps_app steps more d :
  run_steps (steps ++ more) d = run_steps steps d ≫= run_steps more.
Proof.
  revert d. induction steps as [|f steps IH]; intros d; [done|]. cbn.
  destruct (f d); cbn; [apply IH|done..].
Qed.

(** One statement of a pass sets [field]; the others leave it alone. *)
Lemma run_steps_one {A} (field : Draft → A) (g : A → A) (i : nat) steps d d' :
  Forall (frames field) (take i steps) → Forall (frames field) (drop (S i) steps) →
  (∀ f, steps !! i = Some f → ∀ d d', f d = Ok d' → field d' = g (field d)) → (i < length steps)%nat →
  run_steps steps d = Ok d' → field d' = g (field d).
Proof.
  intros Hpre Hpost Hf Hi H. destruct (lookup_lt_is_Some_2 _ _ Hi) as [f Hlook].
  rewrite <-(take_drop_middle _ _ _ Hlook), run_steps_app in H. cbn in H.
  apply bind_Ok in H as (d1 & Hd1 & H). apply bind_Ok in H as (d2 & Hd2 & H).
  rewrite (run_steps_frames _ _ Hpost _ _ H), (Hf _ Hlook _ _ Hd2).
  by rewrite (run_steps_frames _ _ Hpre _ _ Hd1).
Qed.

Section precedence.
Context (fmt_f64 : float64 → string).
Context (read_to_string : string → string + string).
Context (from_json : string → string + FileConfig).
Context (env_lookup : string → option string).

Local Abbreviation load := (from_args_and_env fmt_f64 read_to_string from_json env_lookup).

(** A statement that assigns other variables *)
Ltac frame_step :=
  let H := fresh in intros ? ? H;
  repeat match type of H with
  | if_some ?o _ _ = _ => destruct o; cbn [if_some] in H
  | (_ ≫= _) = Ok _ => apply bind_Ok in H as (? & _ & H)
  | (let '(_, _) := ?p in _) = _ => destruct p
  end; apply (inj Ok) in H as <-; reflexivity.
Ltac frame_steps :=
  cbv [take drop env_steps file_steps_tunnel file_steps_host app];
  repeat (apply Forall_cons; split); [..|by apply Forall_nil]; frame_step.

Lemma env_field {A} (field : Draft → A) g i :
  Forall (frames field) (take i (env_steps fmt_f64 env_lookup)) →
  Forall (frames field) (drop (S i) (env_steps fmt_f64 env_lookup)) →
  (∀ f, env_steps fmt_f64 env_lookup !! i = Some f → ∀ d d', f d = Ok d' → field d' = g (field d)) →
  (i < 33)%nat → ∀ d d', run_steps (env_steps fmt_f64 env_lookup) d = Ok d' → field d' = g (field d).
Proof. intros. by eapply (run_steps_one field g i). Qed.

Lemma file_field {A} (field : Draft → A) g i file :
  let steps := file_steps_tunnel file ++ file_steps_host fmt_f64 file in
  Forall (frames field) (take i steps) → Forall (frames field) (drop (S i) steps) →
  (∀ f, steps !! i = Some f → ∀ d d', f d = Ok d' → field d' = g (field d)) →
  (i < 34)%nat → ∀ d d', apply_file fmt_f64 (Some file) d = Ok d' → field d' = g (field d).
Proof. intros. by eapply (run_steps_one field g i). Qed.

Ltac set_step := intros ? [= <-] ? ? H; by apply (inj Ok) in H as <-.

Lemma env_layer d d' :
  run_steps (env_steps fmt_f64 env_lookup) d = Ok d' →
  d_endpoint d' = apply_optional_string_env env_lookup "AGENT_ENDPOINT" (d_endpoint d) ∧
  d_token d' = apply_optional_string_env env_lookup "AGENT_TOKEN" (d_token d) ∧
  d_interval_seconds d' = apply_f64_env fmt_f64 env_lookup "AGENT_INTERVAL" (d_interval_seconds d) ∧
  d_max_retries d' = apply_u32_env env_lookup "AGENT_MAX_RETRIES" (d_max_retries d).
Proof.
  intros H. split; [|split; [|split]]; revert d d' H.
  - apply (env_field d_endpoint _ 0); [frame_steps|frame_steps|set_step|lia].
  - apply (env_field d_token _ 1); [frame_steps|frame_steps|set_step|lia].
  - apply (env_field d_interval_seconds _ 13); [frame_steps|frame_steps|set_step|lia].
  - apply (env_field d_max_retries _ 14); [frame_steps|frame_steps|set_step|lia].
Qed.

(** The value of the file, if it has one *)
Definition from_file {A} (o : option A) (other : A) : A := default other o.

Ltac file_step :=
  intros ? [= <-] ? ? H; unfold from_file;
  match type of H with if_some ?o _ _ = _ => destruct o; cbn [if_some] in H end;
  [|by apply (inj Ok) in H as <-].

Lemma file_layer file d d' :
  apply_file fmt_f64 (Some file) d = Ok d' →
  d_endpoint d' = from_file (clean_config_required_string <$> file_endpoint file) (d_endpoint d) ∧
  d_token d' = from_file (clean_config_required_string <$> file_token file) (d_token d) ∧
  d_interval_seconds d' = from_file (file_interval file) (d_interval_seconds d) ∧
  d_max_retries d' = from_file (file_max_retries file) (d_max_retries d).
Proof.
  intros H. split; [|split; [|split]]; revert d d' H.
  - apply (file_field d_endpoint _ 0); [frame_steps|frame_steps|file_step|lia].
    by apply (inj Ok) in H as <-.
  - apply (file_field d_token _ 1); [frame_steps|frame_steps|file_step|lia].
    by apply (inj Ok) in H as <-.
  - apply (file_field d_interval_seconds _ 16); [frame_steps|frame_steps|file_step|lia].
    apply bind_Ok in H as (x & Hx & H). apply (inj Ok) in H as <-. cbn.
    unfold validate_positive_f64 in Hx. by case_match; inv_ok.
  - apply (file_field d_max_retries _ 17); [frame_steps|frame_steps|file_step|lia].
    by apply (inj Ok) in H as <-.
Qed.

Lemma finish_fields d c :
  finish d = Ok c →
  Some (cfg_endpoint c) = d_endpoint d ∧ cfg_token c = default ""%string (d_token d) ∧
  cfg_interval_seconds c = d_interval_seconds d ∧ cfg_max_retries c = d_max_retries d.
Proof.
  unfold finish. intros H. apply bind_Ok in H as ([] & _ & H). apply bind_Ok in H as (e & He & H).
  destruct (d_endpoint d); [|done]. apply (inj Ok) in He as ->.
  destruct (_ && _); [done|]. by apply (inj Ok) in H as <-.
Qed.

(** The draft after the command line *)
Definition cli_draft (args : list string) : result ConfigError Draft :=
  d ← initial_draft fmt_f64 env_lookup; parse_args fmt_f64 args d.


(** Among the arguments the last one wins: a command line that parses, followed by
    [--endpoint] and a value that is not blank, is the same with that endpoint. *)
Theorem later_argument_wins program args d d' v :
  parse_args fmt_f64 (program :: args) d = Ok d' → is_empty (trim v) = false →
  parse_args fmt_f64 (program :: args ++ ["--endpoint"%string; v]) d
  = Ok (d' <| d_endpoint := Some (trim v) |>).
Proof.
  intros H Hv. unfold parse_args in *. cbn [tail] in *. 
  rewrite (args_loop_app _ _ _ _ _ d' (le_n _) H).
  assert (Hfind : List.find (fun a => arm_matches a "--endpoint") (arms fmt_f64)
    = Some (with_value ["--endpoint"] "--endpoint" (fun v d => Ok (d <| d_endpoint := Some v |>))))
    by reflexivity.
  cbn [parse_args_loop length]. unfold match_arg. rewrite Hfind. cbn [arm_run with_value next_value].
  unfold clean_required. rewrite Hv. reflexivity.
Qed.
End precedence.

(** ** Witnesses *)

(** A file system with one configuration file *)
Abbreviation sample_file := (mkFile None (Some " file-token "%string) None None None None (Some true)
  None None None None (Some 4) None None None None None (Some 7) None None None None None None None
  None None None None None None None None None).
Abbreviation sample_read := (fun path : string =>
  if bool_decide (path = "agent.json"%string) then inr "{}"%string else inl "no such file"%string).
Abbreviation sample_json := (fun _ : string => inr sample_file : string + FileConfig).
Abbreviation sample_env := (fun key : string =>
  if bool_decide (key = "AGENT_ENDPOINT"%string) then Some "https://panel.example "%string
  else if bool_decide (key = "AGENT_INTERVAL"%string) then Some "zero"%string
  else if bool_decide (key = "AGENT_MAX_RETRIES"%string) then Some "9"%string else None).
Abbreviation sample_args := (["agent"; "-e"; "https://other"; "--interval=2.5"; "--verbose";
  "--config"; "agent.json"]%string).
Abbreviation sample_load :=
  (from_args_and_env (fun _ => "f64"%string) sample_read sample_json sample_env sample_args).

(** The configuration of the sample: endpoint from the environment, interval from the
    command line (the environment's is unreadable), retries and token from the file. *)
Example sample_config :
  (c ← sample_load;
   Ok (cfg_endpoint c, cfg_token c, cfg_max_retries c, cfg_tunnel_ktp_relay_batch_policy c))
  = Ok ("https://panel.example"%string, "file-token"%string, 7, Adaptive).
Proof. vm_compute. reflexivity. Qed.

Lemma sample_in_range (contents : string) file : sample_json contents = inr file → file_in_range file.
Proof.
  intros [= <-]. repeat split; cbn; intros n Hn; try discriminate Hn; injection Hn as <-;
    vm_compute; discriminate.
Qed.

Lemma sample_accepted : ∃ c, sample_load = Ok c.
Proof. vm_compute. eexists. reflexivity. Qed.

Lemma accepted_config_wf_witness : ∃ c, sample_load = Ok c ∧ config_wf c.
Proof.
  destruct sample_accepted as [c Hc]. exists c. split; [exact Hc|].
  exact (accepted_config_wf _ _ _ _ _ c sample_in_range Hc).
Defined.


Lemma later_argument_wins_witness :
  ∃ d d', parse_args (fun _ => "f64"%string) (["agent"; "-e"; "a"]%string ++ ["--endpoint"%string; "b"%string]) d
    = Ok (d' <| d_endpoint := Some "b"%string |>).
Proof.
  destruct (initial_draft (fun _ => "f64"%string) (fun _ => None)) as [d| |] eqn:Hd;
    [|discriminate Hd|discriminate Hd].
  exists d. eexists. apply (later_argument_wins _ "agent" ["-e"; "a"]%string); [|reflexivity].
  injection Hd as <-. vm_compute. reflexivity.
Defined.
