(* ===== verification/Report.v ===== *)
(** * Reports and pings ([src/src/report.rs], [src/src/ping.rs])

    The data the agent sends: the periodic report, the basic information of the host, and
    the answer to a ping task.  The measurements themselves (a [ping] process, a TCP or HTTP
    connection) are parameters; what is modelled is what is done with them: the retries on a
    high latency, the reading of the output of [ping], and the addresses. *)
From S2P Require Import Prelude RustStd RustNet RustF64 Transport.
From Stdlib Require Import Strings.Byte.
From Stdlib Require Import SpecFloat.
From Stdlib Require Strings.String.
Local Open Scope N_scope.

(** ** report.rs *)

(** report.rs [CpuReport] *)
Record CpuReport := mkCpu { cpu_usage : float64 }.
(** report.rs [MemoryReport] *)
Record MemoryReport := mkMemory { memory_total : Z; memory_used : Z }.
(** report.rs [LoadReport] *)
Record LoadReport := mkLoad { load1 : float64; load5 : float64; load15 : float64 }.
(** report.rs [DiskReport] *)
Record DiskReport := mkDisk { disk_total : Z; disk_used : Z }.
(** report.rs [NetworkReport] *)
Record NetworkReport := mkNetwork { net_up : Z; net_down : Z; net_total_up : Z; net_total_down : Z }.
(** report.rs [ConnectionsReport] *)
Record ConnectionsReport := mkConnections { conn_tcp : Z; conn_udp : Z }.
(** report.rs [GpuDetailedInfo] *)
Record GpuDetailedInfo := mkGpuInfo {
  gpu_name : string;
  gpu_memory_total : Z;
  gpu_memory_used : Z;
  gpu_utilization : float64;
  gpu_temperature : Z;
}.
(** report.rs [GpuReport] *)
Record GpuReport := mkGpu {
  gpu_models : option (list string);
  gpu_count : option N;
  gpu_average_usage : option float64;
  gpu_detailed_info : option (list GpuDetailedInfo);
}.
(** report.rs [Report]; the connectivity result is JSON, kept as its text *)
Record Report := mkReport {
  rp_cpu : CpuReport;
  rp_ram : MemoryReport;
  rp_swap : MemoryReport;
  rp_load : LoadReport;
  rp_disk : DiskReport;
  rp_network : NetworkReport;
  rp_connections : ConnectionsReport;
  rp_uptime : Z;
  rp_process : Z;
  rp_gpu : option GpuReport;
  rp_cn_connectivity : option string;
  rp_message : string;
}.

(** report.rs [BasicInfo] *)
Record BasicInfo := mkBasicInfo {
  bi_cpu_name : string;
  bi_cpu_cores : Z;
  bi_arch : string;
  bi_os : string;
  bi_kernel_version : string;
  bi_ipv4 : string;
  bi_ipv6 : string;
  bi_mem_total : Z;
  bi_swap_total : Z;
  bi_disk_total : Z;
  bi_gpu_name : string;
  bi_virtualization : string;
  bi_version : string;
}.
#[export] Instance BasicInfo_eq_dec : EqDecision BasicInfo.
Proof. solve_decision. Defined.

(** report.rs [go_runtime_arch_name] *)
Definition go_runtime_arch_name (rust_arch : string) : string :=
  if bool_decide (rust_arch = "x86_64"%string) then "amd64"
  else if bool_decide (rust_arch ∈ ["x86"; "i386"; "i586"; "i686"]%string) then "386"
  else if bool_decide (rust_arch = "aarch64"%string) then "arm64"
  else if bool_decide (rust_arch = "powerpc64"%string) then "ppc64"
  else if bool_decide (rust_arch = "powerpc64le"%string) then "ppc64le"
  else rust_arch.

(** report.rs [BasicInfo::minimal]; the number of cores, the architecture and the system are
    those of the host *)
Definition minimal (available_parallelism : option Z) (arch os version : string) : BasicInfo :=
  mkBasicInfo "" (default 1%Z available_parallelism) (go_runtime_arch_name arch) os "" "" "" 0 0 0
    "" "" version.

(** report.rs [BasicInfo::without_kernel_version] *)
Definition without_kernel_version (self : BasicInfo) : BasicInfo :=
  mkBasicInfo (bi_cpu_name self) (bi_cpu_cores self) (bi_arch self) (bi_os self) ""
    (bi_ipv4 self) (bi_ipv6 self) (bi_mem_total self) (bi_swap_total self) (bi_disk_total self)
    (bi_gpu_name self) (bi_virtualization self) (bi_version self).

(** report.rs [ReportGenerator@StaticReportGenerator::generate] (0.001 is the nearest [f64]) *)
Definition static_report : Report :=
  mkReport (mkCpu (f_of_decimal false 1 (-3))) (mkMemory 0 0) (mkMemory 0 0)
    (mkLoad f_zero f_zero f_zero) (mkDisk 0 0) (mkNetwork 0 0 0 0) (mkConnections 0 0) 0 0
    None None "".

(** ** ping.rs *)

(** ping.rs [HIGH_LATENCY_THRESHOLD_MS] *)
Definition HIGH_LATENCY_THRESHOLD_MS : N := 1000.
(** ping.rs [HIGH_LATENCY_RETRIES] *)
Definition HIGH_LATENCY_RETRIES : nat := 3.

(** ping.rs [PingTask] *)
Record PingTask := mkPingTask { pt_task_id : N; pt_ping_type : string; pt_target : string }.

(** ping.rs [PingResult] *)
Record PingResult := mkPingResult {
  pr_message_type : string;
  pr_task_id : N;
  pr_ping_type : string;
  pr_value : Z;
  pr_finished_at : string;
}.
#[export] Instance PingResult_eq_dec : EqDecision PingResult.
Proof. solve_decision. Defined.

(** ping.rs [PingResult::new] *)
Definition ping_result_new (task_id : N) (ping_type : string) (value : Z) (finished_at : string)
  : PingResult := mkPingResult "ping_result" task_id ping_type value finished_at.

(** ping.rs [PingResult::now]; [now] is the time of day in RFC 3339 *)
Definition ping_result_now (now : string) (task : PingTask) (value : Z) : PingResult :=
  ping_result_new (pt_task_id task) (pt_ping_type task) value now.

(** ping.rs [PingExecutor@FixedPingExecutor::run] *)
Definition fixed_ping_run (value : Z) (now : string) (task : PingTask) : PingResult :=
  ping_result_now now task value.

(** ping.rs [PingExecutor@NoopPingExecutor::run] *)
Definition noop_ping_run (now : string) (task : PingTask) : PingResult :=
  ping_result_now now task (-1).

(** The measurements taken from the [k]-th on, at most [retries]: the loop of
    [measure_with_high_latency_retries] *)
Fixpoint retry_measure (retries : nat) (k : nat) (measure : nat → option N) : option N :=
  match retries with
  | O => None
  | S retries =>
      next ← measure k;
      if next <=? HIGH_LATENCY_THRESHOLD_MS then Some next
      else retry_measure retries (S k) measure
  end.

(** ping.rs [measure_with_high_latency_retries]; [measure k] is the result of the [k]-th call *)
Definition measure_with_high_latency_retries (measure : nat → option N) : option N :=
  first ← measure 0%nat;
  if first <=? HIGH_LATENCY_THRESHOLD_MS then Some first
  else retry_measure HIGH_LATENCY_RETRIES 1 measure.

(** ping.rs [PingExecutor@LinuxPingExecutor::run]; the three ways to measure are parameters *)
Definition linux_ping_run (icmp_ping tcp_ping http_ping : string → nat → option N) (now : string)
    (task : PingTask) : PingResult :=
  let value :=
    measure_with_high_latency_retries (fun k =>
      if bool_decide (pt_ping_type task = "icmp"%string) then icmp_ping (pt_target task) k
      else if bool_decide (pt_ping_type task = "tcp"%string) then tcp_ping (pt_target task) k
      else if bool_decide (pt_ping_type task = "http"%string) then http_ping (pt_target task) k
      else None) in
  ping_result_now now task
    (match value with Some latency => Z.of_N (N.min latency (2 ^ 31 - 1)) | None => -1 end).

(** [f64::round] and [as i32]: half away from zero, saturating, NaN to 0 *)
Definition f_round_i32 (x : float64) : Z :=
  match x with
  | S754_zero _ | S754_nan => 0
  | S754_infinity s => if s then - 2 ^ 31 else 2 ^ 31 - 1
  | S754_finite s _ _ =>
      let rounded := (2 * Z.abs (f_units x) + F_UNIT) / (2 * F_UNIT) in
      Z.max (- 2 ^ 31) (Z.min (2 ^ 31 - 1) (if s then - rounded else rounded))
  end%Z.

(** ping.rs [parse_linux_ping_latency_ms] *)
Definition parse_linux_ping_latency_ms (output : string) : option Z :=
  '(_, after) ← split_once "time=" output;
  raw ← head (split_whitespace after);
  value ← f_parse raw;
  Some (f_round_i32 value).

(** ping.rs [bracketed_host] *)
Definition bracketed_host (target : string) : option string :=
  rest ← strip_prefix "[" target;
  '(host, _) ← split_once "]" rest;
  if is_empty host then None else Some host.

(** ping.rs [split_explicit_host_port] *)
Definition split_explicit_host_port (target : string) : option (string * string) :=
  '(host, port) ← rsplit_once x3a target;
  if is_empty host || is_empty port || negb (forallb (in_range 48 57) (bytes_of port)) then None
  else if bool_decide (count_colons target = 1%nat) || starts_with "[" host then Some (host, port)
  else None.

(** [str::trim_matches(['[', ']'])] *)
Definition trim_brackets (s : string) : string :=
  str_of (trim_back [[x5b]; [x5d]] (trim_front [[x5b]; [x5d]] (bytes_of s))).

(** ping.rs [host_without_port] *)
Definition host_without_port (target : string) : string :=
  let target := trim target in
  match bracketed_host target with
  | Some host => host
  | None =>
      match parse_ip target with
      | Some _ => target
      | None =>
          match split_explicit_host_port target with
          | Some (host, _) => trim_brackets host
          | None => trim_brackets target
          end
      end
  end.

(** ping.rs [normalize_socket_target] *)
Definition normalize_socket_target (target default_port : string) : option string :=
  let target := trim target in
  if is_empty target then None
  else
    match bracketed_host target with
    | Some host =>
        match split_explicit_host_port target with
        | Some _ => Some target
        | None => Some ("[" +:+ host +:+ "]:" +:+ default_port)
        end
    | None =>
        match parse_ip target with
        | Some (V6 _) => Some ("[" +:+ target +:+ "]:" +:+ default_port)
        | Some (V4 _) => Some (target +:+ ":" +:+ default_port)
        | None =>
            match split_explicit_host_port target with
            | Some _ => Some target
            | None => Some (target +:+ ":" +:+ default_port)
            end
        end
    end.

(** ping.rs [http_ping] 164-168 *)
Definition http_ping_url (target : string) : string :=
  if starts_with "http://" target || starts_with "https://" target then target
  else "http://" +:+ target.

(** ** Properties *)

Example ping_latency :
  parse_linux_ping_latency_ms "64 bytes from 1.1.1.1: icmp_seq=1 ttl=57 time=12.5 ms" = Some 13%Z.
Proof. vm_compute. reflexivity. Qed.
Example ipv6_target :
  normalize_socket_target "2607:f358::39b7" "80" = Some "[2607:f358::39b7]:80"%string ∧
  host_without_port "2607:f358::39b7" = "2607:f358::39b7"%string ∧
  normalize_socket_target "[::1]:443" "80" = Some "[::1]:443"%string ∧
  normalize_socket_target "host" "80" = Some "host:80"%string.
Proof. vm_compute. done. Qed.

(** What the retries return: the first measurement that is not high, provided it is among the
    first [S HIGH_LATENCY_RETRIES] and none before it failed. *)
Definition first_normal (measure : nat → option N) (v : N) (k : nat) : Prop :=
  measure k = Some v ∧ v ≤ HIGH_LATENCY_THRESHOLD_MS ∧
  ∀ j, (j < k)%nat → ∃ w, measure j = Some w ∧ HIGH_LATENCY_THRESHOLD_MS < w.

Lemma retry_measure_spec retries k measure v :
  retry_measure retries k measure = Some v ↔
  ∃ i, (i < retries)%nat ∧ measure (k + i)%nat = Some v ∧ v ≤ HIGH_LATENCY_THRESHOLD_MS ∧
    ∀ j, (j < i)%nat → ∃ w, measure (k + j)%nat = Some w ∧ HIGH_LATENCY_THRESHOLD_MS < w.
Proof.
  revert k. induction retries as [|retries IH]; intros k; cbn [retry_measure].
  { split; [done|]. intros (i & Hi & _). lia. }
  destruct (measure k) as [w|] eqn:Hw; cbn [mbind option_bind].
  2: { split; [done|]. intros ([|i] & Hi & Hm & _ & Hall).
       - by rewrite Nat.add_0_r, Hw in Hm.
       - destruct (Hall 0%nat ltac:(lia)) as (u & Hu & _). by rewrite Nat.add_0_r, Hw in Hu. }
  destruct (N.leb_spec w HIGH_LATENCY_THRESHOLD_MS) as [Hle|Hgt].
  - split.
    + intros [= <-]. exists 0%nat. rewrite Nat.add_0_r. split; [lia|]. split; [done|].
      split; [done|]. intros j Hj. lia.
    + intros ([|i] & Hi & Hm & _ & Hall); [by rewrite Nat.add_0_r, Hw in Hm|].
      destruct (Hall 0%nat ltac:(lia)) as (u & Hu & Hlt). rewrite Nat.add_0_r, Hw in Hu.
      simplify_eq. lia.
  - rewrite IH. split.
    + intros (i & Hi & Hm & Hv & Hall). exists (S i). rewrite Nat.add_succ_r.
      split; [lia|]. split; [done|]. split; [done|]. intros [|j] Hj.
      * rewrite Nat.add_0_r. eauto.
      * rewrite Nat.add_succ_r. apply Hall. lia.
    + intros ([|i] & Hi & Hm & Hv & Hall).
      { rewrite Nat.add_0_r, Hw in Hm. simplify_eq. lia. }
      exists i. rewrite Nat.add_succ_r in Hm. split; [lia|]. split; [done|]. split; [done|].
      intros j Hj. destruct (Hall (S j) ltac:(lia)) as (u & Hu & Hlt).
      rewrite Nat.add_succ_r in Hu. eauto.
Qed.

(** A ping task is measured at most four times, and its result is the first latency that is
    not high when no measurement before it failed. *)
Theorem ping_first_normal measure v :
  measure_with_high_latency_retries measure = Some v ↔
  ∃ k, (k ≤ HIGH_LATENCY_RETRIES)%nat ∧ first_normal measure v k.
Proof.
  assert (Heq : measure_with_high_latency_retries measure
    = retry_measure (S HIGH_LATENCY_RETRIES) 0 measure) by done.
  rewrite Heq, retry_measure_spec. unfold first_normal. cbn [Nat.add].
  split; intros (k & Hk & H); exists k; (split; [lia|done]).
Qed.
