(* ===== verification/SmokeSummary.v ===== *)
(** * Event lines and smoke summaries ([src/src/smoke_summary.rs])

    The agent prints an event as one line; the smoke test reads such lines back.  What is
    printed of a value is a single line of printable ASCII, so no value (a request id of the
    panel, say) can start a line of its own; a summary that passes has no gap. *)
From S2P Require Import Prelude RustStd.
From Stdlib Require Import Strings.Byte.
From Stdlib Require Strings.String.
Local Open Scope N_scope.

(** [char::is_ascii_graphic] on a character *)
Definition is_ascii_graphic (ch : list byte) : bool :=
  match ch with [b] => in_range 33 126 b | _ => false end.

(** smoke_summary.rs [sanitize_event_part] *)
Definition sanitize_event_part (value : string) : string :=
  let text := from_chars ((fun ch => if is_ascii_graphic ch && negb (bool_decide (ch = [x7c]))
                                     then ch else [x20]) <$> chars value) in
  let sanitized := join " " (split_whitespace text) in
  if is_empty sanitized then "-" else sanitized.

(** smoke_summary.rs [smoke_event_line] *)
Definition smoke_event_line (event : string) (fields : list (string * string)) : string :=
  "smoke: " +:+ replace_byte x20 "_" (sanitize_event_part event)
  +:+ foldr (fun '(key, value) rest =>
               " " +:+ replace_byte x20 "_" (sanitize_event_part key) +:+ "="
               +:+ sanitize_event_part value +:+ rest) "" fields.

(** smoke_summary.rs [SmokeEvidenceStatus] *)
Inductive SmokeEvidenceStatus := Pass | Failed | Missing.
#[export] Instance SmokeEvidenceStatus_eq_dec : EqDecision SmokeEvidenceStatus.
Proof. solve_decision. Defined.

(** smoke_summary.rs [SmokeEvidenceStatus::as_str] *)
Definition status_as_str (s : SmokeEvidenceStatus) : string :=
  match s with Pass => "pass" | Failed => "fail" | Missing => "missing" end.

(** smoke_summary.rs [SmokeEvidence] *)
Record SmokeEvidence := mkEvidence {
  ev_id : string;
  ev_label : string;
  ev_status : SmokeEvidenceStatus;
  ev_detail : string;
}.
#[export] Instance SmokeEvidence_eq_dec : EqDecision SmokeEvidence.
Proof. solve_decision. Defined.

(** smoke_summary.rs [SmokeSummary] *)
Record SmokeSummary := mkSummary {
  sm_source : string;
  sm_evidence : list SmokeEvidence;
  sm_compatibility_gaps : list string;
}.

(** smoke_summary.rs [SmokeSummary::evidence_status] *)
Definition evidence_status (self : SmokeSummary) (id : string) : option SmokeEvidenceStatus :=
  ev_status <$> List.find (fun e => bool_decide (ev_id e = id)) (sm_evidence self).

(** smoke_summary.rs [SmokeSummary::is_pass] *)
Definition is_pass (self : SmokeSummary) : bool :=
  forallb (fun e => bool_decide (ev_status e = Pass)) (sm_evidence self).

(** smoke_summary.rs [SmokeSummary::failed_or_missing_evidence] *)
Definition failed_or_missing_evidence (self : SmokeSummary) : list SmokeEvidence :=
  filter (fun e => ev_status e ≠ Pass) (sm_evidence self).

(** smoke_summary.rs [escape_markdown_cell] *)
Definition escape_markdown_cell (value : string) : string :=
  replace_byte x0a " " (replace_byte x7c "\|" value).

(** A line end in the text that is written *)
Definition nl : string := str_of [x0a].

(** smoke_summary.rs [SmokeSummary::to_markdown] *)
Definition to_markdown (self : SmokeSummary) : string :=
  "# kelicloud-agent-rs Smoke Summary" +:+ nl +:+ nl
  +:+ "Source: `" +:+ escape_markdown_cell (sm_source self) +:+ "`" +:+ nl +:+ nl
  +:+ "## Evidence" +:+ nl +:+ nl
  +:+ "| Check | Status | Detail |" +:+ nl
  +:+ "| --- | --- | --- |" +:+ nl
  +:+ foldr (fun e rest =>
               "| " +:+ escape_markdown_cell (ev_label e) +:+ " | " +:+ status_as_str (ev_status e)
               +:+ " | " +:+ escape_markdown_cell (ev_detail e) +:+ " |" +:+ nl +:+ rest)
            "" (sm_evidence self)
  +:+ nl +:+ "## Compatibility Gaps" +:+ nl +:+ nl
  +:+ match sm_compatibility_gaps self with
      | [] => "No missing live control-plane evidence." +:+ nl
      | gaps => foldr (fun gap rest => "- " +:+ gap +:+ nl +:+ rest) ""%string gaps
      end.

(** smoke_summary.rs [evidence] *)
Definition evidence (id label : string) (status : SmokeEvidenceStatus) (detail : string)
  : SmokeEvidence := mkEvidence id label status detail.

(** smoke_summary.rs [observed] *)
Definition observed (value : bool) : SmokeEvidenceStatus := if value then Pass else Missing.

(** smoke_summary.rs [observed_detail] *)
Definition observed_detail (value : bool) : string :=
  if value then "observed" else "not observed".

(** smoke_summary.rs [contains_any] *)
Definition contains_any (text : string) (needles : list string) : bool :=
  existsb (fun needle => contains needle text) needles.

(** smoke_summary.rs [first_fatal_error] *)
Definition first_fatal_error (text : string) : option string :=
  List.find (fun line =>
      let lower := to_ascii_lowercase line in
      starts_with "runtime error:" lower || starts_with "configuration error:" lower
      || starts_with "transport error:" lower || starts_with "auto-discovery error:" lower
      || starts_with "task uploader error:" lower || starts_with "error:" lower)
    (filter (fun line => is_empty line = false) (trim <$> lines text)).

(** smoke_summary.rs [summarize_log_text] 165-217: the checks of the control plane: name, label,
    whether it was seen, and the note when it was not *)
Definition control_checks (lower : string) : list (string * string * bool * string) := [
  ("control_ping_result"%string, "Ping result upload"%string,
    contains_any lower ["smoke: ping_result_uploaded";
      str_of [x22] +:+ "type" +:+ str_of [x22; x3a; x22] +:+ "ping_result" +:+ str_of [x22];
      "ping_result uploaded"],
    "Ping task was not observed; trigger a TCP ping from the panel during live smoke."%string);
  ("control_exec_result"%string, "Exec task result upload"%string,
    contains_any lower ["smoke: task_result_uploaded"; "/api/clients/task/result";
      "task result uploaded"],
    "Exec task result upload was not observed; run a small command such as whoami from the panel."%string);
  ("control_terminal_session"%string, "Terminal session"%string,
    contains_any lower ["smoke: terminal_session_started"; "/api/clients/terminal";
      "terminal session started"],
    "Terminal session was not observed; open WebSSH during live smoke."%string);
  ("control_cn_connectivity"%string, "CN connectivity config"%string,
    contains_any lower ["smoke: cn_connectivity_config_received"; "cn_connectivity_probe_config"],
    "CN connectivity config was not observed; wait for the panel to send probe config during live smoke."%string)
].

(** smoke_summary.rs [summarize_log_text] 110-163 *)
Definition core_checks (text lower : string) : list SmokeEvidence :=
  let fatal_error := first_fatal_error text in
  let agent_started := contains "kelicloud-agent-rs prototype" lower in
  let loop_completed :=
    contains "agent loop: completed" lower || contains "live smoke duration reached" lower in
  let basic_info_observed := contains "smoke: basic_info_uploaded" lower || loop_completed in
  let report_connected_observed :=
    contains "smoke: report_websocket_connected" lower || loop_completed in
  let report_sent_observed := contains "smoke: report_sent" lower || loop_completed in
  [ evidence "core_agent_started" "Agent startup"
      (observed agent_started) (observed_detail agent_started);
    evidence "core_loop_completed" "Agent loop completed or stayed alive"
      (observed loop_completed) (observed_detail loop_completed);
    evidence "core_no_errors" "No fatal agent errors"
      (match fatal_error with Some _ => Failed | None => Pass end)
      (default "none"%string fatal_error);
    evidence "core_basic_info" "Basic info upload"
      (observed basic_info_observed) (observed_detail basic_info_observed);
    evidence "core_report_connected" "Report websocket connection"
      (observed report_connected_observed) (observed_detail report_connected_observed);
    evidence "core_report_sent" "Report payload send"
      (observed report_sent_observed) (observed_detail report_sent_observed) ].

(** smoke_summary.rs [summarize_log_text] 219-237 *)
Definition summarize_log_text (source text : string) : SmokeSummary :=
  let lower := to_ascii_lowercase text in
  let checks := control_checks lower in
  mkSummary source
    (core_checks text lower
     ++ ((fun '(id, label, passed, _) =>
            evidence id label (observed passed) (observed_detail passed)) <$> checks))
    (omap (fun '(_, _, passed, note) => if (passed : bool) then None else Some note) checks).

(** ** Lines cannot be forged *)

Definition printable (b : byte) : Prop := in_range 32 126 b = true ∧ b ≠ x7c.

(** The bytes of the pieces of a split are bytes of the string. *)
Lemma split_pats_bytes (P : byte → Prop) fuel seps cur l :
  Forall P cur → Forall P l → Forall (Forall P) (split_pats fuel seps cur l).
Proof.
  revert cur l. induction fuel as [|fuel IH]; intros cur l Hc Hl; cbn [split_pats].
  { constructor; [by apply Forall_reverse|constructor]. }
  destruct (strip_any seps l) as [r|] eqn:Hr.
  - constructor; [by apply Forall_reverse|]. apply IH; [constructor|].
    apply strip_any_Some in Hr as (p & _ & ->). by apply Forall_app in Hl as [_ Hl].
  - destruct l as [|b l]; [constructor; [by apply Forall_reverse|constructor]|].
    apply Forall_cons in Hl as [Hb Hl]. apply IH; [by constructor|done].
Qed.

Lemma split_whitespace_bytes P s :
  Forall P (bytes_of s) → Forall (fun p => Forall P (bytes_of p)) (split_whitespace s).
Proof.
  intros Hs. unfold split_whitespace. apply Forall_forall. intros p Hp.
  apply list_elem_of_filter in Hp as [_ Hp]. revert p Hp. apply Forall_forall.
  unfold split. apply Forall_fmap. eapply Forall_impl; [by apply split_pats_bytes; [constructor|]|].
  intros l Hl. cbn. by rewrite bytes_of_str_of.
Qed.

Lemma join_bytes (P : byte → Prop) l :
  P x20 → Forall (fun p => Forall P (bytes_of p)) l → Forall P (bytes_of (join " " l)).
Proof.
  intros Hsp. induction 1 as [|s l Hs Hl IH]; [constructor|].
  destruct l as [|t l]; [done|]. cbn [join] in *. rewrite !bytes_of_app.
  apply Forall_app. split; [done|]. apply Forall_app. split; [by repeat constructor|done].
Qed.

Lemma printable_space : printable x20.
Proof. done. Qed.

Lemma sanitize_printable value : Forall printable (bytes_of (sanitize_event_part value)).
Proof.
  unfold sanitize_event_part. destruct (is_empty _); [by repeat constructor|].
  apply join_bytes; [done|]. apply split_whitespace_bytes.
  unfold from_chars. rewrite bytes_of_str_of. induction (chars value) as [|ch cs IH]; [constructor|].
  cbn [fmap list_fmap concat]. apply Forall_app. split; [|done].
  destruct (is_ascii_graphic ch) eqn:Hg; [|by repeat constructor]. cbn [andb].
  case_bool_decide as Hc; cbn [negb]; [by repeat constructor|].
  destruct ch as [|b [|? ?]]; try done. cbn in Hg. repeat constructor; [|congruence].
  unfold in_range in *. apply andb_true_iff in Hg as [H1 H2].
  apply N.leb_le in H1, H2. apply andb_true_iff. split; apply N.leb_le; lia.
Qed.

Lemma replace_printable c r s :
  Forall printable (bytes_of r) → Forall printable (bytes_of s) →
  Forall printable (bytes_of (replace_byte c r s)).
Proof.
  intros Hr Hs. unfold replace_byte. rewrite bytes_of_str_of.
  induction Hs as [|b l Hb Hl IH]; [constructor|]. cbn [mbind list_bind].
  apply Forall_app. split; [|done]. case_bool_decide; [done|by apply Forall_singleton].
Qed.

(** An event is one line of printable ASCII without a bar, whatever its name, its keys and
    its values hold: a value the panel chose (a request id, an operation, a name) can start
    neither a new line nor a new cell of the summary. *)
Theorem event_line_printable event fields :
  Forall printable (bytes_of (smoke_event_line event fields)).
Proof.
  unfold smoke_event_line. rewrite !bytes_of_app.
  assert (Hunder : Forall printable (bytes_of "_")) by (by repeat constructor).
  apply Forall_app. split; [by repeat constructor|]. apply Forall_app. split.
  { apply replace_printable; [done|apply sanitize_printable]. }
  induction fields as [|[key value] fields IH]; [constructor|]. cbn [foldr]. rewrite !bytes_of_app.
  apply Forall_app. split; [by repeat constructor|]. apply Forall_app. split.
  { apply replace_printable; [done|apply sanitize_printable]. }
  apply Forall_app. split; [by repeat constructor|].
  apply Forall_app. split; [apply sanitize_printable|done].
Qed.

(** ** Reading the log *)

(** A summary passes exactly when nothing failed or is missing, and then there is no gap. *)
Lemma is_pass_spec s : is_pass s = true ↔ failed_or_missing_evidence s = [].
Proof.
  unfold is_pass, failed_or_missing_evidence. induction (sm_evidence s) as [|e l IH]; [done|].
  cbn [forallb]. rewrite andb_true_iff, IH, bool_decide_eq_true, filter_cons.
  case_decide; naive_solver.
Qed.

(** A summary that passes has no compatibility gap. *)
Theorem pass_has_no_gaps source text :
  let s := summarize_log_text source text in
  is_pass s = true → sm_compatibility_gaps s = [].
Proof.
  cbn zeta. unfold is_pass, summarize_log_text. cbn [sm_evidence sm_compatibility_gaps].
  rewrite forallb_app, andb_true_iff. intros [_ H]. revert H.
  induction (control_checks (to_ascii_lowercase text)) as [|[[[id label] passed] note] l IH]; [done|].
  cbn [fmap list_fmap forallb omap list_omap]. rewrite andb_true_iff, bool_decide_eq_true.
  cbn [ev_status evidence observed]. destruct passed; cbn; [|by intros []].
  intros [_ H]. by apply IH.
Qed.

(** A value keeps its blanks, and the summary looks for its marks anywhere in the log: an event
    whose value holds the mark of another event counts as that event. *)
Theorem value_forges_evidence :
  let line := smoke_event_line "terminal_session_started"
                [("request_id"%string, "x smoke: report_sent"%string)] in
  line = "smoke: terminal_session_started request_id=x smoke: report_sent"%string ∧
  evidence_status (summarize_log_text "log" line) "core_report_sent" = Some Pass.
Proof. vm_compute. done. Qed.
