(* ===== verification/ReportLoop.v ===== *)
(** * The report loop ([src/src/runtime.rs], [src/src/token.rs])

    Uploading the basic information, connecting the report socket, recovering a rejected
    token, sending reports and answering the messages of the panel.  The traits of the source
    (transports, handler, delay, report generator, ping executor) are one [World]: a script of
    what their calls return, in order, and a log of the calls that have an effect outside.
    A call whose script has ended is still pending ([Wait]).  Token recovery is a parameter
    with its own state. *)
From S2P Require Import Prelude RustStd RustF64 AsyncIo Transport TunnelStats Config Report.
From Stdlib Require Import Strings.Byte.
From Stdlib Require Strings.String.
Local Open Scope N_scope.

(** runtime.rs [RuntimeError] *)
Inductive RuntimeError :=
  | RtProtocol (error : ProtocolError)
  | RtTransport (error : TransportError).

(** runtime.rs [Display@RuntimeError::fmt] *)
Definition RuntimeError_to_string (e : RuntimeError) : string :=
  match e with
  | RtProtocol error => ProtocolError_to_string error
  | RtTransport error => TransportError_to_string error
  end.

(** transport.rs [access_headers] *)
Definition access_headers (config : AgentConfig) : list HeaderPair :=
  let id := trim (cfg_cf_access_client_id config) in
  let secret := trim (cfg_cf_access_client_secret config) in
  if is_empty id || is_empty secret then []
  else [("CF-Access-Client-Id"%string, id); ("CF-Access-Client-Secret"%string, secret)].

(** ** Handlers of control messages *)

(** runtime.rs [ControlMessageHandler] *)
Class ControlMessageHandler (H : Type) := handle : H → BackendMessage → H.

(** runtime.rs [ChainControlMessageHandler] *)
Record ChainControlMessageHandler (A B : Type) := mkChain { chain_first : A; chain_second : B }.
#[global] Arguments mkChain {A B} _ _.
#[global] Arguments chain_first {A B} _.
#[global] Arguments chain_second {A B} _.

(** runtime.rs [ControlMessageHandler@ChainControlMessageHandler::handle] *)
Definition chain_handle {A B} `{!ControlMessageHandler A, !ControlMessageHandler B}
    (self : ChainControlMessageHandler A B) (message : BackendMessage)
    : ChainControlMessageHandler A B :=
  let first := handle (chain_first self) message in
  let second := handle (chain_second self) message in
  mkChain first second.
#[export] Instance chain_handler {A B} `{!ControlMessageHandler A, !ControlMessageHandler B}
  : ControlMessageHandler (ChainControlMessageHandler A B) := chain_handle.

(** runtime.rs [ControlMessageHandler@NoopControlMessageHandler::handle] *)
#[export] Instance noop_handler : ControlMessageHandler unit := fun self _ => self.

(** ** The world *)

(** A call with an effect outside *)
Inductive Event :=
  | EUpload (url : string) (headers : list HeaderPair) (info : BasicInfo)
  | EConnect (url : string) (headers : list HeaderPair)
  | ERecover (error : TransportError)
  | ESendReport (report : Report)
  | ESendPing
  | ESendPingResult (result : PingResult)
  | EHandle (message : BackendMessage)
  | ESleepReport (seconds : float64)
  | ESleepReconnect (seconds : N).

Record World (R : Type) := mkWorld {
  w_uploads : list (option TransportError);
  w_connects : list (option TransportError);
  w_reads : list (TransportError + option (list byte));
  w_sends : list (option TransportError);
  w_infos : list BasicInfo;
  w_reports : list Report;
  w_pongs : list PingResult;
  w_recovery : R;
  w_config : AgentConfig;
  w_log : list Event;
}.
#[global] Arguments mkWorld {R} _ _ _ _ _ _ _ _ _ _.
#[global] Arguments w_uploads {R} _.
#[global] Arguments w_connects {R} _.
#[global] Arguments w_reads {R} _.
#[global] Arguments w_sends {R} _.
#[global] Arguments w_infos {R} _.
#[global] Arguments w_reports {R} _.
#[global] Arguments w_pongs {R} _.
#[global] Arguments w_recovery {R} _.
#[global] Arguments w_config {R} _.
#[global] Arguments w_log {R} _.

Section runtime.
(** [serde_json], [idna] and the implementation of [TokenRecovery] *)
Context (raw_from_slice : list byte → result string RawBackendMessage).
Context (domain_to_ascii : string → option string).
Context {R : Type}.
Context (recover_from_transport_error : R → AgentConfig → TransportError → R * AgentConfig * bool).

Local Abbreviation W := (World R).

Definition log_event {E} (e : Event) : act W E unit := modify (fun w =>
  mkWorld (w_uploads w) (w_connects w) (w_reads w) (w_sends w) (w_infos w) (w_reports w)
    (w_pongs w) (w_recovery w) (w_config w) (w_log w ++ [e])).

(** The outcome of a call that returns [Result<(), TransportError>] *)
Definition settle (outcome : option TransportError) : act W TransportError unit :=
  match outcome with Some error => fail error | None => mret tt end.

(** [HttpTransport::upload_basic_info] *)
Definition upload_basic_info (url : string) (headers : list HeaderPair) (info : BasicInfo)
  : act W TransportError unit :=
  _ ← log_event (EUpload url headers info);
  w ← get;
  match w_uploads w with
  | [] => wait
  | o :: uploads =>
      _ ← put (mkWorld uploads (w_connects w) (w_reads w) (w_sends w) (w_infos w) (w_reports w)
                 (w_pongs w) (w_recovery w) (w_config w) (w_log w));
      settle o
  end.

(** [WebSocketTransport::connect_report] *)
Definition connect_report (url : string) (headers : list HeaderPair) : act W TransportError unit :=
  _ ← log_event (EConnect url headers);
  w ← get;
  match w_connects w with
  | [] => wait
  | o :: connects =>
      _ ← put (mkWorld (w_uploads w) connects (w_reads w) (w_sends w) (w_infos w) (w_reports w)
                 (w_pongs w) (w_recovery w) (w_config w) (w_log w));
      settle o
  end.

(** [ReportSocket::send_report], [send_ping] and [send_ping_result] *)
Definition send (e : Event) : act W TransportError unit :=
  _ ← log_event e;
  w ← get;
  match w_sends w with
  | [] => wait
  | o :: sends =>
      _ ← put (mkWorld (w_uploads w) (w_connects w) (w_reads w) sends (w_infos w) (w_reports w)
                 (w_pongs w) (w_recovery w) (w_config w) (w_log w));
      settle o
  end.

(** [ReportSocket::read_message] *)
Definition read_message : act W TransportError (option (list byte)) :=
  w ← get;
  match w_reads w with
  | [] => wait
  | o :: reads =>
      _ ← put (mkWorld (w_uploads w) (w_connects w) reads (w_sends w) (w_infos w) (w_reports w)
                 (w_pongs w) (w_recovery w) (w_config w) (w_log w));
      match o with inl error => fail error | inr m => mret m end
  end.

(** [BasicInfoProvider::basic_info] *)
Definition basic_info {E} : act W E BasicInfo :=
  w ← get;
  match w_infos w with
  | [] => wait
  | info :: infos =>
      _ ← put (mkWorld (w_uploads w) (w_connects w) (w_reads w) (w_sends w) infos (w_reports w)
                 (w_pongs w) (w_recovery w) (w_config w) (w_log w));
      mret info
  end.

(** [ReportGenerator::generate] *)
Definition generate {E} : act W E Report :=
  w ← get;
  match w_reports w with
  | [] => wait
  | report :: reports =>
      _ ← put (mkWorld (w_uploads w) (w_connects w) (w_reads w) (w_sends w) (w_infos w) reports
                 (w_pongs w) (w_recovery w) (w_config w) (w_log w));
      mret report
  end.

(** [PingExecutor::run] *)
Definition ping_run {E} (task : PingTask) : act W E PingResult :=
  w ← get;
  match w_pongs w with
  | [] => wait
  | pong :: pongs =>
      _ ← put (mkWorld (w_uploads w) (w_connects w) (w_reads w) (w_sends w) (w_infos w) (w_reports w)
                 pongs (w_recovery w) (w_config w) (w_log w));
      mret pong
  end.

(** [TokenRecovery::recover_from_transport_error] on the configuration of the loop *)
Definition recover {E} (error : TransportError) : act W E bool :=
  _ ← log_event (ERecover error);
  w ← get;
  let '(r, config, recovered) := recover_from_transport_error (w_recovery w) (w_config w) error in
  _ ← put (mkWorld (w_uploads w) (w_connects w) (w_reads w) (w_sends w) (w_infos w) (w_reports w)
             (w_pongs w) r config (w_log w));
  mret recovered.

Definition config {E} : act W E AgentConfig := w ← get; mret (w_config w).

(** ** Uploading and connecting *)

(** runtime.rs [upload_basic_info_with_legacy_retry] *)
Definition upload_basic_info_with_legacy_retry (url : string) (headers : list HeaderPair)
    (info : BasicInfo) : act W TransportError unit :=
  r ← catch (upload_basic_info url headers info);
  match r with
  | inr _ => mret tt
  | inl error =>
      match error with
      | InvalidClientToken _ _ _ _ => fail error
      | _ =>
          if is_empty (bi_kernel_version info) then fail error
          else upload_basic_info url headers (without_kernel_version info)
      end
  end.

(** runtime.rs [upload_basic_info_with_token_recovery]; the loop runs at most twice, since
    [recovered] guards the only way back *)
Fixpoint upload_with_token_recovery (fuel : nat) (recovered : bool) (headers : list HeaderPair)
    (info : BasicInfo) : act W RuntimeError bool :=
  match fuel with
  | O => wait
  | S fuel =>
      c ← config;
      url ← err_into RtTransport (try_ (build_basic_info_url (cfg_endpoint c) (cfg_token c)));
      r ← err_into RtTransport (catch (upload_basic_info_with_legacy_retry url headers info));
      match r with
      | inr _ => mret recovered
      | inl error =>
          again ← (if recovered then mret false else recover error);
          if (again : bool) then upload_with_token_recovery fuel true headers info
          else fail (RtTransport error)
      end
  end.

(** runtime.rs [upload_basic_info_with_token_recovery] *)
Definition upload_basic_info_with_token_recovery (headers : list HeaderPair) (info : BasicInfo)
  : act W RuntimeError bool := upload_with_token_recovery 2 false headers info.

(** runtime.rs [connect_report_with_token_recovery] (its loop, as above) *)
Fixpoint connect_with_token_recovery (fuel : nat) (recovered : bool) (headers : list HeaderPair)
  : act W RuntimeError unit :=
  match fuel with
  | O => wait
  | S fuel =>
      c ← config;
      url ← err_into RtProtocol
        (try_ (build_report_ws_url domain_to_ascii (cfg_endpoint c) (cfg_token c)));
      r ← err_into RtTransport (catch (connect_report url headers));
      match r with
      | inr _ => mret tt
      | inl error =>
          again ← (if recovered then mret false else recover error);
          if (again : bool) then connect_with_token_recovery fuel true headers
          else fail (RtTransport error)
      end
  end.

(** runtime.rs [connect_report_with_token_recovery] *)
Definition connect_report_with_token_recovery (headers : list HeaderPair) : act W RuntimeError unit :=
  connect_with_token_recovery 2 false headers.

(** ** Messages of the panel *)

(** runtime.rs [process_backend_message] *)
Definition process_backend_message (bytes : list byte) : act W RuntimeError unit :=
  match parse_socket_message raw_from_slice bytes with
  | BackendPing task_id ping_type target =>
      result ← ping_run (mkPingTask task_id ping_type target);
      err_into RtTransport (send (ESendPingResult result))
  | other => log_event (EHandle other)
  end.

(** The loop of [drain_backend_messages_for_cycle]: every turn takes one message of the
    script, so one turn more than it is long is enough *)
Fixpoint drain_cycle_loop (fuel : nat) : act W RuntimeError bool :=
  match fuel with
  | O => wait
  | S fuel =>
      r ← err_into RtTransport (catch read_message);
      match r with
      | inr (Some bytes) =>
          r ← catch (process_backend_message bytes);
          match r with
          | inr _ => drain_cycle_loop fuel
          | inl (RtTransport _) => mret true
          | inl other => fail other
          end
      | inr None => mret false
      | inl _ => mret true
      end
  end.

(** runtime.rs [drain_backend_messages_for_cycle] *)
Definition drain_backend_messages_for_cycle : act W RuntimeError bool := fun w =>
  drain_cycle_loop (S (length (w_reads w))) w.

(** The loop of [drain_backend_messages], as above *)
Fixpoint drain_loop (fuel : nat) : act W RuntimeError unit :=
  match fuel with
  | O => wait
  | S fuel =>
      m ← err_into RtTransport read_message;
      match m with
      | Some bytes => _ ← process_backend_message bytes; drain_loop fuel
      | None => mret tt
      end
  end.

(** runtime.rs [drain_backend_messages] *)
Definition drain_backend_messages : act W RuntimeError unit := fun w =>
  drain_loop (S (length (w_reads w))) w.

(** ** One report *)

(** runtime.rs [run_once] *)
Definition run_once : act W RuntimeError unit :=
  c ← config;
  let headers := access_headers c in
  url ← err_into RtTransport (try_ (build_basic_info_url (cfg_endpoint c) (cfg_token c)));
  info ← basic_info;
  _ ← err_into RtTransport (upload_basic_info_with_legacy_retry url headers info);
  url ← err_into RtProtocol
    (try_ (build_report_ws_url domain_to_ascii (cfg_endpoint c) (cfg_token c)));
  _ ← err_into RtTransport (connect_report url headers);
  report ← generate;
  _ ← err_into RtTransport (send (ESendReport report));
  m ← err_into RtTransport read_message;
  match m with
  | Some bytes => log_event (EHandle (parse_socket_message raw_from_slice bytes))
  | None => mret tt
  end.

(** runtime.rs [run_once_with_ping_and_token_recovery] *)
Definition run_once_with_ping_and_token_recovery : act W RuntimeError unit :=
  c ← config;
  let headers := access_headers c in
  info ← basic_info;
  _ ← upload_basic_info_with_token_recovery headers info;
  _ ← connect_report_with_token_recovery headers;
  report ← generate;
  _ ← err_into RtTransport (send (ESendReport report));
  drain_backend_messages.

(** ** The loop *)

(** runtime.rs [CONTROL_MESSAGE_POLL_INTERVAL_SECONDS] *)
Definition CONTROL_MESSAGE_POLL_INTERVAL_SECONDS : float64 := f_one.

(** runtime.rs [report_tick_interval_seconds] *)
Definition report_tick_interval_seconds (config_interval_seconds : float64) : float64 :=
  if negb (f_is_finite config_interval_seconds) || f_le config_interval_seconds f_one then f_one
  else f_sub config_interval_seconds f_one.

(** runtime.rs [heartbeat_interval_cycles] *)
Definition heartbeat_interval_cycles (interval_seconds : float64) : N :=
  if negb (f_is_finite interval_seconds) || f_le interval_seconds f_zero then 30
  else f_as_uint USIZE_MAX (f_max (f_ceil (f_div (f_of_N 30) interval_seconds)) f_one).

(** runtime.rs [basic_info_interval_cycles] *)
Definition basic_info_interval_cycles (report_interval_seconds : float64)
    (info_report_interval_minutes : N) : N :=
  if negb (f_is_finite report_interval_seconds) || f_le report_interval_seconds f_zero
     || (info_report_interval_minutes =? 0)
  then 1
  else f_as_uint USIZE_MAX
    (f_max (f_ceil (f_div (f_mul (f_of_N info_report_interval_minutes) (f_of_N 60))
                          report_interval_seconds)) f_one).

(** The loop of [sleep_report_interval_with_control_messages]: whether the socket is still
    connected *)
Fixpoint sleep_loop (fuel : nat) (connected : bool) (remaining : float64) : act W RuntimeError bool :=
  match fuel with
  | O => wait
  | S fuel =>
      if f_gt remaining f_zero then
        let sleep_for := f_min remaining CONTROL_MESSAGE_POLL_INTERVAL_SECONDS in
        _ ← log_event (ESleepReport sleep_for);
        let remaining := f_max (f_sub remaining sleep_for) f_zero in
        if connected then
          lost ← drain_backend_messages_for_cycle;
          if (lost : bool) then mret false else sleep_loop fuel connected remaining
        else sleep_loop fuel connected remaining
      else mret connected
  end.

(** runtime.rs [sleep_report_interval_with_control_messages] *)
Definition sleep_report_interval_with_control_messages (fuel : nat) (connected : bool)
    (seconds : float64) : act W RuntimeError bool :=
  if negb (f_is_finite seconds) || f_le seconds f_zero then mret connected
  else sleep_loop fuel connected seconds.

(** [a % b]: division by zero is a panic *)
Definition rem {E} (a b : N) : act W E N := fun w =>
  if b =? 0 then (w, Crash) else (w, Done (a mod b)).

(** runtime.rs [run_report_cycles_with_ping_delay_and_token_recovery] 427-442: the upload of a
    cycle; whether the socket stays connected *)
Definition cycle_upload (headers : list HeaderPair) (basic_info_every cycle : N) (connected : bool)
  : act W RuntimeError bool :=
  r ← rem cycle basic_info_every;
  if r =? 0 then
    info ← basic_info;
    r ← catch (upload_basic_info_with_token_recovery headers info);
    match r with
    | inr true => mret false
    | inr false => mret connected
    | inl error => if cycle =? 0 then fail error else mret connected
    end
  else mret connected.

(** runtime.rs [run_report_cycles_with_ping_delay_and_token_recovery] 444-459: the connection
    of a cycle; [None] is [continue], otherwise the count of failures *)
Definition cycle_connect (headers : list HeaderPair) (connected : bool) (connect_failures : N)
  : act W RuntimeError (N * bool) :=
  if connected then mret (connect_failures, true)
  else
    r ← catch (connect_report_with_token_recovery headers);
    match r with
    | inr _ => mret (0, true)
    | inl error =>
        (* [+= 1], as a release build computes it *)
        let connect_failures := wrapping_add U32_MAX connect_failures 1 in
        c ← config;
        if cfg_max_retries c <? connect_failures then fail error
        else
          _ ← log_event (ESleepReconnect (cfg_reconnect_interval_seconds c));
          mret (connect_failures, false)
    end.

(** runtime.rs [run_report_cycles_with_ping_delay_and_token_recovery] 461-479: whether the
    socket is lost *)
Definition cycle_report (heartbeat_every cycle : N) : act W RuntimeError bool :=
  lost ← drain_backend_messages_for_cycle;
  if (lost : bool) then mret true
  else
    report ← generate;
    r ← err_into RtTransport (catch (send (ESendReport report)));
    lost ← match r with
           | inl _ => mret true
           | inr _ => drain_backend_messages_for_cycle
           end;
    if (lost : bool) then mret true
    else
      r ← rem (cycle + 1) heartbeat_every;
      if r =? 0 then
        r ← err_into RtTransport (catch (send ESendPing));
        match r with inl _ => mret true | inr _ => mret false end
      else mret false.

(** runtime.rs [run_report_cycles_with_ping_delay_and_token_recovery] 481-497: the cycles
    from [cycle] on, [n] of them *)
Fixpoint report_cycles (fuel : nat) (headers : list HeaderPair) (report_interval_seconds : float64)
    (heartbeat_every basic_info_every : N) (n : nat) (cycle : N) (connected : bool)
    (connect_failures : N) : act W RuntimeError unit :=
  match n with
  | O => mret tt
  | S n =>
      connected ← cycle_upload headers basic_info_every cycle connected;
      '(connect_failures, connected) ← cycle_connect headers connected connect_failures;
      if (connected : bool) then
        lost ← cycle_report heartbeat_every cycle;
        let connected := negb lost in
        connected ← match n with
                    | O => mret connected
                    | S _ => sleep_report_interval_with_control_messages fuel connected
                               report_interval_seconds
                    end;
        report_cycles fuel headers report_interval_seconds heartbeat_every basic_info_every n
          (cycle + 1) connected connect_failures
      else
        report_cycles fuel headers report_interval_seconds heartbeat_every basic_info_every n
          (cycle + 1) false connect_failures
  end.

(** runtime.rs [run_report_cycles_with_ping_delay_and_token_recovery] 396-426; [fuel] bounds
    the slices of one sleep *)
Definition run_report_cycles_with_ping_delay_and_token_recovery (fuel cycles : nat)
  : act W RuntimeError unit :=
  c ← config;
  let headers := access_headers c in
  let report_interval_seconds := report_tick_interval_seconds (cfg_interval_seconds c) in
  let heartbeat_every := heartbeat_interval_cycles report_interval_seconds in
  let basic_info_every :=
    basic_info_interval_cycles report_interval_seconds (cfg_info_report_interval_minutes c) in
  report_cycles fuel headers report_interval_seconds heartbeat_every basic_info_every cycles 0 false 0.
End runtime.

(** runtime.rs [TokenRecovery@NoopTokenRecovery::recover_from_transport_error] *)
Definition noop_recovery (r : unit) (config : AgentConfig) (error : TransportError)
  : unit * AgentConfig * bool := (r, config, false).

(** Run on a copy of the configuration. *)
Definition on_config_copy {R E A} (m : act (World R) E A) : act (World R) E A := fun w =>
  let '(w', r) := m w in
  (mkWorld (w_uploads w') (w_connects w') (w_reads w') (w_sends w') (w_infos w') (w_reports w')
     (w_pongs w') (w_recovery w') (w_config w) (w_log w'), r).

(** runtime.rs [run_once_with_ping] *)
Definition run_once_with_ping raw_from_slice domain_to_ascii : act (World unit) RuntimeError unit :=
  on_config_copy
    (run_once_with_ping_and_token_recovery raw_from_slice domain_to_ascii noop_recovery).

(** runtime.rs [run_report_cycles_with_ping_delay] *)
Definition run_report_cycles_with_ping_delay raw_from_slice domain_to_ascii (fuel cycles : nat)
  : act (World unit) RuntimeError unit :=
  on_config_copy
    (run_report_cycles_with_ping_delay_and_token_recovery raw_from_slice domain_to_ascii
       noop_recovery fuel cycles).

(** ** The summary printed at startup *)

(** runtime.rs [redact_secret] *)
Definition redact_secret (secret : string) : string :=
  let chars := chars secret in
  if len chars <=? 8 then "****"
  else
    let prefix := from_chars (take 4 chars) in
    let suffix := from_chars (reverse (take 4 (reverse chars))) in
    prefix +:+ "..." +:+ suffix.

(** runtime.rs [startup_summary] *)
Definition startup_summary (config : AgentConfig) : string :=
  let nl := str_of [x0a] in
  let tls := (if cfg_insecure config then "insecure tls: enabled" else "insecure tls: disabled")%string in
  let web_ssh := (if cfg_disable_web_ssh config then "web ssh: disabled" else "web ssh: enabled")%string in
  let summary := "kelicloud-agent-rs prototype" +:+ nl +:+ "endpoint: " +:+ cfg_endpoint config +:+ nl
    +:+ "token: " +:+ redact_secret (cfg_token config) +:+ nl +:+ tls +:+ nl +:+ web_ssh in
  if cfg_tunnel_data_enabled config then
    let tuning := cfg_tunnel_ktp_relay_batch_tuning config in
    summary +:+ nl +:+ "tunnel data: enabled" +:+ nl +:+ "ktp relay batch policy: "
      +:+ config_value (cfg_tunnel_ktp_relay_batch_policy config) +:+ nl
      +:+ "adaptive high_sessions=" +:+ pretty (high_session_threshold tuning)
      +:+ " elevated_dwell_us=" +:+ pretty (elevated_dwell_p95_micros tuning)
      +:+ " severe_dwell_us=" +:+ pretty (severe_dwell_p95_micros tuning)
      +:+ " elevated_cap=" +:+ pretty (elevated_batch_cap tuning)
      +:+ " severe_cap=" +:+ pretty (severe_batch_cap tuning)
  else summary.
