(* ===== verification/ReportLaws.v ===== *)
(** * What the report loop does ([src/src/runtime.rs])

    It never divides by zero; it sends at most one report and makes at most a bounded number
    of uploads and recoveries per cycle; every message of the panel is answered or handled
    once and in order; a sleep ends after as many slices as it has seconds; and a panel that
    stays away makes it give up after [max_retries] waits. *)
From S2P Require Import Prelude RustStd RustF64 AsyncIo Transport TunnelStats TunnelAuth Config Report ReportLoop.
From Stdlib Require Import Strings.Byte.
From Stdlib Require Import ZArith.
From Stdlib Require Import SpecFloat.
From Stdlib Require Strings.String.
Local Open Scope N_scope.

(** ** Actions that never panic *)
Definition no_crash {S E A} (m : act S E A) : Prop := ∀ s, (m s).2 ≠ Crash.

Section no_crash.
Context {S E : Type}.
Lemma no_crash_bind {A B} (m : act S E A) (f : A → act S E B) :
  no_crash m → (∀ a, no_crash (f a)) → no_crash (m ≫= f).
Proof.
  intros Hm Hf s. unfold mbind, act_bind. specialize (Hm s).
  destruct (m s) as [s1 [a|e| |]]; cbn in *; [apply Hf|done..].
Qed.
Lemma no_crash_mret {A} (a : A) : no_crash (mret (M:=act S E) a).
Proof. by intros s. Qed.
Lemma no_crash_get : no_crash (get (S:=S) (E:=E)).
Proof. by intros s. Qed.
Lemma no_crash_put s0 : no_crash (put (S:=S) (E:=E) s0).
Proof. by intros s. Qed.
Lemma no_crash_modify (f : S → S) : no_crash (modify (E:=E) f).
Proof. by intros s. Qed.
Lemma no_crash_fail {A} e : no_crash (fail (S:=S) (E:=E) (A:=A) e).
Proof. by intros s. Qed.
Lemma no_crash_wait {A} : no_crash (wait (S:=S) (E:=E) (A:=A)).
Proof. by intros s. Qed.
Lemma no_crash_try {A} (r : result E A) : r ≠ Panic → no_crash (try_ (S:=S) r).
Proof. intros Hr s. by destruct r. Qed.
Lemma no_crash_catch {A} (m : act S E A) : no_crash m → no_crash (catch m).
Proof. intros Hm s. specialize (Hm s). unfold catch. by destruct (m s) as [s1 [a|e| |]]. Qed.
Lemma no_crash_err_into {F A} (f : E → F) (m : act S E A) : no_crash m → no_crash (err_into f m).
Proof. intros Hm s. specialize (Hm s). unfold err_into. by destruct (m s) as [s1 [a|e| |]]. Qed.
End no_crash.

Create HintDb no_crash.
#[export] Hint Resolve no_crash_bind no_crash_mret no_crash_get no_crash_put no_crash_modify
  no_crash_fail no_crash_wait no_crash_try no_crash_catch no_crash_err_into : no_crash.

(** ** What an action adds to the log *)
Definition cnt (f : Event → bool) (l : list Event) : nat := length (filter (fun e => f e = true) l).

Lemma cnt_app f l k : cnt f (l ++ k) = (cnt f l + cnt f k)%nat.
Proof. unfold cnt. by rewrite filter_app, length_app. Qed.

(** [m] adds events of which at most [n] satisfy [f]. *)
Definition at_most {R E A} (f : Event → bool) (n : nat) (m : act (World R) E A) : Prop :=
  ∀ w, ∃ evs, w_log (m w).1 = w_log w ++ evs ∧ (cnt f evs ≤ n)%nat.

Section at_most.
Context {R E : Type} (f : Event → bool).
Local Abbreviation W := (World R).

Lemma at_most_bind {A B} n k (m : act W E A) (g : A → act W E B) :
  at_most f n m → (∀ a, at_most f k (g a)) → at_most f (n + k) (m ≫= g).
Proof.
  intros Hm Hg w. unfold mbind, act_bind. destruct (Hm w) as (evs & Hlog & Hn).
  destruct (m w) as [w1 [a|e| |]]; cbn in *; [|exists evs; split; [done|lia]..].
  destruct (Hg a w1) as (evs' & Hlog' & Hk). exists (evs ++ evs'). rewrite Hlog', Hlog, <-app_assoc.
  split; [done|]. rewrite cnt_app. lia.
Qed.
Lemma at_most_mono {A} n k (m : act W E A) : (n ≤ k)%nat → at_most f n m → at_most f k m.
Proof. intros Hk Hm w. destruct (Hm w) as (evs & ? & ?). exists evs. split; [done|lia]. Qed.
Lemma at_most_quiet {A} (m : act W E A) : (∀ w, w_log (m w).1 = w_log w) → at_most f 0 m.
Proof. intros Hm w. exists []. by rewrite app_nil_r. Qed.
Lemma at_most_log e : at_most f (if f e then 1 else 0) (log_event (R:=R) (E:=E) e).
Proof.
  intros w. exists [e]. split; [done|]. unfold cnt. rewrite filter_cons, filter_nil.
  case_decide as He; destruct (f e); cbn; lia || congruence.
Qed.
Lemma at_most_catch {A} n (m : act W E A) : at_most f n m → at_most f n (catch m).
Proof.
  intros Hm w. specialize (Hm w). unfold catch. by destruct (m w) as [w1 [a|e| |]].
Qed.
Lemma at_most_err_into {F A} (g : E → F) n (m : act W E A) :
  at_most f n m → at_most f n (err_into g m).
Proof.
  intros Hm w. specialize (Hm w). unfold err_into. by destruct (m w) as [w1 [a|e| |]].
Qed.
End at_most.

Section bounds.
Context (raw_from_slice : list byte → result string RawBackendMessage).
Context (domain_to_ascii : string → option string).
Context {R : Type}.
Context (recover_from_transport_error : R → AgentConfig → TransportError → R * AgentConfig * bool).
Context (f : Event → bool).
Local Abbreviation W := (World R).

(** The calls: each logs one event at most. *)
Definition one (b : bool) : nat := if b then 1 else 0.

Ltac quiet :=
  apply at_most_quiet; intros w; unfold settle, try_, rem;
  cbv [mbind act_bind get put wait fail mret act_ret];
  repeat (case_match; simplify_eq; try done); done.
Ltac logged :=
  eapply at_most_mono; [|apply at_most_bind; [apply at_most_log|intros _; quiet]]; unfold one;
  destruct (f _); lia.

Lemma upload_at_most url headers info :
  at_most f (one (f (EUpload url headers info))) (upload_basic_info (R:=R) url headers info).
Proof. unfold upload_basic_info. logged. Qed.
Lemma connect_at_most url headers :
  at_most f (one (f (EConnect url headers))) (connect_report (R:=R) url headers).
Proof. unfold connect_report. logged. Qed.
Lemma send_at_most e : at_most f (one (f e)) (send (R:=R) e).
Proof. unfold send. logged. Qed.
Lemma recover_at_most {E} e :
  at_most f (one (f (ERecover e))) (recover recover_from_transport_error (E:=E) e).
Proof. unfold recover. logged. Qed.
Lemma read_at_most : at_most f 0 (read_message (R:=R)).
Proof. unfold read_message. quiet. Qed.
Lemma basic_info_at_most {E} : at_most f 0 (basic_info (R:=R) (E:=E)).
Proof. unfold basic_info. quiet. Qed.
Lemma generate_at_most {E} : at_most f 0 (generate (R:=R) (E:=E)).
Proof. unfold generate. quiet. Qed.
Lemma ping_run_at_most {E} task : at_most f 0 (ping_run (R:=R) (E:=E) task).
Proof. unfold ping_run. quiet. Qed.
Lemma config_at_most {E} : at_most f 0 (config (R:=R) (E:=E)).
Proof. unfold config. quiet. Qed.
Lemma rem_at_most {E} a b : at_most f 0 (rem (R:=R) (E:=E) a b).
Proof. unfold rem. quiet. Qed.
Lemma mret_at_most {E A} n (a : A) : at_most f n (mret (M:=act W E) a).
Proof. eapply at_most_mono; [|quiet]. lia. Qed.
Lemma fail_at_most {E A} n (e : E) : at_most f n (fail (S:=W) (A:=A) e).
Proof. eapply at_most_mono; [|quiet]. lia. Qed.
Lemma wait_at_most {E A} n : at_most f n (wait (S:=W) (E:=E) (A:=A)).
Proof. eapply at_most_mono; [|quiet]. lia. Qed.
Lemma try_at_most {E A} (r : result E A) : at_most f 0 (try_ (S:=W) r).
Proof. quiet. Qed.
End bounds.

Create HintDb at_most.
#[export] Hint Resolve upload_at_most connect_at_most send_at_most recover_at_most read_at_most
  basic_info_at_most generate_at_most ping_run_at_most config_at_most rem_at_most mret_at_most
  fail_at_most wait_at_most try_at_most at_most_catch at_most_err_into : at_most.

(** ** Calls per cycle *)

(** A choice of kinds of calls, without answers to messages and sleeps between reports *)
Record kinds := mkKinds { k_upload : bool; k_connect : bool; k_recover : bool; k_report : bool;
                          k_ping : bool; k_wait : bool }.
Definition of_kind (k : kinds) (e : Event) : bool :=
  match e with
  | EUpload _ _ _ => k_upload k
  | EConnect _ _ => k_connect k
  | ERecover _ => k_recover k
  | ESendReport _ => k_report k
  | ESendPing => k_ping k
  | ESleepReconnect _ => k_wait k
  | ESendPingResult _ | EHandle _ | ESleepReport _ => false
  end.

Section calls.
Context (raw_from_slice : list byte → result string RawBackendMessage).
Context (domain_to_ascii : string → option string).
Context {R : Type}.
Context (recover_from_transport_error : R → AgentConfig → TransportError → R * AgentConfig * bool).
Context (k : kinds).
Local Abbreviation W := (World R).
Local Abbreviation f := (of_kind k).
Local Abbreviation n_upload := (one (k_upload k)).
Local Abbreviation n_connect := (one (k_connect k)).
Local Abbreviation n_recover := (one (k_recover k)).
Local Abbreviation n_report := (one (k_report k)).
Local Abbreviation n_ping := (one (k_ping k)).
Local Abbreviation n_wait := (one (k_wait k)).

(** The first action takes [a], the rest [b]. *)
Tactic Notation "share" constr(a) constr(b) :=
  apply (at_most_mono f (a + b)%nat); [lia|apply at_most_bind].
(** The first action has no share. *)
Ltac no_share := lazymatch goal with |- at_most _ ?n _ => apply (at_most_bind f 0 n) end.
Ltac silent := no_share; [solve [eauto with at_most]|intros ?].

Lemma legacy_retry_calls url headers info :
  at_most f (2 * n_upload) (upload_basic_info_with_legacy_retry (R:=R) url headers info).
Proof.
  unfold upload_basic_info_with_legacy_retry. share n_upload n_upload.
  { apply at_most_catch, (upload_at_most f url headers info). }
  intros [e|?]; [|eauto with at_most].
  destruct e; try (destruct (is_empty _)); try solve [eauto with at_most];
    apply (upload_at_most f url headers (without_kernel_version info)).
Qed.

(** One turn of the recovery loops: a call, and a recovery if there was none *)
Lemma recover_calls {E} (recovered : bool) e :
  at_most f (if recovered then 0 else n_recover)
    (if recovered then mret (M:=act W E) false else recover recover_from_transport_error e).
Proof. destruct recovered; [eauto with at_most|]. apply (recover_at_most _ f e). Qed.

Lemma upload_turn_calls fuel headers info (recovered : bool) :
  at_most f (fuel * (2 * n_upload) + (if recovered then 0 else n_recover))
    (upload_with_token_recovery recover_from_transport_error fuel recovered headers info).
Proof.
  revert recovered. induction fuel as [|fuel IH]; intros recovered; cbn [upload_with_token_recovery].
  { eauto with at_most. }
  silent. silent. share (2 * n_upload)%nat (fuel * (2 * n_upload) + (if recovered then 0 else n_recover))%nat.
  { apply at_most_err_into, at_most_catch, legacy_retry_calls. }
  intros [e|?]; [|eauto with at_most].
  share (if recovered then 0 else n_recover)%nat (fuel * (2 * n_upload))%nat; [apply recover_calls|].
  intros []; [|eauto with at_most]. specialize (IH true). by rewrite Nat.add_0_r in IH.
Qed.

Lemma upload_calls headers info :
  at_most f (4 * n_upload + n_recover)
    (upload_basic_info_with_token_recovery recover_from_transport_error headers info).
Proof. eapply at_most_mono; [|apply (upload_turn_calls 2 _ _ false)]. lia. Qed.

Lemma connect_turn_calls fuel headers (recovered : bool) :
  at_most f (fuel * n_connect + (if recovered then 0 else n_recover))
    (connect_with_token_recovery domain_to_ascii recover_from_transport_error fuel recovered headers).
Proof.
  revert recovered. induction fuel as [|fuel IH]; intros recovered; cbn [connect_with_token_recovery].
  { eauto with at_most. }
  silent. silent. share n_connect (fuel * n_connect + (if recovered then 0 else n_recover))%nat.
  { apply at_most_err_into, at_most_catch, (connect_at_most f _ headers). }
  intros [e|?]; [|eauto with at_most].
  share (if recovered then 0 else n_recover)%nat (fuel * n_connect)%nat; [apply recover_calls|].
  intros []; [|eauto with at_most]. specialize (IH true). by rewrite Nat.add_0_r in IH.
Qed.

Lemma connect_calls headers :
  at_most f (2 * n_connect + n_recover)
    (connect_report_with_token_recovery domain_to_ascii recover_from_transport_error headers).
Proof. eapply at_most_mono; [|apply (connect_turn_calls 2 _ false)]. lia. Qed.

Lemma process_calls bytes : at_most f 0 (process_backend_message (R:=R) raw_from_slice bytes).
Proof.
  unfold process_backend_message. destruct (parse_socket_message _ _);
    try (match goal with |- at_most _ _ (log_event ?e) => apply (at_most_log f e) end).
  silent. apply at_most_err_into, (send_at_most f (ESendPingResult _)).
Qed.

Lemma drain_calls : at_most f 0 (drain_backend_messages_for_cycle (R:=R) raw_from_slice).
Proof.
  intros w. unfold drain_backend_messages_for_cycle. generalize (S (length (w_reads w))) as fuel.
  intros fuel. revert w. change (at_most f 0 (drain_cycle_loop (R:=R) raw_from_slice fuel)).
  induction fuel as [|fuel IH]; cbn [drain_cycle_loop]; [eauto with at_most|].
  silent. destruct a as [e|[bytes|]]; [eauto with at_most| |eauto with at_most].
  no_share; [apply at_most_catch, process_calls|].
  intros [[]|?]; [eauto with at_most..|done].
Qed.

Lemma sleep_calls fuel connected seconds :
  at_most f 0 (sleep_report_interval_with_control_messages (R:=R) raw_from_slice fuel connected seconds).
Proof.
  unfold sleep_report_interval_with_control_messages.
  destruct (_ || _); [eauto with at_most|]. revert seconds.
  induction fuel as [|fuel IH]; intros seconds; cbn [sleep_loop]; [eauto with at_most|].
  destruct (f_gt _ _); [|eauto with at_most].
  no_share; [apply (at_most_log f (ESleepReport _))|intros _].
  destruct connected; [|apply IH]. no_share; [apply drain_calls|].
  intros []; [eauto with at_most|apply IH].
Qed.

Lemma cycle_upload_calls headers every cycle connected :
  at_most f (4 * n_upload + n_recover)
    (cycle_upload recover_from_transport_error headers every cycle connected).
Proof.
  unfold cycle_upload. silent. destruct (_ =? 0); [|eauto with at_most]. silent.
  share (4 * n_upload + n_recover)%nat 0%nat; [apply at_most_catch, upload_calls|].
  intros [e|[]]; [destruct (_ =? 0)|..]; eauto with at_most.
Qed.

Lemma cycle_connect_calls headers connected failures :
  at_most f (2 * n_connect + n_recover + n_wait)
    (cycle_connect domain_to_ascii recover_from_transport_error headers connected failures).
Proof.
  unfold cycle_connect. destruct connected; [eauto with at_most|].
  share (2 * n_connect + n_recover)%nat n_wait; [apply at_most_catch, connect_calls|].
  intros [e|?]; [|eauto with at_most]. silent. destruct (_ <? _); [eauto with at_most|].
  share n_wait 0%nat; [apply (at_most_log f (ESleepReconnect _))|]. intros _. eauto with at_most.
Qed.

Lemma cycle_report_calls every cycle :
  at_most f (n_report + n_ping) (cycle_report (R:=R) raw_from_slice every cycle).
Proof.
  unfold cycle_report. no_share; [apply drain_calls|]. intros []; [eauto with at_most|].
  silent. share n_report n_ping.
  { apply at_most_err_into, at_most_catch, (send_at_most f (ESendReport _)). }
  intros r. no_share; [destruct r; [eauto with at_most|apply drain_calls]|].
  intros []; [eauto with at_most|]. silent. destruct (_ =? 0); [|eauto with at_most].
  share n_ping 0%nat; [apply at_most_err_into, at_most_catch, (send_at_most f ESendPing)|].
  intros []; eauto with at_most.
Qed.

(** What one cycle may do *)
Definition per_cycle : nat :=
  4 * n_upload + 2 * n_connect + 2 * n_recover + n_wait + n_report + n_ping.

Lemma report_cycles_calls fuel headers interval heartbeat every n cycle connected failures :
  at_most f (n * per_cycle)
    (report_cycles raw_from_slice domain_to_ascii recover_from_transport_error fuel headers interval
       heartbeat every n cycle connected failures).
Proof.
  assert (HP : per_cycle = (4 * n_upload + 2 * n_connect + 2 * n_recover + n_wait + n_report
    + n_ping)%nat) by done.
  revert cycle connected failures. induction n as [|n IH]; intros cycle connected failures;
    cbn [report_cycles]; [eauto with at_most|].
  share (4 * n_upload + n_recover)%nat
    (2 * n_connect + n_recover + n_wait + (n_report + n_ping) + n * per_cycle)%nat.
  { apply cycle_upload_calls. }
  intros c. share (2 * n_connect + n_recover + n_wait)%nat (n_report + n_ping + n * per_cycle)%nat.
  { apply cycle_connect_calls. }
  intros [fails []].
  - share (n_report + n_ping)%nat (n * per_cycle)%nat; [apply cycle_report_calls|intros lost].
    no_share; [destruct n; [eauto with at_most|apply sleep_calls]|].
    intros c'. apply IH.
  - eapply at_most_mono; [|apply IH]. lia.
Qed.
End calls.

Section run.
Context (raw_from_slice : list byte → result string RawBackendMessage).
Context (domain_to_ascii : string → option string).
Context {R : Type}.
Context (recover_from_transport_error : R → AgentConfig → TransportError → R * AgentConfig * bool).
Local Abbreviation run :=
  (run_report_cycles_with_ping_delay_and_token_recovery raw_from_slice domain_to_ascii
     recover_from_transport_error).

Abbreviation is_upload := (of_kind (mkKinds true false false false false false)).
Abbreviation is_connect := (of_kind (mkKinds false true false false false false)).
Abbreviation is_recover := (of_kind (mkKinds false false true false false false)).
Abbreviation is_report := (of_kind (mkKinds false false false true false false)).
Abbreviation is_heartbeat := (of_kind (mkKinds false false false false true false)).

Lemma run_calls k fuel cycles : at_most (of_kind k) (cycles * per_cycle k) (run fuel cycles).
Proof.
  unfold run_report_cycles_with_ping_delay_and_token_recovery.
  apply (at_most_bind (of_kind k) 0 (cycles * per_cycle k)); [eauto with at_most|].
  intros c. apply report_cycles_calls.
Qed.

(** C20: a run of [cycles] cycles only adds to the log, and whatever the panel answers it sends
    at most one report and one heartbeat per cycle, makes at most two connection attempts and
    four uploads (each with the retry for old panels), and asks for a new token at most once
    for the upload and once for the connection. *)
Theorem report_loop_bounded fuel cycles w :
  ∃ evs, w_log (run fuel cycles w).1 = w_log w ++ evs ∧
    (cnt is_report evs ≤ cycles)%nat ∧ (cnt is_heartbeat evs ≤ cycles)%nat ∧
    (cnt is_connect evs ≤ 2 * cycles)%nat ∧ (cnt is_upload evs ≤ 4 * cycles)%nat ∧
    (cnt is_recover evs ≤ 2 * cycles)%nat.
Proof.
  destruct (run_calls (mkKinds false false false true false false) fuel cycles w) as (evs & Hlog & H1).
  exists evs. split; [done|].
  assert (Hall : ∀ k, (cnt (of_kind k) evs ≤ cycles * per_cycle k)%nat).
  { intros k. destruct (run_calls k fuel cycles w) as (evs' & Hlog' & Hk).
    rewrite Hlog in Hlog'. by apply app_inv_head in Hlog' as ->. }
  unfold per_cycle in Hall. repeat split; (etrans; [apply Hall|]); cbn; lia.
Qed.
End run.

(** ** Sleeping *)

(** The world after the messages up to [reads] were read and [evs] logged *)
Definition advance {R} (reads : list (TransportError + option (list byte))) (evs : list Event)
    (w : World R) : World R :=
  mkWorld (w_uploads w) (w_connects w) reads (w_sends w) (w_infos w) (w_reports w)
    (w_pongs w) (w_recovery w) (w_config w) (w_log w ++ evs).

Lemma advance_advance {R} r1 r2 e1 e2 (w : World R) :
  advance r2 e2 (advance r1 e1 w) = advance r2 (e1 ++ e2) w.
Proof. unfold advance. cbn. by rewrite app_assoc. Qed.

Lemma advance_id {R} (w : World R) : advance (w_reads w) [] w = w.
Proof. destruct w. unfold advance. cbn. by rewrite app_nil_r. Qed.

(** The number of slices of a sleep: its seconds, rounded up *)
Definition slices (x : float64) : nat := Z.to_nat ((f_units x + F_UNIT - 1) / F_UNIT).

Lemma f_max_zero x :
  f_is_finite x = true → (0 ≤ f_units x)%Z → f_max x f_zero = x.
Proof.
  intros Hx Hu. assert (Hlt : f_lt x f_zero = false).
  { rewrite f_lt_finite by done. apply bool_decide_eq_false. cbn. lia. }
  unfold f_max. rewrite Hlt. by destruct x.
Qed.

(** One turn of the sleep: the slice, and what remains *)
Lemma slice_spec x :
  f_valid x → f_is_finite x = true → (0 < f_units x < 2 ^ F_PREC * F_UNIT)%Z →
  let s := f_min x f_one in
  let r := f_max (f_sub x s) f_zero in
  f_le s f_one = true ∧ f_valid r ∧ f_is_finite r = true ∧ (0 ≤ f_units r)%Z ∧
  (f_units s + f_units r = f_units x)%Z ∧ slices x = S (slices r).
Proof.
  intros Hv Hf Hu s r. assert (H1 : f_is_finite f_one = true) by done.
  assert (Hs : s = if bool_decide (F_UNIT < f_units x)%Z then f_one else x).
  { subst s. rewrite f_min_finite by done. by rewrite f_units_one. }
  unfold slices. case_bool_decide as Hlt.
  - destruct (sub_one_exact x Hv Hf ltac:(lia)) as (Hv' & Hf' & Hu').
    assert (Hr : r = f_sub x f_one) by (subst r; rewrite Hs; apply f_max_zero; [done|lia]).
    rewrite Hs, Hr, Hu', f_units_one, f_le_finite by done. rewrite bool_decide_eq_true_2 by lia.
    repeat (split; [done || lia|]).
    replace (f_units x + F_UNIT - 1)%Z with ((f_units x - F_UNIT + F_UNIT - 1) + 1 * F_UNIT)%Z by lia.
    rewrite Z.div_add by done. rewrite Z2Nat.inj_add; [|apply Z.div_pos; lia|lia]. lia.
  - assert (Hr : r = f_zero).
    { subst r. rewrite Hs. destruct x as [| | |[] m e]; cbn in Hu; try lia.
      rewrite sub_self. done. }
    rewrite Hs, Hr, f_le_finite by done. rewrite f_units_one, bool_decide_eq_true_2 by lia.
    repeat (split; [done || (cbn; lia)|]).
    replace (f_units x + F_UNIT - 1)%Z with ((f_units x - 1) + 1 * F_UNIT)%Z by lia.
    rewrite Z.div_add, Z.div_small by lia. done.
Qed.

Section sleep.
Context (raw_from_slice : list byte → result string RawBackendMessage).
Context {R : Type}.

(** No message: the drain ends at once. *)
Lemma drain_none (w : World R) rest :
  w_reads w = inr None :: rest →
  drain_backend_messages_for_cycle raw_from_slice w = (advance rest [] w, Done false).
Proof.
  intros Hr. destruct w as [u c rd s i rp p rec cf lg]. cbn in Hr. subst rd.
  unfold advance. cbn. by rewrite app_nil_r.
Qed.

Definition unitsum (l : list float64) : Z := foldr (fun x s => f_units x + s)%Z 0%Z l.

Lemma sleep_loop_spec fuel (connected : bool) x (w : World R) rest :
  f_valid x → f_is_finite x = true → (0 ≤ f_units x < 2 ^ F_PREC * F_UNIT)%Z →
  (slices x < fuel)%nat →
  w_reads w = replicate (if connected then slices x else 0) (inr None) ++ rest →
  ∃ sl, sleep_loop raw_from_slice fuel connected x w
          = (advance rest (ESleepReport <$> sl) w, Done connected) ∧
    length sl = slices x ∧ Forall (fun s => f_le s f_one = true) sl ∧ unitsum sl = f_units x.
Proof.
  revert x w. induction fuel as [|fuel IH]; intros x w Hv Hf Hu Hfuel Hr; [lia|].
  cbn [sleep_loop]. rewrite f_gt_finite by done. case_bool_decide as Hpos; cbn in Hpos.
  2: { assert (Hz : f_units x = 0%Z) by lia. assert (Hs : slices x = 0%nat)
         by (unfold slices; rewrite Hz; done).
       exists []. rewrite Hs in *. assert (Hrest : w_reads w = rest) by (by destruct connected).
       rewrite <-Hrest. cbn. rewrite advance_id. by rewrite Hz. }
  destruct (slice_spec x Hv Hf ltac:(lia)) as (Hle & Hv' & Hf' & Hu' & Hsum & Hsl).
  unfold CONTROL_MESSAGE_POLL_INTERVAL_SECONDS.
  set (s := f_min x f_one) in *. set (r := f_max (f_sub x s) f_zero) in *.
  rewrite Hsl in Hr, Hfuel.
  assert (Hus : (0 ≤ f_units s)%Z).
  { subst s. rewrite f_min_finite, f_units_one by done. case_bool_decide; [rewrite f_units_one|]; lia. }
  set (w1 := advance (w_reads w) [ESleepReport s] w).
  assert (Hstep : ∀ w2, w_reads w2 = replicate (if connected then slices r else 0) (inr None) ++ rest →
    w2 = advance (w_reads w2) [ESleepReport s] w →
    ∃ sl, sleep_loop raw_from_slice fuel connected r w2
          = (advance rest (ESleepReport <$> sl) w, Done connected) ∧
    length sl = slices x ∧ Forall (fun s => f_le s f_one = true) sl ∧ unitsum sl = f_units x).
  { intros w2 Hr2 Hw2. destruct (IH r w2) as (sl & Heq & Hlen & Hall & Hus'); [done|done|lia|lia|done|].
    exists (s :: sl). rewrite Heq, Hw2, advance_advance, Hsl. split; [done|].
    split; [cbn; lia|]. split; [by constructor|].
    change (unitsum (s :: sl)) with (f_units s + unitsum sl)%Z. lia. }
  cbn [mbind act_bind log_event modify]. unfold mbind, act_bind, log_event, modify.
  change (mkWorld _ _ _ _ _ _ _ _ _ _) with w1. cbv beta iota.
  destruct connected; [|by apply Hstep].
  rewrite (drain_none w1 (replicate (slices r) (inr None) ++ rest)) by done.
  apply Hstep; [done|]. subst w1. rewrite advance_advance. done.
Qed.

End sleep.

(** ** Messages of the panel *)

(** A ping task *)
Definition is_ping (m : BackendMessage) : bool :=
  match m with BackendPing _ _ _ => true | _ => false end.

(** What is done for [msgs], in order: a ping is answered with the next result, anything else
    goes to the handler. *)
Fixpoint responses (msgs : list BackendMessage) (pongs : list PingResult) : list Event :=
  match msgs with
  | [] => []
  | m :: msgs =>
      if is_ping m
      then match pongs with
           | pong :: pongs => ESendPingResult pong :: responses msgs pongs
           | [] => []
           end
      else EHandle m :: responses msgs pongs
  end.

Definition pings (msgs : list BackendMessage) : nat :=
  length (filter (fun m => is_ping m = true) msgs).

Section messages.
Context (raw_from_slice : list byte → result string RawBackendMessage).
Context {R : Type}.

(** The world after [evs], with what is left of the sends, pongs and reads *)
Definition consume (reads : list (TransportError + option (list byte)))
    (sends : list (option TransportError)) (pongs : list PingResult) (evs : list Event) (w : World R)
  : World R :=
  mkWorld (w_uploads w) (w_connects w) reads sends (w_infos w) (w_reports w)
    pongs (w_recovery w) (w_config w) (w_log w ++ evs).

Lemma drain_loop_answers fuel bodies rest sends pongs pongs' (w : World R) :
  let msgs := parse_socket_message raw_from_slice <$> bodies in
  (length bodies < fuel)%nat → length pongs = pings msgs →
  w_reads w = (inr ∘ Some <$> bodies) ++ inr None :: rest →
  w_sends w = replicate (pings msgs) None ++ sends →
  w_pongs w = pongs ++ pongs' →
  drain_cycle_loop raw_from_slice fuel w = (consume rest sends pongs' (responses msgs pongs) w, Done false).
Proof.
  revert fuel pongs w. induction bodies as [|body bodies IH]; intros fuel pongs w; cbn zeta;
    intros Hfuel Hlen Hr Hs Hp; destruct fuel as [|fuel]; cbn [length] in Hfuel; [lia| |lia|];
    cbn [drain_cycle_loop]; destruct w as [u c rd sd i rp pg rec cf lg]; cbn [w_reads w_sends w_pongs] in Hr, Hs, Hp; subst.
  { destruct pongs; [|done]. unfold consume. cbn. by rewrite app_nil_r. }
  cbv [mbind act_bind err_into catch read_message get put mret act_ret]. cbn [w_reads].
  cbn [fmap list_fmap app]. unfold compose. cbv iota beta.
  cbn [w_uploads w_connects w_sends w_infos w_reports w_pongs w_recovery w_config w_log].
  unfold process_backend_message.
  cbn [fmap list_fmap] in Hlen |- *. unfold pings in Hlen |- *. rewrite filter_cons in Hlen |- *.
  destruct (parse_socket_message raw_from_slice body) as [| | |task ty target|] eqn:Hm; cbn [is_ping] in *.
  4: {
    rewrite decide_True in Hlen |- * by done. cbn [length replicate app] in Hlen |- *.
    destruct pongs as [|pong pongs]; [done|].
    cbv [mbind act_bind ping_run get put mret act_ret err_into send log_event modify settle].
    cbn [w_uploads w_connects w_reads w_sends w_infos w_reports w_pongs w_recovery w_config w_log app].
    rewrite (IH _ pongs); [|lia|unfold pings; cbn [length] in Hlen; lia|done..].
    unfold consume. cbn. by rewrite <-app_assoc. }
  all: rewrite decide_False in Hlen |- * by done.
  all: unfold log_event, modify;
    cbn [w_uploads w_connects w_reads w_sends w_infos w_reports w_pongs w_recovery w_config w_log].
  all: rewrite (IH _ pongs); [|lia|done..]; unfold consume; cbn; by rewrite <-app_assoc.
Qed.

End messages.

(** ** No panic *)
Lemma build_basic_info_url_total endpoint token : build_basic_info_url endpoint token ≠ Panic.
Proof.
  unfold build_basic_info_url, normalize_http_base, require_non_empty.
  repeat (case_match; cbn; try done).
Qed.

Lemma build_report_ws_url_total d endpoint token : build_report_ws_url d endpoint token ≠ Panic.
Proof.
  unfold build_report_ws_url, build_ws_url, require_non_empty. destruct (is_empty (trim token)); [done|].
  step_ok. unfold normalize_ws_base. destruct (is_empty _); [done|].
  repeat (case_match; cbn; try done).
Qed.

Lemma heartbeat_positive x : 1 ≤ heartbeat_interval_cycles x.
Proof.
  unfold heartbeat_interval_cycles. destruct (_ || _); [done|]. by apply f_max_one_as_uint.
Qed.

Lemma basic_info_positive x n : 1 ≤ basic_info_interval_cycles x n.
Proof.
  unfold basic_info_interval_cycles. destruct (_ || _ || _); [done|]. by apply f_max_one_as_uint.
Qed.

Section safety.
Context (raw_from_slice : list byte → result string RawBackendMessage).
Context (domain_to_ascii : string → option string).
Context {R : Type}.
Context (recover_from_transport_error : R → AgentConfig → TransportError → R * AgentConfig * bool).
Local Abbreviation W := (World R).

Ltac calls :=
  intros w; unfold settle; cbv [mbind act_bind get put wait fail mret act_ret log_event modify];
  repeat (case_match; simplify_eq; try done); done.

Lemma upload_no_crash url headers info : no_crash (upload_basic_info (R:=R) url headers info).
Proof. unfold upload_basic_info. calls. Qed.
Lemma connect_no_crash url headers : no_crash (connect_report (R:=R) url headers).
Proof. unfold connect_report. calls. Qed.
Lemma send_no_crash e : no_crash (send (R:=R) e).
Proof. unfold send. calls. Qed.
Lemma read_no_crash : no_crash (read_message (R:=R)).
Proof. unfold read_message. calls. Qed.
Lemma basic_info_no_crash {E} : no_crash (basic_info (R:=R) (E:=E)).
Proof. unfold basic_info. calls. Qed.
Lemma generate_no_crash {E} : no_crash (generate (R:=R) (E:=E)).
Proof. unfold generate. calls. Qed.
Lemma ping_run_no_crash {E} task : no_crash (ping_run (R:=R) (E:=E) task).
Proof. unfold ping_run. calls. Qed.
Lemma recover_no_crash {E} e : no_crash (recover recover_from_transport_error (E:=E) e).
Proof. unfold recover. calls. Qed.
Lemma log_no_crash {E} e : no_crash (log_event (R:=R) (E:=E) e).
Proof. by intros w. Qed.
Lemma config_no_crash {E} : no_crash (config (R:=R) (E:=E)).
Proof. by intros w. Qed.
Lemma rem_no_crash {E} a b : 1 ≤ b → no_crash (rem (R:=R) (E:=E) a b).
Proof. intros Hb w. unfold rem. destruct (N.eqb_spec b 0); [lia|done]. Qed.

#[local] Hint Resolve upload_no_crash connect_no_crash send_no_crash read_no_crash
  basic_info_no_crash generate_no_crash ping_run_no_crash recover_no_crash log_no_crash
  config_no_crash build_basic_info_url_total build_report_ws_url_total : no_crash.

(** The next action, then the rest *)
Ltac next := apply no_crash_bind; [solve [eauto with no_crash]|intros ?].
Ltac ends := solve [eauto with no_crash].

Lemma legacy_retry_no_crash url headers info :
  no_crash (upload_basic_info_with_legacy_retry (R:=R) url headers info).
Proof.
  unfold upload_basic_info_with_legacy_retry. next. destruct a as [e|]; [|ends].
  destruct e; try destruct (is_empty _); ends.
Qed.
#[local] Hint Resolve legacy_retry_no_crash : no_crash.

Lemma upload_recovery_no_crash fuel headers info recovered :
  no_crash (upload_with_token_recovery recover_from_transport_error fuel recovered headers info).
Proof.
  revert recovered. induction fuel as [|fuel IH]; intros recovered; cbn [upload_with_token_recovery];
    [ends|]. next. next. next. destruct a1 as [e|]; [|ends].
  apply no_crash_bind; [destruct recovered; ends|]. intros []; [apply IH|ends].
Qed.

Lemma connect_recovery_no_crash fuel headers recovered :
  no_crash (connect_with_token_recovery domain_to_ascii recover_from_transport_error fuel recovered headers).
Proof.
  revert recovered. induction fuel as [|fuel IH]; intros recovered; cbn [connect_with_token_recovery];
    [ends|]. next. next. next. destruct a1 as [e|]; [|ends].
  apply no_crash_bind; [destruct recovered; ends|]. intros []; [apply IH|ends].
Qed.

Lemma process_no_crash bytes : no_crash (process_backend_message (R:=R) raw_from_slice bytes).
Proof. unfold process_backend_message. destruct (parse_socket_message _ _); ends. Qed.

Lemma drain_no_crash : no_crash (drain_backend_messages_for_cycle (R:=R) raw_from_slice).
Proof.
  intros w. unfold drain_backend_messages_for_cycle. generalize (S (length (w_reads w))) as fuel.
  intros fuel. revert w. change (no_crash (drain_cycle_loop (R:=R) raw_from_slice fuel)).
  induction fuel as [|fuel IH]; cbn [drain_cycle_loop]; [ends|].
  next. destruct a as [e|[bytes|]]; [ends| |ends].
  apply no_crash_bind; [apply no_crash_catch, process_no_crash|].
  intros [[]|?]; [ends..|done].
Qed.

Lemma sleep_no_crash fuel connected seconds :
  no_crash (sleep_report_interval_with_control_messages (R:=R) raw_from_slice fuel connected seconds).
Proof.
  unfold sleep_report_interval_with_control_messages. destruct (_ || _); [ends|]. revert seconds.
  induction fuel as [|fuel IH]; intros seconds; cbn [sleep_loop]; [ends|].
  destruct (f_gt _ _); [|ends]. next. destruct connected; [|apply IH].
  apply no_crash_bind; [apply drain_no_crash|]. intros []; [ends|apply IH].
Qed.

Lemma cycle_no_crash headers heartbeat every cycle connected failures :
  1 ≤ heartbeat → 1 ≤ every →
  no_crash (cycle_upload recover_from_transport_error headers every cycle connected) ∧
  no_crash (cycle_connect domain_to_ascii recover_from_transport_error headers connected failures) ∧
  no_crash (cycle_report (R:=R) raw_from_slice heartbeat cycle).
Proof.
  intros Hh He. split; [|split].
  - unfold cycle_upload. apply no_crash_bind; [by apply rem_no_crash|]. intros r.
    destruct (_ =? 0); [|ends]. next.
    apply no_crash_bind; [apply no_crash_catch, upload_recovery_no_crash|].
    intros [e|[]]; [destruct (_ =? 0)|..]; ends.
  - unfold cycle_connect. destruct connected; [ends|].
    apply no_crash_bind; [apply no_crash_catch, connect_recovery_no_crash|].
    intros [e|?]; [|ends]. next. destruct (_ <? _); ends.
  - unfold cycle_report. apply no_crash_bind; [apply drain_no_crash|]. intros []; [ends|].
    next. next. apply no_crash_bind; [destruct a0; [ends|apply drain_no_crash]|].
    intros []; [ends|]. apply no_crash_bind; [by apply rem_no_crash|]. intros r.
    destruct (_ =? 0); [|ends]. next. destruct a1; ends.
Qed.

Lemma report_cycles_no_crash fuel headers tick heartbeat every n cycle connected failures :
  1 ≤ heartbeat → 1 ≤ every →
  no_crash (report_cycles raw_from_slice domain_to_ascii recover_from_transport_error fuel headers
    tick heartbeat every n cycle connected failures).
Proof.
  intros Hh He. revert cycle connected failures.
  induction n as [|n IH]; intros cycle connected failures; cbn [report_cycles]; [ends|].
  destruct (cycle_no_crash headers _ _ cycle connected failures Hh He) as (Hu & _ & Hr).
  apply no_crash_bind; [exact Hu|]. intros c.
  destruct (cycle_no_crash headers _ _ cycle c failures Hh He) as (_ & Hc & _).
  apply no_crash_bind; [exact Hc|]. intros [fails []]; [|apply IH].
  apply no_crash_bind; [exact Hr|]. intros lost.
  apply no_crash_bind; [destruct n; [ends|apply sleep_no_crash]|]. intros c'. apply IH.
Qed.

(** The report loop never panics, whatever the configuration and the panel: the intervals
    it computes in floating point are at least one cycle, so no cycle number is divided by
    zero, and no address makes it fail otherwise than with an error. *)
Theorem report_loop_no_panic fuel cycles :
  no_crash (run_report_cycles_with_ping_delay_and_token_recovery raw_from_slice domain_to_ascii
    recover_from_transport_error fuel cycles).
Proof.
  unfold run_report_cycles_with_ping_delay_and_token_recovery. next.
  apply report_cycles_no_crash; [apply heartbeat_positive|apply basic_info_positive].
Qed.
End safety.

(** ** A panel that stays away *)
Abbreviation is_wait := (of_kind (mkKinds false false false false false true)).

Section giving_up.
Context (raw_from_slice : list byte → result string RawBackendMessage).
Context (domain_to_ascii : string → option string).
Context {R : Type}.
Context (recover_from_transport_error : R → AgentConfig → TransportError → R * AgentConfig * bool).
(** There is no new token. *)
Context (Hrefuse : ∀ r c e, recover_from_transport_error r c e = (r, c, false)).
Local Abbreviation W := (World R).

Lemma recover_refused {E} e (w : W) :
  recover recover_from_transport_error (E:=E) e w = (advance (w_reads w) [ERecover e] w, Done false).
Proof.
  destruct w as [u c rd sd i rp pg rec cf lg].
  cbv [recover log_event mbind act_bind modify get put mret act_ret].
  cbn [w_recovery w_config w_uploads w_connects w_reads w_sends w_infos w_reports w_pongs w_log].
  by rewrite Hrefuse.
Qed.

(** What an upload leaves as it was *)
Definition after_upload (w w' : W) : Prop :=
  w_connects w' = w_connects w ∧ w_config w' = w_config w ∧ w_infos w' = w_infos w ∧
  (length (w_uploads w) ≤ 2 + length (w_uploads w'))%nat.

(** What the upload of a later cycle leaves as it was *)
Definition after_cycle_upload (w w' : W) : Prop :=
  w_connects w' = w_connects w ∧ w_config w' = w_config w ∧
  (length (w_infos w) ≤ S (length (w_infos w')))%nat ∧
  (length (w_uploads w) ≤ 2 + length (w_uploads w'))%nat.

Lemma legacy_retry_ends url headers info (w : W) :
  (2 ≤ length (w_uploads w))%nat →
  ∃ w', upload_basic_info_with_legacy_retry url headers info w = (w', Done tt) ∧ after_upload w w' ∨
    ∃ e, upload_basic_info_with_legacy_retry url headers info w = (w', Fail e) ∧ after_upload w w'.
Proof.
  destruct w as [[|o1 [|o2 u]] c rd sd i rp pg rec cf lg]; cbn [w_uploads length]; try lia. intros _.
  unfold upload_basic_info_with_legacy_retry, upload_basic_info, after_upload, settle.
  cbv [log_event catch mbind act_bind modify get put mret act_ret fail].
  cbn [w_recovery w_config w_uploads w_connects w_reads w_sends w_infos w_reports w_pongs w_log].
  destruct o1 as [e|].
  2: { eexists. left. split; [reflexivity|]. cbn. repeat split; lia. }
  destruct e; try (destruct (is_empty (bi_kernel_version info)));
    try (eexists; right; eexists; split; [reflexivity|]; cbn; repeat split; lia).
  all: destruct o2 as [e2|];
    [eexists; right; eexists; split; [reflexivity|]; cbn; repeat split; lia
    |eexists; left; split; [reflexivity|]; cbn; repeat split; lia].
Qed.

Lemma upload_refused_ends headers info (w : W) :
  (2 ≤ length (w_uploads w))%nat →
  ∃ w' r, catch (upload_basic_info_with_token_recovery recover_from_transport_error headers info) w
            = (w', Done r) ∧ r ≠ inr true ∧ after_upload w w'.
Proof.
  intros Hu. unfold upload_basic_info_with_token_recovery, catch. cbn [upload_with_token_recovery].
  unfold mbind at 1, act_bind at 1. cbn [config mbind act_bind get]. unfold config, mbind at 1, act_bind at 1.
  cbv [get mret act_ret]. cbv beta iota. unfold mbind at 1, act_bind at 1, err_into at 1, try_.
  destruct (build_basic_info_url _ _) as [url|e|] eqn:Hurl.
  2: { exists w, (inl (RtTransport e)). split; [done|]. split; [done|].
       repeat (split; [done|]). lia. }
  2: { by apply build_basic_info_url_total in Hurl. }
  unfold mbind at 1, act_bind at 1, err_into at 1, catch at 1.
  destruct (legacy_retry_ends url headers info w Hu) as [w1 [[-> Hw1]|[e [-> Hw1]]]].
  { exists w1, (inr false). done. }
  unfold mbind at 1, act_bind at 1. rewrite recover_refused.
  eexists _, (inl (RtTransport e)). split; [reflexivity|]. split; [done|]. exact Hw1.
Qed.

Lemma cycle_upload_ends headers every cycle (w : W) :
  1 ≤ every → cycle ≠ 0 → (1 ≤ length (w_infos w))%nat → (2 ≤ length (w_uploads w))%nat →
  ∃ w', cycle_upload recover_from_transport_error headers every cycle false w = (w', Done false) ∧
    after_cycle_upload w w'.
Proof.
  intros He Hc Hi Hu. unfold cycle_upload. unfold mbind at 1, act_bind at 1, rem.
  destruct (N.eqb_spec every 0); [lia|].
  destruct (cycle mod every =? 0); [|exists w; split; [done|]; repeat split; lia].
  destruct w as [u c rd sd [|info i] rp pg rec cf lg]; cbn [w_infos w_uploads length] in *; [lia|].
  unfold mbind at 1, act_bind at 1. cbv [basic_info mbind act_bind get put mret act_ret].
  cbn [w_infos w_uploads w_connects w_reads w_sends w_reports w_pongs w_recovery w_config w_log].
  set (w1 := mkWorld u c rd sd i rp pg rec cf lg).
  destruct (upload_refused_ends headers info w1 Hu) as (w' & r & -> & Hr & H1 & H2 & H3 & H4).
  exists w'. split.
  - destruct r as [e|[]]; [|done|done]. by rewrite (proj2 (N.eqb_neq _ _) Hc).
  - subst w1. unfold after_cycle_upload. cbn [w_infos w_uploads w_connects w_config length] in *.
    rewrite H3. split; [done|]. split; [done|]. split; [lia|done].
Qed.

(** The connection of a cycle fails. *)
Lemma cycle_connect_fails headers failures url (w : W) e connects :
  build_report_ws_url domain_to_ascii (cfg_endpoint (w_config w)) (cfg_token (w_config w)) = Ok url →
  w_connects w = Some e :: connects → failures < U32_MAX →
  let w1 := mkWorld (w_uploads w) connects (w_reads w) (w_sends w) (w_infos w) (w_reports w)
    (w_pongs w) (w_recovery w) (w_config w) (w_log w ++ [EConnect url headers; ERecover e]) in
  cycle_connect domain_to_ascii recover_from_transport_error headers false failures w =
  if cfg_max_retries (w_config w) <? failures + 1 then (w1, Fail (RtTransport e))
  else (advance (w_reads w) [ESleepReconnect (cfg_reconnect_interval_seconds (w_config w))] w1,
        Done (failures + 1, false)).
Proof.
  intros Hurl Hcon Hf. destruct w as [u c rd sd i rp pg rec cf lg].
  cbn [w_connects w_config] in *. subst c.
  unfold cycle_connect, connect_report_with_token_recovery, catch.
  cbn [connect_with_token_recovery].
  cbv [config connect_report catch mbind act_bind err_into try_ get put mret act_ret log_event modify
       recover settle fail].
  cbn [w_uploads w_connects w_reads w_sends w_infos w_reports w_pongs w_recovery w_config w_log].
  rewrite Hurl. cbv beta iota.
  cbn [w_uploads w_connects w_reads w_sends w_infos w_reports w_pongs w_recovery w_config w_log].
  rewrite Hrefuse. cbv beta iota.
  cbn [w_uploads w_connects w_reads w_sends w_infos w_reports w_pongs w_recovery w_config w_log].
  assert (Hw : wrapping_add U32_MAX failures 1 = failures + 1).
  { unfold wrapping_add. apply N.mod_small. lia. }
  rewrite Hw, <-!app_assoc. destruct (_ <? _); [done|]. unfold advance. cbn. by rewrite <-!app_assoc.
Qed.

(** The remaining waits *)
Definition waits_left (c : AgentConfig) (failures : N) : nat := N.to_nat (cfg_max_retries c - failures).

Lemma report_cycles_give_up fuel headers tick heartbeat every n cycle failures url (w : W) :
  build_report_ws_url domain_to_ascii (cfg_endpoint (w_config w)) (cfg_token (w_config w)) = Ok url →
  1 ≤ every → cycle ≠ 0 → failures ≤ cfg_max_retries (w_config w) < U32_MAX →
  (waits_left (w_config w) failures < n)%nat →
  (n ≤ length (w_infos w))%nat → (2 * n ≤ length (w_uploads w))%nat →
  (waits_left (w_config w) failures < length (w_connects w))%nat →
  Forall is_Some (w_connects w) →
  ∃ w' e evs, report_cycles raw_from_slice domain_to_ascii recover_from_transport_error fuel headers
      tick heartbeat every n cycle false failures w = (w', Fail (RtTransport e)) ∧
    w_log w' = w_log w ++ evs ∧ cnt is_wait evs = waits_left (w_config w) failures.
Proof.
  intros Hurl He. revert cycle failures w Hurl.
  induction n as [|n IH]; intros cycle failures w Hurl Hc Hf Hn Hi Hu Hlen Hfail; [lia|].
  cbn [report_cycles]. unfold mbind at 1, act_bind at 1.
  destruct (cycle_upload_calls recover_from_transport_error
    (mkKinds false false false false false true) headers every cycle false w) as (ev1 & Hlog1 & Hcnt1).
  destruct (cycle_upload_ends headers every cycle w He Hc) as (w1 & Hup & H1 & H2 & H3 & H4); [lia..|].
  rewrite Hup in Hlog1 |- *. cbn [fst] in Hlog1.
  assert (Hz : cnt is_wait ev1 = 0%nat) by (apply Nat.le_0_r; exact Hcnt1).
  destruct (w_connects w) as [|o connects] eqn:Hcon; [cbn in Hlen; lia|].
  apply Forall_cons in Hfail as [[e ->] Hfail].
  unfold mbind at 1, act_bind at 1.
  rewrite (cycle_connect_fails headers failures url w1 e connects); [|by rewrite H2|done|lia].
  rewrite H2. destruct (N.ltb_spec (cfg_max_retries (w_config w)) (failures + 1)) as [Hlt|Hge].
  - eexists _, e, (ev1 ++ [EConnect url headers; ERecover e]). split; [reflexivity|]. cbn [w_log].
    rewrite Hlog1, <-app_assoc. split; [done|]. rewrite cnt_app. unfold waits_left.
    replace (cfg_max_retries (w_config w) - failures) with 0 by lia. by rewrite Hz.
  - set (w2 := advance _ _ _).
    assert (Hcfg : w_config w2 = w_config w) by (subst w2; cbn; done).
    destruct (IH (cycle + 1) (failures + 1) w2) as (w' & e' & evs & Hrun & Hlog & Hcnt);
      rewrite ?Hcfg; try done; try lia; unfold waits_left in *; subst w2;
      cbn [advance w_infos w_uploads w_connects w_log w_config length] in *; try lia.
    exists w', e', (ev1 ++ ([EConnect url headers; ERecover e]
      ++ [ESleepReconnect (cfg_reconnect_interval_seconds (w_config w))]) ++ evs).
    split; [exact Hrun|]. rewrite Hlog, Hlog1, <-!app_assoc. split; [done|].
    rewrite !cnt_app, Hcnt, Hz.
    change (cnt is_wait [_; _]) with 0%nat. change (cnt is_wait [_]) with 1%nat. lia.
Qed.

End giving_up.

(** ** What the summary shows of the token *)

(** Short tokens all look the same; of a long one only four characters at either end show. *)
Theorem redact_secret_hides s t :
  (len (chars s) ≤ 8 ∧ len (chars t) ≤ 8) ∨
  (8 < len (chars s) ∧ 8 < len (chars t) ∧ take 4 (chars s) = take 4 (chars t) ∧
   take 4 (reverse (chars s)) = take 4 (reverse (chars t))) →
  redact_secret s = redact_secret t.
Proof.
  unfold redact_secret. intros [[Hs Ht]|(Hs & Ht & Hp & Hq)].
  - by rewrite (proj2 (N.leb_le _ _) Hs), (proj2 (N.leb_le _ _) Ht).
  - by rewrite (proj2 (N.leb_gt _ _) Hs), (proj2 (N.leb_gt _ _) Ht), Hp, Hq.
Qed.

(** ** Witnesses *)
Abbreviation loop_config := (mkConfig "https://panel.example" "token" "" false false true false
  "" "" TunnelAuth.V1 Fixed default_tuning (f_of_N 3) 2 5 5 "" "" "" "" "" "" "" "" false false false
  false 0 "" false).
Abbreviation loop_info := (minimal None "x86_64" "linux" "1").
Abbreviation no_json := (fun _ : list byte => Err "json"%string : result string RawBackendMessage).
(** A ping task for the body [x01], nothing for others *)
Abbreviation ping_json := (fun bs : list byte => if bool_decide (bs = [x01]) then
  Ok (mkRaw (Some "ping"%string) None None None (Some 7) (Some "tcp"%string) (Some "host"%string)
        None None None None None None) else Err "json"%string : result string RawBackendMessage).
Abbreviation pong := (ping_result_new 7 "tcp" 12 "now").
Abbreviation world ups cons reads sends infos reports pongs :=
  (mkWorld ups cons reads sends infos reports pongs tt loop_config []).



