(* ===== verification/AutoDiscovery.v ===== *)
(** * Registration and token recovery ([src/src/auto_discovery.rs], [src/src/token.rs])

    With a discovery key the agent has a cached token or registers for one; a token the panel
    rejects is dropped and the agent registers again.  The cache file, the fate of the file
    operations and the answers of the registrar are the state [Discovery]; reading and writing
    the JSON of the cache are parameters.  The token shared with the tunnel threads is a lock
    that may be poisoned. *)
From S2P Require Import Prelude RustStd RustNet RustF64 AsyncIo Transport TunnelStats TunnelAuth Config.
From S2P Require Import Report SmokeSummary ReportLoop ReportLaws.
From Stdlib Require Import Strings.Byte.
From Stdlib Require Strings.String.
Local Open Scope N_scope.

(** auto_discovery.rs [AutoDiscoveryCache] *)
Record AutoDiscoveryCache := mkCache { cache_uuid : string; cache_token : string }.
#[export] Instance AutoDiscoveryCache_eq_dec : EqDecision AutoDiscoveryCache.
Proof. solve_decision. Defined.

(** auto_discovery.rs [AutoDiscoveryRegisterRequest] *)
Record AutoDiscoveryRegisterRequest := mkRegister {
  reg_url : string;
  reg_key : string;
  reg_headers : list HeaderPair;
}.

(** auto_discovery.rs [AutoDiscoveryError] *)
Inductive AutoDiscoveryError :=
  | AdEmptyEndpoint
  | AdEmptyKey
  | AdUnsupportedScheme (scheme : string)
  | AdCachePath (message : string)
  | AdCacheWrite (message : string)
  | AdRequestFailed (message : string)
  | AdRegisterRejected (message : string)
  | AdEmptyRegisteredToken.

(** auto_discovery.rs [Display@AutoDiscoveryError::fmt] *)
Definition AutoDiscoveryError_to_string (e : AutoDiscoveryError) : string :=
  match e with
  | AdEmptyEndpoint => "endpoint is required"
  | AdEmptyKey => "auto-discovery key is required"
  | AdUnsupportedScheme scheme => "unsupported endpoint scheme: " +:+ scheme
  | AdCachePath message => "failed to resolve auto-discovery cache path: " +:+ message
  | AdCacheWrite message => "failed to write auto-discovery cache: " +:+ message
  | AdRequestFailed message => "auto-discovery request failed: " +:+ message
  | AdRegisterRejected message => "auto-discovery register rejected: " +:+ message
  | AdEmptyRegisteredToken => "auto-discovery response did not include a token"
  end.

(** [config.token = token] *)
Definition set_token (c : AgentConfig) (token : string) : AgentConfig :=
  mkConfig (cfg_endpoint c) token (cfg_auto_discovery_key c) (cfg_insecure c)
    (cfg_disable_web_ssh c) (cfg_tunnel_control_enabled c) (cfg_tunnel_data_enabled c)
    (cfg_tunnel_ktp_tcp_address c) (cfg_tunnel_ktp_tls_ca_cert c)
    (cfg_tunnel_ktp_tcp_auth_version c) (cfg_tunnel_ktp_relay_batch_policy c)
    (cfg_tunnel_ktp_relay_batch_tuning c) (cfg_interval_seconds c) (cfg_max_retries c)
    (cfg_reconnect_interval_seconds c) (cfg_info_report_interval_minutes c)
    (cfg_cf_access_client_id c) (cfg_cf_access_client_secret c) (cfg_include_nics c)
    (cfg_exclude_nics c) (cfg_include_mountpoints c) (cfg_custom_ipv4 c) (cfg_custom_ipv6 c)
    (cfg_custom_dns c) (cfg_get_ip_addr_from_nic c) (cfg_memory_include_cache c)
    (cfg_memory_report_raw_used c) (cfg_enable_gpu c) (cfg_month_rotate c) (cfg_host_proc c)
    (cfg_once c).

(** The file of the cache, whether it can be removed and written, the answers of the
    registrar, the requests made and the lines printed *)
Record Discovery := mkDiscovery {
  dc_path : string;
  dc_hostname : string;
  dc_file : option string;
  dc_remove_error : option string;
  dc_write_error : option string;
  dc_answers : list (AutoDiscoveryError + AutoDiscoveryCache);
  dc_requests : list AutoDiscoveryRegisterRequest;
  dc_lines : list string;
}.

Definition with_file (d : Discovery) (file : option string) : Discovery :=
  mkDiscovery (dc_path d) (dc_hostname d) file (dc_remove_error d) (dc_write_error d)
    (dc_answers d) (dc_requests d) (dc_lines d).

(** ** Addresses *)

Section discovery.
(** [idna::domain_to_ascii] and the JSON of the cache *)
Context (domain_to_ascii : string → option string).
Context (cache_from_json : string → option AutoDiscoveryCache).
Context (cache_to_json : AutoDiscoveryCache → string + string).

(** auto_discovery.rs [authority_with_ascii_host] (the same function as in protocol.rs) *)
Definition ad_authority_with_ascii_host (authority : string) : string :=
  authority_with_ascii_host domain_to_ascii authority.

(** auto_discovery.rs [endpoint_rest_with_ascii_host] *)
Definition ad_endpoint_rest_with_ascii_host (rest : string) : string :=
  let '(authority, suffix) :=
    match split_once "/" rest with
    | Some (authority, suffix) => (authority, "/" +:+ suffix)
    | None => (rest, ""%string)
    end in
  ad_authority_with_ascii_host authority +:+ suffix.

(** auto_discovery.rs [normalize_http_base] *)
Definition ad_normalize_http_base (endpoint : string) : result AutoDiscoveryError string :=
  let endpoint := trim_end_matches x2f (trim endpoint) in
  if is_empty endpoint then Err AdEmptyEndpoint
  else
    match strip_prefix "https://" endpoint with
    | Some rest => Ok ("https://" +:+ ad_endpoint_rest_with_ascii_host rest)
    | None =>
        match strip_prefix "http://" endpoint with
        | Some rest => Ok ("http://" +:+ ad_endpoint_rest_with_ascii_host rest)
        | None =>
            Err (AdUnsupportedScheme
                   (match split_once "://" endpoint with
                    | Some (scheme, _) => scheme
                    | None => "missing"
                    end))
        end
    end.

(** auto_discovery.rs [build_auto_discovery_register_url] *)
Definition build_auto_discovery_register_url (endpoint hostname : string)
  : result AutoDiscoveryError string :=
  endpoint ← ad_normalize_http_base endpoint;
  Ok (endpoint +:+ "/api/clients/register?name=" +:+ percent_encode hostname).

(** auto_discovery.rs [system_hostname]; the variable and the two files, where they exist *)
Definition system_hostname (variable kernel_file etc_file : option string) : string :=
  match variable ≫= non_empty_string with
  | Some name => name
  | None =>
      match kernel_file ≫= non_empty_string with
      | Some name => name
      | None => default "localhost"%string (etc_file ≫= non_empty_string)
      end
  end.

(** ** The cache *)

(** auto_discovery.rs [read_cache] *)
Definition read_cache (d : Discovery) : option AutoDiscoveryCache :=
  contents ← dc_file d;
  cache ← cache_from_json contents;
  if is_empty (trim (cache_token cache)) then None else Some cache.

(** auto_discovery.rs [save_cache] *)
Definition save_cache (d : Discovery) (cache : AutoDiscoveryCache)
  : result AutoDiscoveryError Discovery :=
  match cache_to_json cache with
  | inl error => Err (AdCacheWrite error)
  | inr contents =>
      match dc_write_error d with
      | Some error => Err (AdCacheWrite (dc_path d +:+ ": " +:+ error))
      | None => Ok (with_file d (Some contents))
      end
  end.

(** auto_discovery.rs [clear_cache]; a file that is not there is no error *)
Definition clear_cache (d : Discovery) : result AutoDiscoveryError Discovery :=
  match dc_file d with
  | None => Ok d
  | Some _ =>
      match dc_remove_error d with
      | Some error => Err (AdCacheWrite (dc_path d +:+ ": " +:+ error))
      | None => Ok (with_file d None)
      end
  end.

(** auto_discovery.rs [auto_discovery_registered_smoke_line] *)
Definition auto_discovery_registered_smoke_line (cache : AutoDiscoveryCache) : string :=
  smoke_event_line "auto_discovery_registered" [("uuid"%string, cache_uuid cache)].

(** [AutoDiscoveryRegistrar::register] *)
Definition register (d : Discovery) (request : AutoDiscoveryRegisterRequest)
  : Discovery * (AutoDiscoveryError + AutoDiscoveryCache) :=
  match dc_answers d with
  | [] => (d, inl (AdRequestFailed "no answer"))
  | answer :: answers =>
      (mkDiscovery (dc_path d) (dc_hostname d) (dc_file d) (dc_remove_error d) (dc_write_error d)
         answers (dc_requests d ++ [request]) (dc_lines d), answer)
  end.

(** auto_discovery.rs [resolve_auto_discovery_with] *)
Definition resolve_auto_discovery_with (d : Discovery) (config : AgentConfig)
  : Discovery * AgentConfig * result AutoDiscoveryError bool :=
  let key := trim (cfg_auto_discovery_key config) in
  if is_empty key then (d, config, Ok false)
  else
    match read_cache d with
    | Some cache => (d, set_token config (cache_token cache), Ok false)
    | None =>
        match build_auto_discovery_register_url (cfg_endpoint config) (dc_hostname d) with
        | Err e => (d, config, Err e)
        | Panic => (d, config, Panic)
        | Ok url =>
            match register d (mkRegister url key (access_headers config)) with
            | (d, inl e) => (d, config, Err e)
            | (d, inr cache) =>
                if is_empty (trim (cache_token cache)) then (d, config, Err AdEmptyRegisteredToken)
                else
                  match save_cache d cache with
                  | Ok d =>
                      let d := mkDiscovery (dc_path d) (dc_hostname d) (dc_file d)
                        (dc_remove_error d) (dc_write_error d) (dc_answers d) (dc_requests d)
                        (dc_lines d ++ [auto_discovery_registered_smoke_line cache]) in
                      (d, set_token config (cache_token cache), Ok true)
                  | Err e => (d, config, Err e)
                  | Panic => (d, config, Panic)
                  end
            end
        end
    end.

(** auto_discovery.rs [AutoDiscoveryTokenRecovery::recover_from_transport_error] 89-121 *)
Definition recover_from_transport_error (d : Discovery) (config : AgentConfig)
    (error : TransportError) : Discovery * AgentConfig * bool :=
  if is_empty (trim (cfg_auto_discovery_key config)) then (d, config, false)
  else
    match error with
    | InvalidClientToken _ token _ _ =>
        let failed_token := trim token in
        if negb (is_empty failed_token) && negb (bool_decide (trim (cfg_token config) = failed_token))
        then (d, config, true)
        else
          match clear_cache d with
          | Ok d =>
              let '(d, config, r) := resolve_auto_discovery_with d (set_token config "") in
              (d, config, match r with Ok _ => true | _ => false end)
          | _ => (d, config, false)
          end
    | _ => (d, config, false)
    end.
End discovery.

(** ** The shared token *)

(** token.rs [SharedAgentToken]: a lock, poisoned when a thread panicked with it *)
Record SharedAgentToken := mkShared { sh_poisoned : bool; sh_token : string }.

(** token.rs [SharedAgentToken::new] *)
Definition shared_new (token : string) : SharedAgentToken := mkShared false token.
(** token.rs [SharedAgentToken::get] *)
Definition shared_get (s : SharedAgentToken) : string :=
  if sh_poisoned s then "" else sh_token s.
(** token.rs [SharedAgentToken::set] *)
Definition shared_set (s : SharedAgentToken) (token : string) : SharedAgentToken :=
  if sh_poisoned s then s else mkShared (sh_poisoned s) token.

(** token.rs [token_recovered_smoke_line] *)
Definition token_recovered_smoke_line (operation : string) : string :=
  smoke_event_line "token_recovered"
    [("operation"%string, replace_byte x20 "_" (trim operation))].

(** token.rs [SharedTokenRecovery] *)
Record SharedTokenRecovery (R : Type) := mkSharedRecovery {
  sr_inner : R;
  sr_shared_token : SharedAgentToken;
  sr_lines : list string;
}.
#[global] Arguments mkSharedRecovery {R} _ _ _.
#[global] Arguments sr_inner {R} _.
#[global] Arguments sr_shared_token {R} _.
#[global] Arguments sr_lines {R} _.

(** token.rs [TokenRecovery@SharedTokenRecovery::recover_from_transport_error] *)
Definition shared_recover {R} (recover : R → AgentConfig → TransportError → R * AgentConfig * bool)
    (self : SharedTokenRecovery R) (config : AgentConfig) (error : TransportError)
  : SharedTokenRecovery R * AgentConfig * bool :=
  let '(inner, config, recovered) := recover (sr_inner self) config error in
  if (recovered : bool) then
    (mkSharedRecovery inner (shared_set (sr_shared_token self) (cfg_token config))
       (match error with
        | InvalidClientToken operation _ _ _ => sr_lines self ++ [token_recovered_smoke_line operation]
        | _ => sr_lines self
        end), config, recovered)
  else (mkSharedRecovery inner (sr_shared_token self) (sr_lines self), config, recovered).

(** auto_discovery.rs [RegisterResponse] *)
Record RegisterResponse := mkResponse {
  rs_status : string;
  rs_message : string;
  rs_data : option AutoDiscoveryCache;
}.

(** auto_discovery.rs [AutoDiscoveryRegistrar@ReqwestAutoDiscoveryRegistrar::register] 268-296:
    what an HTTP status and a body mean; [parse] is [serde_json::from_str] *)
Definition register_response (parse : string → string + RegisterResponse) (status : N)
    (body : string) : result AutoDiscoveryError AutoDiscoveryCache :=
  if negb ((200 <=? status) && (status <? 300))
  then Err (AdRequestFailed ("status=" +:+ pretty status +:+ ": " +:+ trim body))
  else
    match parse body with
    | inl error => Err (AdRequestFailed ("invalid register response: " +:+ error))
    | inr parsed =>
        if negb (bool_decide (rs_status parsed = "success"%string))
        then Err (AdRegisterRejected
               (default "server returned non-success status"%string (non_empty_string (rs_message parsed))))
        else ok_or (rs_data parsed) (AdRequestFailed "register response missing data")
    end.

(** ** What recovery guarantees *)
Section recovery.
Context (domain_to_ascii : string → option string).
Context (cache_from_json : string → option AutoDiscoveryCache).
Context (cache_to_json : AutoDiscoveryCache → string + string).
(** What is written is read back. *)
Context (Hjson : ∀ cache contents,
  cache_to_json cache = inr contents → cache_from_json contents = Some cache).

Local Abbreviation recover := (recover_from_transport_error domain_to_ascii cache_from_json cache_to_json).
Local Abbreviation resolve := (resolve_auto_discovery_with domain_to_ascii cache_from_json cache_to_json).

Lemma read_cache_token d cache :
  read_cache cache_from_json d = Some cache → is_empty (trim (cache_token cache)) = false.
Proof.
  unfold read_cache. intros (contents & _ & H)%bind_Some.
  apply bind_Some in H as (cache' & _ & H). destruct (is_empty _) eqn:He; [done|]. by simplify_eq.
Qed.

Lemma resolve_ok d c d' c' b :
  is_empty (trim (cfg_auto_discovery_key c)) = false → resolve d c = (d', c', Ok b) →
  ∃ cache, read_cache cache_from_json d' = Some cache ∧ c' = set_token c (cache_token cache).
Proof.
  intros Hkey. unfold resolve_auto_discovery_with. rewrite Hkey.
  destruct (read_cache _ d) as [cache|] eqn:Hread; [intros [= <- <- _]; eauto|].
  destruct (build_auto_discovery_register_url _ _ _); [|done..].
  destruct (register d _) as [d1 [e|cache]]; [done|].
  destruct (is_empty (trim (cache_token cache))) eqn:Htok; [done|].
  unfold save_cache. destruct (cache_to_json cache) as [e|contents] eqn:Hc; [done|].
  destruct (dc_write_error d1); [done|]. intros [= <- <- _]. exists cache. split; [|done].
  unfold read_cache. cbn. rewrite (Hjson _ _ Hc). cbn. by rewrite Htok.
Qed.

Lemma cfg_token_set c t : cfg_token (set_token c t) = t.
Proof. done. Qed.

(** A recovery that succeeds leaves the agent with a token it can use: either the
    configuration had another token than the rejected one already and is unchanged, or the
    token is a new one, not blank, and the cache file holds the same. *)
Theorem recovered_token_usable d c operation token status detail d' c' :
  recover d c (InvalidClientToken operation token status detail) = (d', c', true) →
  (c' = c ∧ d' = d ∧ trim (cfg_token c) ≠ trim token) ∨
  (is_empty (trim (cfg_token c')) = false ∧
   ∃ cache, read_cache cache_from_json d' = Some cache ∧ cfg_token c' = cache_token cache).
Proof.
  unfold recover_from_transport_error. destruct (is_empty (trim (cfg_auto_discovery_key c))) eqn:Hkey; [done|].
  case_bool_decide as Htok; destruct (is_empty (trim token)); cbn [negb andb];
    try (intros [= <- <-]; by left); right; revert H.
  all: destruct (clear_cache d) as [d1| |]; [|done..].
  all: destruct (resolve d1 (set_token c "")) as [[d2 c2] [b|e|]] eqn:Hr; [|done..]; intros [= <- <-].
  all: apply resolve_ok in Hr as (cache & Hread & ->); [|done].
  all: split; [cbn; by eapply read_cache_token|exists cache; done].
Qed.
End recovery.

(** When the lock of the shared token is intact, a successful recovery hands the tunnel
    threads the token the report loop goes on with, and a recovery that fails leaves theirs. *)
Theorem shared_token_in_sync {R} (recover : R → AgentConfig → TransportError → R * AgentConfig * bool)
    self config error self' config' recovered :
  sh_poisoned (sr_shared_token self) = false →
  shared_recover recover self config error = (self', config', recovered) →
  shared_get (sr_shared_token self') =
    (if recovered then cfg_token config' else shared_get (sr_shared_token self)).
Proof.
  intros Hp. unfold shared_recover. destruct (recover _ _ _) as [[inner c] []]; intros [= <- <- <-]; [|done].
  unfold shared_get, shared_set. cbn. by rewrite Hp.
Qed.

(** ** A registration that fails *)
Section stranded.
Context (domain_to_ascii : string → option string).
Context (cache_from_json : string → option AutoDiscoveryCache).
Context (cache_to_json : AutoDiscoveryCache → string + string).
Local Abbreviation recover := (recover_from_transport_error domain_to_ascii cache_from_json cache_to_json).

Lemma blank_token_connect {R} (rec : R → AgentConfig → TransportError → R * AgentConfig * bool)
    headers (w : World R) :
  cfg_token (w_config w) = ""%string →
  connect_report_with_token_recovery domain_to_ascii rec headers w = (w, Fail (RtProtocol PEmptyToken)).
Proof.
  intros Ht. unfold connect_report_with_token_recovery. cbn [connect_with_token_recovery].
  cbv [config mbind act_bind get mret act_ret err_into try_]. rewrite Ht. done.
Qed.

Lemma blank_token_upload {R} (rec : R → AgentConfig → TransportError → R * AgentConfig * bool)
    headers info (w : World R) :
  cfg_token (w_config w) = ""%string →
  ∃ e, upload_basic_info_with_token_recovery rec headers info w = (w, Fail (RtTransport e)) ∧
    ∀ r c, (recover r c e).2 = false.
Proof.
  intros Ht. unfold upload_basic_info_with_token_recovery. cbn [upload_with_token_recovery].
  cbv [config mbind act_bind get mret act_ret err_into try_]. rewrite Ht.
  unfold build_basic_info_url, normalize_http_base, require_non_empty.
  assert (Hno : ∀ e, (∀ op t s dt, e ≠ InvalidClientToken op t s dt) → ∀ r c, (recover r c e).2 = false).
  { intros e He r c. unfold recover_from_transport_error. destruct (is_empty _); [done|].
    destruct e; [done..| |done|done]. exfalso. by eapply He. }
  destruct (is_empty (trim_end_matches _ _)); [eexists; split; [reflexivity|]; by apply Hno|].
  destruct (_ || _); (eexists; split; [reflexivity|]; by apply Hno).
Qed.

(** C39: a recovery whose registration fails ends with the token gone: the configuration is left
    with an empty token.  From then on neither the upload nor the connection makes a single
    call or asks for a recovery again, so the agent cannot come back by itself however long
    it runs: it fails until its retries are used up. *)
Theorem failed_registration_strands {R} (rec : R → AgentConfig → TransportError → R * AgentConfig * bool)
    d c operation token status detail d' c' :
  trim token = trim (cfg_token c) → is_empty (trim (cfg_auto_discovery_key c)) = false →
  (∃ d1, clear_cache d = Ok d1) →
  recover d c (InvalidClientToken operation token status detail) = (d', c', false) →
  cfg_token c' = ""%string ∧
  ∀ headers info (w : World R), w_config w = c' →
    connect_report_with_token_recovery domain_to_ascii rec headers w
      = (w, Fail (RtProtocol PEmptyToken)) ∧
    ∃ e, upload_basic_info_with_token_recovery rec headers info w = (w, Fail (RtTransport e)).
Proof.
  intros Htok Hkey [d1 Hclear] H. assert (Hc : cfg_token c' = ""%string).
  { revert H. unfold recover_from_transport_error. rewrite Hkey, Htok.
    rewrite (bool_decide_eq_true_2 _ eq_refl), andb_false_r, Hclear.
    unfold resolve_auto_discovery_with.
    change (cfg_auto_discovery_key (set_token c "")) with (cfg_auto_discovery_key c). rewrite Hkey.
    destruct (read_cache _ d1); [done|]. destruct (build_auto_discovery_register_url _ _ _);
      [|by intros [= <- <-]..].
    destruct (register d1 _) as [d2 [e|cache]]; [by intros [= <- <-]|].
    destruct (is_empty (trim (cache_token cache))); [by intros [= <- <-]|].
    destruct (save_cache _ _ _); [done|by intros [= <- <-]..]. }
  split; [done|]. intros headers info w Hw. rewrite <-Hw in Hc.
  split; [by apply blank_token_connect|].
  destruct (blank_token_upload rec headers info w Hc) as (e & He & _). by exists e.
Qed.
End stranded.

(** ** Witnesses *)

(** A configuration with a discovery key *)
Abbreviation discovery_config := (mkConfig "https://panel.example" "old" "key" false false true false
  "" "" V1 Fixed default_tuning f_one 3 5 5 "" "" "" "" "" "" "" "" false false false false 0 "" false).
Abbreviation rejected := (InvalidClientToken "report" "old" 401 "invalid token").
Abbreviation sample_json := (fun s : string => Some (mkCache "u" s)).
Abbreviation sample_to_json := (fun c : AutoDiscoveryCache =>
  if bool_decide (cache_uuid c = "u"%string) then inr (cache_token c) else inl "uuid"%string).
Abbreviation discovery answers := (mkDiscovery "cache.json" "host" (Some "old"%string) None None answers [] []).

Lemma sample_json_roundtrip cache (contents : string) :
  sample_to_json cache = inr contents → sample_json contents = Some cache.
Proof. destruct cache as [u t]. cbn. case_bool_decide; [|done]. by intros [= <-]; subst. Qed.

Lemma recovered_token_usable_witness :
  let d := discovery [inr (mkCache "u" "new")] in
  ∃ d' c', recover_from_transport_error Some sample_json sample_to_json d discovery_config rejected
             = (d', c', true) ∧ cfg_token c' = "new"%string ∧
    ((c' = discovery_config ∧ d' = d ∧ trim (cfg_token discovery_config) ≠ trim "old") ∨
     (is_empty (trim (cfg_token c')) = false ∧
      ∃ cache, read_cache sample_json d' = Some cache ∧ cfg_token c' = cache_token cache)).
Proof.
  cbn zeta. eexists _, _. split; [vm_compute; reflexivity|]. split; [reflexivity|].
  apply (recovered_token_usable Some sample_json sample_to_json sample_json_roundtrip _ _
    "report" "old" 401 "invalid token"). vm_compute. reflexivity.
Defined.

Lemma shared_token_in_sync_witness :
  let self := mkSharedRecovery (discovery [inr (mkCache "u" "new")]) (shared_new "old") [] in
  ∃ self' c', shared_recover (recover_from_transport_error Some sample_json sample_to_json) self
      discovery_config rejected = (self', c', true) ∧ shared_get (sr_shared_token self') = cfg_token c'.
Proof.
  cbn zeta. eexists _, _. split; [vm_compute; reflexivity|].
  eapply (shared_token_in_sync (recover_from_transport_error Some sample_json sample_to_json)
    (mkSharedRecovery (discovery [inr (mkCache "u" "new")]) (shared_new "old") [])
    discovery_config rejected _ _ true); [reflexivity|vm_compute; reflexivity].
Defined.

Lemma failed_registration_strands_witness :
  ∃ d' c', recover_from_transport_error Some sample_json sample_to_json
      (discovery [inl (AdRequestFailed "timeout")]) discovery_config rejected = (d', c', false) ∧
    cfg_token c' = ""%string.
Proof.
  eexists _, _. split; [vm_compute; reflexivity|].
  eapply (failed_registration_strands Some sample_json sample_to_json noop_recovery
    (discovery [inl (AdRequestFailed "timeout")]) discovery_config "report" "old" 401 "invalid token");
    [reflexivity|reflexivity|eexists; reflexivity|vm_compute; reflexivity].
Defined.
