(* ===== verification/Task.v ===== *)
(** * Remote tasks ([src/src/task.rs])

    The panel may send a command; the agent runs it in a thread of its own and uploads the
    result.  A command with a shebang is written to a script in the temporary directory, run,
    and the script is removed.  The state is the part of the file system that matters, with
    the commands run and the requests made; running a program, the errors of the operating
    system, the clock and the panel are parameters. *)
From S2P Require Import Prelude RustStd AsyncIo Transport Config SmokeSummary ReportLoop AutoDiscovery.
From Stdlib Require Import Strings.Byte.
From Stdlib Require Strings.String.
Local Open Scope N_scope.

(** task.rs [TaskExecution] *)
Record TaskExecution := mkExecution { te_result : string; te_exit_code : Z }.
(** task.rs [TaskResult] *)
Record TaskResult := mkTaskResult {
  tr_task_id : string; tr_result : string; tr_exit_code : Z; tr_finished_at : string;
}.
(** task.rs [TaskResult::now] *)
Definition result_now (now task_id : string) (e : TaskExecution) : TaskResult :=
  mkTaskResult task_id (te_result e) (te_exit_code e) now.
(** task.rs [TaskResult::fixed] *)
Definition result_fixed (now task_id result : string) (exit_code : Z) : TaskResult :=
  mkTaskResult task_id result exit_code now.

(** ** Scripts *)

(** task.rs [has_script_shebang] *)
Definition has_script_shebang (command : string) : bool := starts_with "#!" (trim command).

(** task.rs [ShebangInterpreter] *)
Record ShebangInterpreter := mkInterpreter { si_program : string; si_args : list string }.

(** task.rs [parse_shebang_interpreter] *)
Definition parse_shebang_interpreter (command : string) : option ShebangInterpreter :=
  line ← head (lines (trim_start command));
  rest ← strip_prefix "#!" (trim line);
  match split_whitespace (trim rest) with
  | program :: args => Some (mkInterpreter program args)
  | [] => None
  end.

(** [Path::join] with a relative path *)
Definition path_join (base name : string) : string :=
  if is_empty base || bool_decide (last (bytes_of base) = Some x2f) then base +:+ name
  else base +:+ "/" +:+ name.

(** A file and a program: [Command], with its arguments *)
Record ScriptFile := mkScript { sf_bytes : list byte; sf_executable : bool }.
Record Command := mkCommand { cmd_program : string; cmd_args : list string }.

(** task.rs [PreparedTaskCommand] *)
Record PreparedTaskCommand := mkPrepared { pt_command : Command; pt_script_path : option string }.

(** What a program leaves: its exit code, if it was not killed, and its output *)
Record Output := mkOutput { out_code : option Z; out_stdout : list byte; out_stderr : list byte }.

(** The files, and the commands that were started *)
Record TaskWorld := mkTaskWorld { tw_files : gmap string ScriptFile; tw_started : list Command }.
Abbreviation tact := (act TaskWorld string).
Definition set_files (f : gmap string ScriptFile → gmap string ScriptFile) (w : TaskWorld) : TaskWorld :=
  mkTaskWorld (f (tw_files w)) (tw_started w).

(** [str::replace("\r\n", "\n")] *)
Fixpoint replace_crlf (l : list byte) : list byte :=
  match l with
  | [] => []
  | x :: rest =>
      match rest with
      | y :: rest' =>
          if bool_decide (x = x0d) && bool_decide (y = x0a) then x0a :: replace_crlf rest'
          else x :: replace_crlf rest
      | [] => [x]
      end
  end.

(** task.rs [combined_output] *)
Definition combined_output (stdout stderr : list byte) : string :=
  let result := lossy_bytes stdout in
  str_of (replace_crlf (match stderr with
                        | [] => result
                        | _ => result ++ [x0a] ++ lossy_bytes stderr
                        end)).

(** The operating system: errors of opening, writing (after some bytes) and making executable;
    the directory and the name of scripts; the search path; running a program, which may
    change the files *)
Record TaskOs := mkTaskOs {
  os_open : string → option string;
  os_write : string → option (nat * string);
  os_chmod : string → option string;
  os_temp_dir : string;
  os_process_id : N;
  os_now_nanos : N;
  os_path : option string;
  os_is_file : string → bool;
  os_output : Command → gmap string ScriptFile → gmap string ScriptFile * (string + Output);
}.

Section executor.
Context (os : TaskOs).

(** task.rs [unique_task_script_path] *)
Definition unique_task_script_path : string :=
  path_join (os_temp_dir os)
    ("komari-task-" +:+ pretty (os_process_id os) +:+ "-" +:+ pretty (os_now_nanos os) +:+ ".sh").

(** task.rs [set_executable] 187-191 *)
Definition set_executable (path : string) : tact unit :=
  match os_chmod os path with
  | Some error => fail error
  | None => modify (set_files (alter (fun f => mkScript (sf_bytes f) true) path))
  end.

(** task.rs [write_task_script]; flushing a file does nothing *)
Definition write_task_script (command : string) : tact string :=
  let path := unique_task_script_path in
  w ← get;
  _ ← (if bool_decide (is_Some (tw_files w !! path)) then fail "File exists (os error 17)"
       else match os_open os path with
            | Some error => fail error
            | None => modify (set_files <[path := mkScript [] false]>)
            end);
  _ ← (match os_write os path with
       | Some (n, error) =>
           _ ← modify (set_files <[path := mkScript (take n (bytes_of command)) false]>);
           fail error
       | None => modify (set_files <[path := mkScript (bytes_of command) false]>)
       end);
  _ ← set_executable path;
  mret path.

(** task.rs [command_for_shebang_script] *)
Definition command_for_shebang_script (command script_path : string) : result string Command :=
  interpreter ← ok_or (parse_shebang_interpreter command) "script shebang is missing an interpreter"%string;
  Ok (mkCommand (si_program interpreter) (si_args interpreter ++ [script_path])).

(** task.rs [find_in_path] *)
Definition find_in_path (binary : string) : option string :=
  paths ← os_path os;
  head (filter (fun path => os_is_file os path = true)
    ((fun path => path_join path binary) <$> split [[x3a]] paths)).

(** task.rs [prepare_task_command] *)
Definition prepare_task_command (command : string) : tact PreparedTaskCommand :=
  if has_script_shebang command then
    script_path ← write_task_script command;
    task_command ← try_ (command_for_shebang_script command script_path);
    mret (mkPrepared task_command (Some script_path))
  else
    mret (mkPrepared
      (match find_in_path "bash" with
       | Some bash_path => mkCommand bash_path ["-lc"; command]
       | None => mkCommand "sh" ["-c"; command]
       end) None).

(** task.rs [Drop@PreparedTaskCommand::drop] *)
Definition drop_prepared (p : PreparedTaskCommand) : tact unit :=
  match pt_script_path p with
  | Some path => modify (set_files (delete path))
  | None => mret tt
  end.

(** [Command::output] *)
Definition run_command (c : Command) : tact (string + Output) := fun w =>
  let '(files, r) := os_output os c (tw_files w) in
  (mkTaskWorld files (tw_started w ++ [c]), Done r).

(** task.rs [TaskExecutor@LinuxTaskExecutor::execute] *)
Definition execute (command : string) : tact TaskExecution :=
  prepared ← catch (prepare_task_command command);
  match prepared with
  | inl error => mret (mkExecution ("Failed to prepare command: " +:+ error) (-1))
  | inr prepared =>
      r ← run_command (pt_command prepared);
      _ ← drop_prepared prepared;
      mret (match r with
            | inr output =>
                mkExecution (combined_output (out_stdout output) (out_stderr output))
                  (default (-1)%Z (out_code output))
            | inl error => mkExecution error (-1)
            end)
  end.
End executor.

(** ** The handler *)

(** task.rs [TaskControlMessageHandler]; the tasks handed to threads so far *)
Record TaskControlMessageHandler := mkTaskHandler {
  th_remote_control_disabled : bool;
  th_spawned : list (string * string);
}.

(** task.rs [ControlMessageHandler@TaskControlMessageHandler::handle] *)
Definition task_handle (self : TaskControlMessageHandler) (message : BackendMessage)
  : TaskControlMessageHandler :=
  match message with
  | Exec task_id command =>
      if is_empty task_id then self
      else mkTaskHandler (th_remote_control_disabled self) (th_spawned self ++ [(task_id, command)])
  | _ => self
  end.
#[export] Instance task_handler : ControlMessageHandler TaskControlMessageHandler := task_handle.

(** task.rs [ControlMessageHandler@TaskControlMessageHandler::handle] 270-277: the thread up to
    the upload; [now] is the time it finishes *)
Definition run_task (os : TaskOs) (remote_control_disabled : bool) (now : string) (task : string * string)
  : tact TaskResult :=
  let '(task_id, command) := task in
  if is_empty (trim command) then mret (result_fixed now task_id "No command provided" 0)
  else if remote_control_disabled
  then mret (result_fixed now task_id "Remote control is disabled." (-1))
  else e ← execute os command; mret (result_now now task_id e).

(** ** The upload *)

(** task.rs [build_task_result_url]; its [normalize_http_base], [require_non_empty] and
    [percent_encode] are those of transport.rs, written again *)
Definition build_task_result_url (endpoint token : string) : result TransportError string :=
  endpoint ← normalize_http_base endpoint;
  token ← require_non_empty token EmptyToken;
  Ok (endpoint +:+ "/api/clients/task/result?token=" +:+ percent_encode token).

(** task.rs [HttpTaskResultUploader] *)
Record HttpTaskResultUploader := mkTaskUploader {
  tu_endpoint : string; tu_headers : list HeaderPair; tu_max_retries : N; tu_retry_delay_millis : N;
}.
(** task.rs [HttpTaskResultUploader::from_config_with_token_and_retry_delay] 330-337 *)
Definition task_uploader_from_config (config : AgentConfig) (retry_delay : N) : HttpTaskResultUploader :=
  mkTaskUploader (cfg_endpoint config) (access_headers config) (cfg_max_retries config) retry_delay.

(** The panel's answer to a request *)
Inductive TaskResponse :=
  | Answered (status : N) (status_text body : string)
  | Failed (error : string).
(** [StatusCode::is_success] *)
Definition is_success (r : TaskResponse) : bool :=
  match r with Answered status _ _ => (200 <=? status) && (status <? 300) | Failed _ => false end.

(** A request made, a line printed, a sleep *)
Inductive UploadEvent :=
  | Posted (url : string) (headers : list HeaderPair) (result : TaskResult)
  | Printed (line : string)
  | Slept (millis : N).

(** The error of an attempt that was not successful *)
Definition attempt_error (r : TaskResponse) : TransportError :=
  match r with
  | Answered _ status body => RequestFailed ("status=" +:+ status +:+ " " +:+ body)
  | Failed error => RequestFailed error
  end.

Definition uploaded_line (result : TaskResult) : string :=
  smoke_event_line "task_result_uploaded"
    [("task_id"%string, tr_task_id result); ("exit_code"%string, pretty (tr_exit_code result))].

Section upload.
(** The shared token and the panel's answer at each attempt *)
Context (token_at : N → string) (answer : N → TaskResponse).
Context (self : HttpTaskResultUploader) (result : TaskResult).

(** task.rs [TaskResultUploader@HttpTaskResultUploader::upload_task_result]: the loop *)
Fixpoint upload_loop (rest : nat) (attempt total_attempts : N) (last_error : option TransportError)
  : act (list UploadEvent) TransportError unit :=
  match rest with
  | O => fail (default (RequestFailed "task result upload failed") last_error)
  | S rest =>
      url ← try_ (build_task_result_url (tu_endpoint self) (token_at attempt));
      _ ← modify (fun log => log ++ [Posted url (tu_headers self) result]);
      if is_success (answer attempt) then modify (fun log => log ++ [Printed (uploaded_line result)])
      else
        _ ← (if (attempt <? total_attempts) && negb (tu_retry_delay_millis self =? 0)
             then modify (fun log => log ++ [Slept (tu_retry_delay_millis self)]) else mret tt);
        upload_loop rest (attempt + 1) total_attempts (Some (attempt_error (answer attempt)))
  end.

(** task.rs [TaskResultUploader@HttpTaskResultUploader::upload_task_result] *)
Definition upload_task_result : act (list UploadEvent) TransportError unit :=
  total_attempts ← try_ (expect (checked_add U32_MAX (tu_max_retries self) 1));
  let total_attempts := N.max total_attempts 1 in
  upload_loop (N.to_nat total_attempts) 1 total_attempts None.
End upload.

(** ** A script lives as long as its command *)

(** When the system makes no trouble the script is written. *)
Lemma write_script_ok os command w :
  let path := unique_task_script_path os in
  tw_files w !! path = None →
  os_open os path = None → os_write os path = None → os_chmod os path = None →
  write_task_script os command w
  = (mkTaskWorld (<[path := mkScript (bytes_of command) true]> (tw_files w)) (tw_started w), Done path).
Proof.
  intros path Hfree Hopen Hwrite Hchmod. unfold write_task_script, set_executable. fold path.
  cbv [mbind act_bind get mret act_ret modify set_files]. cbn [tw_files tw_started].
  rewrite Hfree. rewrite bool_decide_false by (intros [? ?]; done). rewrite Hopen. cbn [tw_files tw_started].
  rewrite Hwrite. cbn [tw_files tw_started]. rewrite Hchmod. cbn [tw_files tw_started].
  by rewrite !insert_insert_eq, alter_insert_eq.
Qed.


(** With remote control switched off nothing is run: the files and the commands started stay as
    they are, and the task is answered at once. *)
Lemma disabled_runs_nothing os now task w :
  ∃ result code, run_task os true now task w = (w, Done (mkTaskResult task.1 result code now)).
Proof. destruct task as [id command]. unfold run_task. destruct (is_empty _); by eexists _, _. Qed.

(** A command whose shebang names no interpreter is refused after its script has been written,
    and nothing removes the script: it stays in the temporary directory. *)
Theorem empty_shebang_leaves_script os command w :
  let path := unique_task_script_path os in
  has_script_shebang command = true → parse_shebang_interpreter command = None →
  tw_files w !! path = None →
  os_open os path = None → os_write os path = None → os_chmod os path = None →
  execute os command w
  = (mkTaskWorld (<[path := mkScript (bytes_of command) true]> (tw_files w)) (tw_started w),
     Done (mkExecution "Failed to prepare command: script shebang is missing an interpreter" (-1))).
Proof.
  intros path Hshebang Hparse Hfree Hopen Hwrite Hchmod.
  unfold execute, prepare_task_command. rewrite Hshebang.
  cbv [mbind act_bind mret act_ret catch]. rewrite (write_script_ok os command w) by done. fold path.
  unfold command_for_shebang_script. rewrite Hparse. reflexivity.
Qed.


(** ** The upload ends with the first answer that decides it *)

Fixpoint attempts_from (attempt : N) (n : nat) : list N :=
  match n with O => [] | S n => attempt :: attempts_from (attempt + 1) n end.

Definition post_url (e : UploadEvent) : option string :=
  match e with Posted url _ _ => Some url | _ => None end.

Section upload_laws.
Context (token_at : N → string) (answer : N → TaskResponse).
Context (self : HttpTaskResultUploader) (result : TaskResult).
Local Abbreviation url_at attempt := (build_task_result_url (tu_endpoint self) (token_at attempt)).
Definition url_of (attempt : N) : option string :=
  match url_at attempt with Ok url => Some url | _ => None end.

(** No address can be made, or the panel accepts the result *)
Definition decided (attempt : N) : Prop := url_of attempt = None ∨ is_success (answer attempt) = true.
#[export] Instance decided_dec attempt : Decision (decided attempt).
Proof. unfold decided. apply _. Defined.

Definition upload_outcome (attempts : list N) (last_error : option TransportError)
  : outcome TransportError unit :=
  match list_find decided attempts with
  | Some (_, attempt) => match url_at attempt with Ok _ => Done tt | Err e => Fail e | Panic => Crash end
  | None =>
      Fail (default (RequestFailed "task result upload failed")
        (match last attempts with
         | Some attempt => Some (attempt_error (answer attempt))
         | None => last_error
         end))
  end.
Definition tried (attempts : list N) : list N :=
  match list_find decided attempts with Some (k, _) => take (S k) attempts | None => attempts end.

Lemma upload_loop_spec rest attempt total last_error log :
  let attempts := attempts_from attempt rest in
  ∃ new, upload_loop token_at answer self result rest attempt total last_error log
         = (log ++ new, upload_outcome attempts last_error)
    ∧ omap post_url new = omap url_of (tried attempts).
Proof.
  revert attempt last_error log. induction rest as [|rest IH]; intros attempt last_error log.
  { exists []. by rewrite app_nil_r. }
  cbn [attempts_from upload_loop]. unfold upload_outcome, tried. cbn [list_find].
  cbv [mbind act_bind try_]. destruct (url_at attempt) as [url|e|] eqn:Hurl.
  2-3: exists []; rewrite decide_True by (left; unfold url_of; by rewrite Hurl); rewrite Hurl, app_nil_r;
    (split; [done|]); cbn; unfold url_of; by rewrite Hurl.
  unfold modify at 1. destruct (is_success (answer attempt)) eqn:Hs.
  { rewrite decide_True by (by right). rewrite Hurl. unfold modify. rewrite <-app_assoc. eexists.
    split; [done|]. cbn. unfold url_of. by rewrite Hurl. }
  rewrite decide_False by (unfold decided, url_of; rewrite Hurl, Hs; intros [|]; done).
  set (pause := (if (attempt <? total) && negb (tu_retry_delay_millis self =? 0)
                 then modify (fun log => log ++ [Slept (tu_retry_delay_millis self)]) else mret tt)
                : act (list UploadEvent) TransportError unit).
  assert (Hpause : ∃ zs, pause (log ++ [Posted url (tu_headers self) result])
    = (log ++ Posted url (tu_headers self) result :: zs, Done tt) ∧ omap post_url zs = []).
  { subst pause. destruct (_ && _); unfold modify; rewrite <-?app_assoc; by eexists. }
  destruct Hpause as (zs & -> & Hzs).
  destruct (IH (attempt + 1) (Some (attempt_error (answer attempt)))
    (log ++ Posted url (tu_headers self) result :: zs)) as (new & -> & Hnew).
  exists (Posted url (tu_headers self) result :: zs ++ new). unfold upload_outcome, tried in *.
  rewrite <-app_assoc. split.
  - f_equal. destruct (list_find decided (attempts_from (attempt + 1) rest)) as [[k i]|] eqn:Hf; [done|].
    cbn [fmap option_fmap option_map]. rewrite last_cons. by destruct (last _).
  - assert (Hu : url_of attempt = Some url) by (unfold url_of; by rewrite Hurl).
    change (omap post_url (Posted url (tu_headers self) result :: zs ++ new))
      with (url :: omap post_url (zs ++ new)).
    rewrite omap_app, Hzs. cbn [app]. rewrite Hnew.
    destruct (list_find decided (attempts_from (attempt + 1) rest)) as [[k i]|]; cbn; by rewrite Hu.
Qed.
End upload_laws.

(** C29: a result is uploaded until the panel accepts it, at most [max_retries + 1] times: the
    requests made are those of the attempts up to the first that decides (the panel accepts,
    or no address can be made any more), each with the token of its time; the outcome is that
    of the deciding attempt, and without one the error of the last. *)
Theorem task_upload_first_success token_at answer self result :
  tu_max_retries self < U32_MAX →
  let attempts := attempts_from 1 (N.to_nat (tu_max_retries self + 1)) in
  ∃ log, upload_task_result token_at answer self result []
         = (log, upload_outcome token_at answer self attempts None)
    ∧ omap post_url log = omap (url_of token_at self) (tried token_at answer self attempts).
Proof.
  intros Hmax attempts. unfold upload_task_result, checked_add.
  rewrite bool_decide_true by lia. cbv [mbind act_bind try_ expect].
  rewrite N.max_l by lia. subst attempts.
  destruct (upload_loop_spec token_at answer self result (N.to_nat (tu_max_retries self + 1)) 1
    (tu_max_retries self + 1) None []) as (new & -> & Hnew).
  by exists new.
Qed.

Lemma task_upload_first_success_witness :
  let self := mkTaskUploader "https://p" [] 3 0 in
  let answer n := if n =? 2 then Answered 200 "200 OK" "" else Answered 500 "500" "x" in
  ∃ log, upload_task_result (fun _ => "t"%string) answer self (mkTaskResult "1" "" 0 "") []
         = (log, Done tt)
    ∧ omap post_url log = ["https://p/api/clients/task/result?token=t";
                           "https://p/api/clients/task/result?token=t"]%string.
Proof.
  intros self answer.
  destruct (task_upload_first_success (fun _ => "t"%string) answer self (mkTaskResult "1" "" 0 ""))
    as (log & Hrun & Hposts); [vm_compute; reflexivity|].
  exists log. split; [rewrite Hrun; vm_compute; reflexivity|rewrite Hposts; vm_compute; reflexivity].
Defined.
