(* ===== verification/Terminal.v ===== *)
(** * Web terminals ([src/src/terminal.rs])

    The panel may ask for a terminal: a thread opens a web socket, starts a shell on a pseudo
    terminal and moves bytes both ways.  Two threads share the socket behind a lock: the
    session loop reads the socket and writes to the shell, the output thread reads the shell
    and writes to the socket.  A session is a transition system [term_step] over the program
    counters of both threads and the owner of the lock; a step is what a thread does between
    two points where the other can get in its way.  The web socket, the pseudo terminal and
    JSON decoding are parameters or arbitrary outcomes of a step. *)
From S2P Require Import Prelude RustStd AsyncIo Transport Config SmokeSummary ReportLoop AutoDiscovery Task.
From Stdlib Require Import Strings.Byte.
From Stdlib Require Strings.String.
Local Open Scope N_scope.

(** terminal.rs [TerminalError]; an I/O error is its text *)
Inductive TerminalError :=
  | TermProtocol (error : ProtocolError)
  | TermTransport (error : TransportError)
  | TermIo (error : string)
  | UnsupportedPlatform.

(** terminal.rs [TerminalError::fmt] *)
Definition TerminalError_to_string (e : TerminalError) : string :=
  match e with
  | TermProtocol error => ProtocolError_to_string error
  | TermTransport error => TransportError_to_string error
  | TermIo error => error
  | UnsupportedPlatform => "terminal is supported on Linux only"
  end.

(** ** Event lines *)

(** terminal.rs [terminal_session_error_event] *)
Definition terminal_session_error_event (request_id error : string) : string :=
  smoke_event_line "terminal_session_error" [("request_id"%string, request_id); ("error"%string, error)].
(** terminal.rs [terminal_input_received_event] *)
Definition terminal_input_received_event (bytes : N) : string :=
  smoke_event_line "terminal_input_received" [("bytes"%string, pretty bytes)].
(** terminal.rs [terminal_output_sent_event] *)
Definition terminal_output_sent_event (bytes : N) : string :=
  smoke_event_line "terminal_output_sent" [("bytes"%string, pretty bytes)].

(** ** Commands of the browser *)

(** terminal.rs [TerminalClientCommand] *)
Inductive TerminalClientCommand :=
  | Input (bytes : list byte)
  | Resize (cols rows : N)
  | Ignore.

(** terminal.rs [RawTerminalClientCommand] *)
Record RawTerminalClientCommand := mkRawCommand {
  rc_type : option string; rc_cols : option N; rc_rows : option N; rc_input : option string;
}.

(** terminal.rs [terminal_input_for_pty] *)
Definition terminal_input_for_pty (input : list byte) : list byte :=
  (fun b => if bool_decide (b = x0d) then x0a else b) <$> input.

(** A message of the web socket; [Other] is a ping, a pong or a raw frame *)
Inductive WsMessage :=
  | Text (bytes : list byte)
  | Binary (bytes : list byte)
  | Close
  | Other.

(** ** The session *)

Inductive LockOwner := LockFree | LockMain | LockOutput.
#[export] Instance LockOwner_eq_dec : EqDecision LockOwner.
Proof. solve_decision. Defined.

(** The session loop: about to take the lock; with the lock, about to read; with a message;
    waiting for the output thread (with or without the lock); over *)
Inductive MainPc :=
  | MLoop
  | MRead
  | MHandle (message : WsMessage)
  | MJoin (holding : bool) (r : result TerminalError unit)
  | MDone (r : result TerminalError unit).

(** The output thread: reading the shell; with bytes, waiting for the lock; with the lock;
    over *)
Inductive OutPc :=
  | OReading
  | OWantLock (bytes : list byte)
  | OSending (bytes : list byte)
  | ODone.

(** The shell: running, or killed and waited for *)
Inductive Child := Running | Reaped.

Record TermState := mkTerm {
  tm_main : MainPc;
  tm_out : OutPc;
  tm_lock : LockOwner;
  tm_child : Child;
  tm_written : list byte;       (* bytes written to the shell *)
  tm_size : N * N;              (* columns and rows *)
  tm_produced : list byte;      (* bytes read from the shell *)
  tm_sent : list byte;          (* bytes sent to the browser *)
  tm_messages : list WsMessage; (* messages read from the browser *)
}.

Definition set_main (p : MainPc) (s : TermState) : TermState :=
  mkTerm p (tm_out s) (tm_lock s) (tm_child s) (tm_written s) (tm_size s) (tm_produced s) (tm_sent s) (tm_messages s).
Definition set_out (p : OutPc) (s : TermState) : TermState :=
  mkTerm (tm_main s) p (tm_lock s) (tm_child s) (tm_written s) (tm_size s) (tm_produced s) (tm_sent s) (tm_messages s).
Definition set_lock (l : LockOwner) (s : TermState) : TermState :=
  mkTerm (tm_main s) (tm_out s) l (tm_child s) (tm_written s) (tm_size s) (tm_produced s) (tm_sent s) (tm_messages s).
Definition set_child (c : Child) (s : TermState) : TermState :=
  mkTerm (tm_main s) (tm_out s) (tm_lock s) c (tm_written s) (tm_size s) (tm_produced s) (tm_sent s) (tm_messages s).
Definition write_pty (bytes : list byte) (s : TermState) : TermState :=
  mkTerm (tm_main s) (tm_out s) (tm_lock s) (tm_child s) (tm_written s ++ bytes) (tm_size s) (tm_produced s) (tm_sent s) (tm_messages s).
Definition set_size (size : N * N) (s : TermState) : TermState :=
  mkTerm (tm_main s) (tm_out s) (tm_lock s) (tm_child s) (tm_written s) size (tm_produced s) (tm_sent s) (tm_messages s).
Definition produce (bytes : list byte) (s : TermState) : TermState :=
  mkTerm (tm_main s) (tm_out s) (tm_lock s) (tm_child s) (tm_written s) (tm_size s) (tm_produced s ++ bytes) (tm_sent s) (tm_messages s).
Definition send_ws (bytes : list byte) (s : TermState) : TermState :=
  mkTerm (tm_main s) (tm_out s) (tm_lock s) (tm_child s) (tm_written s) (tm_size s) (tm_produced s) (tm_sent s ++ bytes) (tm_messages s).
Definition add_message (m : WsMessage) (s : TermState) : TermState :=
  mkTerm (tm_main s) (tm_out s) (tm_lock s) (tm_child s) (tm_written s) (tm_size s) (tm_produced s) (tm_sent s) (tm_messages s ++ [m]).

(** The fate of the writes of a turn: how many bytes of an input are written before an error,
    errors of flushing and resizing; how many bytes of each of the three writes of a shutdown
    go through *)
Record TurnFaults := mkFaults {
  tf_write : option (nat * string);
  tf_flush : option string;
  tf_resize : option string;
  tf_shutdown : nat * nat * nat;
}.
Definition no_faults : TurnFaults := mkFaults None None None (1, 1, 5)%nat.

(** terminal.rs [shutdown_terminal]: errors of the writes are ignored *)
Definition shutdown_terminal (f : TurnFaults) (s : TermState) : TermState :=
  let '(a, b, c) := tf_shutdown f in
  let s := write_pty (take a [x03]) s in
  let s := write_pty (take b [x04]) s in
  let s := write_pty (take c (bytes_of "exit" ++ [x0a])) s in
  set_child Reaped s.

(** terminal.rs [run_terminal_session] 325-329: an input (344-348 for a binary message) *)
Definition write_input (f : TurnFaults) (input : list byte) (s : TermState) : TermState :=
  let bytes := terminal_input_for_pty input in
  match tf_write f with
  | Some (n, error) => set_main (MDone (Err (TermIo error))) (write_pty (take n bytes) s)
  | None =>
      let s := write_pty bytes s in
      match tf_flush f with
      | Some error => set_main (MDone (Err (TermIo error))) s
      | None => set_main MLoop s
      end
  end.

Section session.
(** [serde_json::from_slice] for [RawTerminalClientCommand] *)
Context (command_from_slice : list byte → result string RawTerminalClientCommand).

(** terminal.rs [parse_terminal_client_text] *)
Definition parse_terminal_client_text (bytes : list byte) : TerminalClientCommand :=
  match command_from_slice bytes with
  | Ok command =>
      if bool_decide (rc_type command = Some "resize"%string) then
        match rc_cols command, rc_rows command with
        | Some cols, Some rows => if (0 <? cols) && (0 <? rows) then Resize cols rows else Ignore
        | _, _ => Ignore
        end
      else if bool_decide (rc_type command = Some "input"%string) then
        match rc_input command with
        | Some input => if is_empty input then Ignore else Input (bytes_of input)
        | None => Ignore
        end
      else Ignore
  | _ => Input bytes
  end.

(** terminal.rs [run_terminal_session] 323-356: a message *)
Definition handle_message (f : TurnFaults) (message : WsMessage) (s : TermState) : TermState :=
  match message with
  | Text text =>
      match parse_terminal_client_text text with
      | Input input => write_input f input s
      | Resize cols rows =>
          match tf_resize f with
          | Some error => set_main (MDone (Err (TermIo error))) s
          | None => set_main MLoop (set_size (cols, rows) s)
          end
      | Ignore => set_main MLoop s
      end
  | Binary bytes => write_input f bytes s
  | Close => set_main (MJoin false (Ok tt)) (shutdown_terminal f s)
  | Other => set_main MLoop s
  end.

(** terminal.rs [run_terminal_session] 275-358: the two threads.  The session loop holds the
    lock while it reads; after a read error it shuts the shell down and waits for the output
    thread inside that block, with the lock still held.  The output thread reads at most 4096
    bytes, takes the lock and sends them.  A session that ends through [?] leaves the output
    thread to itself. *)
Inductive term_step : TermState → TermState → Prop :=
  | main_lock s :
      tm_main s = MLoop → tm_lock s = LockFree →
      term_step s (set_main MRead (set_lock LockMain s))
  | main_timeout_error s error :
      tm_main s = MRead →
      term_step s (set_main (MDone (Err (TermIo error))) (set_lock LockFree s))
  | main_read s message :
      tm_main s = MRead →
      term_step s (set_main (MHandle message) (set_lock LockFree (add_message message s)))
  | main_idle s :
      tm_main s = MRead →
      term_step s (set_main MLoop (set_lock LockFree s))
  | main_read_error s f error :
      tm_main s = MRead →
      term_step s (set_main (MJoin true (Err (TermTransport (RequestFailed error)))) (shutdown_terminal f s))
  | main_handle s f message :
      tm_main s = MHandle message →
      term_step s (handle_message f message s)
  | main_join s holding r :
      tm_main s = MJoin holding r → tm_out s = ODone →
      term_step s (set_main (MDone r) (if holding then set_lock LockFree s else s))
  | out_read s bytes :
      tm_out s = OReading → bytes ≠ [] → len bytes ≤ 4096 →
      term_step s (set_out (OWantLock bytes) (produce bytes s))
  | out_eof s :
      tm_out s = OReading →
      term_step s (set_out ODone s)
  | out_lock s bytes :
      tm_out s = OWantLock bytes → tm_lock s = LockFree →
      term_step s (set_out (OSending bytes) (set_lock LockOutput s))
  | out_send s bytes :
      tm_out s = OSending bytes →
      term_step s (set_out OReading (set_lock LockFree (send_ws bytes s)))
  | out_send_error s bytes :
      tm_out s = OSending bytes →
      term_step s (set_out ODone (set_lock LockFree s)).
End session.

(** The shell on a terminal of 80 columns and 24 rows, both threads started *)
Definition session_start : TermState :=
  mkTerm MLoop OReading LockFree Running [] (80, 24) [] [] [].

(** ** Starting a session *)

Section start.
(** [$SHELL], [$PATH] and the files *)
Context (env_shell path : option string) (is_file : string → bool).

(** terminal.rs [find_in_path] *)
Definition terminal_find_in_path (binary : string) : option string :=
  paths ← path;
  from_utf8_lossy ∘ bytes_of <$> head (filter (fun p => is_file p = true)
    ((fun dir => path_join dir binary) <$> split [[x3a]] paths)).

(** terminal.rs [find_shell] *)
Definition find_shell : option string :=
  match env_shell with
  | Some shell => if is_file shell then Some shell else None
  | None => None
  end ∪ head (omap terminal_find_in_path ["zsh"; "bash"; "sh"]%string).

(** The steps of setting a session up, each with its error *)
Record PtySetup := mkPtySetup {
  pty_open : option string; pty_spawn : string → option string;
  pty_clone_reader : option string; pty_take_writer : option string;
}.

(** terminal.rs [run_terminal_session] 239-274: setting up; whether a shell was started, and the
    session *)
Definition setup_session (p : PtySetup) : bool * result TerminalError TermState :=
  match pty_open p with
  | Some error => (false, Err (TermIo error))
  | None =>
      match find_shell with
      | None => (false, Err (TermIo "no supported shell found among zsh, bash, sh"))
      | Some shell =>
          match pty_spawn p shell with
          | Some error => (false, Err (TermIo error))
          | None =>
              match pty_clone_reader p, pty_take_writer p with
              | Some error, _ | None, Some error => (true, Err (TermIo error))
              | None, None => (true, Ok session_start)
              end
          end
      end
  end.
End start.

(** terminal.rs [WEB_SSH_DISABLED_MESSAGE] *)
Definition WEB_SSH_DISABLED_MESSAGE : string :=
  str_of [x0a; x0a] +:+ "Web SSH is disabled. Enable it by running without the --disable-web-ssh flag.".

(** terminal.rs [TungsteniteTerminalConnector] *)
Record TerminalConnector := mkConnector {
  tc_endpoint : string; tc_token : SharedAgentToken; tc_headers : list HeaderPair; tc_custom_dns : string;
}.
(** terminal.rs [TungsteniteTerminalConnector::from_config_with_token] *)
Definition connector_from_config (config : AgentConfig) (token : SharedAgentToken) : TerminalConnector :=
  mkConnector (cfg_endpoint config) token (access_headers config) (cfg_custom_dns config).

(** What starting a terminal does *)
Inductive TerminalEvent :=
  | TConnected (url : string) (headers : list HeaderPair)
  | TPrinted (line : string)
  | TSentText (text : string)
  | TSession.

Section connect.
(** IDNA; building a request and a header, connecting and sending, with their errors; the
    outcome of the session *)
Context (domain_to_ascii : string → option string).
Context (into_client_request : string → result string string).
Context (header : HeaderPair → result string HeaderPair).
Context (connect : string → list HeaderPair → string → result TransportError unit).
Context (send_text : option string).
Context (session : result TerminalError unit).
Abbreviation termact := (act (list TerminalEvent) TerminalError).
Definition emit (e : TerminalEvent) : termact unit := modify (fun log => log ++ [e]).
Definition request_failed {A} (r : result string A) : result TerminalError A :=
  map_err (fun error => TermTransport (RequestFailed error)) r.

Fixpoint build_headers (headers : list HeaderPair) : result TerminalError (list HeaderPair) :=
  match headers with
  | [] => Ok []
  | h :: headers =>
      h ← request_failed (header h);
      headers ← build_headers headers;
      Ok (h :: headers)
  end.

(** terminal.rs [TerminalConnector@TungsteniteTerminalConnector::start_terminal] *)
Definition start_terminal (self : TerminalConnector) (request_id : string)
    (remote_control_disabled : bool) : termact unit :=
  url ← try_ (map_err TermProtocol
    (build_terminal_ws_url domain_to_ascii (tc_endpoint self) (shared_get (tc_token self)) request_id));
  request ← try_ (request_failed (into_client_request url));
  headers ← try_ (build_headers (tc_headers self));
  _ ← try_ (map_err TermTransport (connect request headers (tc_custom_dns self)));
  _ ← emit (TConnected request headers);
  _ ← emit (TPrinted (smoke_event_line "terminal_session_started" [("request_id"%string, request_id)]));
  if remote_control_disabled then
    match send_text with
    | Some error => fail (TermTransport (RequestFailed error))
    | None => emit (TSentText WEB_SSH_DISABLED_MESSAGE)
    end
  else
    _ ← emit TSession;
    try_ session.

(** terminal.rs [ControlMessageHandler@TerminalControlMessageHandler::handle] 107-114: the
    thread *)
Definition terminal_thread (self : TerminalConnector) (request_id : string)
    (remote_control_disabled : bool) : termact unit :=
  r ← catch (start_terminal self request_id remote_control_disabled);
  match r with
  | inl error => emit (TPrinted (terminal_session_error_event request_id (TerminalError_to_string error)))
  | inr _ => mret tt
  end.
End connect.

(** terminal.rs [TerminalControlMessageHandler]; the requests handed to threads so far *)
Record TerminalControlMessageHandler := mkTerminalHandler {
  tch_remote_control_disabled : bool;
  tch_spawned : list string;
}.
(** terminal.rs [ControlMessageHandler@TerminalControlMessageHandler::handle] *)
Definition terminal_handle (self : TerminalControlMessageHandler) (message : BackendMessage)
  : TerminalControlMessageHandler :=
  match message with
  | Terminal request_id =>
      if is_empty request_id then self
      else mkTerminalHandler (tch_remote_control_disabled self) (tch_spawned self ++ [request_id])
  | _ => self
  end.
#[export] Instance terminal_handler : ControlMessageHandler TerminalControlMessageHandler := terminal_handle.

(** ** What a session does *)

(** The input of the shell in a message *)
Definition input_of (command_from_slice : list byte → result string RawTerminalClientCommand)
    (message : WsMessage) : option (list byte) :=
  match message with
  | Text text => match parse_terminal_client_text command_from_slice text with Input i => Some i | _ => None end
  | Binary bytes => Some bytes
  | _ => None
  end.

(** The bytes a shutdown writes *)
Definition exit_bytes : list byte := [x03; x04] ++ bytes_of "exit" ++ [x0a].

Lemma shutdown_spec f s :
  ∃ tail, tail `sublist_of` exit_bytes ∧
    shutdown_terminal f s = set_child Reaped (write_pty tail s).
Proof.
  unfold shutdown_terminal. destruct (tf_shutdown f) as [[a b] c].
  exists (take a [x03] ++ take b [x04] ++ take c (bytes_of "exit" ++ [x0a])). split.
  - change exit_bytes with ([x03] ++ [x04] ++ (bytes_of "exit" ++ [x0a])).
    repeat apply sublist_app; apply sublist_take.
  - destruct s. unfold write_pty, set_child. cbn [tm_main tm_out tm_lock tm_child tm_written tm_size tm_produced
      tm_sent tm_messages]. by rewrite <-!app_assoc.
Qed.

Section session_laws.
Context (command_from_slice : list byte → result string RawTerminalClientCommand).
Local Abbreviation step := (term_step command_from_slice).
Local Abbreviation reachable s := (rtc step session_start s).

(** The bytes the shell is to get *)
Definition shell_input (messages : list WsMessage) : list byte :=
  concat (terminal_input_for_pty <$> omap (input_of command_from_slice) messages).

Lemma shell_input_snoc ms m :
  shell_input (ms ++ [m])
  = shell_input ms ++ from_option terminal_input_for_pty [] (input_of command_from_slice m).
Proof.
  unfold shell_input. rewrite omap_app, fmap_app, concat_app. f_equal. cbn.
  destruct (input_of command_from_slice m); cbn; [apply app_nil_r|done].
Qed.

(** Who holds the lock *)
Definition lock_of (main : MainPc) (out : OutPc) : LockOwner :=
  match main, out with
  | MRead, _ | MJoin true _, _ => LockMain
  | _, OSending _ => LockOutput
  | _, _ => LockFree
  end.
Definition main_locked (main : MainPc) : bool :=
  match main with MRead | MJoin true _ => true | _ => false end.
Definition out_locked (out : OutPc) : bool := match out with OSending _ => true | _ => false end.

(** What the output thread still has to send *)
Definition unsent (out : OutPc) : option (list byte) :=
  match out with
  | OReading => Some []
  | OWantLock bytes | OSending bytes => Some bytes
  | ODone => None
  end.

(** What has been written to the shell *)
Definition written_ok (s : TermState) : Prop :=
  match tm_main s with
  | MLoop | MRead => tm_child s = Running ∧ tm_written s = shell_input (tm_messages s)
  | MHandle m =>
      tm_child s = Running ∧
      ∃ ms, tm_messages s = ms ++ [m] ∧ tm_written s = shell_input ms
  | MJoin _ _ | MDone (Ok _) =>
      tm_child s = Reaped ∧
      ∃ tail, tail `sublist_of` exit_bytes ∧ tm_written s = shell_input (tm_messages s) ++ tail
  | MDone _ =>
      (tm_child s = Running ∧ tm_written s `prefix_of` shell_input (tm_messages s)) ∨
      (tm_child s = Reaped ∧
       ∃ tail, tail `sublist_of` exit_bytes ∧ tm_written s = shell_input (tm_messages s) ++ tail)
  end.

Record term_inv (s : TermState) : Prop := {
  inv_lock : tm_lock s = lock_of (tm_main s) (tm_out s);
  inv_excl : main_locked (tm_main s) && out_locked (tm_out s) = false;
  inv_sent : match unsent (tm_out s) with
             | Some rest => tm_produced s = tm_sent s ++ rest
             | None => tm_sent s `prefix_of` tm_produced s
             end;
  inv_written : written_ok s;
  inv_ended : match tm_main s with
              | MJoin false r => r = Ok tt
              | MJoin true r => ∃ e, r = Err e
              | MDone (Ok _) => tm_out s = ODone
              | _ => True
              end;
}.

Lemma start_inv : term_inv session_start.
Proof. by constructor. Qed.

Ltac simpl_term := cbn [set_main set_out set_lock set_child write_pty set_size produce send_ws add_message
  tm_main tm_out tm_lock tm_child tm_written tm_size tm_produced tm_sent tm_messages] in *.

Lemma write_input_inv f input m s :
  tm_main s = MHandle m → input_of command_from_slice m = Some input → term_inv s →
  term_inv (write_input f input s).
Proof.
  intros Hm Hin [Hl He Hs Hw _]. unfold written_ok in Hw. rewrite Hm in *.
  destruct Hw as (Hrun & ms & Hms & Hw). unfold write_input.
  assert (Hall : shell_input (tm_messages s) = tm_written s ++ terminal_input_for_pty input).
  { rewrite Hms, shell_input_snoc, Hin, Hw. done. }
  destruct s. simpl_term. subst. destruct (tf_write f) as [[n e]|]; [|destruct (tf_flush f)];
    constructor; unfold written_ok; simpl_term; try done.
  - left. split; [done|]. rewrite Hall. apply prefix_app, prefix_take.
  - left. split; [done|]. by rewrite Hall.
Qed.

Lemma handle_message_inv f m s :
  tm_main s = MHandle m → term_inv s → term_inv (handle_message command_from_slice f m s).
Proof.
  intros Hm Hinv. pose proof Hinv as [Hl He Hs Hw _]. unfold written_ok in Hw. rewrite Hm in *.
  destruct Hw as (Hrun & ms & Hms & Hw).
  assert (Hskip : input_of command_from_slice m = None → shell_input (tm_messages s) = tm_written s).
  { intros Hn. by rewrite Hms, shell_input_snoc, Hn, app_nil_r. }
  unfold handle_message. destruct m as [text|bytes| |].
  - cbn [input_of] in Hskip.
    destruct (parse_terminal_client_text command_from_slice text) as [i|cols rows|] eqn:Hp.
    + apply write_input_inv with (Text text); [done|by cbn; rewrite Hp|done].
    + specialize (Hskip eq_refl). destruct s. simpl_term. subst.
      destruct (tf_resize f); constructor; unfold written_ok; simpl_term; try done.
      left. split; [done|]. by rewrite Hskip.
    + specialize (Hskip eq_refl). destruct s. simpl_term. subst. constructor; unfold written_ok; simpl_term; done.
  - by apply write_input_inv with (Binary bytes).
  - destruct (shutdown_spec f s) as (tail & Htail & ->). specialize (Hskip eq_refl).
    destruct s. simpl_term. subst. constructor; unfold written_ok; simpl_term; try done.
    split; [done|]. exists tail. by rewrite Hskip.
  - specialize (Hskip eq_refl). destruct s. simpl_term. subst. constructor; unfold written_ok; simpl_term; done.
Qed.

Lemma term_step_inv s s' : step s s' → term_inv s → term_inv s'.
Proof.
  destruct 1 as [s Hm Hk|s e Hm|s m Hm|s Hm|s f e Hm|s f m Hm|s h r Hm Ho|s b Ho Hb Hlen|s Ho|s b Ho Hk|s b Ho|s b Ho];
    [..|by apply handle_message_inv| | | | | |]; intros Hinv;
    try (destruct (shutdown_spec f s) as (tail & Htail & ->));
    destruct Hinv as [Hl He Hs Hw Hd]; destruct s; unfold written_ok in *; simpl_term; subst.
  all: try destruct h; try destruct tm_out0; try destruct tm_main0 as [| |?|[]|[]]; try done; simpl_term;
    constructor; unfold written_ok; simpl_term; try done; try naive_solver.
  all: cbn [unsent] in *; rewrite Hs; rewrite ?app_nil_r; first [done | by eexists].
Qed.

Lemma reachable_term_inv s : reachable s → term_inv s.
Proof.
  intros Hr. assert (H : term_inv session_start → term_inv s); [|by apply H, start_inv].
  induction Hr as [s|s s' s'' Hstep _ IH]; [done|]. intros Hinv. apply IH. by eapply term_step_inv.
Qed.

(** What was written, as inputs and the bytes of a shutdown *)
Lemma written_ok_split s :
  written_ok s →
  ∃ input tail, tm_written s = input ++ tail
    ∧ input `prefix_of` shell_input (tm_messages s) ∧ tail `sublist_of` exit_bytes
    ∧ (tm_child s = Running → tail = []).
Proof.
  assert (Hrun : tm_written s `prefix_of` shell_input (tm_messages s) →
    ∃ input tail, tm_written s = input ++ tail ∧ input `prefix_of` shell_input (tm_messages s)
      ∧ tail `sublist_of` exit_bytes ∧ (tm_child s = Running → tail = [])).
  { intros Hp. exists (tm_written s), []. rewrite app_nil_r. split_and!; [done|done|apply sublist_nil_l|done]. }
  assert (Hend : tm_child s = Reaped ∧ (∃ tail, tail `sublist_of` exit_bytes
      ∧ tm_written s = shell_input (tm_messages s) ++ tail) →
    ∃ input tail, tm_written s = input ++ tail ∧ input `prefix_of` shell_input (tm_messages s)
      ∧ tail `sublist_of` exit_bytes ∧ (tm_child s = Running → tail = [])).
  { intros (Hc & tail & Ht & Hw). exists (shell_input (tm_messages s)), tail. by rewrite Hc. }
  unfold written_ok. destruct (tm_main s) as [| |m|h r|[u|e|]]; [..|intros [[_ Hw]|Hw]; auto|intros [[_ Hw]|Hw]; auto].
  - intros [_ Hw]. apply Hrun. by rewrite Hw.
  - intros [_ Hw]. apply Hrun. by rewrite Hw.
  - intros (_ & ms & Hms & Hw). apply Hrun. rewrite Hms, shell_input_snoc, Hw. by eexists.
  - exact Hend.
  - exact Hend.
Qed.

(** C12: whatever the browser sends, the shell prints and fails, in every reachable state of a
    terminal session the browser has got, in order and without gaps, bytes the shell printed;
    the shell has got exactly the inputs of the browser's messages in order (with line feeds
    for carriage returns), after which at most the bytes of a shutdown follow; the socket is
    used by one thread at a time; and a session that ends well has written all inputs, and its
    shell is dead and its output thread over. *)
Theorem terminal_session_faithful s :
  reachable s →
  tm_sent s `prefix_of` tm_produced s
  ∧ (∃ input tail, tm_written s = input ++ tail
      ∧ input `prefix_of` shell_input (tm_messages s) ∧ tail `sublist_of` exit_bytes
      ∧ (tm_child s = Running → tail = []))
  ∧ (main_locked (tm_main s) && out_locked (tm_out s) = false)
  ∧ (∀ u, tm_main s = MDone (Ok u) → tm_child s = Reaped ∧ tm_out s = ODone
      ∧ shell_input (tm_messages s) `prefix_of` tm_written s).
Proof.
  intros [Hl He Hs Hw Hd]%reachable_term_inv. split_and!.
  - destruct (unsent (tm_out s)); [rewrite Hs; by eexists|done].
  - by apply written_ok_split.
  - done.
  - intros u Hm. unfold written_ok in Hw. rewrite Hm in Hw, Hd. destruct Hw as (Hc & tail & _ & ->).
    split_and!; [done|done|by eexists].
Qed.

(** ** Where a session can get stuck *)

(** The session loop waits for the output thread with the lock, which the output thread waits
    for *)
Definition deadlocked (s : TermState) : Prop :=
  (∃ r, tm_main s = MJoin true r) ∧ ∃ bytes, tm_out s = OWantLock bytes.

Lemma deadlocked_stuck s : term_inv s → deadlocked s → ∀ s', ¬ step s s'.
Proof.
  intros [Hl _ _ _ _] [[r Hm] [b Ho]] s' Hstep. rewrite Hm in Hl. cbn in Hl.
  destruct Hstep; congruence.
Qed.

(** A session that is not over can always go on, unless it is deadlocked. *)
Theorem session_progress s :
  reachable s → (∀ r, tm_main s ≠ MDone r) → deadlocked s ∨ ∃ s', step s s'.
Proof.
  intros [Hl _ _ _ _]%reachable_term_inv Hover. destruct (tm_out s) as [|b|b|] eqn:Ho.
  - right. eexists. by apply out_eof.
  - destruct (tm_main s) as [| |m|h r|r] eqn:Hm; [right; eexists; by apply main_lock|right; eexists; by apply main_idle
      |right; eexists; by apply (main_handle _ _ no_faults)| |by edestruct Hover].
    destruct h; [left; split; eauto|]. right. eexists. by eapply out_lock.
  - right. eexists. by eapply out_send.
  - destruct (tm_main s) as [| |m|h r|r] eqn:Hm; [right; eexists; by apply main_lock|right; eexists; by apply main_idle
      |right; eexists; by apply (main_handle _ _ no_faults)| |by edestruct Hover].
    right. eexists. by eapply main_join.
Qed.

(** C40: when reading the socket fails (the browser went away without a close frame) and the
    shell prints anything more, the session is stuck for good: the loop waits for the output
    thread to end while it holds the lock of the socket, and the output thread waits for that
    lock.  The thread, the socket and the terminal are never given back.  The printing needs
    no more than the echo of the bytes the shutdown itself writes. *)
Theorem read_error_deadlocks s (f : TurnFaults) error bytes :
  reachable s → tm_main s = MRead → tm_out s = OReading → bytes ≠ [] → len bytes ≤ 4096 →
  ∃ s', rtc step s s' ∧ tm_main s' = MJoin true (Err (TermTransport (RequestFailed error)))
    ∧ tm_out s' = OWantLock bytes ∧ tm_child s' = Reaped ∧ ∀ s'', ¬ step s' s''.
Proof.
  intros Hr Hm Ho Hne Hlen.
  set (s1 := set_main (MJoin true (Err (TermTransport (RequestFailed error)))) (shutdown_terminal f s)).
  assert (H1 : step s s1) by (by apply main_read_error).
  assert (Ho1 : tm_out s1 = OReading ∧ tm_child s1 = Reaped).
  { subst s1. destruct (shutdown_spec f s) as (tail & _ & ->). by destruct s. }
  destruct Ho1 as [Ho1 Hc1].
  assert (H2 : step s1 (set_out (OWantLock bytes) (produce bytes s1))) by (by apply out_read).
  assert (Hsteps : rtc step s (set_out (OWantLock bytes) (produce bytes s1))) 
    by (eapply rtc_l; [exact H1|by apply rtc_once]).
  exists (set_out (OWantLock bytes) (produce bytes s1)). split_and!; [done..|].
  apply deadlocked_stuck; [|split; eauto].
  apply reachable_term_inv. by etrans.
Qed.

(** A session the browser closes always can end, and ends well: wherever the output thread
    is, there is a run to the end, whatever was reachable before. *)
Theorem closed_session_can_end s r :
  reachable s → tm_main s = MJoin false r → ∃ s', rtc step s s' ∧ tm_main s' = MDone r ∧ r = Ok tt.
Proof.
  intros Hr Hm. pose proof (reachable_term_inv s Hr) as [Hl _ _ _ Hd]. rewrite Hm in Hd. subst r.
  assert (Hjoin : ∀ t, tm_main t = MJoin false (Ok tt) → tm_out t = ODone →
    ∃ s', rtc step t s' ∧ tm_main s' = MDone (Ok tt) ∧ Ok (E:=TerminalError) tt = Ok tt).
  { intros t Ht Ho. eexists. split; [eapply rtc_once, main_join; done|done]. }
  assert (Hread : ∀ t, tm_main t = MJoin false (Ok tt) → tm_out t = OReading →
    ∃ s', rtc step t s' ∧ tm_main s' = MDone (Ok tt) ∧ Ok (E:=TerminalError) tt = Ok tt).
  { intros t Ht Ho. destruct (Hjoin (set_out ODone t)) as (s' & Hs' & Hend); [done..|].
    exists s'. split; [|done]. eapply rtc_l; [|done]. by apply out_eof. }
  assert (Hsend : ∀ t b, tm_main t = MJoin false (Ok tt) → tm_out t = OSending b →
    ∃ s', rtc step t s' ∧ tm_main s' = MDone (Ok tt) ∧ Ok (E:=TerminalError) tt = Ok tt).
  { intros t b Ht Ho. destruct (Hread (set_out OReading (set_lock LockFree (send_ws b t)))) as (s' & Hs' & Hend); [done..|].
    exists s'. split; [|done]. eapply rtc_l; [|done]. by apply out_send. }
  destruct (tm_out s) as [|b|b|] eqn:Ho; [by apply Hread| |by eapply Hsend|by apply Hjoin].
  rewrite Hm in Hl. cbn in Hl.
  destruct (Hsend (set_out (OSending b) (set_lock LockOutput s)) b) as (s' & Hs' & Hend); [done..|].
  exists s'. split; [|done]. eapply rtc_l; [|done]. by eapply out_lock.
Qed.

(** A failed write to the shell ends the session without killing the shell or waiting for it. *)
Theorem write_error_leaves_shell s m input (n : nat) e :
  reachable s → tm_main s = MHandle m → input_of command_from_slice m = Some input →
  ∃ s', step s s' ∧ tm_main s' = MDone (Err (TermIo e)) ∧ tm_child s' = Running ∧ tm_out s' = tm_out s.
Proof.
  intros [_ _ _ Hw _]%reachable_term_inv Hm Hin. unfold written_ok in Hw. rewrite Hm in Hw. destruct Hw as [Hc _].
  set (f := mkFaults (Some (n, e)) None None (0, 0, 0)%nat).
  exists (handle_message command_from_slice f m s). split; [by apply main_handle|].
  unfold handle_message. destruct m as [t|bs| |]; cbn [input_of] in Hin; [|done..].
  destruct (parse_terminal_client_text command_from_slice t); [done..].
Qed.
End session_laws.

(** ** Sample runs *)

Abbreviation no_json := (fun _ : list byte => Err (A:=RawTerminalClientCommand) "not JSON"%string).

(** The browser types a line, the shell prints, the browser closes. *)
Lemma terminal_session_faithful_witness :
  ∃ s, rtc (term_step no_json) session_start s ∧ tm_main s = MDone (Ok tt)
    ∧ tm_child s = Reaped ∧ tm_written s = bytes_of "ls" ++ [x0a; x03; x04] ++ bytes_of "exit" ++ [x0a]
    ∧ tm_sent s `prefix_of` tm_produced s.
Proof.
  assert (Hrun : ∃ s, rtc (term_step no_json) session_start s ∧ tm_main s = MDone (Ok tt)
    ∧ tm_written s = bytes_of "ls" ++ [x0a; x03; x04] ++ bytes_of "exit" ++ [x0a]).
  { eexists. split.
    { eapply rtc_l; [by apply main_lock|].
    eapply rtc_l; [by apply (main_read _ _ (Binary (bytes_of "ls" ++ [x0d])))|].
    eapply rtc_l; [by apply (main_handle _ _ no_faults)|].
    eapply rtc_l; [by apply (out_read _ _ (bytes_of "a b"))|].
    eapply rtc_l; [by eapply out_lock|]. eapply rtc_l; [by eapply out_send|].
    eapply rtc_l; [by apply main_lock|]. eapply rtc_l; [by apply (main_read _ _ Close)|].
    eapply rtc_l; [by apply (main_handle _ _ no_faults)|].
    eapply rtc_l; [by eapply out_eof|]. eapply rtc_l; [by eapply main_join|]. apply rtc_refl. }
    split; vm_compute; reflexivity. }
  destruct Hrun as (s & Hr & Hm & Hw).
  destruct (terminal_session_faithful no_json s Hr) as (Hs & _ & _ & Hdone).
  destruct (Hdone tt Hm) as (Hc & _ & _). exists s. by split_and!.
Defined.

Lemma read_error_deadlocks_witness :
  ∃ s', rtc (term_step no_json) session_start s' ∧ tm_out s' = OWantLock (bytes_of "^C")
    ∧ ∀ s'', ¬ term_step no_json s' s''.
Proof.
  assert (Hr : rtc (term_step no_json) session_start (set_main MRead (set_lock LockMain session_start)))
    by (apply rtc_once; by apply main_lock).
  destruct (read_error_deadlocks no_json _ no_faults "reset" (bytes_of "^C") Hr eq_refl eq_refl)
    as (s' & Hs & _ & Ho & _ & Hstuck); [discriminate|vm_compute; discriminate|].
  exists s'. split; [by etrans|]. split; [exact Ho|exact Hstuck].
Defined.

Lemma closed_session_can_end_witness :
  ∃ s s', rtc (term_step no_json) session_start s ∧ rtc (term_step no_json) s s' ∧ tm_main s' = MDone (Ok tt).
Proof.
  set (s := handle_message no_json no_faults Close (set_main (MHandle Close) (set_lock LockFree
    (add_message Close (set_main MRead (set_lock LockMain session_start)))))).
  assert (Hr : rtc (term_step no_json) session_start s).
  { eapply rtc_l; [by apply main_lock|]. eapply rtc_l; [by apply (main_read _ _ Close)|].
    eapply rtc_l; [by apply (main_handle _ _ no_faults)|]. apply rtc_refl. }
  destruct (closed_session_can_end no_json s (Ok tt) Hr eq_refl) as (s' & Hs' & Hm & _).
  by exists s, s'.
Defined.
