(* ===== verification/Dns.v ===== *)
(** * The DNS client ([src/src/linux_proc.rs])

    With a custom DNS server the agent asks for A and AAAA records itself: the query packet,
    the parser of the response and the loop that skips a name.  The packet comes from the
    network: the parser is shown to end without a panic on any bytes, and to find exactly the
    addresses of a well-formed response.  Sockets and the clock are parameters. *)
From S2P Require Import Prelude RustStd RustNet Transport.
From Stdlib Require Import Strings.Byte.
From Stdlib Require Strings.String.
Local Open Scope N_scope.

(** The [std::io::ErrorKind]s of this code *)
Inductive IoErrorKind := InvalidInput | InvalidData | UnexpectedEof | NotFound | OtherIo.
(** [std::io::Error] *)
Record IoError := mkIoError { io_kind : IoErrorKind; io_message : string }.

(** linux_proc.rs [normalize_dns_server] *)
Definition normalize_dns_server (server : string) : string :=
  let server := trim server in
  if (starts_with "[" server && contains "]:" server)
     || (bool_decide (count_colons server = 1%nat) && negb (contains "]" server))
  then server
  else if bool_decide (2 ≤ count_colons server)%nat && negb (contains "]" server)
  then "[" +:+ server +:+ "]:53"
  else if negb (contains ":" server) then server +:+ ":53"
  else server.

(** linux_proc.rs [dns_query_id]; [nanos] is the sub-second part of the clock *)
Definition dns_query_id (nanos : N) (host : string) (qtype : N) : N :=
  foldl (fun acc byte => N.lxor ((acc * 31) mod 2 ^ 16) (u8 byte))
    (N.lxor (nanos mod 2 ^ 16) qtype) (bytes_of host).

(** The labels of a name: [host.trim_end_matches('.').split('.')] *)
Definition dns_labels (host : string) : list string :=
  split [[x2e]] (trim_end_matches x2e host).

(** linux_proc.rs [build_dns_query] 1954-1963: the loop over the labels *)
Fixpoint push_labels (labels : list string) : result IoError (list byte) :=
  match labels with
  | [] => Ok []
  | label :: labels =>
      if is_empty label || (63 <? str_len label)
      then Err (mkIoError InvalidInput "invalid DNS name")
      else
        rest ← push_labels labels;
        Ok (byte_of_N (str_len label) :: bytes_of label ++ rest)
  end.

(** linux_proc.rs [build_dns_query] *)
Definition build_dns_query (id : N) (host : string) (qtype : N) : result IoError (list byte) :=
  name ← push_labels (dns_labels host);
  Ok (be_bytes 2 id ++ be_bytes 2 0x0100 ++ be_bytes 2 1 ++ be_bytes 2 0 ++ be_bytes 2 0
      ++ be_bytes 2 0 ++ name ++ [x00] ++ be_bytes 2 qtype ++ be_bytes 2 1).

(** linux_proc.rs [skip_dns_name]; every turn but the last goes forward, so as many turns as
    there are bytes, and one, are enough *)
Fixpoint skip_dns_name_loop (fuel : nat) (packet : list byte) (offset : N) : result IoError N :=
  match fuel with
  | O => Panic
  | S fuel =>
      match packet !! N.to_nat offset with
      | None => Err (mkIoError UnexpectedEof "truncated DNS name")
      | Some b =>
          if N.land (u8 b) 0xC0 =? 0xC0 then
            match packet !! N.to_nat (offset + 1) with
            | None => Err (mkIoError UnexpectedEof "truncated DNS pointer")
            | Some _ => Ok (offset + 2)
            end
          else if u8 b =? 0 then Ok (offset + 1)
          else
            offset ← ok_or (checked_add USIZE_MAX offset (1 + u8 b))
                       (mkIoError InvalidData "DNS name overflow");
            if len packet <? offset then Err (mkIoError UnexpectedEof "truncated DNS label")
            else skip_dns_name_loop fuel packet offset
      end
  end.

(** linux_proc.rs [skip_dns_name] *)
Definition skip_dns_name (packet : list byte) (offset : N) : result IoError N :=
  skip_dns_name_loop (S (length packet)) packet offset.

(** [u16::from_be_bytes([packet[i], packet[i + 1]])] *)
Definition read_u16 (packet : list byte) (i : N) : result IoError N :=
  a ← index packet i;
  b ← index packet (i + 1);
  Ok (be_value [a; b]).

(** linux_proc.rs [parse_dns_response] 1999-2011: the questions *)
Fixpoint skip_questions (questions : nat) (packet : list byte) (offset : N) : result IoError N :=
  match questions with
  | O => Ok offset
  | S questions =>
      offset ← skip_dns_name packet offset;
      offset ← ok_or (checked_add USIZE_MAX offset 4) (mkIoError InvalidData "DNS question overflow");
      if len packet <? offset then Err (mkIoError UnexpectedEof "truncated DNS question")
      else skip_questions questions packet offset
  end.

(** The address of a record, when it is one of the kind asked for *)
Definition record_address (answer_class answer_type qtype rdlen : N) (rdata : list byte)
  : result IoError (list IpAddr) :=
  if (answer_class =? 1) && (answer_type =? qtype) then
    if (answer_type =? 1) && (rdlen =? 4) then
      a ← index rdata 0; b ← index rdata 1; c ← index rdata 2; d ← index rdata 3;
      Ok [V4 (be_value [a; b; c; d])]
    else if (answer_type =? 28) && (rdlen =? 16) then
      if len rdata =? 16 then Ok [V6 (be_value rdata)] else Panic
    else Ok []
  else Ok [].

(** linux_proc.rs [parse_dns_response] 2013-2050: the answers *)
Fixpoint read_answers (answers : nat) (packet : list byte) (qtype offset : N)
  : result IoError (list IpAddr) :=
  match answers with
  | O => Ok []
  | S answers =>
      offset ← skip_dns_name packet offset;
      if len packet <? offset + 10 then Err (mkIoError UnexpectedEof "truncated DNS answer")
      else
        answer_type ← read_u16 packet offset;
        answer_class ← read_u16 packet (offset + 2);
        rdlen ← read_u16 packet (offset + 8);
        let offset := offset + 10 in
        if len packet <? offset + rdlen then Err (mkIoError UnexpectedEof "truncated DNS rdata")
        else
          rdata ← slice packet offset (offset + rdlen);
          addrs ← record_address answer_class answer_type qtype rdlen rdata;
          more ← read_answers answers packet qtype (offset + rdlen);
          Ok (addrs ++ more)
  end.

(** linux_proc.rs [parse_dns_response] 1970-1998 (addresses; the port is 0) *)
Definition parse_dns_response (packet : list byte) (expected_id qtype : N)
  : result IoError (list IpAddr) :=
  if len packet <? 12 then Err (mkIoError InvalidData "short DNS response")
  else
    response_id ← read_u16 packet 0;
    if negb (response_id =? expected_id) then Err (mkIoError InvalidData "mismatched DNS response id")
    else
      flags ← read_u16 packet 2;
      if negb (N.land flags 0xf =? 0) then Err (mkIoError InvalidData "DNS response returned an error")
      else
        questions ← read_u16 packet 4;
        answers ← read_u16 packet 6;
        offset ← skip_questions (N.to_nat questions) packet 12;
        read_answers (N.to_nat answers) packet qtype offset.

Section resolve.
(** Sending a query and receiving at most 1232 bytes; the clock at each query *)
Context (exchange : string → list byte → result IoError (list byte)).
Context (nanos : N → N).

(** linux_proc.rs [query_dns_records] *)
Definition query_dns_records (server_addr host : string) (qtype : N) : result IoError (list IpAddr) :=
  let query_id := dns_query_id (nanos qtype) host qtype in
  query ← build_dns_query query_id host qtype;
  response ← exchange server_addr query;
  parse_dns_response response query_id qtype.

(** linux_proc.rs [resolve_host_with_dns_server]; [to_socket_addrs] looks the server up *)
Definition resolve_host_with_dns_server (to_socket_addrs : string → result IoError (list string))
    (dns_server host : string) : result IoError (list IpAddr) :=
  match parse_ip host with
  | Some ip => Ok [ip]
  | None =>
      servers ← to_socket_addrs (normalize_dns_server dns_server);
      server_addr ← ok_or (head servers) (mkIoError InvalidInput "empty DNS server");
      a ← query_dns_records server_addr host 1;
      aaaa ← query_dns_records server_addr host 28;
      match a ++ aaaa with
      | [] => Err (mkIoError NotFound "DNS response contained no address records")
      | addrs => Ok addrs
      end
  end.
End resolve.

Example query_example :
  build_dns_query 0x1234 "a.bc." 1 = Ok [x12; x34; x01; x00; x00; x01; x00; x00; x00; x00; x00; x00;
    x01; x61; x02; x62; x63; x00; x00; x01; x00; x01].
Proof. vm_compute. reflexivity. Qed.

(** ** Any packet is read without a panic *)

Lemma read_u16_in_range packet i : i + 2 ≤ len packet → ∃ v, read_u16 packet i = Ok v ∧ v ≤ U16_MAX.
Proof.
  intros Hi. unfold read_u16, index.
  assert (Hlook : ∀ j, j < len packet → ∃ b, packet !! N.to_nat j = Some b).
  { intros j Hj. apply lookup_lt_is_Some. unfold len in Hj. lia. }
  destruct (Hlook i) as [a ->]; [lia|]. destruct (Hlook (i + 1)) as [b ->]; [lia|].
  cbn [expect]. step_ok. eexists. split; [done|]. by apply be_value_2_le.
Qed.

Lemma checked_add_Some max a b c : checked_add max a b = Some c → c = a + b.
Proof. unfold checked_add. by case_match; intros [= <-]. Qed.

Lemma skip_loop_total fuel packet offset :
  len packet - offset < N.of_nat fuel → skip_dns_name_loop fuel packet offset ≠ Panic.
Proof.
  revert offset. induction fuel as [|fuel IH]; intros offset Hf; [lia|]. cbn [skip_dns_name_loop].
  destruct (packet !! N.to_nat offset) as [b|] eqn:Hb; [|done].
  apply lookup_lt_Some in Hb. assert (Ho : offset < len packet) by (unfold len; lia).
  destruct (_ =? 0xC0); [by destruct (packet !! _)|]. destruct (N.eqb_spec (u8 b) 0); [done|].
  destruct (checked_add _ _ _) as [o|] eqn:Ho'; cbn [ok_or]; step_ok; [|done].
  apply checked_add_Some in Ho' as ->.
  destruct (N.ltb_spec (len packet) (offset + (1 + u8 b))); [done|]. apply IH. lia.
Qed.

Lemma skip_total packet offset : skip_dns_name packet offset ≠ Panic.
Proof. apply skip_loop_total. unfold len. lia. Qed.

Lemma skip_questions_total n packet offset : skip_questions n packet offset ≠ Panic.
Proof.
  revert offset. induction n as [|n IH]; intros offset; [done|]. cbn [skip_questions].
  pose proof (skip_total packet offset). destruct (skip_dns_name packet offset); [|done..]. step_ok.
  destruct (checked_add _ _ _); cbn [ok_or]; step_ok; [|done].
  destruct (_ <? _); [done|apply IH].
Qed.

Lemma record_address_total cls ty qtype rdlen rdata :
  len rdata = rdlen → record_address cls ty qtype rdlen rdata ≠ Panic.
Proof.
  intros Hlen. unfold record_address. destruct (_ && _); [|done].
  destruct (N.eqb_spec rdlen 4) as [H4|H4]; [|rewrite andb_false_r].
  - assert (Hr : length rdata = 4%nat) by (unfold len in Hlen; lia).
    destruct rdata as [|a [|b [|c [|d [|? ?]]]]]; try done.
    destruct (_ && true); [done|]. subst rdlen. cbn. by rewrite andb_false_r.
  - destruct (N.eqb_spec rdlen 16) as [H16|H16]; [|by rewrite andb_false_r].
    destruct (_ && true); [|done]. by rewrite Hlen, H16.
Qed.

Lemma read_answers_total n packet qtype offset : read_answers n packet qtype offset ≠ Panic.
Proof.
  revert offset. induction n as [|n IH]; intros offset; [done|]. cbn [read_answers].
  pose proof (skip_total packet offset). destruct (skip_dns_name packet offset) as [o| |]; [|done..].
  step_ok. destruct (N.ltb_spec (len packet) (o + 10)); [done|].
  destruct (read_u16_in_range packet o) as (ty & -> & _); [lia|]. step_ok.
  destruct (read_u16_in_range packet (o + 2)) as (cls & -> & _); [lia|]. step_ok.
  destruct (read_u16_in_range packet (o + 8)) as (rdlen & -> & _); [lia|]. step_ok.
  destruct (N.ltb_spec (len packet) (o + 10 + rdlen)); [done|].
  rewrite slice_ok by lia. step_ok.
  pose proof (record_address_total cls ty qtype rdlen
    (take (N.to_nat (o + 10 + rdlen - (o + 10))) (drop (N.to_nat (o + 10)) packet))) as Hrec.
  destruct (record_address _ _ _ _ _); [|done|].
  - step_ok. specialize (IH (o + 10 + rdlen)). by destruct (read_answers n packet qtype _).
  - exfalso. apply Hrec; [|done]. len_lia.
Qed.

(** Whatever bytes a DNS server sends, reading the response ends with addresses or an
    error: no index is out of range, no length runs past the packet, and a name never keeps
    the parser busy (a compression pointer ends it). *)
Theorem dns_response_no_panic packet id qtype : parse_dns_response packet id qtype ≠ Panic.
Proof.
  unfold parse_dns_response. destruct (N.ltb_spec (len packet) 12); [done|].
  destruct (read_u16_in_range packet 0) as (rid & -> & _); [lia|]. step_ok. destruct (negb _); [done|].
  destruct (read_u16_in_range packet 2) as (flags & -> & _); [lia|]. step_ok. destruct (negb _); [done|].
  destruct (read_u16_in_range packet 4) as (qs & -> & _); [lia|]. step_ok.
  destruct (read_u16_in_range packet 6) as (as_ & -> & _); [lia|]. step_ok.
  pose proof (skip_questions_total (N.to_nat qs) packet 12).
  destruct (skip_questions _ packet 12); [|done..]. apply read_answers_total.
Qed.

(** ** A well-formed response *)

(** A resource record of the answer section; its owner is the name of the question *)
Record dns_record := mkRecord { rr_type : N; rr_class : N; rr_ttl : N; rr_data : list byte }.
Definition record_wf (r : dns_record) : Prop :=
  rr_type r ≤ U16_MAX ∧ rr_class r ≤ U16_MAX ∧ len (rr_data r) ≤ U16_MAX.

(** RFC 1035: the owner as a pointer to offset 12, type, class, time to live, data *)
Definition encode_record (r : dns_record) : list byte :=
  [xc0; x0c] ++ be_bytes 2 (rr_type r) ++ be_bytes 2 (rr_class r) ++ be_bytes 4 (rr_ttl r)
  ++ be_bytes 2 (len (rr_data r)) ++ rr_data r.

(** The response to the question for [name]: header, question, records *)
Definition encode_response (id flags qtype : N) (name : list byte) (records : list dns_record)
  : list byte :=
  be_bytes 2 id ++ be_bytes 2 flags ++ be_bytes 2 1 ++ be_bytes 2 (len records) ++ be_bytes 2 0
  ++ be_bytes 2 0 ++ (name ++ [x00]) ++ be_bytes 2 qtype ++ be_bytes 2 1
  ++ concat (encode_record <$> records).

(** The address of a record for a question of type [qtype] *)
Definition address_of (qtype : N) (r : dns_record) : option IpAddr :=
  if (rr_class r =? 1) && (rr_type r =? qtype) then
    if (qtype =? 1) && (len (rr_data r) =? 4) then Some (V4 (be_value (rr_data r)))
    else if (qtype =? 28) && (len (rr_data r) =? 16) then Some (V6 (be_value (rr_data r)))
    else None
  else None.

Lemma packet_u16_app pre v rest i :
  len pre = i → v ≤ U16_MAX → read_u16 (pre ++ be_bytes 2 v ++ rest) i = Ok v.
Proof.
  intros <- Hv. pose proof (length_be_bytes 2 v) as Hl. pose proof (be_value_bytes_2 v Hv) as Hbe.
  destruct (be_bytes 2 v) as [|a [|b [|? ?]]]; try done. unfold read_u16. cbn [app].
  rewrite (index_app pre a (b :: rest) (len pre) eq_refl). step_ok.
  replace (pre ++ a :: b :: rest) with ((pre ++ [a]) ++ b :: rest) by (by rewrite <-app_assoc).
  rewrite (index_app (pre ++ [a]) b rest (len pre + 1)) by len_lia. step_ok. by rewrite Hbe.
Qed.

(** A length below 64 is not a pointer. *)
Lemma not_pointer n : n < 64 → N.land n 0xC0 =? 0xC0 = false.
Proof.
  intros Hn.
  assert (Hall : forallb (fun k => negb (N.land (N.of_nat k) 0xC0 =? 0xC0)) (seq 0 64) = true)
    by (vm_compute; reflexivity).
  rewrite forallb_forall in Hall. specialize (Hall (N.to_nat n)). rewrite N2Nat.id in Hall.
  apply negb_true_iff, Hall, in_seq. lia.
Qed.

Lemma skip_pointer pre rest fuel packet :
  packet = pre ++ xc0 :: x0c :: rest → skip_dns_name_loop (S fuel) packet (len pre) = Ok (len pre + 2).
Proof.
  intros ->. cbn [skip_dns_name_loop]. unfold len at 1. rewrite Nat2N.id, list_lookup_middle by done.
  change (N.land (u8 xc0) 0xC0 =? 0xC0) with true. cbv iota.
  replace (pre ++ xc0 :: x0c :: rest) with ((pre ++ [xc0]) ++ x0c :: rest) by (by rewrite <-app_assoc).
  rewrite list_lookup_middle; [done|]. rewrite length_app. cbn. unfold len. lia.
Qed.

Lemma skip_labels labels name pre rest fuel packet :
  push_labels labels = Ok name → packet = pre ++ name ++ x00 :: rest → len packet ≤ USIZE_MAX →
  (length labels < fuel)%nat →
  skip_dns_name_loop fuel packet (len pre) = Ok (len pre + len name + 1).
Proof.
  revert name pre fuel. induction labels as [|label labels IH]; intros name pre fuel Hpush Hp Hmax Hf;
    destruct fuel as [|fuel]; cbn [length] in Hf; [lia| |lia|]; cbn [skip_dns_name_loop].
  - cbn in Hpush. inv_ok. cbn [app]. unfold len at 1. rewrite Nat2N.id, list_lookup_middle by done.
    cbn. f_equal. unfold len. cbn. lia.
  - cbn [push_labels] in Hpush. destruct (is_empty label) eqn:He; [done|]. cbn [orb] in Hpush.
    destruct (N.ltb_spec 63 (str_len label)) as [|Hlen]; [done|].
    apply bind_Ok in Hpush as (rest' & Hrest & Heq). apply (inj Ok) in Heq as <-.
    assert (Hpos : str_len label ≠ 0).
    { intros H0. apply len_0 in H0. apply (f_equal str_of) in H0.
      rewrite str_of_bytes_of in H0. subst label. done. }
    assert (Hu : u8 (byte_of_N (str_len label)) = str_len label)
      by (rewrite u8_byte_of_N; apply N.mod_small; lia).
    assert (Hlook : packet !! N.to_nat (len pre) = Some (byte_of_N (str_len label))).
    { rewrite Hp. unfold len. rewrite Nat2N.id. cbn [app]. by rewrite list_lookup_middle. }
    rewrite Hlook, Hu, not_pointer by lia. rewrite (proj2 (N.eqb_neq _ _) Hpos).
    set (pre' := pre ++ byte_of_N (str_len label) :: bytes_of label).
    assert (Hpre : len pre + (1 + str_len label) = len pre') by (subst pre'; unfold str_len; len_lia).
    assert (Hp' : packet = pre' ++ rest' ++ x00 :: rest).
    { rewrite Hp. subst pre'. cbn [app]. by rewrite <-!app_assoc. }
    assert (Hle : len pre' ≤ len packet) by (rewrite Hp'; len_lia).
    unfold checked_add. rewrite Hpre, bool_decide_true by lia. cbn [ok_or]. step_ok.
    destruct (N.ltb_spec (len packet) (len pre')); [lia|].
    rewrite (IH rest' pre' fuel); [|done|done|done|lia].
    f_equal. rewrite <-Hpre. unfold str_len. len_lia.
Qed.

Lemma record_address_of r qtype :
  record_address (rr_class r) (rr_type r) qtype (len (rr_data r)) (rr_data r)
  = Ok (option_list (address_of qtype r)).
Proof.
  unfold record_address, address_of. destruct (N.eqb_spec (rr_class r) 1); [|done].
  destruct (N.eqb_spec (rr_type r) qtype) as [->|]; [|done]. cbn [andb].
  destruct (N.eqb_spec qtype 1) as [->|]; cbn [andb].
  - destruct (N.eqb_spec (len (rr_data r)) 4) as [H4|]; [|done].
    assert (Hl : length (rr_data r) = 4%nat) by (unfold len in H4; lia).
    by destruct (rr_data r) as [|a [|b [|c [|d [|? ?]]]]].
  - destruct (N.eqb_spec qtype 28) as [->|]; cbn [andb]; [|done].
    by destruct (len (rr_data r) =? 16).
Qed.

(** The records of a well-formed answer section, read one after the other *)
Lemma read_encoded_answers qtype records pre packet :
  Forall record_wf records → packet = pre ++ concat (encode_record <$> records) →
  read_answers (length records) packet qtype (len pre) = Ok (omap (address_of qtype) records).
Proof.
  revert pre. induction records as [|r records IH]; intros pre Hwf Hp; [done|].
  apply Forall_cons in Hwf as [(Hty & Hcls & Hlen) Hwf].
  cbn [length read_answers]. cbn [fmap list_fmap concat] in Hp. unfold encode_record at 1 in Hp.
  rewrite <-!app_assoc in Hp. set (tail := concat _) in Hp.
  unfold skip_dns_name. rewrite (skip_pointer pre _ (length packet) packet Hp). step_ok.
  set (pre1 := pre ++ [xc0; x0c]). set (pre2 := pre1 ++ be_bytes 2 (rr_type r)).
  set (pre3 := pre2 ++ be_bytes 2 (rr_class r) ++ be_bytes 4 (rr_ttl r)).
  set (pre4 := pre3 ++ be_bytes 2 (len (rr_data r))).
  assert (Hp1 : packet = pre1 ++ be_bytes 2 (rr_type r) ++ be_bytes 2 (rr_class r)
      ++ be_bytes 4 (rr_ttl r) ++ be_bytes 2 (len (rr_data r)) ++ rr_data r ++ tail)
    by (rewrite Hp; subst pre1; by rewrite <-!app_assoc).
  assert (Hp2 : packet = pre2 ++ be_bytes 2 (rr_class r) ++ be_bytes 4 (rr_ttl r)
      ++ be_bytes 2 (len (rr_data r)) ++ rr_data r ++ tail)
    by (rewrite Hp1; subst pre2; by rewrite <-!app_assoc).
  assert (Hp3 : packet = pre3 ++ be_bytes 2 (len (rr_data r)) ++ rr_data r ++ tail)
    by (rewrite Hp2; subst pre3; by rewrite <-!app_assoc).
  assert (Hp4 : packet = pre4 ++ rr_data r ++ tail)
    by (rewrite Hp3; subst pre4; by rewrite <-!app_assoc).
  assert (Hl1 : len pre1 = len pre + 2) by (subst pre1; len_lia).
  assert (Hl2 : len pre2 = len pre + 2 + 2) by (subst pre2; rewrite len_app, len_be_bytes; lia).
  assert (Hl3 : len pre3 = len pre + 2 + 8)
    by (subst pre3; rewrite !len_app, !len_be_bytes; lia).
  assert (Hl4 : len pre4 = len pre + 2 + 10) by (subst pre4; rewrite len_app, len_be_bytes; lia).
  assert (Hlp : len packet = len pre + 2 + 10 + len (rr_data r) + len tail)
    by (rewrite Hp4, !len_app; lia).
  destruct (N.ltb_spec (len packet) (len pre + 2 + 10)); [lia|].
  rewrite Hp1 at 1. rewrite (packet_u16_app pre1) by done. step_ok.
  rewrite Hp2 at 1. rewrite (packet_u16_app pre2) by done. step_ok.
  rewrite Hp3 at 1. rewrite (packet_u16_app pre3) by done. step_ok.
  destruct (N.ltb_spec (len packet) (len pre + 2 + 10 + len (rr_data r))); [lia|].
  rewrite Hp4 at 1. rewrite (slice_app pre4) by lia. step_ok.
  rewrite record_address_of. step_ok.
  rewrite <-Hl4, <-len_app. rewrite (IH (pre4 ++ rr_data r)); [|done|by rewrite Hp4, <-app_assoc].
  step_ok. cbn [omap list_omap]. by destruct (address_of qtype r).
Qed.

Lemma length_push_labels labels name : push_labels labels = Ok name → (length labels ≤ length name)%nat.
Proof.
  revert name. induction labels as [|label labels IH]; intros name Hp; [cbn; lia|].
  cbn [push_labels] in Hp. destruct (_ || _); [done|].
  apply bind_Ok in Hp as (rest & Hrest & Heq). apply (inj Ok) in Heq as <-.
  apply IH in Hrest. cbn [length]. rewrite length_app. lia.
Qed.

Lemma skip_one_question labels name pre qtype rest packet :
  push_labels labels = Ok name → len packet ≤ USIZE_MAX →
  packet = pre ++ (name ++ [x00]) ++ be_bytes 2 qtype ++ be_bytes 2 1 ++ rest →
  skip_questions 1 packet (len pre)
  = Ok (len (pre ++ (name ++ [x00]) ++ be_bytes 2 qtype ++ be_bytes 2 1)).
Proof.
  intros Hpush Hmax Hp. cbn [skip_questions]. unfold skip_dns_name.
  assert (Hl : len packet = len pre + len name + 1 + 4 + len rest).
  { rewrite Hp, !len_app, !len_be_bytes. unfold len. cbn. lia. }
  rewrite (skip_labels labels name pre (be_bytes 2 qtype ++ be_bytes 2 1 ++ rest));
    [|done|by rewrite Hp, <-!app_assoc|done|].
  2: { pose proof (length_push_labels _ _ Hpush). unfold len in Hl. lia. }
  step_ok. unfold checked_add. rewrite bool_decide_true by lia. cbn [ok_or]. step_ok.
  destruct (N.ltb_spec (len packet) (len pre + len name + 1 + 4)); [lia|].
  f_equal. rewrite !len_app, !len_be_bytes. unfold len. cbn. lia.
Qed.

(** C30: the addresses found in a well-formed response are exactly those of its records of the
    type asked for, in order: whatever the host name (its labels are 1 to 63 bytes long), the
    other records in between and their time to live. *)
Theorem dns_response_roundtrip labels name id flags qtype records :
  push_labels labels = Ok name → id ≤ U16_MAX → flags ≤ U16_MAX → N.land flags 0xf = 0 →
  len records ≤ U16_MAX → Forall record_wf records →
  len (encode_response id flags qtype name records) ≤ USIZE_MAX →
  parse_dns_response (encode_response id flags qtype name records) id qtype
  = Ok (omap (address_of qtype) records).
Proof.
  intros Hpush Hid Hflags Hrcode Hrecs Hwf Hmax. set (packet := encode_response _ _ _ _ _) in *.
  set (h := be_bytes 2 id ++ be_bytes 2 flags ++ be_bytes 2 1 ++ be_bytes 2 (len records)
            ++ be_bytes 2 0 ++ be_bytes 2 0).
  set (q := (name ++ [x00]) ++ be_bytes 2 qtype ++ be_bytes 2 1).
  assert (Hp : packet = h ++ q ++ concat (encode_record <$> records))
    by (subst packet h q; unfold encode_response; by rewrite <-!app_assoc).
  assert (Hh : len h = 12) by (subst h; by rewrite !len_app, !len_be_bytes).
  unfold parse_dns_response. destruct (N.ltb_spec (len packet) 12) as [Hs|_].
  { rewrite Hp, len_app in Hs. lia. }
  assert (Hu16 : ∀ i v pre rest, packet = pre ++ be_bytes 2 v ++ rest → len pre = i → v ≤ U16_MAX →
    read_u16 packet i = Ok v) by (intros i v pre rest -> ??; by apply packet_u16_app).
  unfold encode_response in packet.
  rewrite (Hu16 0 id [] _ eq_refl); [|done..]. step_ok. rewrite N.eqb_refl. cbn [negb].
  rewrite (Hu16 2 flags (be_bytes 2 id) _ eq_refl); [|done..]. step_ok.
  rewrite Hrcode. cbn [negb N.eqb].
  rewrite (Hu16 4 1 (be_bytes 2 id ++ be_bytes 2 flags) (drop 6 packet));
    [|subst packet; by rewrite <-!app_assoc|done..]. step_ok.
  rewrite (Hu16 6 (len records) (be_bytes 2 id ++ be_bytes 2 flags ++ be_bytes 2 1) (drop 8 packet));
    [|subst packet; by rewrite <-!app_assoc|done..]. step_ok.
  rewrite <-Hh at 1. change (N.to_nat 1) with 1%nat.
  rewrite (skip_one_question labels name h qtype (concat (encode_record <$> records)));
    [|done|done|rewrite Hp; subst q; by rewrite <-!app_assoc]. step_ok.
  unfold len at 1. rewrite Nat2N.id.
  apply read_encoded_answers; [done|]. rewrite Hp. subst q. by rewrite <-!app_assoc.
Qed.

Lemma dns_response_roundtrip_witness :
  parse_dns_response
    (encode_response 7 0x8180 1 [x01; x61] [mkRecord 5 1 60 [x01; x62; x00]; mkRecord 1 1 60 [x01; x02; x03; x04]])
    7 1 = Ok [V4 0x01020304].
Proof.
  refine (dns_response_roundtrip ["a"] [x01; x61] 7 0x8180 1 _ _ _ _ _ _ _ _);
    [reflexivity|vm_compute; discriminate..| | | |]; try (vm_compute; discriminate); try reflexivity.
  repeat constructor; vm_compute; discriminate.
Defined.
