(* ===== verification/NetStatic.v ===== *)
(** * Traffic accounting ([src/src/net_static.rs])

    The sampler turns the counters of the network interfaces into traffic entries: a cache
    of recent increments, merged into a store on every flush, which is what the monthly
    traffic report sums up.  Hash maps are finite maps; the [f64] settings are values of an
    abstract type with the operations the code uses; reading, parsing and writing the file
    are parameters. *)
From S2P Require Import Prelude RustStd AsyncIo.
From Stdlib Require Import Strings.Byte.
From Stdlib Require Strings.String.
Local Open Scope N_scope.

Definition I64_MAX : N := 2 ^ 63 - 1.

(** ** Interfaces that are counted *)

(** linux_proc.rs [NetworkFilter] *)
Record NetworkFilter := mkFilter { include : list string; exclude : list string }.

(** linux_proc.rs [parse_csv_list] *)
Definition parse_csv_list (value : string) : list string :=
  if is_empty value then [] else trim <$> split [[x2c]] value.

(** linux_proc.rs [NetworkFilter::from_csv] *)
Definition filter_from_csv (include exclude : string) : NetworkFilter :=
  mkFilter (parse_csv_list include) (parse_csv_list exclude).

(** linux_proc.rs [should_include_interface] *)
Definition should_include_interface (name : string) : bool :=
  negb (existsb (fun prefix => starts_with prefix name)
    ["br"; "cni"; "docker"; "podman"; "flannel"; "lo"; "veth"; "virbr"; "vmbr"]%string).

(** linux_proc.rs [NetworkFilter::should_include] *)
Definition should_include (f : NetworkFilter) (name : string) : bool :=
  if negb (should_include_interface name) then false
  else if negb (bool_decide (include f = [])) then existsb (fun item => bool_decide (item = name)) (include f)
  else negb (existsb (fun item => bool_decide (item = name)) (exclude f)).

(** linux_proc.rs [NetworkTotals] *)
Record NetworkTotals := mkTotals { total_up : N; total_down : N }.

(** ** State *)

(** The settings in days and seconds are floating-point numbers. *)
Class F64 := {
  f64 : Type;
  f64_is_zero : f64 → bool;
  (** [(seconds as f64) < x] *)
  seconds_below : N → f64 → bool;
  (** [(seconds as f64) >= x] *)
  seconds_reach : N → f64 → bool;
  (** [(days * 24.0 * 60.0 * 60.0).max(0.0) as u64] *)
  days_as_seconds : f64 → N;
  (** 31.0, 2.0 and 600.0 *)
  DEFAULT_DATA_PRESERVE_DAYS : f64;
  DEFAULT_DETECT_INTERVAL_SECONDS : f64;
  DEFAULT_SAVE_INTERVAL_SECONDS : f64;
}.

(** net_static.rs [TrafficData] *)
Record TrafficData := mkTraffic { td_timestamp : N; td_tx : N; td_rx : N }.
(** net_static.rs [CounterTotals] *)
Record CounterTotals := mkCounter { ct_tx : N; ct_rx : N }.
(** net_static.rs [InterfaceCounter] *)
Record InterfaceCounter := mkInterface { ic_name : string; ic_total_up : N; ic_total_down : N }.

Section sampler.
Context `{FF : !F64}.

(** net_static.rs [NetStaticSamplerConfig] *)
Record NetStaticSamplerConfig := mkNetConfig {
  data_preserve_days : f64;
  detect_interval_seconds : f64;
  save_interval_seconds : f64;
  nics : list string;
}.

(** net_static.rs [NetStaticSamplerConfig::default] *)
Definition net_config_default : NetStaticSamplerConfig :=
  mkNetConfig DEFAULT_DATA_PRESERVE_DAYS DEFAULT_DETECT_INTERVAL_SECONDS DEFAULT_SAVE_INTERVAL_SECONDS [].

Definition or_default (x d : f64) : f64 := if f64_is_zero x then d else x.

(** net_static.rs [NetStaticSamplerConfig::normalized] *)
Definition normalized (c : NetStaticSamplerConfig) : NetStaticSamplerConfig :=
  mkNetConfig (or_default (data_preserve_days c) DEFAULT_DATA_PRESERVE_DAYS)
    (or_default (detect_interval_seconds c) DEFAULT_DETECT_INTERVAL_SECONDS)
    (or_default (save_interval_seconds c) DEFAULT_SAVE_INTERVAL_SECONDS) (nics c).

(** net_static.rs [NetStaticSampler] *)
Record NetStaticSampler := mkSampler {
  ns_config : NetStaticSamplerConfig;
  ns_store : gmap string (list TrafficData);
  ns_cache : gmap string (list TrafficData);
  ns_last_counters : gmap string CounterTotals;
  ns_last_sample_at : option N;
  ns_last_save_at : option N;
}.

(** net_static.rs [NetStaticFile] *)
Record NetStaticFile := mkNetFile {
  file_interfaces : gmap string (list TrafficData);
  file_config : NetStaticSamplerConfig;
}.

(** Reading the file: it is missing, blank, malformed, or parsed *)
Inductive FileContents := FileMissing | FileBlank | FileMalformed | FileParsed (f : NetStaticFile).

Definition ns_set_store (m : gmap string (list TrafficData)) (s : NetStaticSampler) : NetStaticSampler :=
  mkSampler (ns_config s) m (ns_cache s) (ns_last_counters s) (ns_last_sample_at s) (ns_last_save_at s).
Definition ns_set_cache (m : gmap string (list TrafficData)) (s : NetStaticSampler) : NetStaticSampler :=
  mkSampler (ns_config s) (ns_store s) m (ns_last_counters s) (ns_last_sample_at s) (ns_last_save_at s).
Definition ns_set_counters (m : gmap string CounterTotals) (s : NetStaticSampler) : NetStaticSampler :=
  mkSampler (ns_config s) (ns_store s) (ns_cache s) m (ns_last_sample_at s) (ns_last_save_at s).
Definition ns_set_config (c : NetStaticSamplerConfig) (s : NetStaticSampler) : NetStaticSampler :=
  mkSampler c (ns_store s) (ns_cache s) (ns_last_counters s) (ns_last_sample_at s) (ns_last_save_at s).
Definition ns_set_sampled (t : N) (s : NetStaticSampler) : NetStaticSampler :=
  mkSampler (ns_config s) (ns_store s) (ns_cache s) (ns_last_counters s) (Some t) (ns_last_save_at s).
Definition ns_set_saved (t : N) (s : NetStaticSampler) : NetStaticSampler :=
  mkSampler (ns_config s) (ns_store s) (ns_cache s) (ns_last_counters s) (ns_last_sample_at s) (Some t).

Abbreviation nact := (act NetStaticSampler string).

(** ** Operations *)

(** net_static.rs [NetStaticSampler::nic_allowed] *)
Definition nic_allowed (s : NetStaticSampler) (name : string) : bool :=
  bool_decide (nics (ns_config s) = []) || existsb (fun nic => bool_decide (nic = name)) (nics (ns_config s)).

(** net_static.rs [NetStaticSampler::purge_expired] *)
Definition purge_expired (now : N) (s : NetStaticSampler) : NetStaticSampler :=
  let ttl := days_as_seconds (data_preserve_days (ns_config s)) in
  let cutoff := now - ttl in
  ns_set_store (omap (fun entries =>
    match filter (fun e => cutoff ≤ td_timestamp e) entries with
    | [] => None
    | entries => Some entries
    end) (ns_store s)) s.

(** net_static.rs [NetStaticSampler::load_from_file] *)
Definition load_from_file (contents : FileContents) (s : NetStaticSampler) : NetStaticSampler :=
  match contents with
  | FileParsed file =>
      let c := ns_config s in
      let f := file_config file in
      ns_set_config (mkNetConfig (or_default (data_preserve_days f) (data_preserve_days c))
          (or_default (detect_interval_seconds f) (detect_interval_seconds c))
          (or_default (save_interval_seconds f) (save_interval_seconds c)) (nics f))
        (ns_set_store (file_interfaces file) s)
  | _ => s
  end.

(** net_static.rs [NetStaticSampler::with_config] *)
Definition with_config (config : NetStaticSamplerConfig) (contents : FileContents) (now : N)
    : NetStaticSampler :=
  purge_expired now (load_from_file contents (mkSampler (normalized config) ∅ ∅ ∅ None None)).

(** net_static.rs [NetStaticSampler::set_nics] *)
Definition set_nics (names : list string) (s : NetStaticSampler) : NetStaticSampler :=
  let names := filter (fun nic => nic ≠ ""%string) (trim <$> names) in
  let c := ns_config s in
  let s := ns_set_config (mkNetConfig (data_preserve_days c) (detect_interval_seconds c)
                            (save_interval_seconds c) names) s in
  if bool_decide (names = []) then s else
  ns_set_cache (filter (fun p => p.1 ∈ names) (ns_cache s))
    (ns_set_counters (filter (fun p => p.1 ∈ names) (ns_last_counters s)) s).

(** net_static.rs [NetStaticSampler::sample] 111-117: whether a sample is taken *)
Definition sample_due (timestamp : N) (s : NetStaticSampler) : bool :=
  match ns_last_sample_at s with
  | Some last => negb (seconds_below (timestamp - last) (detect_interval_seconds (ns_config s)))
  | None => true
  end.

(** net_static.rs [NetStaticSampler::sample] 119-139: one interface *)
Definition sample_counter (timestamp : N) (s : NetStaticSampler) (counter : InterfaceCounter)
    : NetStaticSampler :=
  if negb (nic_allowed s (ic_name counter)) then s else
  let s :=
    match ns_last_counters s !! ic_name counter with
    | Some previous =>
        let tx := ic_total_up counter - ct_tx previous in
        let rx := ic_total_down counter - ct_rx previous in
        if (0 <? tx) || (0 <? rx) then
          ns_set_cache (<[ic_name counter :=
            default [] (ns_cache s !! ic_name counter) ++ [mkTraffic timestamp tx rx]]> (ns_cache s)) s
        else s
    | None => s
    end in
  ns_set_counters (<[ic_name counter := mkCounter (ic_total_up counter) (ic_total_down counter)]>
    (ns_last_counters s)) s.

(** net_static.rs [NetStaticSampler::sample] *)
Definition sample (timestamp : N) (counters : list InterfaceCounter) (s : NetStaticSampler)
    : NetStaticSampler :=
  if negb (sample_due timestamp s) then s else
  ns_set_sampled timestamp (foldl (sample_counter timestamp) s counters).

(** [iter().sum::<u64>()]: a panic on overflow *)
Definition sum_u64 {E} (l : list N) : result E N :=
  foldl (fun acc x => a ← acc; expect (checked_add U64_MAX a x)) (Ok 0) l.

(** net_static.rs [NetStaticSampler::flush_cache] 228-235: the entries of one interface *)
Definition flush_entry (timestamp : N) (p : string * list TrafficData) : nact unit :=
  let '(name, entries) := p in
  tx ← try_ (sum_u64 (td_tx <$> entries));
  rx ← try_ (sum_u64 (td_rx <$> entries));
  modify (fun s =>
    if (0 <? tx) || (0 <? rx) then
      ns_set_store (<[name := default [] (ns_store s !! name) ++ [mkTraffic timestamp tx rx]]> (ns_store s)) s
    else s).

(** net_static.rs [NetStaticSampler::flush_cache] *)
Definition flush_cache (timestamp : N) : nact unit :=
  s ← get;
  _ ← modify (ns_set_cache ∅);
  for_each (map_to_list (ns_cache s)) (flush_entry timestamp).

(** net_static.rs [NetStaticSampler::flush] ([saved] is the result of writing the file) *)
Definition flush (timestamp : N) (saved : result string unit) : nact unit :=
  _ ← flush_cache timestamp;
  _ ← modify (purge_expired timestamp);
  _ ← try_ saved;
  modify (ns_set_saved timestamp).

(** net_static.rs [NetStaticSampler::flush_if_due] *)
Definition flush_if_due (timestamp : N) (saved : result string unit) : nact unit :=
  s ← get;
  let should_flush :=
    match ns_last_save_at s with
    | Some last => seconds_reach (timestamp - last) (save_interval_seconds (ns_config s))
    | None => true
    end in
  if should_flush then flush timestamp saved else mret tt.

(** net_static.rs [u64_to_i64] *)
Definition u64_to_i64 (value : N) : N := if bool_decide (value ≤ I64_MAX) then value else I64_MAX.

Definition entry_between (start stop : N) (e : TrafficData) : bool :=
  negb ((negb (bool_decide (start = 0)) && (td_timestamp e <? start))
        || (negb (bool_decide (stop = 0)) && (stop <? td_timestamp e))).

Definition add_entry (t : NetworkTotals) (e : TrafficData) : NetworkTotals :=
  mkTotals (saturating_add I64_MAX (total_up t) (u64_to_i64 (td_tx e)))
    (saturating_add I64_MAX (total_down t) (u64_to_i64 (td_rx e))).

(** net_static.rs [NetStaticSampler::add_totals_between] *)
Definition add_totals_between (values : gmap string (list TrafficData)) (start stop : N)
    (f : NetworkFilter) (totals : NetworkTotals) : NetworkTotals :=
  foldl (fun t '(name, entries) =>
    if should_include f name
    then foldl (fun t e => if entry_between start stop e then add_entry t e else t) t entries
    else t) totals (map_to_list values).

(** net_static.rs [NetStaticSampler::total_between] *)
Definition total_between (s : NetStaticSampler) (start stop : N) (f : NetworkFilter) : NetworkTotals :=
  add_totals_between (ns_cache s) start stop f
    (add_totals_between (ns_store s) start stop f (mkTotals 0 0)).
End sampler.

(** ** Accounting

    [tx_of name s] is all the sent traffic the sampler holds for an interface. *)
Section accounting.
Context `{FF : !F64}.
Implicit Types s : NetStaticSampler.

Definition held_tx (m : gmap string (list TrafficData)) (name : string) : N :=
  sumN (td_tx <$> default [] (m !! name)).
Definition tx_of (name : string) s : N := held_tx (ns_store s) name + held_tx (ns_cache s) name.

(** What a caller does with the sampler; a failed save is ignored *)
Inductive net_op :=
  | NetSetNics (names : list string)
  | NetSample (timestamp : N) (counters : list InterfaceCounter)
  | NetFlush (timestamp : N) (saved : result string unit)
  | NetFlushIfDue (timestamp : N) (saved : result string unit).

(** [None] is a panic; nothing waits. *)
Definition unless_crash (p : NetStaticSampler * outcome string unit) : option NetStaticSampler :=
  match p with (s, (Done _ | Fail _)) => Some s | _ => None end.
Definition net_apply (o : net_op) s : option NetStaticSampler :=
  match o with
  | NetSetNics names => Some (set_nics names s)
  | NetSample t cs => Some (sample t cs s)
  | NetFlush t saved => unless_crash (flush t saved s)
  | NetFlushIfDue t saved => unless_crash (flush_if_due t saved s)
  end.

(** The values of an interface's counter that a call takes notice of *)
Definition noticed (name : string) (o : net_op) s : list N :=
  match o with
  | NetSample t cs =>
      if sample_due t s then ic_total_up <$> filter (fun c => ic_name c = name) cs else []
  | _ => []
  end.

Fixpoint net_run (name : string) (ops : list net_op) s : option (NetStaticSampler * list N) :=
  match ops with
  | [] => Some (s, [])
  | o :: ops =>
      s1 ← net_apply o s;
      '(s', l) ← net_run name ops s1;
      Some (s', noticed name o s ++ l)
  end.

(** How much a counter has grown over a sequence of readings; a step back counts as none *)
Fixpoint growth (l : list N) : N :=
  match l with
  | a :: ((b :: _) as l') => (b - a) + growth l'
  | _ => 0
  end.

Lemma growth_snoc l x :
  growth (l ++ [x]) = growth l + match last l with Some y => x - y | None => 0 end.
Proof.
  induction l as [|a [|b l] IH]; [done|cbn; lia|].
  change (growth ((a :: b :: l) ++ [x])) with ((b - a) + growth ((b :: l) ++ [x])). rewrite IH.
  change (growth (a :: b :: l)) with ((b - a) + growth (b :: l)).
  change (last (a :: b :: l)) with (last (b :: l)). lia.
Qed.

(** For readings that never go back it is the last one less the first. *)
Lemma growth_sorted l a z :
  StronglySorted N.le l → head l = Some a → last l = Some z → growth l = z - a ∧ a ≤ z.
Proof.
  revert a. induction l as [|x [|y l] IH]; intros a Hs Ha Hz; [done| |].
  - cbn in *. simplify_eq. lia.
  - injection Ha as ->. apply StronglySorted_inv in Hs as [Hs Hx].
    destruct (IH y Hs eq_refl Hz) as [E Hle]. inversion_clear Hx.
    change (growth (a :: y :: l)) with ((y - a) + growth (y :: l)). rewrite E. lia.
Qed.

Definition kept_name (name : string) (o : net_op) : Prop :=
  match o with
  | NetSetNics names => name ∈ (trim <$> names) ∨ Forall (fun n => trim n = ""%string) names
  | _ => True
  end.

Definition op_within (t0 ttl : N) (o : net_op) : Prop :=
  match o with
  | NetSetNics _ => True
  | NetSample t _ | NetFlush t _ | NetFlushIfDue t _ => t0 ≤ t ≤ t0 + ttl
  end.

(** The state of the accounts of one interface after the readings [l] *)
Record accounts (name : string) (t0 ttl base : N) (l : list N) s : Prop := mkAccounts {
  acc_tx : tx_of name s = base + growth l;
  acc_last : ct_tx <$> ns_last_counters s !! name = last l;
  acc_store : Forall (fun e => t0 ≤ td_timestamp e) (default [] (ns_store s !! name));
  acc_allowed : nic_allowed s name = true;
  acc_ttl : days_as_seconds (data_preserve_days (ns_config s)) = ttl;
}.

Section steps.
Context (name : string) (t0 ttl base : N) (Hname : name ≠ ""%string).
Abbreviation A l s := (accounts name t0 ttl base l s).

Lemma sample_counter_accounts t c l s :
  A l s → A (l ++ (ic_total_up <$> filter (fun c => ic_name c = name) [c])) (sample_counter t s c).
Proof.
  intros [H1 H2 H3 H4 H5]. unfold sample_counter. destruct (decide (ic_name c = name)) as [E|E].
  - rewrite filter_cons_True, filter_nil, E, H4 by done. cbn [negb fmap list_fmap].
    assert (∀ m, nic_allowed m name = true → True) by done.
    destruct (ns_last_counters s !! name) as [p|] eqn:Hp; cbn in H2.
    + split; [|case_match; cbn; by rewrite lookup_insert_eq, last_snoc|by case_match..].
      rewrite growth_snoc, <- H2, N.add_assoc, <- H1. unfold tx_of, held_tx.
      destruct (_ || _) eqn:Hpos; cbn.
      * rewrite lookup_insert_eq. cbn. rewrite fmap_app, sumN_app. cbn. unfold sumN at 3. cbn. lia.
      * apply orb_false_iff in Hpos as [Hpos _]. apply N.ltb_ge in Hpos. lia.
    + split; cbn; [|by rewrite lookup_insert_eq, last_snoc|done..].
      rewrite growth_snoc, <- H2, N.add_0_r. exact H1.
  - rewrite filter_cons_False, filter_nil, app_nil_r by done. case_match; [done|].
    destruct (ns_last_counters s !! ic_name c) as [p|] eqn:Hp.
    + split; [|case_match; cbn; by rewrite lookup_insert_ne|by case_match..].
      rewrite <- H1. unfold tx_of, held_tx. case_match; [|done]. cbn. by rewrite lookup_insert_ne.
    + split; cbn; [done|by rewrite lookup_insert_ne|done..].
Qed.

Lemma sample_counters_accounts t cs l s :
  A l s → A (l ++ (ic_total_up <$> filter (fun c => ic_name c = name) cs)) (foldl (sample_counter t) s cs).
Proof.
  revert l s. induction cs as [|c cs IH]; intros l s H; [by rewrite filter_nil, app_nil_r|].
  cbn [foldl]. apply (sample_counter_accounts t c) in H. apply IH in H.
  rewrite <- app_assoc, <- fmap_app, <- filter_app in H. exact H.
Qed.

Lemma sample_accounts t cs l s : A l s → A (l ++ noticed name (NetSample t cs) s) (sample t cs s).
Proof.
  intros H. unfold sample, noticed. destruct (sample_due t s); cbn [negb]; [|by rewrite app_nil_r].
  by destruct (sample_counters_accounts t cs l s H); split.
Qed.

Lemma set_nics_accounts names l s :
  kept_name name (NetSetNics names) → A l s → A l (set_nics names s).
Proof.
  intros Hk [H1 H2 H3 H4 H5]. unfold set_nics. set (names' := filter _ _).
  case_bool_decide as Hn.
  - rewrite Hn. split; try done.
  - assert (name ∈ names') as Hin.
    { destruct Hk as [Hk|Hk]; [by apply list_elem_of_filter|]. destruct Hn. apply filter_none.
      intros x Hx. apply list_elem_of_fmap in Hx as (y & -> & Hy). eapply Forall_forall in Hk; [|done].
      intros Hx. by apply Hx, Hk. }
    assert (∀ V (m : gmap string V), filter (fun p => p.1 ∈ names') m !! name = m !! name) as Hf.
    { intros V m. rewrite map_lookup_filter. destruct (m !! name); [|done]. cbn.
      by rewrite option_guard_True. }
    split; cbn; [|by rewrite Hf|done| |done].
    + unfold tx_of, held_tx in *. cbn. by rewrite Hf.
    + unfold nic_allowed. cbn. apply orb_true_iff. right. apply existsb_exists. exists name.
      split; [by apply list_elem_of_In|by apply bool_decide_eq_true].
Qed.

(** The entries of one interface in a list of map bindings *)
Definition listed (L : list (string * list TrafficData)) : list TrafficData :=
  concat (filter (fun p => p.1 = name) L).*2.

Lemma listed_map (m : gmap string (list TrafficData)) : listed (map_to_list m) = default [] (m !! name).
Proof.
  unfold listed. destruct (m !! name) as [v|] eqn:Hm.
  - assert (filter (fun p => p.1 = name) (map_to_list m) ≡ₚ [(name, v)]) as Hp.
    { rewrite <- (insert_delete_id m name v Hm), map_to_list_insert by apply lookup_delete_eq.
      rewrite filter_cons_True by done. rewrite filter_none; [done|].
      intros [n w] Hin E. cbn in E. subst n. apply elem_of_map_to_list in Hin. by rewrite lookup_delete_eq in Hin. }
    apply Permutation_singleton_r in Hp. rewrite Hp. cbn. by rewrite app_nil_r.
  - rewrite filter_none; [done|]. intros [n w] Hin E. cbn in E. subst n. apply elem_of_map_to_list in Hin. congruence.
Qed.

Lemma sum_u64_Ok {E} l v : sum_u64 (E:=E) l = Ok v → v = sumN l.
Proof.
  unfold sum_u64. assert (∀ a, foldl (fun acc x => b ← acc; expect (checked_add U64_MAX b x)) (Ok (E:=E) a) l = Ok v →
    v = a + sumN l) as H; [|by apply H].
  induction l as [|x l IH]; intros a; cbn [foldl]; [intros [= <-]; unfold sumN; cbn; lia|].
  cbn [mbind result_bind]. unfold checked_add. case_bool_decide; cbn [expect].
  - intros ->%IH. rewrite sumN_cons. lia.
  - intros Hp. exfalso. clear -Hp. induction l; [done|auto].
Qed.

(** What flushing leaves alone *)
Definition flush_frame s s' : Prop :=
  ns_config s' = ns_config s ∧ ns_last_counters s' = ns_last_counters s ∧ ns_cache s' = ns_cache s.

Lemma flush_entry_spec t p s :
  wp (flush_entry t p) (fun _ s' => flush_frame s s'
      ∧ held_tx (ns_store s') name = held_tx (ns_store s) name + sumN (td_tx <$> listed [p])
      ∧ (t0 ≤ t → Forall (fun e => t0 ≤ td_timestamp e) (default [] (ns_store s !! name)) →
         Forall (fun e => t0 ≤ td_timestamp e) (default [] (ns_store s' !! name)))) (fun _ => True) s.
Proof.
  destruct p as [n es]. unfold flush_entry. apply wp_bind, wp_try; [|done]. intros tx ->%sum_u64_Ok.
  apply wp_bind, wp_try; [|done]. intros rx _. unfold wp, modify. unfold listed, held_tx.
  cbn [fst snd]. destruct (decide (n = name)) as [->|Hne].
  - rewrite filter_cons_True, filter_nil by done. cbn. rewrite app_nil_r. destruct (_ || _) eqn:Hpos; cbn.
    + rewrite lookup_insert_eq. cbn. rewrite fmap_app, sumN_app. split_and!; [done|cbn; unfold sumN at 2; cbn; lia|].
      intros Ht Hf. apply Forall_app. by repeat constructor.
    + apply orb_false_iff in Hpos as [Hpos _]. apply N.ltb_ge in Hpos. split_and!; [done|lia|done].
  - rewrite filter_cons_False, filter_nil by done. cbn. destruct (_ || _); cbn;
      rewrite ?lookup_insert_ne by done; (split_and!; [done|unfold sumN; cbn; lia|done]).
Qed.

Lemma flush_loop_spec t L s :
  wp (for_each L (flush_entry t)) (fun _ s' => flush_frame s s'
      ∧ held_tx (ns_store s') name = held_tx (ns_store s) name + sumN (td_tx <$> listed L)
      ∧ (t0 ≤ t → Forall (fun e => t0 ≤ td_timestamp e) (default [] (ns_store s !! name)) →
         Forall (fun e => t0 ≤ td_timestamp e) (default [] (ns_store s' !! name)))) (fun _ => True) s.
Proof.
  revert s. induction L as [|p L IH]; intros s.
  { unfold wp. cbn. split_and!; [done|unfold sumN; cbn; lia|done]. }
  cbn [for_each]. apply wp_bind. eapply wp_mono; [apply flush_entry_spec|cbn beta|done].
  intros _ s1 ((F1 & F2 & F3) & E1 & G1). eapply wp_mono; [apply IH|cbn beta|done].
  intros _ s2 ((F4 & F5 & F6) & E2 & G2). split_and!; [unfold flush_frame; split_and!; congruence| |auto].
  rewrite E2, E1. unfold listed. change (p :: L) with ([p] ++ L).
  rewrite filter_app, fmap_app, concat_app, fmap_app, sumN_app. lia.
Qed.

(** Entries that are recent enough survive a purge. *)
Lemma purge_held now s :
  now - days_as_seconds (data_preserve_days (ns_config s)) ≤ t0 →
  Forall (fun e => t0 ≤ td_timestamp e) (default [] (ns_store s !! name)) →
  default [] (ns_store (purge_expired now s) !! name) = default [] (ns_store s !! name).
Proof.
  intros Hc Hf. unfold purge_expired. cbn. rewrite lookup_omap.
  destruct (ns_store s !! name) as [es|]; [|done]. cbn in *.
  replace (filter _ es) with es; [by destruct es|].
  symmetry. induction Hf as [|e es He Hf IH]; [done|]. rewrite filter_cons_True by lia. by f_equal.
Qed.

Lemma sum_u64_no_error {E} l (e : E) : sum_u64 l ≠ Err e.
Proof.
  unfold sum_u64. assert (∀ a, a ≠ Err e →
    foldl (fun acc x => b ← acc; expect (checked_add U64_MAX b x)) a l ≠ Err e) as H; [|by apply H].
  induction l as [|x l IH]; intros a Ha; [done|]. cbn [foldl]. apply IH.
  destruct a; cbn; [|done..]. by destruct (checked_add _ _ _).
Qed.

Lemma flush_cache_no_error t e : never e (flush_cache t).
Proof.
  unfold flush_cache. apply never_bind; [apply never_get|intros s].
  apply never_bind; [apply never_modify|intros _]. apply never_for_each. intros [n es].
  apply never_bind; [apply never_try, sum_u64_no_error|intros tx].
  apply never_bind; [apply never_try, sum_u64_no_error|intros rx]. apply never_modify.
Qed.

Lemma flush_cache_accounts t l s :
  t0 ≤ t → A l s → wp (flush_cache t) (fun _ s' => A l s') (fun _ => True) s.
Proof.
  intros Ht [H1 H2 H3 H4 H5]. unfold flush_cache. apply wp_bind. unfold wp at 1, get. apply wp_bind.
  unfold wp at 1, modify. eapply wp_mono; [apply flush_loop_spec|cbn beta|done].
  intros _ s' ((F1 & F2 & F3) & E & G). cbn in F1, F2, F3, E, G. split.
  - rewrite <- H1. unfold tx_of. rewrite E, F3, listed_map. unfold held_tx.
    rewrite lookup_empty. change (sumN (td_tx <$> default [] None)) with 0. lia.
  - by rewrite F2.
  - by apply G.
  - unfold nic_allowed in *. by rewrite F1.
  - by rewrite F1.
Qed.

Lemma flush_accounts t saved l s s' :
  t0 ≤ t ≤ t0 + ttl → A l s → unless_crash (flush t saved s) = Some s' → A l s'.
Proof.
  intros Ht Ha Hr. pose proof (flush_cache_accounts t l s (proj1 Ht) Ha) as Hc.
  pose proof (fun e => flush_cache_no_error t e s) as Hn. unfold wp in Hc.
  unfold flush in Hr. unfold mbind at 1, act_bind at 1 in Hr.
  destruct (flush_cache t s) as [s1 [[]|e| |]] eqn:Hf; cbn in Hn; [|by destruct (Hn e)|done..].
  assert (A l (purge_expired t s1)) as Hp.
  { destruct Hc as [H1 H2 H3 H4 H5]. pose proof (purge_held t s1) as Hh. rewrite H5 in Hh.
    specialize (Hh ltac:(lia) H3). split; [|done|by rewrite Hh|done|done].
    rewrite <- H1. unfold tx_of, held_tx. by rewrite Hh. }
  cbv [mbind act_bind modify try_] in Hr. destruct saved; cbn in Hr; simplify_eq; [|done].
  by destruct Hp; split.
Qed.

Lemma apply_accounts o l s s' :
  kept_name name o → op_within t0 ttl o → A l s → net_apply o s = Some s' →
  A (l ++ noticed name o s) s'.
Proof.
  intros Hk Hw Ha Hr. destruct o as [names|t cs|t saved|t saved]; cbn [net_apply] in Hr.
  - injection Hr as <-. rewrite app_nil_r. by apply set_nics_accounts.
  - injection Hr as <-. by apply sample_accounts.
  - rewrite app_nil_r. by eapply flush_accounts.
  - rewrite app_nil_r. unfold flush_if_due in Hr. unfold mbind at 1, act_bind at 1, get in Hr.
    destruct (match ns_last_save_at s with Some _ => _ | None => _ end); [by eapply flush_accounts|].
    by injection Hr as <-.
Qed.

Lemma run_accounts ops l s s' k :
  Forall (kept_name name) ops → Forall (op_within t0 ttl) ops → A l s →
  net_run name ops s = Some (s', k) → A (l ++ k) s'.
Proof.
  intros Hk. revert l s s' k. induction Hk as [|o ops Ho Hk IH]; intros l s s' k Hw Ha Hr; cbn in Hr.
  { injection Hr as <- <-. by rewrite app_nil_r. }
  inversion_clear Hw as [|? ? Hwo Hws]. destruct (net_apply o s) as [s1|] eqn:H1; [|done]. cbn in Hr.
  destruct (net_run name ops s1) as [[s2 k2]|] eqn:H2; [|done]. cbn in Hr. injection Hr as <- <-.
  rewrite app_assoc. eapply IH; [done| |exact H2]. by apply apply_accounts.
Qed.

(** *** The report *)
Definition only : NetworkFilter := mkFilter [name] [].

Lemma add_entries_up es t :
  total_up t ≤ I64_MAX →
  total_up (foldl (fun t e => if entry_between 0 0 e then add_entry t e else t) t es)
  = N.min (total_up t + sumN (td_tx <$> es)) I64_MAX.
Proof.
  revert t. induction es as [|e es IH]; intros t Ht; cbn [foldl fmap list_fmap].
  { change (sumN []) with 0. lia. }
  change (entry_between 0 0 e) with true. cbn iota. rewrite IH, sumN_cons; cbn; unfold saturating_add, u64_to_i64.
  - case_bool_decide; lia.
  - lia.
Qed.

Lemma add_totals_up (m : gmap string (list TrafficData)) t :
  should_include_interface name = true → total_up t ≤ I64_MAX →
  total_up (add_totals_between m 0 0 only t) = N.min (total_up t + held_tx m name) I64_MAX.
Proof.
  intros Hn. unfold held_tx, add_totals_between. rewrite <- listed_map.
  assert (∀ n, should_include only n = bool_decide (n = name)) as Hi.
  { intros n. unfold should_include, only. cbn. rewrite orb_false_r. destruct (decide (n = name)) as [->|Hne].
    - by rewrite Hn, !bool_decide_true.
    - rewrite !bool_decide_false by done. by destruct (should_include_interface n). }
  generalize (map_to_list m). intros L. revert t. induction L as [|[n es] L IH]; intros t Ht.
  { change (sumN _) with 0. cbn [foldl]. lia. }
  cbn [foldl]. rewrite Hi. unfold listed. case_bool_decide as Hne.
  - rewrite filter_cons_True by done. cbn [fmap list_fmap concat snd]. rewrite fmap_app, sumN_app.
    rewrite IH; rewrite add_entries_up by done; [|lia]. unfold listed. lia.
  - rewrite filter_cons_False by done. by apply IH.
Qed.

Lemma report_up s :
  should_include_interface name = true → total_up (total_between s 0 0 only) = N.min (tx_of name s) I64_MAX.
Proof.
  intros Hn. unfold total_between, tx_of.
  pose proof (add_totals_up (ns_store s) (mkTotals 0 0) Hn ltac:(by_decide)) as H1. cbn [total_up] in H1.
  rewrite add_totals_up; rewrite ?H1; [lia|done|lia].
Qed.
End steps.
End accounting.


(** Traffic that is not yet flushed is lost when its interface is missing from one
    enumeration: [set_nics] with the other interfaces drops it from the cache, and the
    reported total goes down. *)
Theorem vanished_interface_loses_traffic `{FF : !F64} name other s :
  let s' := set_nics [other] s in
  trim other ≠ ""%string → trim other ≠ name →
  held_tx (ns_cache s) name ≠ 0 → tx_of name s' < tx_of name s ∧ ns_store s' = ns_store s.
Proof.
  intros s' Hne Hno Hc. unfold s', set_nics. cbn [fmap list_fmap].
  rewrite filter_cons_True, filter_nil by done. rewrite bool_decide_false by done.
  unfold tx_of, held_tx in *. cbn. rewrite map_lookup_filter.
  destruct (ns_cache s !! name) as [es|]; cbn in *; [|done].
  rewrite option_guard_False by set_solver. change (sumN (td_tx <$> default [] (None ≫= _))) with 0. split; [lia|done].
Qed.

(** ** Witnesses *)
Module NetDemo.
(** Whole seconds *)
Definition seconds : F64 := {|
  f64 := N; f64_is_zero x := x =? 0; seconds_below a x := a <? x; seconds_reach a x := x <=? a;
  days_as_seconds d := d * 86400; DEFAULT_DATA_PRESERVE_DAYS := 31;
  DEFAULT_DETECT_INTERVAL_SECONDS := 2; DEFAULT_SAVE_INTERVAL_SECONDS := 600 |}.
Definition ops : list net_op :=
  [NetSample 1000 [mkInterface "eth0" 500 90]; NetSetNics ["eth0"; "eth1"]%string;
   NetSample 1001 [mkInterface "eth0" 510 90]; NetSample 1005 [mkInterface "eth0" 700 95; mkInterface "eth1" 5 5];
   NetFlushIfDue 1006 (Err "disk full"%string); NetSample 1010 [mkInterface "eth0" 730 95]].
End NetDemo.
#[local] Existing Instance NetDemo.seconds.


Lemma vanished_interface_loses_traffic_witness :
  let s := mkSampler net_config_default ∅ {[ "eth0"%string := [mkTraffic 5 100 0] ]} ∅ None None in
  tx_of "eth0" (set_nics ["eth1"%string] s) < tx_of "eth0" s.
Proof.
  apply (vanished_interface_loses_traffic "eth0" "eth1"
    (mkSampler net_config_default ∅ {[ "eth0"%string := [mkTraffic 5 100 0] ]} ∅ None None));
    [vm_compute; discriminate|vm_compute; discriminate|vm_compute; discriminate].
Defined.
