(* ===== verification/HostMetrics.v ===== *)
(** * Metrics of the host ([src/src/linux_proc.rs])

    The pure part of the readers of [/proc]: the day a traffic month starts, memory, disks,
    interface counters, sockets and the decoding of mount points.  Values of type [i64] are
    integers; a sum that leaves the type is a panic.  Reading the files is not modelled: the
    functions take their contents. *)
From S2P Require Import Prelude RustStd RustF64 NetStatic.
From Stdlib Require Import Strings.Byte.
From Stdlib Require Strings.String.
Local Open Scope Z_scope.

(** Arithmetic on [i32] and [i64]: an overflow is a panic, or saturates *)
Definition checked_int (bits : Z) (z : Z) : result Empty_set Z :=
  if bool_decide (- 2 ^ (bits - 1) ≤ z < 2 ^ (bits - 1)) then Ok z else Panic.
Abbreviation i32 := (checked_int 32).
Abbreviation i64 := (checked_int 64).
Definition saturating_i64 (z : Z) : Z := Z.max (- 2 ^ 63) (Z.min (2 ^ 63 - 1) z).
(** [as i32] *)
Definition as_i32 (z : Z) : Z := (z + 2 ^ 31) mod 2 ^ 32 - 2 ^ 31.

Lemma checked_int_ok bits z : - 2 ^ (bits - 1) ≤ z < 2 ^ (bits - 1) → checked_int bits z = Ok z.
Proof. intros ?. unfold checked_int. by rewrite bool_decide_true. Qed.

(** ** The day a traffic month starts *)
Abbreviation ymd := (Z * Z * Z)%type.

(** linux_proc.rs [is_leap_year] *)
Definition is_leap_year (year : Z) : bool :=
  ((Z.rem year 4 =? 0) && negb (Z.rem year 100 =? 0)) || (Z.rem year 400 =? 0).

(** linux_proc.rs [days_in_month] *)
Definition days_in_month (year month : Z) : Z :=
  if bool_decide (month ∈ [1; 3; 5; 7; 8; 10; 12]) then 31
  else if bool_decide (month ∈ [4; 6; 9; 11]) then 30
  else if month =? 2 then if is_leap_year year then 29 else 28
  else 31.

(** linux_proc.rs [actual_reset_date] *)
Definition actual_reset_date (year month reset_day : Z) : result Empty_set ymd :=
  if reset_day <=? days_in_month year month then Ok (year, month, reset_day)
  else if month =? 12 then next ← i32 (year + 1); Ok (next, 1, 1)
  else Ok (year, month + 1, 1).

(** The order of dates, as tuples *)
Definition ymd_le (a b : ymd) : Prop :=
  a.1.1 < b.1.1 ∨ (a.1.1 = b.1.1 ∧ (a.1.2 < b.1.2 ∨ (a.1.2 = b.1.2 ∧ a.2 ≤ b.2))).
#[export] Instance ymd_le_dec a b : Decision (ymd_le a b).
Proof. unfold ymd_le. apply _. Defined.

(** linux_proc.rs [reset_date_ymd] *)
Definition reset_date_ymd (reset_day year month day : Z) : result Empty_set ymd :=
  if negb ((1 <=? reset_day) && (reset_day <=? 31)) then Ok (year, month, day)
  else
    current_reset ← actual_reset_date year month reset_day;
    if bool_decide (ymd_le current_reset (year, month, day)) then Ok current_reset
    else
      previous ← (if month =? 1 then previous_year ← i32 (year - 1); Ok (previous_year, 12)
                  else Ok (year, month - 1));
      actual_reset_date previous.1 previous.2 reset_day.

(** ** Memory *)

(** linux_proc.rs [MemoryValues] *)
Record MemoryValues := mkMemory { mv_total : Z; mv_used : Z }.
(** linux_proc.rs [MemorySelection] *)
Record MemorySelection := mkSelection { ms_ram : option MemoryValues; ms_swap : MemoryValues }.
(** linux_proc.rs [ProcMemInfo] *)
Record ProcMemInfo := mkMemInfo {
  mem_total : Z; mem_free : Z; mem_available : Z; buffers : Z; cached : Z;
  swap_total : Z; swap_free : Z; swap_cached : Z;
  shmem : Z; s_reclaimable : Z; zswap : Z; zswapped : Z;
}.
Definition mem_info_default : ProcMemInfo := mkMemInfo 0 0 0 0 0 0 0 0 0 0 0 0.

(** linux_proc.rs [parse_meminfo_kib_value] *)
Definition parse_meminfo_kib_value (value : string) : option Z :=
  value ← parse_uint U64_MAX value;
  if bool_decide (value ≤ I64_MAX)%N then Some (Z.of_N value) else None.

(** linux_proc.rs [parse_meminfo]: the arms *)
Definition set_meminfo (key : string) (bytes : Z) (i : ProcMemInfo) : ProcMemInfo :=
  let '(mkMemInfo mt mf ma b c st sf sc sh sr z zd) := i in
  if bool_decide (key = "MemTotal"%string) then mkMemInfo bytes mf ma b c st sf sc sh sr z zd
  else if bool_decide (key = "MemFree"%string) then mkMemInfo mt bytes ma b c st sf sc sh sr z zd
  else if bool_decide (key = "MemAvailable"%string) then mkMemInfo mt mf bytes b c st sf sc sh sr z zd
  else if bool_decide (key = "Buffers"%string) then mkMemInfo mt mf ma bytes c st sf sc sh sr z zd
  else if bool_decide (key = "Cached"%string) then mkMemInfo mt mf ma b bytes st sf sc sh sr z zd
  else if bool_decide (key = "SwapTotal"%string) then mkMemInfo mt mf ma b c bytes sf sc sh sr z zd
  else if bool_decide (key = "SwapFree"%string) then mkMemInfo mt mf ma b c st bytes sc sh sr z zd
  else if bool_decide (key = "SwapCached"%string) then mkMemInfo mt mf ma b c st sf bytes sh sr z zd
  else if bool_decide (key = "Shmem"%string) then mkMemInfo mt mf ma b c st sf sc bytes sr z zd
  else if bool_decide (key = "SReclaimable"%string) then mkMemInfo mt mf ma b c st sf sc sh bytes z zd
  else if bool_decide (key = "Zswap"%string) then mkMemInfo mt mf ma b c st sf sc sh sr bytes zd
  else if bool_decide (key = "Zswapped"%string) then mkMemInfo mt mf ma b c st sf sc sh sr z bytes
  else i.

(** One line *)
Definition meminfo_line (info : ProcMemInfo) (line : string) : ProcMemInfo :=
  match split_whitespace line with
  | key :: value :: _ =>
      match parse_meminfo_kib_value value with
      | Some value => set_meminfo (trim_end_matches x3a key) (saturating_i64 (value * 1024)) info
      | None => info
      end
  | _ => info
  end.

(** linux_proc.rs [parse_meminfo] *)
Definition parse_meminfo (contents : string) : ProcMemInfo :=
  foldl meminfo_line mem_info_default (lines contents).

(** linux_proc.rs [go_compatible_ram_base_used] *)
Definition go_compatible_ram_base_used (info : ProcMemInfo) : result Empty_set Z :=
  free_like ← i64 (mem_free info + cached info);
  free_like ← i64 (free_like + s_reclaimable info);
  free_like ← i64 (free_like + buffers info);
  if free_like <=? mem_total info then i64 (mem_total info - free_like)
  else Ok (saturating_i64 (mem_total info - mem_free info)).

(** linux_proc.rs [go_compatible_ram] *)
Definition go_compatible_ram (info : ProcMemInfo) : result Empty_set MemoryValues :=
  base ← go_compatible_ram_base_used info;
  Ok (mkMemory (mem_total info) (Z.max (saturating_i64 (base + shmem info)) 0)).

(** linux_proc.rs [go_compatible_ram_raw_used] *)
Definition go_compatible_ram_raw_used (info : ProcMemInfo) : result Empty_set MemoryValues :=
  if mem_total info <=? 0 then Ok (mkMemory 0 0) else go_compatible_ram info.

(** linux_proc.rs [go_compatible_ram_include_cache] *)
Definition go_compatible_ram_include_cache (info : ProcMemInfo) : MemoryValues :=
  mkMemory (mem_total info) (Z.max (saturating_i64 (mem_total info - mem_free info)) 0).

(** linux_proc.rs [go_compatible_swap] *)
Definition go_compatible_swap (info : ProcMemInfo) : result Empty_set MemoryValues :=
  deductions ← i64 (swap_free info + swap_cached info);
  used ← (if deductions <=? swap_total info then i64 (swap_total info - deductions)
          else Ok (saturating_i64 (swap_total info - swap_free info)));
  Ok (mkMemory (swap_total info) (Z.max used 0)).

(** linux_proc.rs [memory_selection_from_meminfo_with_modes] *)
Definition memory_selection_from_meminfo_with_modes (info : ProcMemInfo)
    (include_cache report_raw_used : bool) : result Empty_set MemorySelection :=
  ram ← (if include_cache then Ok (Some (go_compatible_ram_include_cache info))
         else if report_raw_used then Some <$> go_compatible_ram_raw_used info
         else if mem_total info <=? 0 then Ok None
         else Some <$> go_compatible_ram info);
  swap ← go_compatible_swap info;
  Ok (mkSelection ram swap).

(** linux_proc.rs [memory_values_from_meminfo_with_modes] *)
Definition memory_values_from_meminfo_with_modes (info : ProcMemInfo)
    (include_cache report_raw_used : bool) : result Empty_set (option (MemoryValues * MemoryValues)) :=
  selection ← memory_selection_from_meminfo_with_modes info include_cache report_raw_used;
  Ok ((fun ram => (ram, ms_swap selection)) <$> ms_ram selection).

(** ** Disks *)

(** linux_proc.rs [DiskValues] *)
Record DiskValues := mkDisk { dv_total : Z; dv_used : Z }.
(** linux_proc.rs [DiskMount] *)
Record DiskMount := mkMount {
  dm_device : string; dm_mountpoint : string; dm_fstype : string; dm_opts : string;
  dm_total : Z; dm_used : Z;
}.
Definition disk_default : DiskValues := mkDisk 0 0.

(** linux_proc.rs [parse_semicolon_list] *)
Definition parse_semicolon_list (value : string) : list string :=
  filter (fun item => is_empty item = false) (trim <$> split [[x3b]] value).

(** linux_proc.rs [disk_device_id] *)
Definition disk_device_id (mount : DiskMount) : string :=
  if eq_ignore_ascii_case (dm_fstype mount) "zfs" then
    match split_once "/" (dm_device mount) with
    | Some (pool, _) => pool
    | None => dm_device mount
    end
  else dm_device mount.

(** [DiskValues { total: total.max(0), used: used.clamp(0, total.max(0)) }] *)
Definition clamp_disk (total used : Z) : DiskValues :=
  mkDisk (Z.max total 0) (Z.max 0 (Z.min used (Z.max total 0))).

(** linux_proc.rs [go_compatible_disk] 1111-1115: one step of the sum *)
Definition add_disk (acc : result Empty_set DiskValues) (values : DiskValues)
  : result Empty_set DiskValues :=
  t ← acc;
  total ← i64 (dv_total t + dv_total values);
  used ← i64 (dv_used t + dv_used values);
  Ok (mkDisk total used).

Definition EXCLUDED_MOUNTPOINTS : list string :=
  ["/tmp"; "/var/tmp"; "/dev/shm"; "/run"; "/run/lock"; "/run/user"; "/var/lib/containers";
   "/var/lib/docker"; "/proc"; "/dev/pts"; "/sys"; "/sys/fs/cgroup"; "/dev/mqueue";
   "/etc/resolv.conf"; "/etc/host"; "/dev/hugepages"; "/nix/store"]%string.
Definition EXCLUDED_FSTYPES : list string :=
  ["tmpfs"; "devtmpfs"; "nfs"; "cifs"; "smb"; "vboxsf"; "9p"; "fuse"; "overlay"; "proc";
   "devpts"; "sysfs"; "cgroup"; "mqueue"; "hugetlbfs"]%string.

Section disks.
(** [str::to_lowercase], by the Unicode tables *)
Context (to_lowercase : string → string).

(** linux_proc.rs [is_physical_disk] *)
Definition is_physical_disk (mount : DiskMount) : bool :=
  if bool_decide (dm_mountpoint mount = "/"%string) then true
  else
    let mountpoint := to_lowercase (dm_mountpoint mount) in
    if existsb (fun excluded => bool_decide (mountpoint = excluded) || starts_with excluded mountpoint)
         EXCLUDED_MOUNTPOINTS then false
    else
      let fstype := to_lowercase (dm_fstype mount) in
      if bool_decide (fstype = "autofs"%string) && negb (starts_with "/dev/" (dm_device mount))
      then false
      else if bool_decide (fstype = "fuseblk"%string) then true
      else if existsb (fun excluded => bool_decide (fstype = excluded) || starts_with excluded fstype)
                EXCLUDED_FSTYPES then false
      else
        let opts := to_lowercase (dm_opts mount) in
        if contains "remote" opts || contains "network" opts then false
        else negb (starts_with "/dev/loop" (dm_device mount)).

(** linux_proc.rs [go_compatible_disk] 1091-1108: one mount *)
Definition record_mount (devices : gmap string DiskValues) (mount : DiskMount) : gmap string DiskValues :=
  if negb (is_physical_disk mount) then devices
  else
    let device_id := disk_device_id mount in
    let values := clamp_disk (dm_total mount) (dm_used mount) in
    match devices !! device_id with
    | Some existing =>
        if dv_total values <=? dv_total existing then devices else <[device_id := values]> devices
    | None => <[device_id := values]> devices
    end.

(** linux_proc.rs [go_compatible_disk] *)
Definition go_compatible_disk (mounts : list DiskMount) : result Empty_set DiskValues :=
  let devices := foldl record_mount ∅ mounts in
  foldl add_disk (Ok disk_default) (map_to_list devices).*2.

(** linux_proc.rs [go_compatible_disk_with_mountpoints] *)
Definition go_compatible_disk_with_mountpoints (mounts : list DiskMount) (include_mountpoints : string)
  : result Empty_set DiskValues :=
  if is_empty include_mountpoints then go_compatible_disk mounts
  else
    let include := parse_semicolon_list include_mountpoints in
    if bool_decide (include = []) then Ok disk_default
    else
      foldl (fun total mount => add_disk total (clamp_disk (dm_total mount) (dm_used mount)))
        (Ok disk_default)
        (filter (fun mount => existsb (fun item => bool_decide (item = dm_mountpoint mount)) include = true)
           mounts).

(** linux_proc.rs [go_compatible_disk_from_mountpoint_lookup] *)
Definition go_compatible_disk_from_mountpoint_lookup (include_mountpoints : string)
    (lookup : string → option DiskValues) : result Empty_set DiskValues :=
  foldl (fun total values => add_disk total (clamp_disk (dv_total values) (dv_used values)))
    (Ok disk_default)
    (omap lookup (parse_semicolon_list include_mountpoints)).

(** linux_proc.rs [collect_disk_values_with_mountpoints]; [statvfs] is a parameter *)
Definition collect_disk_values_with_mountpoints (disk_usage_for_mountpoint : string → option DiskValues)
    (mounts : list DiskMount) (include_mountpoints : string) : result Empty_set DiskValues :=
  if is_empty include_mountpoints then go_compatible_disk mounts
  else go_compatible_disk_from_mountpoint_lookup include_mountpoints disk_usage_for_mountpoint.
End disks.

(** The fields of [libc::statvfs] that are read *)
Record statvfs := mkStatvfs { f_frsize : N; f_bsize : N; f_blocks : N; f_bfree : N }.

(** linux_proc.rs [u128_to_i64_saturating] *)
Definition u128_to_i64_saturating (value : N) : Z := Z.of_N (N.min value I64_MAX).

(** linux_proc.rs [disk_usage_for_mountpoint] 2739-2751: the values of a [statvfs] *)
Definition disk_usage_of_statvfs (stat : statvfs) : DiskValues :=
  let block_size := if (0 <? f_frsize stat)%N then f_frsize stat else f_bsize stat in
  mkDisk (u128_to_i64_saturating (f_blocks stat * block_size))
         (u128_to_i64_saturating ((f_blocks stat - f_bfree stat) * block_size)).

(** ** Mount points *)

(** An escaped byte: three octal digits, at most 255 ([u8::from_str_radix] on three ASCII
    digits) *)
Definition octal_byte (a b c : byte) : option byte :=
  x ← digit_val 8 a; y ← digit_val 8 b; z ← digit_val 8 c;
  let v := (x * 64 + y * 8 + z)%N in
  if (v <=? 255)%N then Some (byte_of_N v) else None.

(** linux_proc.rs [decode_proc_mount_field] 2763-2782: the loop *)
Fixpoint decode_mount_bytes (l : list byte) : list byte :=
  match l with
  | [] => []
  | x :: rest =>
      match rest with
      | a :: b :: c :: rest' =>
          if bool_decide (x = x5c) then
            match octal_byte a b c with
            | Some v => v :: decode_mount_bytes rest'
            | None => x :: decode_mount_bytes rest
            end
          else x :: decode_mount_bytes rest
      | _ => x :: decode_mount_bytes rest
      end
  end.

(** linux_proc.rs [decode_proc_mount_field] *)
Definition decode_proc_mount_field (value : string) : string :=
  from_utf8_lossy (decode_mount_bytes (bytes_of value)).

(** linux_proc.rs [parse_proc_mount_options]; of two lines for a mount point the later counts *)
Definition parse_proc_mount_options (contents : string) : gmap string string :=
  foldl (fun m line =>
           match split_whitespace line with
           | _ :: mountpoint :: _ :: opts :: _ => <[decode_proc_mount_field mountpoint := opts]> m
           | _ => m
           end) ∅ (lines contents).

(** ** Counters of the network interfaces *)

(** The message of a [ParseIntError] of [str::parse::<uN>]: the first byte that fails decides *)
Fixpoint digits_error (max acc : N) (l : list byte) : string :=
  match l with
  | [] => ""
  | b :: l =>
      match digit_val 10 b with
      | None => "invalid digit found in string"
      | Some d =>
          if (acc * 10 + d <=? max)%N then digits_error max (acc * 10 + d) l
          else "number too large to fit in target type"
      end
  end.
Definition parse_int_error (max : N) (s : string) : string :=
  match bytes_of s with
  | [] => "cannot parse integer from empty string"
  | [x2b] => "invalid digit found in string"
  | x2b :: l => digits_error max 0 l
  | l => digits_error max 0 l
  end.

(** linux_proc.rs [NetworkInterfaceTotals] *)
Record NetworkInterfaceTotals := mkInterface { ni_name : string; ni_up : N; ni_down : N }.
(** linux_proc.rs [NetworkSpeedSample] *)
Record NetworkSpeedSample := mkSpeed { sp_total : NetworkTotals; sp_speed : NetworkTotals }.

(** linux_proc.rs [parse_net_dev_bytes] *)
Definition parse_net_dev_bytes (value : string) : result string N :=
  match parse_uint U64_MAX value with
  | Some bytes => Ok (N.min bytes I64_MAX)
  | None => Err ("invalid network IO counter: " +:+ parse_int_error U64_MAX value)%string
  end.

(** linux_proc.rs [validate_go_net_dev_counters] *)
Definition validate_go_net_dev_counters (fields : list string) : result string unit :=
  foldl (fun acc index => _ ← acc; field ← Prelude.index fields index;
                          _ ← parse_net_dev_bytes field; Ok tt)
    (Ok tt) [0; 1; 2; 3; 4; 8; 9; 10; 11; 12]%N.

(** linux_proc.rs [parse_net_dev_interfaces_result] *)
Fixpoint parse_net_dev_lines (lines : list string) (filter : NetworkFilter)
  : result string (list NetworkInterfaceTotals) :=
  match lines with
  | [] => Ok []
  | line :: lines =>
      match rsplit_once x3a line with
      | None => parse_net_dev_lines lines filter
      | Some (name, counters) =>
          let name := trim name in
          if negb (should_include filter name) then parse_net_dev_lines lines filter
          else
            let fields := split_whitespace counters in
            if (len fields <? 13)%N then parse_net_dev_lines lines filter
            else
              _ ← validate_go_net_dev_counters fields;
              rx ← index fields 0%N; rx_bytes ← parse_net_dev_bytes rx;
              tx ← index fields 8%N; tx_bytes ← parse_net_dev_bytes tx;
              interfaces ← parse_net_dev_lines lines filter;
              Ok (mkInterface name tx_bytes rx_bytes :: interfaces)
      end
  end.

(** linux_proc.rs [parse_net_dev_interfaces_result] *)
Definition parse_net_dev_interfaces_result (contents : string) (filter : NetworkFilter)
  : result string (list NetworkInterfaceTotals) := parse_net_dev_lines (lines contents) filter.

(** linux_proc.rs [parse_net_dev_interfaces] *)
Definition parse_net_dev_interfaces (contents : string) (filter : NetworkFilter)
  : result Empty_set (list NetworkInterfaceTotals) :=
  match parse_net_dev_interfaces_result contents filter with
  | Ok interfaces => Ok interfaces
  | Err _ => Ok []
  | Panic => Panic
  end.

(** linux_proc.rs [network_totals_from_interfaces] *)
Definition network_totals_from_interfaces (interfaces : list NetworkInterfaceTotals)
  : result Empty_set NetworkTotals :=
  foldl (fun acc interface =>
           totals ← acc;
           down ← expect (checked_add I64_MAX (total_down totals) (ni_down interface));
           up ← expect (checked_add I64_MAX (total_up totals) (ni_up interface));
           Ok (mkTotals up down))
    (Ok (mkTotals 0 0)) interfaces.

(** linux_proc.rs [parse_net_dev_with_filter] *)
Definition parse_net_dev_with_filter (contents : string) (filter : NetworkFilter)
  : result Empty_set NetworkTotals :=
  interfaces ← parse_net_dev_interfaces contents filter;
  network_totals_from_interfaces interfaces.

(** linux_proc.rs [network_speed_from_samples]; a counter that went back counts as no traffic *)
Definition network_speed_from_samples (first second : NetworkTotals) (elapsed_seconds : float64)
  : NetworkSpeedSample :=
  let elapsed := f_max elapsed_seconds f_one in
  mkSpeed second
    (mkTotals (f_as_uint I64_MAX (f_div (f_of_N (total_up second - total_up first)) elapsed))
              (f_as_uint I64_MAX (f_div (f_of_N (total_down second - total_down first)) elapsed))).

(** ** Sockets *)

(** linux_proc.rs [ProcNetSocketProtocol] *)
Inductive ProcNetSocketProtocol := SocketTcp | SocketUdp.

(** linux_proc.rs [go_tcp_status_name] *)
Definition go_tcp_status_name (status : string) : string :=
  default ""%string (list_to_map (M:=gmap string string)
    [("01", "ESTABLISHED"); ("02", "SYN_SENT"); ("03", "SYN_RECV"); ("04", "FIN_WAIT1");
     ("05", "FIN_WAIT2"); ("06", "TIME_WAIT"); ("07", "CLOSE"); ("08", "CLOSE_WAIT");
     ("09", "LAST_ACK"); ("0A", "LISTEN"); ("0B", "CLOSING")]%string !! status).

(** [str::to_ascii_uppercase] *)
Definition upper_byte (b : byte) : byte :=
  if (97 <=? u8 b)%N && (u8 b <=? 122)%N then byte_of_N (u8 b - 32) else b.
Definition to_ascii_uppercase (s : string) : string := str_of (upper_byte <$> bytes_of s).

(** [u16::from_str_radix(port, 16)] *)
Fixpoint hex_digits (max acc : N) (l : list byte) : option N :=
  match l with
  | [] => Some acc
  | b :: l =>
      d ← digit_val 16 b;
      if (acc * 16 + d <=? max)%N then hex_digits max (acc * 16 + d) l else None
  end.
Definition from_hex (max : N) (s : string) : option N :=
  match bytes_of s with
  | [] | [x2b] => None
  | x2b :: l => hex_digits max 0 l
  | l => hex_digits max 0 l
  end.

(** linux_proc.rs [proc_net_socket_addr_key] *)
Definition proc_net_socket_addr_key (value : string) : option string :=
  '(addr, port) ← split_once ":" value;
  if is_empty addr || is_empty port || negb (str_len addr mod 2 =? 0)%N
     || negb (forallb (fun byte => bool_decide (is_Some (digit_val 16 byte))) (bytes_of addr))
  then None
  else
    port ← from_hex U16_MAX port;
    Some (to_ascii_uppercase addr +:+ ":" +:+ pretty port)%string.

(** linux_proc.rs [proc_net_socket_row_key] *)
Definition proc_net_socket_row_key (line : string) (protocol : ProcNetSocketProtocol) : option string :=
  match split_whitespace line with
  | sl :: local :: remote :: st :: rest =>
      if (len rest <? 6)%N || negb (bool_decide (last (bytes_of sl) = Some x3a)) then None
      else
        local_addr ← proc_net_socket_addr_key local;
        remote_addr ← proc_net_socket_addr_key remote;
        let status := match protocol with
                      | SocketTcp => go_tcp_status_name st
                      | SocketUdp => "NONE"%string
                      end in
        Some (local_addr +:+ "|" +:+ remote_addr +:+ "|" +:+ status)%string
  | _ => None
  end.

(** linux_proc.rs [count_socket_entries_for_protocol] *)
Definition count_socket_entries_for_protocol (contents : string) (protocol : ProcNetSocketProtocol) : Z :=
  let rows := filter (fun line => negb (is_empty line) && negb (starts_with "sl " line) = true)
                (trim <$> lines contents) in
  as_i32 (Z.of_nat (size (list_to_set (C:=gset string)
    (omap (fun line => proc_net_socket_row_key line protocol) rows)))).

(** linux_proc.rs [count_socket_entries] *)
Definition count_socket_entries (contents : string) : Z :=
  count_socket_entries_for_protocol contents SocketTcp.

Section sockets.
(** [fs::read_to_string] of a file below the root of [/proc]; [None] is an error *)
Context (read_to_string : string → option string).

(** linux_proc.rs [count_proc_sockets_in_root] *)
Definition count_proc_sockets_in_root (relative_paths : list string) (protocol : ProcNetSocketProtocol)
    (label display_path : string) : result string Z :=
  let contents := omap read_to_string relative_paths in
  total ← foldl (fun acc c => total ← acc;
                   match i32 (total + count_socket_entries_for_protocol c protocol) with
                   | Ok total => Ok total
                   | _ => Panic
                   end) (Ok 0) contents;
  if bool_decide (contents = [])
  then Err ("failed to get " +:+ label +:+ " connections: " +:+ display_path +:+ " is not readable")%string
  else Ok total.

(** linux_proc.rs [count_tcp_udp_sockets_in_proc_root] *)
Definition count_tcp_udp_sockets_in_proc_root : result string (Z * Z) :=
  tcp ← count_proc_sockets_in_root ["net/tcp"; "net/tcp6"]%string SocketTcp "TCP" "/proc/net/tcp";
  udp ← count_proc_sockets_in_root ["net/udp"; "net/udp6"]%string SocketUdp "UDP" "/proc/net/udp";
  Ok (tcp, udp).
End sockets.

(** Three of the repository's own tests, on the model *)
Definition newline : string := str_of [x0a].

Example net_dev_minimum_columns :
  parse_net_dev_with_filter
    (newline +:+ "Inter-|   Receive                       |  Transmit" +:+ newline
     +:+ " eth0: 10 0 0 0 0 0 0 0 20 0 0 0 0" +:+ newline)%string (mkFilter [] [])
  = Ok (mkTotals 20 10).
Proof. vm_compute. reflexivity. Qed.

Example socket_rows_deduplicated :
  count_socket_entries
    (newline +:+ "  sl  local_address rem_address   st tx_queue rx_queue tr tm->when" +:+ newline
     +:+ "   0: 0100007F:0035 00000000:0000 0A 0:0 00:0 0     0        0 100" +:+ newline
     +:+ "   1: 0100007F:0035 00000000:0000 0A 0:0 00:0 0     0        0 101" +:+ newline
     +:+ "   2: 00000000:1F90 00000000:0000 0A 0:0 00:0 0     0        0 102" +:+ newline)%string
  = 2.
Proof. vm_compute. reflexivity. Qed.

Example meminfo_example :
  let i := parse_meminfo ("MemTotal:  1000 kB" +:+ newline +:+ "MemFree: 400 kB" +:+ newline
                          +:+ "Cached: 100 kB" +:+ newline +:+ "Shmem: 10 kB")%string in
  go_compatible_ram i = Ok (mkMemory 1024000 (510 * 1024)).
Proof. vm_compute. reflexivity. Qed.
