(* ===== verification/HostLaws.v ===== *)
(** * What the metrics of the host mean ([src/src/linux_proc.rs])

    The first day of the traffic month is the last reset date that has come; a disk is counted
    once however often it is mounted; mount points the kernel has escaped are read back; the
    memory in use is what the kernel's figures leave. *)
From S2P Require Import Prelude RustStd RustF64 NetStatic HostMetrics.
From Stdlib Require Import Strings.Byte.
From Stdlib Require Strings.String.
Local Open Scope Z_scope.

(** ** The reset date *)

Lemma days_in_month_bounds y m : 28 ≤ days_in_month y m ≤ 31.
Proof. unfold days_in_month. repeat case_match; lia. Qed.

(** Dates as numbers, in the order of the calendar *)
Definition ymd_key (a : ymd) : Z := (12 * a.1.1 + a.1.2) * 32 + a.2.
Definition ymd_ok (a : ymd) : Prop := 1 ≤ a.1.2 ≤ 12 ∧ 1 ≤ a.2 ≤ 31.

Lemma ymd_le_key a b : ymd_ok a → ymd_ok b → ymd_le a b ↔ ymd_key a ≤ ymd_key b.
Proof. unfold ymd_ok, ymd_le, ymd_key. lia. Qed.

(** The reset date of a month: its day, or the first of the next month *)
Lemma actual_reset_key y m rd r :
  1 ≤ m ≤ 12 → 1 ≤ rd ≤ 31 → actual_reset_date y m rd = Ok r →
  ymd_ok r ∧ (ymd_key r = (12 * y + m) * 32 + rd ∨
              (28 < rd ∧ ymd_key r = (12 * y + m + 1) * 32 + 1)).
Proof.
  intros Hm Hrd. pose proof (days_in_month_bounds y m). unfold actual_reset_date.
  destruct (Z.leb_spec rd (days_in_month y m)).
  - intros Hr. inv_ok. unfold ymd_ok, ymd_key. cbn. lia.
  - destruct (Z.eqb_spec m 12) as [->|]; intros Hr.
    + unfold checked_int in Hr. case_bool_decide; [|done]. cbn in Hr. inv_ok.
      unfold ymd_ok, ymd_key. cbn. lia.
    + inv_ok. unfold ymd_ok, ymd_key. cbn. lia.
Qed.

Lemma actual_reset_ok y m rd : - 2 ^ 31 ≤ y < 2 ^ 31 - 1 → ∃ r, actual_reset_date y m rd = Ok r.
Proof.
  intros Hy. unfold actual_reset_date. destruct (_ <=? _); [by eexists|].
  destruct (_ =? _); [|by eexists]. rewrite checked_int_ok by lia. step_ok. by eexists.
Qed.

Lemma actual_reset_fun y m rd r y' m' r' :
  1 ≤ m ≤ 12 → 1 ≤ m' ≤ 12 → 12 * y' + m' = 12 * y + m →
  actual_reset_date y m rd = Ok r → actual_reset_date y' m' rd = Ok r' → r' = r.
Proof.
  intros Hm Hm' Hk Hr Hr'. assert (y' = y) as -> by lia. assert (m' = m) as -> by lia. congruence.
Qed.

(** A date of the calendar, far from the ends of an [i32] *)
Definition calendar_date (a : ymd) : Prop :=
  1 ≤ a.1.2 ≤ 12 ∧ 1 ≤ a.2 ≤ days_in_month a.1.1 a.1.2 ∧ - 2 ^ 31 < a.1.1 < 2 ^ 31 - 1.

(** C32: the first day of the traffic month is the latest reset date that is not in the future,
    also when the reset day does not exist in a month (the reset is then on the first of the
    next month). *)
Theorem reset_date_latest rd y m d :
  1 ≤ rd ≤ 31 → calendar_date (y, m, d) →
  ∃ r, reset_date_ymd rd y m d = Ok r
    ∧ ymd_le r (y, m, d)
    ∧ (∃ y' m', 1 ≤ m' ≤ 12 ∧ actual_reset_date y' m' rd = Ok r)
    ∧ ∀ y' m' r', 1 ≤ m' ≤ 12 → actual_reset_date y' m' rd = Ok r' → ymd_le r' (y, m, d) → ymd_le r' r.
Proof.
  intros Hrd (Hm & Hd & Hy). cbn [fst snd] in Hm, Hd, Hy. pose proof (days_in_month_bounds y m).
  assert (Htoday : ymd_ok (y, m, d)) by (unfold ymd_ok; cbn; lia).
  unfold reset_date_ymd. rewrite (proj2 (Z.leb_le 1 rd)), (proj2 (Z.leb_le rd 31)) by lia. cbn [andb negb].
  destruct (actual_reset_ok y m rd) as [c Hc]; [lia|]. rewrite Hc. step_ok.
  destruct (actual_reset_key y m rd c Hm Hrd Hc) as [Hcok Hckey]. case_bool_decide as Hle.
  - exists c. split_and!; [done|done|by exists y, m|]. intros y' m' r' Hm' Hr' Hle'.
    destruct (actual_reset_key y' m' rd r' Hm' Hrd Hr') as [Hrok Hrkey].
    rewrite ymd_le_key in * by done. unfold ymd_key in *. cbn [fst snd] in *. lia.
  - set (p := if m =? 1 then (y - 1, 12) else (y, m - 1)).
    assert (Hprev : (if m =? 1 then previous_year ← i32 (y - 1); Ok (previous_year, 12)
                     else Ok (y, m - 1)) = Ok (E:=Empty_set) p).
    { subst p. destruct (m =? 1); [|done]. by rewrite checked_int_ok by lia. }
    rewrite Hprev. step_ok.
    assert (Hp : 1 ≤ p.2 ≤ 12 ∧ 12 * p.1 + p.2 = 12 * y + m - 1 ∧ - 2 ^ 31 ≤ p.1 < 2 ^ 31 - 1).
    { subst p. destruct (Z.eqb_spec m 1); cbn [fst snd]; lia. }
    clearbody p. destruct Hp as (Hp2 & Hpk & Hp1). destruct (actual_reset_ok p.1 p.2 rd Hp1) as [r Hr].
    destruct (actual_reset_key p.1 p.2 rd r Hp2 Hrd Hr) as [Hrok Hrkey].
    exists r. rewrite ymd_le_key in Hle by done. split_and!; [done| |by exists p.1, p.2|].
    + rewrite ymd_le_key by done. unfold ymd_key in *. cbn [fst snd] in *. lia.
    + intros y' m' r' Hm' Hr' Hle'.
      destruct (actual_reset_key y' m' rd r' Hm' Hrd Hr') as [Hr'ok Hr'key].
      destruct (decide (12 * y' + m' = 12 * y + m)) as [Hk|Hk].
      { rewrite (actual_reset_fun y m rd c y' m' r') in * by (done || lia).
        by rewrite ymd_le_key in Hle' by done. }
      destruct (decide (12 * y' + m' = 12 * y + m - 1)) as [Hk'|Hk'].
      { rewrite (actual_reset_fun p.1 p.2 rd r y' m' r') by (done || lia). unfold ymd_le. lia. }
      rewrite ymd_le_key in * by done. unfold ymd_key in *. cbn [fst snd] in *. lia.
Qed.

(** Resets on the 31st, asked for on the first of March: the month began that day. *)
Lemma reset_date_latest_witness :
  ∃ r, reset_date_ymd 31 2023 3 1 = Ok r ∧ ymd_le r (2023, 3, 1) ∧ r = (2023, 3, 1).
Proof.
  destruct (reset_date_latest 31 2023 3 1) as (r & Hr & Hle & _); [lia|vm_compute; intuition discriminate|].
  exists r. split_and!; [done|done|]. vm_compute in Hr. by injection Hr as <-.
Defined.

(** ** Disks *)

Definition sumZ (l : list Z) : Z := foldr Z.add 0 l.
Definition maxZ (l : list Z) : Z := foldr Z.max 0 l.

#[export] Instance sumZ_perm : Proper (Permutation ==> eq) sumZ.
Proof. intros l k H. induction H; unfold sumZ in *; cbn; lia. Qed.

Lemma sumZ_le {A} (f g : A → Z) l : Forall (fun x => 0 ≤ f x ≤ g x) l → 0 ≤ sumZ (f <$> l) ≤ sumZ (g <$> l).
Proof. induction 1 as [|x l Hx _ IH]; unfold sumZ in *; cbn in *; lia. Qed.

Lemma maxZ_app l k : maxZ (l ++ k) = Z.max (maxZ l) (maxZ k).
Proof. induction l as [|x l IH]; unfold maxZ in *; cbn; [|lia]. induction k; cbn in *; lia. Qed.

Lemma maxZ_le l x : x ∈ l → x ≤ maxZ l.
Proof. induction 1; unfold maxZ in *; cbn; lia. Qed.

(** A usable entry: what is used lies between nothing and all *)
Definition disk_ok (v : DiskValues) : Prop := 0 ≤ dv_used v ≤ dv_total v.

Lemma clamp_disk_ok t u : disk_ok (clamp_disk t u).
Proof. unfold disk_ok, clamp_disk. cbn. lia. Qed.

(** The first entry of the largest size *)
Definition first_largest (l : list DiskValues) : option DiskValues :=
  head (filter (fun v => dv_total v = maxZ (dv_total <$> l)) l).

Lemma head_filter_elem {A} (P : A → Prop) `{!∀ x, Decision (P x)} (l : list A) x :
  head (filter P l) = Some x → x ∈ l ∧ P x.
Proof.
  intros Hh. assert (Hx : x ∈ filter P l) by (destruct (filter P l); simplify_eq/=; by left).
  by apply list_elem_of_filter in Hx as [].
Qed.

Lemma first_largest_total l v : first_largest l = Some v → v ∈ l ∧ dv_total v = maxZ (dv_total <$> l).
Proof. intros Hf. by apply head_filter_elem in Hf. Qed.

Lemma maxZ_attained (l : list Z) : l ≠ [] → Forall (Z.le 0) l → maxZ l ∈ l.
Proof.
  intros Hne Hpos. induction Hpos as [|x l Hx Hpos IH]; [done|].
  change (maxZ (x :: l)) with (Z.max x (maxZ l)). destruct l as [|y l].
  - cbn. rewrite Z.max_l by lia. by left.
  - specialize (IH ltac:(done)). destruct (Z.max_spec x (maxZ (y :: l))) as [[_ ->]|[_ ->]]; [by right|by left].
Qed.

Lemma first_largest_None l : Forall disk_ok l → first_largest l = None → l = [].
Proof.
  intros Hok Hn. destruct l as [|v l]; [done|exfalso]. unfold first_largest in Hn.
  assert (Hmax : maxZ (dv_total <$> v :: l) ∈ dv_total <$> v :: l).
  { apply maxZ_attained; [done|]. apply Forall_fmap. eapply Forall_impl; [done|]. unfold disk_ok. cbn. lia. }
  apply list_elem_of_fmap in Hmax as (w & Hw & Hin).
  assert (Hin' : w ∈ filter (fun v' => dv_total v' = maxZ (dv_total <$> v :: l)) (v :: l))
    by (apply list_elem_of_filter; auto).
  destruct (filter _ _); [by apply elem_of_nil in Hin'|done].
Qed.

(** Another mount replaces the entry only when it is larger. *)
Lemma first_largest_snoc l v :
  Forall disk_ok l → disk_ok v →
  first_largest (l ++ [v])
  = Some (match first_largest l with
          | Some e => if dv_total v <=? dv_total e then e else v
          | None => v
          end).
Proof.
  intros Hl Hv. unfold disk_ok in Hv.
  assert (Hm : maxZ (dv_total <$> l ++ [v]) = Z.max (maxZ (dv_total <$> l)) (dv_total v)).
  { rewrite fmap_app, maxZ_app. unfold maxZ at 2. cbn. lia. }
  destruct (first_largest l) as [e|] eqn:He.
  - destruct (first_largest_total l e He) as [Hin Het]. unfold first_largest in *.
    rewrite Hm, filter_app. destruct (Z.leb_spec (dv_total v) (dv_total e)).
    + rewrite Z.max_l by lia. rewrite head_app. by destruct (filter _ l); simplify_eq/=.
    + rewrite Z.max_r by lia. replace (filter _ l) with (@nil DiskValues).
      2: { symmetry. apply filter_none. intros w Hw Hwt.
           apply (list_elem_of_fmap_2 dv_total) in Hw. apply maxZ_le in Hw. lia. }
      rewrite filter_cons_True; done.
  - apply first_largest_None in He as ->; [|done]. unfold first_largest. cbn [app] in *.
    rewrite filter_cons_True; [done|]. unfold maxZ. cbn. lia.
Qed.

Section disk_laws.
Context (to_lowercase : string → string).
Local Abbreviation physical := (is_physical_disk to_lowercase).

(** The values of the mounts of a device, and its entry *)
Definition values_of (id : string) (mounts : list DiskMount) : list DiskValues :=
  (fun m => clamp_disk (dm_total m) (dm_used m))
    <$> filter (fun m => physical m = true ∧ disk_device_id m = id) mounts.
Definition device_ids (mounts : list DiskMount) : list string :=
  remove_dups (disk_device_id <$> filter (fun m => physical m = true) mounts).
Definition device_values (mounts : list DiskMount) (id : string) : DiskValues :=
  default disk_default (first_largest (values_of id mounts)).

Lemma values_of_ok id mounts : Forall disk_ok (values_of id mounts).
Proof. apply Forall_fmap, Forall_forall. intros m _. apply clamp_disk_ok. Qed.

Lemma devices_lookup mounts id :
  foldl (record_mount to_lowercase) ∅ mounts !! id = first_largest (values_of id mounts).
Proof.
  induction mounts as [|m mounts IH] using rev_ind; [done|]. rewrite foldl_snoc.
  set (devices := foldl _ _ _) in *. unfold values_of. rewrite filter_app, fmap_app. fold (values_of id mounts).
  unfold record_mount. destruct (physical m) eqn:Hphys; cbn [negb].
  2: { rewrite filter_cons_False, filter_nil by (intros []; congruence). by rewrite app_nil_r. }
  destruct (decide (disk_device_id m = id)) as [Hid|Hid].
  - rewrite filter_cons_True, filter_nil by done. cbn [fmap list_fmap]. rewrite Hid, IH.
    rewrite first_largest_snoc by (apply values_of_ok || apply clamp_disk_ok).
    destruct (first_largest _) as [e|] eqn:He; [|by rewrite lookup_insert_eq].
    destruct (_ <=? _); [by rewrite IH|by rewrite lookup_insert_eq].
  - rewrite filter_cons_False, filter_nil by (intros []; congruence). rewrite app_nil_r, <-IH.
    destruct (devices !! disk_device_id m); [destruct (_ <=? _); [done|]|]; by rewrite lookup_insert_ne.
Qed.

Lemma elem_of_device_ids id mounts : id ∈ device_ids mounts ↔ values_of id mounts ≠ [].
Proof.
  unfold device_ids, values_of. rewrite elem_of_remove_dups, list_elem_of_fmap.
  setoid_rewrite list_elem_of_filter. split.
  - intros (m & -> & Hphys & Hin) Hnil. apply fmap_nil_inv in Hnil.
    assert (Hm : m ∈ filter (fun m' => physical m' = true ∧ disk_device_id m' = disk_device_id m) mounts)
      by (by apply list_elem_of_filter).
    rewrite Hnil in Hm. by apply elem_of_nil in Hm.
  - intros Hne. destruct (filter _ mounts) as [|m l] eqn:Hf; [done|].
    assert (Hm : m ∈ m :: l) by left. rewrite <-Hf in Hm. apply list_elem_of_filter in Hm as [[Hp Hid] Hin].
    by exists m.
Qed.

(** The map of the devices, as a list *)
Lemma devices_perm mounts :
  (map_to_list (foldl (record_mount to_lowercase) ∅ mounts)).*2
  ≡ₚ device_values mounts <$> device_ids mounts.
Proof.
  set (devices := foldl _ _ _).
  assert (Hp : map_to_list devices ≡ₚ (fun id => (id, device_values mounts id)) <$> device_ids mounts).
  { apply NoDup_Permutation; [apply NoDup_map_to_list| |].
    - apply NoDup_fmap_2_strong; [intros ? ? _ _ [=]; done|apply NoDup_remove_dups].
    - intros [id v]. rewrite elem_of_map_to_list, list_elem_of_fmap. unfold devices.
      rewrite devices_lookup. unfold device_values. setoid_rewrite elem_of_device_ids. split.
      + intros Hv. exists id. rewrite Hv. split; [done|]. intros Hnil. by rewrite Hnil in Hv.
      + intros (id' & [= -> ->] & Hne). destruct (first_largest _) eqn:Hl; [done|].
        by apply first_largest_None in Hl; [|apply values_of_ok]. }
  rewrite Hp, <-list_fmap_compose. done.
Qed.

Lemma device_values_ok mounts id : disk_ok (device_values mounts id).
Proof.
  unfold device_values. destruct (first_largest _) as [v|] eqn:Hl; [|done].
  apply first_largest_total in Hl as [Hin _]. by eapply Forall_forall in Hin; [|apply values_of_ok].
Qed.

Lemma device_values_total mounts id :
  dv_total (device_values mounts id) = maxZ (dv_total <$> values_of id mounts).
Proof.
  unfold device_values. destruct (first_largest _) as [v|] eqn:Hl; cbn.
  - by apply first_largest_total in Hl as [_ ?].
  - by apply first_largest_None in Hl as ->; [|apply values_of_ok].
Qed.
End disk_laws.

Lemma i64_ok z : - 2 ^ 63 ≤ z < 2 ^ 63 → i64 z = Ok z.
Proof. exact (checked_int_ok 64 z). Qed.
Lemma i64_over z : 2 ^ 63 ≤ z → i64 z = Panic.
Proof. intros Hz. unfold checked_int. rewrite bool_decide_false; [done|]. change (64 - 1) with 63. lia. Qed.

(** Adding entries up: a panic exactly when the sizes do not fit *)
Lemma add_disks_spec l t u :
  Forall disk_ok l → 0 ≤ u ≤ t → t < 2 ^ 63 →
  foldl add_disk (Ok (mkDisk t u)) l
  = if t + sumZ (dv_total <$> l) <? 2 ^ 63
    then Ok (mkDisk (t + sumZ (dv_total <$> l)) (u + sumZ (dv_used <$> l))) else Panic.
Proof.
  intros Hl. revert t u. induction Hl as [|v l Hv Hl IH]; intros t u Hu Ht.
  - cbn. rewrite (proj2 (Z.ltb_lt _ _)) by lia. by rewrite !Z.add_0_r.
  - unfold disk_ok in Hv. pose proof (sumZ_le dv_used dv_total l) as Hle.
    assert (Hle' : 0 ≤ sumZ (dv_used <$> l) ≤ sumZ (dv_total <$> l)) by (by apply Hle).
    change (sumZ (dv_total <$> v :: l)) with (dv_total v + sumZ (dv_total <$> l)).
    change (sumZ (dv_used <$> v :: l)) with (dv_used v + sumZ (dv_used <$> l)).
    cbn [foldl]. unfold add_disk at 2. cbn [mbind result_bind dv_total dv_used].
    destruct (decide (t + dv_total v < 2 ^ 63)) as [Hfit|Hfit].
    + rewrite !i64_ok by lia. cbn [mbind result_bind].
      rewrite IH by lia. by rewrite !Z.add_assoc.
    + rewrite (proj2 (Z.ltb_ge _ _)) by lia. rewrite (i64_over (t + _)) by lia. cbn [mbind result_bind].
      clear. by induction l.
Qed.

(** C31: a disk is counted once, however often and wherever it is mounted: the total is the sum,
    over the different devices (pools, for ZFS) of the physical mounts, of the largest size any
    mount of the device reports, and what is used is what the first mount of that size
    reports.  The order in which the devices are added up does not matter, what is used never
    exceeds the total, and the sum overflows only when the sizes together do not fit an i64. *)
Theorem disk_counts_devices_once to_lowercase mounts :
  let ids := device_ids to_lowercase mounts in
  let total := sumZ ((fun id => maxZ (dv_total <$> values_of to_lowercase id mounts)) <$> ids) in
  let used := sumZ ((fun id => dv_used (device_values to_lowercase mounts id)) <$> ids) in
  0 ≤ used ≤ total
  ∧ go_compatible_disk to_lowercase mounts
    = if total <? 2 ^ 63 then Ok (mkDisk total used) else Panic.
Proof.
  intros ids total used.
  assert (Htotal : total = sumZ ((fun id => dv_total (device_values to_lowercase mounts id)) <$> ids)).
  { unfold total. f_equal. apply list_fmap_ext. intros i id _. by rewrite device_values_total. }
  rewrite Htotal. split.
  - apply sumZ_le. apply Forall_forall. intros id _. apply device_values_ok.
  - unfold go_compatible_disk, disk_default. pose proof (devices_perm to_lowercase mounts) as Hp.
    rewrite add_disks_spec; [|rewrite Hp; apply Forall_fmap, Forall_forall; intros; apply device_values_ok|lia..].
    assert (Hsum : ∀ f, sumZ (f <$> (map_to_list (foldl (record_mount to_lowercase) ∅ mounts)).*2)
                   = sumZ ((fun id => f (device_values to_lowercase mounts id)) <$> ids)).
    { intros f. by rewrite Hp, <-list_fmap_compose. }
    by rewrite !Z.add_0_l, !Hsum.
Qed.

(** ** Mount points *)

(** The kernel writes some bytes of a mount point, the backslash among them, as three octal
    digits. *)
Definition octal_digit (v : N) : byte := byte_of_N (48 + v).
Definition escape_byte (b : byte) : list byte :=
  [x5c; octal_digit (u8 b / 64); octal_digit (u8 b / 8 mod 8); octal_digit (u8 b mod 8)].
Definition mangle (escaped : byte → bool) (l : list byte) : list byte :=
  b ← l; if escaped b then escape_byte b else [b].

Lemma octal_byte_escape b :
  octal_byte (octal_digit (u8 b / 64)) (octal_digit (u8 b / 8 mod 8)) (octal_digit (u8 b mod 8)) = Some b.
Proof. destruct b; vm_compute; reflexivity. Qed.

Lemma decode_mangled escaped l : escaped x5c = true → decode_mount_bytes (mangle escaped l) = l.
Proof.
  intros Hesc. induction l as [|b l IH]; [done|].
  change (mangle escaped (b :: l))
    with ((if escaped b then escape_byte b else [b]) ++ mangle escaped l).
  destruct (escaped b) eqn:Hb.
  - unfold escape_byte. cbn [app decode_mount_bytes]. rewrite bool_decide_true by done.
    by rewrite octal_byte_escape, IH.
  - assert (Hne : b ≠ x5c) by congruence. cbn [app decode_mount_bytes].
    rewrite bool_decide_false by done. rewrite IH. by repeat case_match.
Qed.

(** A mount point that the kernel has escaped is read back as it is, whichever bytes beside the
    backslash are escaped. *)
Theorem mount_field_roundtrip escaped path :
  escaped x5c = true → str_wf path →
  decode_proc_mount_field (str_of (mangle escaped (bytes_of path))) = path.
Proof.
  intros Hesc Hwf. unfold decode_proc_mount_field, from_utf8_lossy.
  by rewrite bytes_of_str_of, decode_mangled, lossy_bytes_valid, str_of_bytes_of.
Qed.

(** ** Memory *)

(** The figures of [/proc/meminfo] as the kernel gives them: no part exceeds the whole, and
    shared memory is part of the page cache *)
Definition meminfo_consistent (i : ProcMemInfo) : Prop :=
  0 ≤ mem_free i ∧ 0 ≤ buffers i ∧ 0 ≤ s_reclaimable i ∧ 0 ≤ shmem i ≤ cached i
  ∧ mem_free i + buffers i + s_reclaimable i + cached i ≤ mem_total i < 2 ^ 63.

(** With consistent figures the memory in use is what is neither free, nor buffers, nor
    reclaimable, nor page cache other than shared memory; it never exceeds the total, and
    neither does the figure with the cache, which is at least as large. *)
Theorem ram_used_exact i :
  meminfo_consistent i →
  go_compatible_ram i
  = Ok (mkMemory (mem_total i)
          (mem_total i - mem_free i - buffers i - s_reclaimable i - (cached i - shmem i)))
  ∧ mem_total i - mem_free i - buffers i - s_reclaimable i - (cached i - shmem i)
    ≤ mv_used (go_compatible_ram_include_cache i) ≤ mem_total i.
Proof.
  intros (Hf & Hb & Hr & Hs & Ht). split.
  - unfold go_compatible_ram, go_compatible_ram_base_used. rewrite i64_ok by lia. step_ok.
    rewrite i64_ok by lia. step_ok. rewrite i64_ok by lia. step_ok.
    rewrite (proj2 (Z.leb_le _ _)) by lia. rewrite i64_ok by lia. step_ok.
    unfold saturating_i64. do 2 f_equal. lia.
  - unfold go_compatible_ram_include_cache, saturating_i64. cbn [mv_used]. lia.
Qed.
