(* ===== verification/HostNames.v ===== *)
(** * What the host is called ([src/src/linux_proc.rs])

    The names of the processor, the operating system, the container or hypervisor, and the
    graphics card, with the readers that try one source after the other.  Files and the output
    of commands are a parameter, the [Host]; JSON decoding is one too. *)
From S2P Require Import Prelude RustStd RustF64 HostMetrics.
From Stdlib Require Import Strings.Byte.
From Stdlib Require Strings.String.
Local Open Scope N_scope.
Local Open Scope string_scope.

(** ** The Rust library *)

(** [str::trim_matches] on one byte *)
Definition trim_matches (c : byte) (s : string) : string :=
  str_of (trim_back [[c]] (trim_front [[c]] (bytes_of s))).
(** [str::strip_suffix] *)
Definition strip_suffix (p s : string) : option string :=
  str_of ∘ reverse <$> strip_bytes (reverse (bytes_of p)) (reverse (bytes_of s)).
(** [str::rsplit_once] on a string *)
Definition rsplit_once_str (p s : string) : option (string * string) :=
  (fun '(a, b) => (str_of (reverse b), str_of (reverse a)))
    <$> split_once_bytes (reverse (bytes_of p)) (reverse (bytes_of s)).
(** What [take_while] takes of the bytes (the predicates only hold of ASCII) *)
Fixpoint take_while (f : byte → bool) (l : list byte) : list byte :=
  match l with
  | b :: l => if f b then b :: take_while f l else []
  | [] => []
  end.
Definition is_digit (b : byte) : bool := bool_decide (is_Some (digit_val 10 b)).
Definition is_hexdigit (b : byte) : bool := bool_decide (is_Some (digit_val 16 b)).
Definition is_alphanumeric (b : byte) : bool := bool_decide (is_Some (digit_val 36 b)).
(** The suffixes of a byte string after the places where [p] occurs: [match_indices] (the
    patterns do not overlap themselves) *)
Fixpoint after_matches (p l : list byte) : list (list byte) :=
  match l with
  | [] => []
  | _ :: l' =>
      match strip_bytes p l with
      | Some rest => rest :: after_matches p l'
      | None => after_matches p l'
      end
  end.

(** The outcome of a command: success, the status as text, output and errors *)
Record CommandOutput := mkCommandOutput {
  co_success : bool; co_status : string; co_stdout : list byte; co_stderr : list byte;
}.
(** Files and commands; [None] is an error *)
Record Host := mkHost {
  h_read : string → option string;
  h_read_bytes : string → option (list byte);
  h_is_file : string → bool;
  h_is_dir : string → bool;
  h_command : string → list string → option CommandOutput;
}.
(** The output of a command that succeeded *)
Definition successful (o : option CommandOutput) : option (list byte) :=
  o ← o; if co_success o then Some (co_stdout o) else None.

(** ** The processor *)

(** linux_proc.rs [parse_cpuinfo_name] *)
Definition parse_cpuinfo_name (contents : string) : option string :=
  head (omap (fun line =>
    if starts_with (str_of (bytes_of "Model" ++ [x09])) line
       || starts_with (str_of (bytes_of "Hardware" ++ [x09])) line
       || starts_with (str_of (bytes_of "Processor" ++ [x09])) line
    then
      '(_, value) ← split_once ":" line;
      let name := trim value in
      if is_empty name then None else Some name
    else None) (lines contents)).

(** linux_proc.rs [parse_cpuinfo_vendor_family_name] 296-310: the loop *)
Fixpoint vendor_family_loop (ls : list string) (vendor family : string) : string * string :=
  match ls with
  | [] => (vendor, family)
  | line :: ls =>
      match split_once ":" line with
      | None => vendor_family_loop ls vendor family
      | Some (key, value) =>
          let key := trim key in
          let vendor := if bool_decide (key = "vendor_id") && is_empty vendor then trim value else vendor in
          let family := if bool_decide (key = "cpu family") && is_empty family then trim value else family in
          if negb (is_empty vendor) && negb (is_empty family) then (vendor, family)
          else vendor_family_loop ls vendor family
      end
  end.

(** linux_proc.rs [parse_cpuinfo_vendor_family_name] *)
Definition parse_cpuinfo_vendor_family_name (contents : string) : option string :=
  let '(vendor, family) := vendor_family_loop (lines contents) "" "" in
  let name := trim (vendor +:+ " " +:+ family) in
  if is_empty name then None else Some name.

(** linux_proc.rs [parse_lscpu_model_name] *)
Definition parse_lscpu_model_name (contents : string) : option string :=
  head (omap (fun line =>
    value ← strip_prefix "Model name:" line;
    let name := trim value in
    if is_empty name then None else Some name) (lines contents)).

(** linux_proc.rs [cpu_name_from_sources] *)
Definition cpu_name_from_sources (lscpu_output sysinfo_brand cpuinfo_contents : option string) : string :=
  default "Unknown"
    ((lscpu_output ≫= parse_lscpu_model_name)
     ∪ (name ← trim <$> sysinfo_brand; if is_empty name then None else Some name)
     ∪ (cpuinfo_contents ≫= parse_cpuinfo_vendor_family_name)
     ∪ (cpuinfo_contents ≫= parse_cpuinfo_name)).

(** linux_proc.rs [collect_lscpu_model_name] *)
Definition collect_lscpu_model_name (h : Host) : option string :=
  stdout ← successful (h_command h "lscpu" []);
  parse_lscpu_model_name (from_utf8_lossy stdout).

(** linux_proc.rs [collect_cpu_name] *)
Definition collect_cpu_name (h : Host) (sysinfo_brand : option string) : string :=
  match collect_lscpu_model_name h with
  | Some name => name
  | None => cpu_name_from_sources None sysinfo_brand (h_read h "/proc/cpuinfo")
  end.

(** ** The operating system *)

(** linux_proc.rs [parse_os_release_value] *)
Definition parse_os_release_value (contents key : string) : option string :=
  head (omap (fun line => trim_matches x22 <$> strip_prefix (key +:+ "=") line) (lines contents)).

(** linux_proc.rs [parse_os_release_pretty_name] *)
Definition parse_os_release_pretty_name (contents : string) : option string :=
  parse_os_release_value contents "PRETTY_NAME".

(** linux_proc.rs [parse_property_value] *)
Definition parse_property_value (contents key : string) : option string :=
  head (omap (fun line => strip_prefix (key +:+ "=") (trim line)) (lines contents)).

(** [split_once(c).map(|(v, _)| v).unwrap_or(s)] *)
Definition before (c s : string) : string :=
  match split_once c s with Some (v, _) => v | None => s end.

(** linux_proc.rs [proxmox_os_name_from_parts] *)
Definition proxmox_os_name_from_parts (pveversion_output os_release_contents : string) : option string :=
  let output := trim pveversion_output in
  if is_empty output then Some "Proxmox VE"
  else
    let version := default "" (head (omap (fun line =>
      version_part ← strip_prefix "pve-manager/" (trim line);
      Some (before "~" (before "/" version_part))) (lines output))) in
    if is_empty version then Some "Proxmox VE"
    else
      match parse_os_release_value os_release_contents "VERSION_CODENAME" with
      | Some codename =>
          if is_empty codename then Some ("Proxmox VE " +:+ version)
          else Some ("Proxmox VE " +:+ version +:+ " (" +:+ codename +:+ ")")
      | None => Some ("Proxmox VE " +:+ version)
      end.

(** linux_proc.rs [parse_synology_os_name] *)
Definition parse_synology_os_name (contents : string) : option string :=
  let '(unique, udc_check_state) := foldl (fun '(unique, state) line =>
    let line := trim line in
    match strip_prefix "unique=" line with
    | Some value => (trim_matches x22 value, state)
    | None =>
        match strip_prefix "udc_check_state=" line with
        | Some value => (unique, trim_matches x22 value)
        | None => (unique, state)
        end
    end) ("", "") (lines contents) in
  if is_empty unique || negb (contains "synology_" unique) then None
  else
    let parts := split [[x5f]] unique in
    if (len parts <? 3)%N then None
    else
      model ← to_ascii_uppercase <$> last parts;
      let name := "Synology " +:+ model +:+ " DSM" in
      Some (if is_empty udc_check_state then name else name +:+ " " +:+ udc_check_state).

(** linux_proc.rs [fnos_os_name_from_markers] *)
Definition fnos_os_name_from_markers (build_version_contents : option string) (trim_dir_exists : bool)
  : option string :=
  (contents ← build_version_contents;
   let version := trim contents in
   if is_empty version then None else Some ("fnOS " +:+ version))
  ∪ (if trim_dir_exists then Some "fnOS" else None).

(** linux_proc.rs [android_os_name_from_parts] *)
Definition android_os_name_from_parts (version model brand : string) : string :=
  "Android " +:+ version
  +:+ (if is_empty model then ""
       else if negb (is_empty brand) && negb (bool_decide (brand = model))
       then " (" +:+ brand +:+ " " +:+ model +:+ ")"
       else " (" +:+ model +:+ ")").

(** linux_proc.rs [android_os_name_from_build_prop] *)
Definition android_os_name_from_build_prop (contents : string) : option string :=
  match parse_property_value contents "ro.build.version.release" with
  | None => Some "Android"
  | Some version =>
      if is_empty version then Some "Android"
      else
        let model := default "" (parse_property_value contents "ro.product.model") in
        let brand := default "" (parse_property_value contents "ro.product.brand") in
        Some (android_os_name_from_parts version model brand)
  end.

(** linux_proc.rs [android_os_name_from_getprop_outputs] *)
Definition android_os_name_from_getprop_outputs (version_output : list byte)
    (model_output brand_output : option (list byte)) : option string :=
  match version_output with
  | [] => None
  | _ =>
      let text o := trim (from_utf8_lossy o) in
      Some (android_os_name_from_parts (text version_output)
              (default "" (text <$> model_output)) (default "" (text <$> brand_output)))
  end.

(** linux_proc.rs [kernel_version_from_uname_output] *)
Definition kernel_version_from_uname_output (output : option string) : string :=
  match output with Some output => trim output | None => "Unknown" end.

(** linux_proc.rs [collect_kernel_version] *)
Definition collect_kernel_version (h : Host) : string :=
  kernel_version_from_uname_output (from_utf8_lossy <$> successful (h_command h "uname" ["-r"])).

(** linux_proc.rs [collect_android_os_name] *)
Definition collect_android_os_name (h : Host) : option string :=
  match successful (h_command h "getprop" ["ro.build.version.release"]) with
  | Some (b :: version) =>
      android_os_name_from_getprop_outputs (b :: version)
        (successful (h_command h "getprop" ["ro.product.model"]))
        (successful (h_command h "getprop" ["ro.product.brand"]))
  | _ =>
      match (if h_is_file h "/system/build.prop" then h_read h "/system/build.prop" else None) with
      | Some contents => android_os_name_from_build_prop contents ∪ Some "Android"
      | None =>
          if bool_decide (2 ≤ length (filter (fun p => h_is_dir h p = true)
                                ["/system/app"; "/system/priv-app"; "/data/app"; "/sdcard"]))%nat
          then Some "Android" else None
      end
  end.

(** linux_proc.rs [collect_proxmox_os_name] *)
Definition collect_proxmox_os_name (h : Host) : option string :=
  stdout ← successful (h_command h "pveversion" []);
  proxmox_os_name_from_parts (from_utf8_lossy stdout) (default "" (h_read h "/etc/os-release")).

(** linux_proc.rs [collect_synology_os_name] *)
Definition collect_synology_os_name (h : Host) : option string :=
  head (omap (fun path =>
    contents ← (if h_is_file h path then h_read h path else None);
    parse_synology_os_name contents) ["/etc/synoinfo.conf"; "/etc.defaults/synoinfo.conf"])
  ∪ (if h_is_dir h "/usr/syno" then Some "Synology DSM" else None).

(** linux_proc.rs [collect_fnos_os_name] *)
Definition collect_fnos_os_name (h : Host) : option string :=
  fnos_os_name_from_markers
    (if h_is_file h "/usr/trim/BUILD_VERSION" then h_read h "/usr/trim/BUILD_VERSION" else None)
    (h_is_dir h "/usr/trim").

(** linux_proc.rs [collect_os_name] *)
Definition collect_os_name (h : Host) : string :=
  default "Linux"
    (collect_android_os_name h ∪ collect_proxmox_os_name h ∪ collect_synology_os_name h
     ∪ collect_fnos_os_name h ∪ (h_read h "/etc/os-release" ≫= parse_os_release_pretty_name)).

(** ** Containers and hypervisors *)

(** linux_proc.rs [strip_optional_scope] *)
Definition strip_optional_scope (value : string) : string := default value (strip_suffix ".scope" value).

(** linux_proc.rs [is_container_hex_id] *)
Definition is_container_hex_id (value : string) : bool :=
  (12 <=? str_len value)%N && (str_len value <=? 64)%N && forallb is_hexdigit (bytes_of value).

(** linux_proc.rs [line_has_container_id_after] *)
Definition line_has_container_id_after (line : string) (markers : list string) : bool :=
  existsb (fun marker =>
    match rsplit_once_str marker line with
    | Some (_, tail) => is_container_hex_id (strip_optional_scope tail)
    | None => false
    end) markers.

(** linux_proc.rs [line_has_required_scoped_container_id_after] *)
Definition line_has_required_scoped_container_id_after (line marker : string) : bool :=
  match ('(_, tail) ← rsplit_once_str marker line; strip_suffix ".scope" tail) with
  | Some id => is_container_hex_id id
  | None => false
  end.

(** linux_proc.rs [is_uuid_bytes] *)
Definition is_uuid_bytes (value : list byte) : bool :=
  (length value =? 36)%nat
  && forallb id (imap (fun idx b =>
       if bool_decide (idx ∈ [8; 13; 18; 23]%nat) then bool_decide (b = x2d) else is_hexdigit b) value).

(** linux_proc.rs [contains_uuid] *)
Fixpoint contains_uuid (value : list byte) : bool :=
  match value with
  | [] => false
  | _ :: rest => is_uuid_bytes (take 36 value) || contains_uuid rest
  end.

(** linux_proc.rs [line_has_kubepods_uid] *)
Definition line_has_kubepods_uid (line : string) : bool :=
  existsb (fun after =>
    match after with
    | b :: _ => (bool_decide (b = x2f) || bool_decide (b = x2e)) && contains_uuid after
    | [] => false
    end) (after_matches (bytes_of "/kubepods") (bytes_of line)).

(** linux_proc.rs [detect_container_from_cgroup] *)
Definition detect_container_from_cgroup (contents : string) : option string :=
  head (omap (fun line =>
    let line := to_ascii_lowercase line in
    if line_has_container_id_after line ["/docker-"; "/docker/"; "/cri-containerd-"; "/cri-containerd/"]
    then Some "docker"
    else if line_has_container_id_after line ["/libpod-"; "/libpod_"; "/podman-"; "/podman_"]
    then Some "podman"
    else if line_has_required_scoped_container_id_after line "/crio-" then Some "container"
    else if line_has_kubepods_uid line then Some "kubernetes"
    else
      match rsplit_once_str "/lxc/" line with
      | Some (_, tail) => if negb (is_empty tail) && negb (contains "/" tail) then Some "lxc" else None
      | None => None
      end) (lines contents)).

(** linux_proc.rs [detect_container_from_markers] *)
Definition detect_container_from_markers (has_dockerenv has_containerenv has_agent_container_marker : bool)
    (cgroup_contents : option string) : option string :=
  if has_dockerenv then Some "docker"
  else if has_containerenv
  then (cgroup_contents ≫= detect_container_from_cgroup) ∪ Some "container"
  else (cgroup_contents ≫= detect_container_from_cgroup)
       ∪ (if has_agent_container_marker then Some "container" else None).

(** linux_proc.rs [virtualization_from_cpuid_parts]: the table *)
Definition VENDOR_MAP : list (string * list string) :=
  [("kvm", ["kvm"]); ("microsoft", ["microsoft"; "hyper-v"; "msvm"; "mshyperv"]); ("vmware", ["vmware"]);
   ("xen", ["xen"]); ("bhyve", ["bhyve"]); ("qemu", ["qemu"]); ("parallels", ["parallels"]);
   ("oracle", ["oracle"; "virtualbox"; "vbox"]); ("acrn", ["acrn"])].

(** linux_proc.rs [virtualization_from_cpuid_parts] *)
Definition virtualization_from_cpuid_parts (has_hypervisor : bool) (vendor : string) : string :=
  if negb has_hypervisor then "none"
  else
    let vendor := to_ascii_lowercase (trim (trim_matches x00 vendor)) in
    if is_empty vendor then "virtualized"
    else
      default vendor (head (omap (fun '(name, keys) =>
        if existsb (fun key => bool_decide (vendor = key) || contains key vendor) keys
        then Some name else None) VENDOR_MAP)).

(** linux_proc.rs [cpuid_vendor_string] *)
Definition cpuid_vendor_string (ebx ecx edx : N) : string :=
  let le x := reverse (be_bytes 4 x) in
  trim (trim_matches x00 (from_utf8_lossy (le ebx ++ le ecx ++ le edx))).

(** linux_proc.rs [detect_by_cpuid_impl] *)
Definition detect_by_cpuid_impl (has_hypervisor : bool) (vendor : string) : string :=
  virtualization_from_cpuid_parts has_hypervisor (if has_hypervisor then vendor else "").

(** linux_proc.rs [marker_file_exists_at]: there is such a file and it is not a directory;
    [exists_at] is [fs::metadata] *)
Definition marker_file_exists_at (h : Host) (exists_at : string → bool) (path : string) : bool :=
  exists_at path && negb (h_is_dir h path).

(** linux_proc.rs [detect_virtualization]; [cpuid] is the leaf 1 bit and the vendor registers *)
Definition detect_virtualization (h : Host) (exists_at : string → bool) (cpuid : bool * (N * N * N)) : string :=
  let value := default "" (trim ∘ from_utf8_lossy <$> successful (h_command h "systemd-detect-virt" [])) in
  if negb (is_empty value) then value
  else
    let marker := marker_file_exists_at h exists_at in
    match detect_container_from_markers (marker "/.dockerenv") (marker "/run/.containerenv")
            (marker "/.kelicloud-agent-container" || marker "/.komari-agent-container")
            (h_read h "/proc/self/cgroup") with
    | Some container => container
    | None =>
        let '(has_hypervisor, (ebx, ecx, edx)) := cpuid in
        detect_by_cpuid_impl has_hypervisor (cpuid_vendor_string ebx ecx edx)
    end.

(** ** The graphics card *)

(** linux_proc.rs [is_display_pci_line] *)
Definition is_display_pci_line (lower_line : string) : bool :=
  contains "vga" lower_line || contains "3d" lower_line || contains "display" lower_line.

(** linux_proc.rs [extract_lspci_device_name] *)
Definition extract_lspci_device_name (line : string) : option string :=
  '(_, name) ← rsplit_once x3a line;
  let name := trim name in
  let name := match rsplit_once x28 name with Some (before_suffix, _) => trim before_suffix | None => name end in
  if is_empty name then None else Some name.

(** linux_proc.rs [is_go_excluded_cirrus_gpu_name] *)
Definition is_go_excluded_cirrus_gpu_name (lower_name : string) : bool :=
  match strip_prefix "cirrus logic " lower_name with
  | None => false
  | Some rest =>
      starts_with "gd 5" rest || starts_with "clgd 5" rest || starts_with "cl-gd 5" rest
      || starts_with "cl gd 5" rest
  end.

(** linux_proc.rs [is_excluded_gpu_name] *)
Definition is_excluded_gpu_name (name : string) : bool :=
  let lower := to_ascii_lowercase name in
  starts_with "1111" lower || is_go_excluded_cirrus_gpu_name lower || contains "virtio" lower
  || contains "vmware" lower || contains "qxl" lower || contains "hyper-v" lower.

Definition PRIORITY_VENDORS : list string :=
  ["nvidia"; "amd"; "radeon"; "intel"; "arc"; "snap"; "qualcomm"; "snapdragon"].

(** The name of a display line, when it counts *)
Definition display_name (line : string) : option string :=
  name ← extract_lspci_device_name line;
  if is_excluded_gpu_name name then None else Some name.

(** linux_proc.rs [parse_lspci_gpu_name] *)
Definition parse_lspci_gpu_name (contents : string) : option string :=
  let ls := lines contents in
  head (omap (fun line =>
    let lower := to_ascii_lowercase line in
    if is_display_pci_line lower && existsb (fun vendor => contains vendor lower) PRIORITY_VENDORS
    then display_name line else None) ls)
  ∪ head (omap (fun line =>
      if is_display_pci_line (to_ascii_lowercase line) then display_name line else None) ls).

(** linux_proc.rs [is_excluded_drm_driver] *)
Definition is_excluded_drm_driver (driver_name : string) : bool :=
  bool_decide (driver_name ∈ ["virtio-pci"; "virtio_gpu"; "bochs-drm"; "qxl"; "vmwgfx"; "cirrus";
    "vboxvideo"; "hyperv_fb"; "simpledrm"; "simplefb"; "cirrus-qemu"]).

(** linux_proc.rs [first_token_after_marker] *)
Definition first_token_after_marker (value marker : string) (digits_only : bool) : option string :=
  '(_, rest) ← split_once marker value;
  match take_while (if digits_only then is_digit else is_alphanumeric) (bytes_of rest) with
  | [] => None
  | token => Some (str_of token)
  end.

(** linux_proc.rs [allwinner_soc_model]: at one place *)
Definition allwinner_model_at (rest : list byte) : option string :=
  let digits := take_while is_digit rest in
  if bool_decide (digits = []) then None
  else
    rest ← strip_bytes (bytes_of "i-") (drop (length digits) rest);
    match take_while is_alphanumeric rest with
    | [] => None
    | model => Some (to_ascii_uppercase (str_of model))
    end.
(** linux_proc.rs [allwinner_soc_model] *)
Definition allwinner_soc_model (value : string) : option string :=
  head (omap allwinner_model_at (after_matches (bytes_of "sun") (bytes_of value))).

(** linux_proc.rs [parse_soc_gpu_model] *)
Definition parse_soc_gpu_model (driver_name : string) (raw_bytes : list byte) : option string :=
  let content := (fun b => if bool_decide (b = x00) then x20 else b) <$> raw_bytes in
  let lower := to_ascii_lowercase (from_utf8_lossy content) in
  let drv d := bool_decide (driver_name = d) in
  if drv "msm" || contains "adreno" lower then
    match first_token_after_marker lower "adreno-" true ∪ first_token_after_marker lower "adreno_" true with
    | Some model => Some ("Qualcomm Adreno " +:+ model)
    | None => Some "Qualcomm Adreno"
    end
  else if drv "panfrost" || drv "lima" || contains "mali" lower then
    match first_token_after_marker lower "mali-" false ∪ first_token_after_marker lower "mali_" false with
    | Some model => Some ("ARM Mali " +:+ to_ascii_uppercase model)
    | None => Some "ARM Mali"
    end
  else
    (if drv "vc4" || drv "vc4-drm" || drv "v3d" then
       if contains "bcm2712" lower then Some "Broadcom VideoCore VII (Pi 5)"
       else if contains "bcm2711" lower then Some "Broadcom VideoCore VI (Pi 4)"
       else if contains "bcm2837" lower || contains "bcm2835" lower then Some "Broadcom VideoCore IV"
       else None
     else None)
    ∪ (if contains "allwinner" lower || contains "sun50i" lower || contains "sun8i" lower then
         match allwinner_soc_model lower with
         | Some model => Some ("Allwinner " +:+ model)
         | None => Some "Allwinner Display Engine"
         end
       else None)
    ∪ (if drv "tegra" then
         if contains "tegra194" lower then Some "NVIDIA Tegra Xavier"
         else if contains "tegra234" lower then Some "NVIDIA Orin"
         else if contains "tegra210" lower then Some "NVIDIA Tegra X1"
         else None
       else None).

(** linux_proc.rs [sysfs_drm_gpu_name_from_driver] *)
Definition sysfs_drm_gpu_name_from_driver (driver_name : string) (compatible : option (list byte))
  : option string :=
  let driver_name := trim driver_name in
  if is_empty driver_name || is_excluded_drm_driver driver_name then None
  else
    (compatible ≫= parse_soc_gpu_model driver_name)
    ∪ (let drv d := bool_decide (driver_name = d) in
       Some (if drv "vc4" || drv "vc4-drm" then "Broadcom VideoCore IV/VI (Raspberry Pi)"
       else if drv "v3d" || drv "v3d-drm" then "Broadcom V3D (Raspberry Pi 4/5)"
       else if drv "msm" || drv "msm_drm" then "Qualcomm Adreno (Unknown Model)"
       else if drv "panfrost" then "ARM Mali (Panfrost)"
       else if drv "lima" then "ARM Mali (Lima)"
       else if drv "sun4i-drm" || drv "sunxi-drm" then "Allwinner Display Engine"
       else if drv "tegra" then "NVIDIA Tegra"
       else if drv "ast" then "ASPEED Technology, Inc. ASPEED Graphics Family"
       else if drv "i915" || drv "i915-drm" then "Intel Integrated Graphics"
       else if drv "mgag200" then "Matrox G200 Series"
       else "Direct Render Manager " +:+ driver_name)).

(** linux_proc.rs [collect_sysfs_drm_gpu_name]; [cards] are the entries of the directory with
    the name of the driver each links to *)
Definition collect_sysfs_drm_gpu_name (h : Host) (cards : option (list (string * option string)))
  : option string :=
  cards ← cards;
  head (omap (fun '(name, driver) =>
    if negb (starts_with "card" name) then None
    else
      driver_name ← driver;
      sysfs_drm_gpu_name_from_driver driver_name
        (h_read_bytes h ("/sys/class/drm/" +:+ name +:+ "/device/of_node/compatible"))) cards)
  ∪ (model ← h_read h "/sys/firmware/devicetree/base/model";
     if contains "Raspberry Pi" model then Some "Broadcom VideoCore (Integrated)" else None).

(** linux_proc.rs [collect_gpu_name] *)
Definition collect_gpu_name (h : Host) (cards : option (list (string * option string))) : string :=
  default "None"
    ((stdout ← successful (h_command h "lspci" []); parse_lspci_gpu_name (from_utf8_lossy stdout))
     ∪ collect_sysfs_drm_gpu_name h cards).
