(* ===== verification/HostAddrs.v ===== *)
(** * The addresses of the host ([src/src/linux_proc.rs])

    The addresses of the network interfaces, from the output of [ip addr show] or of
    [hostname -I], and the public ones, found in the answers of probe services by two scanners
    that stand for regular expressions.  Commands are a [Host]; the HTTP client is a parameter. *)
From S2P Require Import Prelude RustStd RustNet NetStatic HostMetrics HostNames Dns.
From Stdlib Require Import Strings.Byte.
From Stdlib Require Strings.String.
Local Open Scope string_scope.
Local Open Scope list_scope.
Local Open Scope N_scope.

(** linux_proc.rs [IpAddresses] *)
Record IpAddresses := mkIps { ipv4 : string; ipv6 : string }.
Definition no_ips : IpAddresses := mkIps "" "".

(** ** [std::net] *)

Definition octets (bits : N) : list N :=
  [bits / 2 ^ 24; bits / 2 ^ 16 mod 256; bits / 2 ^ 8 mod 256; bits mod 256].
Definition segments (bits : N) : list N := (fun i => bits / 2 ^ (16 * i) mod 65536) <$> [7; 6; 5; 4; 3; 2; 1; 0].

(** [{:x}] *)
Definition hex_digit (n : N) : byte := byte_of_N (if n <? 10 then 48 + n else 87 + n).
Fixpoint hex_loop (fuel : nat) (n : N) (acc : list byte) : list byte :=
  match fuel with
  | O => acc
  | S fuel =>
      let acc := hex_digit (n mod 16) :: acc in
      if n <? 16 then acc else hex_loop fuel (n / 16) acc
  end.
Definition show_segment (n : N) : string := str_of (hex_loop 4 n []).

Definition show_ipv4 (bits : N) : string := join "." (pretty <$> octets bits).

(** The first of the longest runs of zero segments: where it starts, and its length *)
Fixpoint longest_zeros (segs : list N) (i : nat) (current longest : nat * nat) : nat * nat :=
  match segs with
  | [] => longest
  | 0 :: segs =>
      let current := (if bool_decide (current.2 = 0%nat) then i else current.1, S current.2) in
      longest_zeros segs (S i) current (if bool_decide (longest.2 < current.2)%nat then current else longest)
  | _ :: segs => longest_zeros segs (S i) (0%nat, 0%nat) longest
  end.
Definition show_ipv6 (bits : N) : string :=
  if bits / 2 ^ 32 =? 0xFFFF then "::ffff:" +:+ show_ipv4 (bits mod 2 ^ 32)
  else
    let segs := segments bits in
    let '(start, count) := longest_zeros segs 0 (0%nat, 0%nat) (0%nat, 0%nat) in
    if bool_decide (1 < count)%nat then
      join ":" (show_segment <$> take start segs) +:+ "::"
        +:+ join ":" (show_segment <$> drop (start + count) segs)
    else join ":" (show_segment <$> segs).

Definition ipv4_is_loopback (bits : N) : bool := bits / 2 ^ 24 =? 127.
Definition ipv6_is_loopback (bits : N) : bool := bits =? 1.
Definition ipv6_is_unicast_link_local (bits : N) : bool := bits / 2 ^ 118 =? 0x3FA.
Definition ip_is_loopback (ip : IpAddr) : bool :=
  match ip with V4 b => ipv4_is_loopback b | V6 b => ipv6_is_loopback b end.

(** ** Interfaces *)

Definition complete (a : IpAddresses) : bool := negb (is_empty (ipv4 a)) && negb (is_empty (ipv6 a)).

(** linux_proc.rs [parse_ip_address_list] 497-517: the loop *)
Fixpoint list_addresses (values : list string) (addresses : IpAddresses) : IpAddresses :=
  match values with
  | [] => addresses
  | value :: values =>
      match parse_ip value with
      | None => list_addresses values addresses
      | Some ip =>
          if ip_is_loopback ip then list_addresses values addresses
          else
            let addresses :=
              match ip with
              | V4 b => if is_empty (ipv4 addresses) then mkIps (show_ipv4 b) (ipv6 addresses) else addresses
              | V6 b =>
                  if is_empty (ipv6 addresses) && negb (ipv6_is_unicast_link_local b)
                  then mkIps (ipv4 addresses) (show_ipv6 b) else addresses
              end in
            if complete addresses then addresses else list_addresses values addresses
      end
  end.
(** linux_proc.rs [parse_ip_address_list] *)
Definition parse_ip_address_list (contents : string) : IpAddresses :=
  list_addresses (split_whitespace contents) no_ips.

(** linux_proc.rs [record_ip_addr_show_address] *)
Definition record_ip_addr_show_address (addresses : IpAddresses) (family raw_addr : string) : IpAddresses :=
  let raw_addr := match split_once "/" raw_addr with Some (addr, _) => addr | None => raw_addr end in
  match parse_ip raw_addr with
  | None => addresses
  | Some (V4 b) =>
      if bool_decide (family = "inet") && is_empty (ipv4 addresses) && negb (ipv4_is_loopback b)
      then mkIps (show_ipv4 b) (ipv6 addresses) else addresses
  | Some (V6 b) =>
      if bool_decide (family = "inet6") && is_empty (ipv6 addresses) && negb (ipv6_is_loopback b)
         && negb (ipv6_is_unicast_link_local b)
      then mkIps (ipv4 addresses) (show_ipv6 b) else addresses
  end.

(** linux_proc.rs [ip_addr_interface_header_is_up] *)
Definition ip_addr_interface_header_is_up (fields : list string) : bool :=
  match flags ← fields !! 2%nat; rest ← strip_prefix "<" flags; strip_suffix ">" rest with
  | Some flags => bool_decide ("UP" ∈ split [[x2c]] flags)
  | None => false
  end.

Definition is_family (s : string) : bool := bool_decide (s ∈ ["inet"; "inet6"]).

(** linux_proc.rs [parse_ip_addr_show_output] 526-563: the loop; [current] is the interface of
    the last header and whether it is up *)
Fixpoint ip_addr_show_loop (filter : NetworkFilter) (lines : list (list string)) (current : string * bool)
    (addresses : IpAddresses) : IpAddresses :=
  match lines with
  | [] => addresses
  | fields :: lines =>
      match fields with
      | [] => ip_addr_show_loop filter lines current addresses
      | f0 :: rest =>
          if bool_decide (2 ≤ length fields)%nat
             && bool_decide (is_Some (parse_uint U32_MAX (trim_end_matches x3a f0)))
          then
            let name := default "" (head (split [[x40]] (trim_end_matches x3a (default "" (head rest))))) in
            let f2 := default "" (fields !! 2%nat) in
            let '(current, addresses) :=
              if is_family f2 && bool_decide (4 ≤ length fields)%nat then
                (current,
                 if should_include filter name
                 then record_ip_addr_show_address addresses f2 (default "" (fields !! 3%nat))
                 else addresses)
              else ((name, ip_addr_interface_header_is_up fields), addresses) in
            if complete addresses then addresses else ip_addr_show_loop filter lines current addresses
          else if negb (is_family f0) || bool_decide (length fields < 2)%nat
          then ip_addr_show_loop filter lines current addresses
          else if snd current && should_include filter (fst current) then
            let addresses := record_ip_addr_show_address addresses f0 (default "" (head rest)) in
            if complete addresses then addresses else ip_addr_show_loop filter lines current addresses
          else ip_addr_show_loop filter lines current addresses
      end
  end.
(** linux_proc.rs [parse_ip_addr_show_output] *)
Definition parse_ip_addr_show_output (contents : string) (filter : NetworkFilter) : IpAddresses :=
  ip_addr_show_loop filter (split_whitespace ∘ trim <$> lines contents) ("", false) no_ips.

(** linux_proc.rs [nic_ip_addresses_from_ip_addr_show_output] *)
Definition nic_ip_addresses_from_ip_addr_show_output (contents : string) (filter : NetworkFilter)
  : option IpAddresses :=
  let addresses := parse_ip_addr_show_output contents filter in
  if is_empty (ipv4 addresses) && is_empty (ipv6 addresses) then None else Some addresses.

(** ** Public addresses *)

(** The bytes [consume_*] takes from the front, at most [n] of a kind, and the rest *)
Fixpoint span_at_most (f : byte → bool) (n : nat) (l : list byte) : list byte * list byte :=
  match n, l with
  | S n, b :: l' => if f b then prod_map (cons b) id (span_at_most f n l') else ([], l)
  | _, _ => ([], l)
  end.
Definition some_of (p : list byte * list byte) : option (list byte * list byte) :=
  match p.1 with [] => None | _ => Some p end.

(** linux_proc.rs [consume_ipv4_digits] *)
Definition consume_ipv4_digits (l : list byte) : option (list byte * list byte) :=
  some_of (span_at_most is_digit 3 l).
(** linux_proc.rs [consume_hex_group] *)
Definition consume_hex_group (l : list byte) : option (list byte * list byte) :=
  some_of (span_at_most is_hexdigit 4 l).

(** linux_proc.rs [find_go_ipv4_regex_match] 2844-2855: a match at the cursor *)
Fixpoint match_ipv4_groups (n : nat) (l : list byte) : option (list byte) :=
  '(group, rest) ← consume_ipv4_digits l;
  match n, rest with
  | O, _ => Some group
  | S n, x2e :: rest => (fun m => group ++ x2e :: m) <$> match_ipv4_groups n rest
  | S _, _ => None
  end.
(** linux_proc.rs [find_go_ipv4_regex_match] *)
Fixpoint find_ipv4 (l : list byte) : option (list byte) :=
  match l with
  | [] => None
  | b :: l' =>
      if negb (is_digit b) then find_ipv4 l'
      else match match_ipv4_groups 3 l with Some m => Some m | None => find_ipv4 l' end
  end.
(** linux_proc.rs [find_go_ipv4_regex_match] *)
Definition find_go_ipv4_regex_match (contents : string) : option string :=
  str_of <$> find_ipv4 (bytes_of contents).

(** [n] groups, each followed by a colon *)
Fixpoint hex_groups (n : nat) (l : list byte) : option (list byte * list byte) :=
  match n with
  | O => Some ([], l)
  | S n =>
      '(group, rest) ← consume_hex_group l;
      match rest with
      | x3a :: rest => prod_map (fun m => group ++ x3a :: m) id <$> hex_groups n rest
      | _ => None
      end
  end.
(** linux_proc.rs [match_go_ipv6_full] *)
Definition match_go_ipv6_full (l : list byte) : option (list byte) :=
  '(prefix, rest) ← hex_groups 7 l;
  '(group, _) ← consume_hex_group rest;
  Some (prefix ++ group).

(** linux_proc.rs [match_go_ipv6_compressed] 2924-2932: at most [n] more groups with a colon *)
Fixpoint more_hex_groups (n : nat) (l : list byte) : list byte * list byte :=
  match n with
  | O => ([], l)
  | S n =>
      match consume_hex_group l with
      | Some (group, x3a :: rest) => prod_map (fun m => group ++ x3a :: m) id (more_hex_groups n rest)
      | _ => ([], l)
      end
  end.
(** linux_proc.rs [match_go_ipv6_compressed] 2907-2935: one turn of the loop *)
Definition compressed_with_prefix (prefix_groups : nat) (l : list byte) : option (list byte) :=
  match hex_groups prefix_groups l with
  | Some (prefix, x3a :: rest) =>
      let '(more, rest) := more_hex_groups 4 rest in
      let last := match consume_hex_group rest with Some (group, _) => group | None => [] end in
      Some (prefix ++ x3a :: more ++ last)
  | _ => None
  end.
(** linux_proc.rs [match_go_ipv6_compressed] *)
Definition match_go_ipv6_compressed (l : list byte) : option (list byte) :=
  head (omap (fun prefix_groups => compressed_with_prefix prefix_groups l) [6; 5; 4; 3; 2; 1]%nat).

(** linux_proc.rs [find_go_ipv6_regex_match] *)
Fixpoint find_ipv6 (l : list byte) : option (list byte) :=
  match l with
  | [] => None
  | b :: l' =>
      if negb (is_hexdigit b) then find_ipv6 l'
      else
        match match_go_ipv6_full l ∪ match_go_ipv6_compressed l with
        | Some m => Some m
        | None => find_ipv6 l'
        end
  end.
(** linux_proc.rs [find_go_ipv6_regex_match] *)
Definition find_go_ipv6_regex_match (contents : string) : option string :=
  str_of <$> find_ipv6 (bytes_of contents).

(** linux_proc.rs [parse_public_ipv4_response] *)
Definition parse_public_ipv4_response (contents : string) : option string := find_go_ipv4_regex_match contents.
(** linux_proc.rs [parse_public_ipv6_response] *)
Definition parse_public_ipv6_response (contents : string) : option string := find_go_ipv6_regex_match contents.

(** linux_proc.rs [PUBLIC_IPV4_PROBE_URLS] *)
Definition PUBLIC_IPV4_PROBE_URLS : list string :=
  ["https://www.visa.cn/cdn-cgi/trace"; "https://www.qualcomm.cn/cdn-cgi/trace";
   "https://www.toutiao.com/stream/widget/local_weather/data/"; "https://edge-ip.html.zone/geo";
   "https://vercel-ip.html.zone/geo"; "http://ipv4.ip.sb"; "https://api.ipify.org?format=json"].
(** linux_proc.rs [PUBLIC_IPV6_PROBE_URLS] *)
Definition PUBLIC_IPV6_PROBE_URLS : list string :=
  ["https://v6.ip.zxinc.org/info.php?type=json"; "https://api6.ipify.org?format=json";
   "https://ipv6.icanhazip.com"; "https://api-ipv6.ip.sb/geoip"].

(** linux_proc.rs [PublicIpProbeFamily] *)
Inductive PublicIpProbeFamily := ProbeIpv4 | ProbeIpv6.

Section probes.
(** A client, by the DNS server it resolves names with, if not the system's, and the family of
    its local address: [None] when it cannot be built; a request yields a body or an error *)
Context (client_builder : option string → PublicIpProbeFamily → option (string → option string)).

(** linux_proc.rs [build_public_ip_probe_client] *)
Definition build_public_ip_probe_client (custom_dns : string) (family : PublicIpProbeFamily)
  : option (string → option string) :=
  client_builder (if is_empty custom_dns then None else Some (normalize_dns_server custom_dns)) family.

(** linux_proc.rs [probe_public_ipv4_from_urls] *)
Fixpoint probe_public_ipv4_from_urls (client : string → option string) (urls : list string) : option string :=
  match urls with
  | [] => None
  | api :: urls =>
      match body ← client api; parse_public_ipv4_response body with
      | Some ip => Some ip
      | None => probe_public_ipv4_from_urls client urls
      end
  end.
(** linux_proc.rs [probe_public_ipv6_from_urls] *)
Fixpoint probe_public_ipv6_from_urls (client : string → option string) (urls : list string) : option string :=
  match urls with
  | [] => None
  | api :: urls =>
      match body ← client api; parse_public_ipv6_response body with
      | Some ip => Some ip
      | None => probe_public_ipv6_from_urls client urls
      end
  end.

(** linux_proc.rs [collect_public_ip_addresses_with_dns] *)
Definition collect_public_ip_addresses_with_dns (custom_dns : string) : IpAddresses :=
  let custom_dns := trim custom_dns in
  mkIps
    (default "" (client ← build_public_ip_probe_client custom_dns ProbeIpv4;
                 probe_public_ipv4_from_urls client PUBLIC_IPV4_PROBE_URLS))
    (default "" (client ← build_public_ip_probe_client custom_dns ProbeIpv6;
                 probe_public_ipv6_from_urls client PUBLIC_IPV6_PROBE_URLS)).
End probes.

(** linux_proc.rs [collect_ip_addresses_with_filter] *)
Definition collect_ip_addresses_with_filter (h : Host) (filter : NetworkFilter) : option IpAddresses :=
  stdout ← successful (h_command h "ip" ["-o"; "addr"; "show"; "up"]);
  nic_ip_addresses_from_ip_addr_show_output (from_utf8_lossy stdout) filter.

(** linux_proc.rs [collect_ip_addresses] *)
Definition collect_ip_addresses (h : Host) : option IpAddresses :=
  match collect_ip_addresses_with_filter h (mkFilter [] []) with
  | Some addresses => Some addresses
  | None =>
      stdout ← successful (h_command h "hostname" ["-I"]);
      Some (parse_ip_address_list (from_utf8_lossy stdout))
  end.

Example show_ip_examples :
  (show_ipv4 <$> [3232235777; 0], show_ipv6 <$> [1; 0; 0x20010db8000000000000000000000001;
     0xfe800000000000010000000000000000; 0xffff01020304; 0x00010002000300040005000600070000])
  = (["192.168.1.1"; "0.0.0.0"], ["::1"; "::"; "2001:db8::1"; "fe80:0:0:1::"; "::ffff:1.2.3.4"; "1:2:3:4:5:6:7:0"]).
Proof. vm_compute. reflexivity. Qed.

(** ** The IPv4 scanner is the regular expression *)

(** [\d{1,3}(\.\d{1,3}){n}] *)
Definition digit_group (g : list byte) : Prop :=
  g ≠ [] ∧ (length g ≤ 3)%nat ∧ Forall (fun b => is_digit b = true) g.
Fixpoint dotted (n : nat) (m : list byte) : Prop :=
  match n with
  | O => digit_group m
  | S n => ∃ g r, digit_group g ∧ m = g ++ x2e :: r ∧ dotted n r
  end.

Lemma span_split f n l a b :
  span_at_most f n l = (a, b) → l = a ++ b ∧ (length a ≤ n)%nat ∧ Forall (fun b => f b = true) a.
Proof.
  revert l a b. induction n as [|n IH]; intros [|c l] a b; cbn; try (intros [= <- <-]; cbn; split_and!; done || lia).
  destruct (f c) eqn:Hc; [|intros [= <- <-]; cbn; split_and!; done || lia].
  destruct (span_at_most f n l) as [a' b'] eqn:Hs. intros [= <- <-].
  apply IH in Hs as (-> & Hl & Hf). cbn. split_and!; [done|lia|by constructor].
Qed.

(** It takes all it may: what stops it is the limit or a byte of another kind. *)
Lemma span_takes f n g r :
  (length g ≤ n)%nat → Forall (fun b => f b = true) g →
  ∃ a b, span_at_most f n (g ++ r) = (g ++ a, b) ∧ (match r with c :: _ => f c = false | [] => True end → a = [] ∧ b = r).
Proof.
  revert g. induction n as [|n IH]; intros [|c g] Hl Hf; cbn in Hl; try lia.
  - exists [], r. by destruct r.
  - cbn [app]. destruct (span_at_most f (S n) r) as [a b] eqn:Hs. exists a, b. split; [done|].
    destruct r as [|c r]; cbn in Hs; [by injection Hs as <- <-|]. intros Hc. rewrite Hc in Hs. by injection Hs as <- <-.
  - apply Forall_cons in Hf as [Hc Hf]. destruct (IH g ltac:(lia) Hf) as (a & b & Hs & Hr).
    exists a, b. cbn. by rewrite Hc, Hs.
Qed.

Lemma consume_group g r :
  digit_group g → ∃ a b, consume_ipv4_digits (g ++ r) = Some (g ++ a, b) ∧
    (match r with c :: _ => is_digit c = false | [] => True end → a = [] ∧ b = r).
Proof.
  intros (Hg & Hl & Hf). destruct (span_takes is_digit 3 g r Hl Hf) as (a & b & Hs & Hr).
  exists a, b. unfold consume_ipv4_digits. rewrite Hs. by destruct g.
Qed.

Lemma consume_sound l g r : consume_ipv4_digits l = Some (g, r) → digit_group g ∧ l = g ++ r.
Proof.
  unfold consume_ipv4_digits, some_of. destruct (span_at_most is_digit 3 l) as [a b] eqn:Hs. cbn.
  apply span_split in Hs as (-> & Hl & Hf). destruct a; [done|]. by intros [= <- <-].
Qed.

Lemma match_sound n l m : match_ipv4_groups n l = Some m → dotted n m ∧ m `prefix_of` l.
Proof.
  revert l m. induction n as [|n IH]; intros l m H; cbn [match_ipv4_groups] in H.
  all: destruct (consume_ipv4_digits l) as [[g r]|] eqn:Hc; [cbn in H|done].
  all: apply consume_sound in Hc as [Hg ->].
  - injection H as <-. split; [done|by eexists].
  - destruct r as [|[] r]; try done. destruct (match_ipv4_groups n r) as [m'|] eqn:Hm; [|done].
    injection H as <-. apply IH in Hm as [Hd [post ->]]. split; [by exists g, m'|].
    exists post. by rewrite <- app_assoc.
Qed.

Lemma match_complete n m r :
  dotted n m → ∃ m', match_ipv4_groups n (m ++ r) = Some m' ∧ m `prefix_of` m'.
Proof.
  revert m. induction n as [|n IH]; intros m; cbn [dotted match_ipv4_groups].
  - intros Hg. destruct (consume_group m r Hg) as (a & b & -> & _). exists (m ++ a). split; [done|by eexists].
  - intros (g & m' & Hg & -> & Hd). rewrite <- app_assoc. cbn [app].
    destruct (consume_group g (x2e :: m' ++ r) Hg) as (a & b & -> & Hr).
    destruct Hr as [-> ->]; [done|]. rewrite app_nil_r. cbn.
    destruct (IH m' Hd) as (m'' & -> & [t ->]). eexists. split; [done|]. exists t. by rewrite <- app_assoc.
Qed.

Lemma dotted_starts n m : dotted n m → ∃ b r, m = b :: r ∧ is_digit b = true.
Proof.
  destruct n; cbn.
  - intros (? & _ & Hf). destruct m; [done|]. apply Forall_cons in Hf as [? _]. eauto.
  - intros (g & r & (? & _ & Hf) & -> & _). destruct g; [done|]. apply Forall_cons in Hf as [? _]. cbn. eauto.
Qed.

(** C33: the scanner that finds the public IPv4 address is the leftmost, longest match of
    [\d{1,3}(\.\d{1,3}){3}]: what it returns is such a text, none starts further left and none
    that starts there is longer; when it returns nothing there is none. *)
Theorem ipv4_scanner_is_regex contents :
  match find_go_ipv4_regex_match contents with
  | Some ip => ∃ pre post, bytes_of contents = pre ++ bytes_of ip ++ post ∧ dotted 3 (bytes_of ip) ∧
      ∀ pre' m post', bytes_of contents = pre' ++ m ++ post' → dotted 3 m →
        (length pre ≤ length pre')%nat ∧ (length pre' = length pre → m `prefix_of` bytes_of ip)
  | None => ∀ pre m post, bytes_of contents = pre ++ m ++ post → ~ dotted 3 m
  end.
Proof.
  unfold find_go_ipv4_regex_match. generalize (bytes_of contents) as l. clear contents.
  induction l as [|b l IH]; cbn [find_ipv4].
  - intros pre m post H Hd. destruct (dotted_starts 3 m Hd) as (c & r & -> & _). by destruct pre.
  - set (here := if negb (is_digit b) then None else match_ipv4_groups 3 (b :: l)).
    assert ((if negb (is_digit b) then find_ipv4 l
             else match match_ipv4_groups 3 (b :: l) with Some m => Some m | None => find_ipv4 l end)
            = match here with Some m => Some m | None => find_ipv4 l end) as ->
      by (subst here; by destruct (is_digit b)).
    assert (∀ m post, b :: l = m ++ post → dotted 3 m → ∃ m', here = Some m' ∧ m `prefix_of` m') as Hhere.
    { intros m post Hm Hd. destruct (dotted_starts 3 m Hd) as (c & r & -> & Hc). injection Hm as -> ->.
      subst here. rewrite Hc. cbn [negb]. by apply (match_complete 3 (c :: r) post). }
    destruct here as [m|] eqn:Hm.
    + cbn. rewrite bytes_of_str_of. subst here. destruct (is_digit b); [cbn [negb] in Hm|done].
      apply match_sound in Hm as [Hd [post Hl]]. exists [], post. split_and!; [done..|].
      intros pre' m' post' H Hd'. cbn. split; [lia|]. intros Hp. destruct pre'; [|done].
      destruct (Hhere m' post' H Hd') as (? & [= ->] & ?). done.
    + destruct (find_ipv4 l) as [m|]; cbn in *.
      * rewrite bytes_of_str_of in *. destruct IH as (pre & post & -> & Hd & Hmin). exists (b :: pre), post.
        split_and!; [done..|]. intros [|c pre'] m' post' H Hd'.
        { by destruct (Hhere m' post' H Hd') as (? & ? & ?). }
        injection H as -> H. destruct (Hmin pre' m' post' H Hd') as [Hle Hpre]. cbn.
        split; [lia|]. intros Hl. apply Hpre. lia.
      * intros [|c pre'] m' post' H Hd'.
        { by destruct (Hhere m' post' H Hd') as (? & ? & ?). }
        injection H as -> H. by eapply IH.
Qed.

(** ** The addresses of the interfaces *)

(** The addresses the output lists for interfaces that count, in order: family and text *)
Fixpoint listed_addresses (filter : NetworkFilter) (lines : list (list string)) (current : string * bool)
  : list (string * string) :=
  match lines with
  | [] => []
  | [] :: lines => listed_addresses filter lines current
  | ((f0 :: rest) as fields) :: lines =>
      if bool_decide (2 ≤ length fields)%nat
         && bool_decide (is_Some (parse_uint U32_MAX (trim_end_matches x3a f0)))
      then
        let name := default "" (head (split [[x40]] (trim_end_matches x3a (default "" (head rest))))) in
        let f2 := default "" (fields !! 2%nat) in
        if is_family f2 && bool_decide (4 ≤ length fields)%nat then
          (if should_include filter name then [(f2, default "" (fields !! 3%nat))] else [])
          ++ listed_addresses filter lines current
        else listed_addresses filter lines (name, ip_addr_interface_header_is_up fields)
      else
        (if is_family f0 && bool_decide (2 ≤ length fields)%nat && current.2 && should_include filter current.1
         then [(f0, default "" (head rest))] else [])
        ++ listed_addresses filter lines current
  end.

(** A listed address of a family, as it is reported, unless it is a loopback or link-local one *)
Definition address_part (raw : string) : string :=
  match split_once "/" raw with Some (addr, _) => addr | None => raw end.
Definition reported_v4 (listed : string * string) : option string :=
  match parse_ip (address_part listed.2) with
  | Some (V4 b) =>
      if bool_decide (listed.1 = "inet") && negb (ipv4_is_loopback b) then Some (show_ipv4 b) else None
  | _ => None
  end.
Definition reported_v6 (listed : string * string) : option string :=
  match parse_ip (address_part listed.2) with
  | Some (V6 b) =>
      if bool_decide (listed.1 = "inet6") && negb (ipv6_is_loopback b) && negb (ipv6_is_unicast_link_local b)
      then Some (show_ipv6 b) else None
  | _ => None
  end.

(** Keep an address that is there *)
Definition keep (a b : string) : string := if is_empty a then b else a.
Definition first_of (f : string * string → option string) (l : list (string * string)) : string :=
  default "" (head (omap f l)).

Lemma is_empty_app s t : is_empty (s +:+ t) = is_empty s && is_empty t.
Proof. by destruct s. Qed.
Lemma show_segment_nonempty n : is_empty (show_segment n) = false.
Proof.
  unfold show_segment. cbn [hex_loop]. repeat case_match; done.
Qed.
Lemma show_ipv4_nonempty b : is_empty (show_ipv4 b) = false.
Proof. unfold show_ipv4, octets. cbn [fmap list_fmap join]. by rewrite !is_empty_app, andb_false_r. Qed.
Lemma show_ipv6_nonempty b : is_empty (show_ipv6 b) = false.
Proof.
  unfold show_ipv6. destruct (_ =? _); [done|]. destruct (longest_zeros _ _ _ _) as [start count].
  destruct (bool_decide _).
  - rewrite !is_empty_app. change (is_empty "::") with false. by rewrite andb_false_r.
  - unfold segments. cbn [fmap list_fmap join]. by rewrite !is_empty_app, show_segment_nonempty.
Qed.

Lemma keep_first f a p l :
  (∀ x, f p = Some x → is_empty x = false) →
  keep (keep a (default "" (f p))) (first_of f l) = keep a (first_of f (p :: l)).
Proof.
  intros Hf. unfold keep, first_of. cbn [omap list_omap].
  destruct (is_empty a) eqn:Ha; [|by rewrite Ha].
  destruct (f p) as [x|]; cbn; [by rewrite (Hf x)|done].
Qed.
Lemma keep_complete a s t : complete a = true → a = mkIps (keep (ipv4 a) s) (keep (ipv6 a) t).
Proof.
  destruct a as [x y]. unfold complete, keep. cbn. by destruct (is_empty x), (is_empty y).
Qed.
Lemma reported_v4_nonempty p x : reported_v4 p = Some x → is_empty x = false.
Proof.
  unfold reported_v4. case_match; [|done]. case_match; [|done]. case_match; [|done]. intros [= <-].
  apply show_ipv4_nonempty.
Qed.
Lemma reported_v6_nonempty p x : reported_v6 p = Some x → is_empty x = false.
Proof.
  unfold reported_v6. case_match; [|done]. case_match; [done|]. case_match; [|done]. intros [= <-].
  apply show_ipv6_nonempty.
Qed.

Lemma record_keeps a family raw :
  record_ip_addr_show_address a family raw
  = mkIps (keep (ipv4 a) (default "" (reported_v4 (family, raw))))
          (keep (ipv6 a) (default "" (reported_v6 (family, raw)))).
Proof.
  unfold record_ip_addr_show_address, reported_v4, reported_v6, keep. cbn [fst snd].
  change (match split_once "/" raw with Some (addr, _) => addr | None => raw end) with (address_part raw).
  assert (∀ s, (if is_empty s then "" else s) = s) as Hs
    by (intros s; destruct (is_empty s) eqn:E; [by apply is_empty_true in E as ->|done]).
  destruct a as [x y]. destruct (parse_ip _) as [[b|b]|]; cbn [default ipv4 ipv6].
  - destruct (bool_decide _), (ipv4_is_loopback b); cbn; rewrite ?Hs, ?andb_false_r; try done.
    by destruct (is_empty x).
  - destruct (bool_decide _), (ipv6_is_loopback b), (ipv6_is_unicast_link_local b); cbn;
      rewrite ?Hs, ?andb_false_r; try done.
    by destruct (is_empty y).
  - by rewrite !Hs.
Qed.

(** What the loop makes of the addresses so far and those still listed *)
Definition with_listed (a : IpAddresses) (l : list (string * string)) : IpAddresses :=
  mkIps (keep (ipv4 a) (first_of reported_v4 l)) (keep (ipv6 a) (first_of reported_v6 l)).
Lemma with_listed_record a p l : with_listed (record_ip_addr_show_address a p.1 p.2) l = with_listed a (p :: l).
Proof.
  destruct p as [family raw]. unfold with_listed. rewrite record_keeps. cbn [ipv4 ipv6 fst snd].
  f_equal; apply keep_first; intros x; [apply reported_v4_nonempty|apply reported_v6_nonempty].
Qed.
Lemma with_listed_complete a l : complete a = true → with_listed a l = a.
Proof. intros H. symmetry. by apply keep_complete. Qed.

Lemma lt_not_ge n : bool_decide (n < 2)%nat = negb (bool_decide (2 ≤ n)%nat).
Proof. repeat case_bool_decide; try done; lia. Qed.

Lemma loop_with_listed filter lines current a :
  ip_addr_show_loop filter lines current a = with_listed a (listed_addresses filter lines current).
Proof.
  revert current a. induction lines as [|fields lines IH]; intros current a; cbn [ip_addr_show_loop listed_addresses].
  - unfold with_listed, keep, first_of. destruct a as [x y]. cbn.
    f_equal; by destruct (is_empty _) eqn:E; [apply is_empty_true in E|].
  - destruct fields as [|f0 rest]; [apply IH|].
    assert (∀ current a', (if complete a' then a' else ip_addr_show_loop filter lines current a')
              = with_listed a' (listed_addresses filter lines current)) as Hstop.
    { intros c a'. destruct (complete a') eqn:E; [by rewrite with_listed_complete|apply IH]. }
    destruct (bool_decide (2 ≤ _)%nat && _) eqn:Hh.
    + destruct (is_family _ && _); [|apply Hstop]. rewrite Hstop.
      destruct (should_include _ _); [|done]. cbn [app]. by rewrite <- with_listed_record.
    + rewrite lt_not_ge.
      destruct (is_family f0), (bool_decide (2 ≤ length (f0 :: rest))%nat); cbn [negb orb andb app]; try apply IH.
      destruct (current.2 && should_include filter current.1); [|apply IH].
      rewrite Hstop. cbn [app]. by rewrite <- with_listed_record.
Qed.


Example ip_addr_show_example :
  let line := fun s => s +:+ newline in
  parse_ip_addr_show_output
    (line "1: lo    inet 127.0.0.1/8 scope host lo" +:+ line "2: eth0    inet 10.0.0.5/24 brd 10.0.0.255"
     +:+ line "2: eth0    inet6 fe80::1/64 scope link" +:+ line "2: eth0    inet6 2001:DB8::2/64 scope global"
     +:+ line "3: eth1    inet 10.0.0.6/24") (mkFilter [] [])
  = mkIps "10.0.0.5" "2001:db8::2".
Proof. vm_compute. reflexivity. Qed.
