(* ===== verification/Gpu.v ===== *)
(** * Detailed metrics of graphics cards ([src/src/linux_proc.rs])

    The output of [nvidia-smi] (XML, read by a small scanner) and of [rocm-smi] (JSON, decoded
    by a parameter).  The scanner's loops are given fuel above the number of bytes left; each
    turn consumes some. *)
From S2P Require Import Prelude RustStd RustF64 NetStatic HostMetrics Task HostNames.
From Stdlib Require Import Strings.Byte.
From Stdlib Require Strings.String.
Local Open Scope string_scope.
Local Open Scope list_scope.
Local Open Scope N_scope.

(** linux_proc.rs [GpuMetric] *)
Record GpuMetric := mkMetric {
  gm_name : string; gm_memory_total : Z; gm_memory_used : Z; gm_utilization : float64; gm_temperature : Z;
}.

(** ** The scanner *)

(** The bytes that may follow the name of a tag *)
Definition ends_tag_name (b : byte) : bool := bool_decide (b ∈ [x3e; x20; x09; x0d; x0a]).

(** linux_proc.rs [after_xml_open_tag] *)
Fixpoint after_open_loop (fuel : nat) (prefix contents : list byte) : option (list byte) :=
  match fuel with
  | O => None
  | S fuel =>
      '(_, after_name) ← split_once_bytes prefix contents;
      match after_name with
      | [] => None
      | b :: _ =>
          if negb (ends_tag_name b) then after_open_loop fuel prefix after_name
          else snd <$> split_once_bytes [x3e] after_name
      end
  end.
(** linux_proc.rs [after_xml_open_tag] *)
Definition after_xml_open_tag (contents : list byte) (tag : string) : option (list byte) :=
  after_open_loop (S (length contents)) (bytes_of ("<" +:+ tag)) contents.

(** linux_proc.rs [xml_tag_raw] *)
Definition xml_tag_raw (contents : list byte) (tag : string) : option (list byte) :=
  after_open ← after_xml_open_tag contents tag;
  fst <$> split_once_bytes (bytes_of ("</" +:+ tag +:+ ">")) after_open.

(** linux_proc.rs [nvidia_gpu_xml_chunks] *)
Fixpoint gpu_chunks_loop (fuel : nat) (contents : list byte) : list (list byte) :=
  match fuel with
  | O => []
  | S fuel =>
      match split_once_bytes (bytes_of "<gpu") contents with
      | None | Some (_, []) => []
      | Some (_, ((b :: _) as after_name)) =>
          if negb (ends_tag_name b) then gpu_chunks_loop fuel after_name
          else
            match split_once_bytes [x3e] after_name with
            | None => []
            | Some (_, body) =>
                match split_once_bytes (bytes_of "</gpu>") body with
                | None => []
                | Some (chunk, rest) => chunk :: gpu_chunks_loop fuel rest
                end
            end
      end
  end.
(** linux_proc.rs [nvidia_gpu_xml_chunks] *)
Definition nvidia_gpu_xml_chunks (contents : list byte) : list (list byte) :=
  gpu_chunks_loop (S (length contents)) contents.

(** ** Text and values *)

(** [char::from_u32], and the UTF-8 bytes of a character *)
Definition is_char (c : N) : bool := (c <? 0xD800) || ((0xDFFF <? c) && (c <? 0x110000)).
Definition encode_char (c : N) : list byte :=
  let cont x := byte_of_N (0x80 + x mod 64) in
  if c <? 0x80 then [byte_of_N c]
  else if c <? 0x800 then [byte_of_N (0xC0 + c / 64); cont c]
  else if c <? 0x10000 then [byte_of_N (0xE0 + c / 4096); cont (c / 64); cont c]
  else [byte_of_N (0xF0 + c / 262144); cont (c / 4096); cont (c / 64); cont c].

(** linux_proc.rs [decode_xml_entity] *)
Definition decode_xml_entity (entity : string) : option N :=
  if bool_decide (entity = "amp") then Some 0x26
  else if bool_decide (entity = "lt") then Some 0x3c
  else if bool_decide (entity = "gt") then Some 0x3e
  else if bool_decide (entity = "quot") then Some 0x22
  else if bool_decide (entity = "apos") then Some 0x27
  else
    let char c := if is_char c then Some c else None in
    match strip_prefix "#x" entity ∪ strip_prefix "#X" entity with
    | Some hex => from_hex U32_MAX hex ≫= char
    | None => decimal ← strip_prefix "#" entity; parse_uint U32_MAX decimal ≫= char
    end.

(** linux_proc.rs [decode_xml_text] *)
Fixpoint decode_xml_loop (fuel : nat) (rest : list byte) : list byte :=
  match fuel with
  | O => rest
  | S fuel =>
      match split_once_bytes [x26] rest with
      | None => rest
      | Some (before, after) =>
          match split_once_bytes [x3b] after with
          | None => before ++ x26 :: after
          | Some (entity, rest) =>
              before
              ++ (match decode_xml_entity (str_of entity) with
                  | Some ch => encode_char ch
                  | None => x26 :: entity ++ [x3b]
                  end)
              ++ decode_xml_loop fuel rest
          end
      end
  end.
(** linux_proc.rs [decode_xml_text] *)
Definition decode_xml_text (value : string) : string :=
  str_of (decode_xml_loop (S (length (bytes_of value))) (bytes_of value)).

(** linux_proc.rs [xml_tag_text] *)
Definition xml_tag_text (contents : list byte) (tag : string) : option string :=
  (fun value => decode_xml_text (trim (str_of value))) <$> xml_tag_raw contents tag.
(** linux_proc.rs [xml_child_tag_text] *)
Definition xml_child_tag_text (contents : list byte) (parent tag : string) : option string :=
  parent_body ← xml_tag_raw contents parent;
  xml_tag_text parent_body tag.

(** linux_proc.rs [parse_unsigned_i64_value] *)
Definition parse_unsigned_i64_value (value : string) : Z :=
  let value := str_of (trim_back [bytes_of "MiB"] (bytes_of (trim value))) in
  default 0%Z (v ← parse_uint U64_MAX (trim (trim_end_matches x43 value));
               if bool_decide (v ≤ I64_MAX) then Some (Z.of_N v) else None).
(** linux_proc.rs [parse_mib_value] *)
Definition parse_mib_value (value : string) : Z := saturating_i64 (parse_unsigned_i64_value value * (1024 * 1024)).
(** linux_proc.rs [parse_percent_value] *)
Definition parse_percent_value (value : string) : float64 :=
  default f_zero (f_parse (trim (trim_end_matches x25 (trim value)))).
(** linux_proc.rs [parse_temperature_value] *)
Definition parse_temperature_value (value : string) : Z := parse_unsigned_i64_value value.

(** linux_proc.rs [parse_nvidia_smi_xml] *)
Definition parse_nvidia_smi_xml (contents : string) : list GpuMetric :=
  (fun gpu => mkMetric
     (default "" (xml_tag_text gpu "product_name"))
     (parse_mib_value (default "" (xml_child_tag_text gpu "fb_memory_usage" "total")))
     (parse_mib_value (default "" (xml_child_tag_text gpu "fb_memory_usage" "used")))
     (parse_percent_value (default "" (xml_child_tag_text gpu "utilization" "gpu_util")))
     (parse_temperature_value (default "" (xml_child_tag_text gpu "temperature" "gpu_temp"))))
  <$> nvidia_gpu_xml_chunks (bytes_of contents).

(** ** The commands *)

Section commands.
Context (h : Host) (path : option string).
(** [serde_json] on the output of [rocm-smi]: an object of cards, each an object (of which the
    string fields are kept) or something else *)
Context (rocm_json : string → option (gmap string (option (gmap string string)))).

(** linux_proc.rs [json_string] *)
Definition json_string (card : gmap string string) (key : string) : string := default "" (card !! key).

(** linux_proc.rs [parse_amd_rocm_smi_json] *)
Definition parse_amd_rocm_smi_json (contents : string) : list GpuMetric :=
  match rocm_json contents with
  | None => []
  | Some cards =>
      let keys := sort_by (leb_of str_cmp) (filter (fun key => starts_with "card" key = true) (map_to_list cards).*1) in
      (fun card => mkMetric
         (json_string card "Card series")
         (parse_unsigned_i64_value (json_string card "VRAM Total Memory (B)"))
         (parse_unsigned_i64_value (json_string card "VRAM Total Used Memory (B)"))
         (parse_percent_value (json_string card "GPU use (%)"))
         (parse_temperature_value (json_string card "Temperature (Sensor junction) (C)")))
      <$> omap (fun key => mjoin (cards !! key)) keys
  end.

(** linux_proc.rs [find_command_in_path] *)
Definition find_command_in_path (command_name : string) : option string :=
  paths ← path;
  from_utf8_lossy ∘ bytes_of <$> head (filter (fun p => h_is_file h p = true)
    ((fun dir => path_join dir command_name) <$> split [[x3a]] paths)).

(** linux_proc.rs [resolve_detailed_gpu_command_path_from_lookup] *)
Definition resolve_detailed_gpu_command_path_from_lookup (primary_path : string) (primary_exists : bool)
    (path_lookup : option string) : option string :=
  if primary_exists then Some primary_path else path_lookup.

(** linux_proc.rs [resolve_detailed_gpu_command_path] *)
Definition resolve_detailed_gpu_command_path (primary_path command_name : string) : option string :=
  let primary_exists := h_is_file h primary_path in
  resolve_detailed_gpu_command_path_from_lookup primary_path primary_exists
    (if primary_exists then None else find_command_in_path command_name).

(** linux_proc.rs [run_detailed_gpu_command] *)
Definition run_detailed_gpu_command (primary_path command_name : string) (args : list string)
  : option CommandOutput :=
  command_path ← resolve_detailed_gpu_command_path primary_path command_name;
  h_command h command_path args.

(** linux_proc.rs [command_output_error] *)
Definition command_output_error (command : string) (output : CommandOutput) : string :=
  let stderr := trim (from_utf8_lossy (co_stderr output)) in
  if is_empty stderr then command +:+ " exited with " +:+ co_status output
  else command +:+ ": " +:+ stderr.

(** One of the two commands: what it yields, or the error *)
Definition gpu_source {A} (primary_path command : string) (args : list string) (what : string)
    (parse : string → list A) : string + list A :=
  match run_detailed_gpu_command primary_path command args with
  | None => inl (command +:+ " not found")
  | Some output =>
      if co_success output then
        match parse (from_utf8_lossy (co_stdout output)) with
        | [] => inl (command +:+ " returned no GPU " +:+ what)
        | values => inr values
        end
      else inl (command_output_error command output)
  end.
(** The first that yields something; the errors of both *)
Definition first_gpu_source {A} (a b : string + list A) : string + list A :=
  match a, b with
  | inr values, _ => inr values
  | inl _, inr values => inr values
  | inl e, inl f => inl (join "; " [e; f])
  end.

(** linux_proc.rs [collect_detailed_gpu_metrics_result] *)
Definition collect_detailed_gpu_metrics_result : string + list GpuMetric :=
  first_gpu_source
    (gpu_source "/usr/bin/nvidia-smi" "nvidia-smi" ["-q"; "-x"] "metrics" parse_nvidia_smi_xml)
    (gpu_source "/opt/rocm/bin/rocm-smi" "rocm-smi" ["--showallinfo"; "--json"] "metrics" parse_amd_rocm_smi_json).

(** linux_proc.rs [collect_detailed_gpu_metrics] *)
Definition collect_detailed_gpu_metrics : list GpuMetric :=
  match collect_detailed_gpu_metrics_result with inr metrics => metrics | inl _ => [] end.

(** linux_proc.rs [collect_detailed_gpu_models_result] 2190-2194: the names of the cards *)
Definition model_names (metrics : list GpuMetric) : list string :=
  filter (fun name => is_empty name = false) (trim ∘ gm_name <$> metrics).

(** linux_proc.rs [collect_detailed_gpu_models_result] *)
Definition collect_detailed_gpu_models_result : string + list string :=
  first_gpu_source
    (gpu_source "/usr/bin/nvidia-smi" "nvidia-smi" ["-q"; "-x"] "models"
       (model_names ∘ parse_nvidia_smi_xml))
    (gpu_source "/opt/rocm/bin/rocm-smi" "rocm-smi" ["--showallinfo"; "--json"] "models"
       (model_names ∘ parse_amd_rocm_smi_json)).
End commands.

Example nvidia_example :
  (fun m => (gm_name m, gm_memory_total m, gm_memory_used m, gm_temperature m))
    <$> parse_nvidia_smi_xml ("<nvidia_smi_log><gpus>1</gpus><gpu id=0><product_name>A &amp; B</product_name>"
     +:+ "<fb_memory_usage><total>8 MiB</total><used>2 MiB</used></fb_memory_usage>"
     +:+ "<temperature><gpu_temp>55 C</gpu_temp></temperature></gpu></nvidia_smi_log>")
  = [("A & B", 8388608, 2097152, 55)%Z].
Proof. vm_compute. reflexivity. Qed.

(** ** What the scanner reads *)

(** A pattern whose first byte does not occur again in it is found where it is. *)
Lemma strip_here_None x q a c :
  x ∉ q → a ≠ [] → strip_bytes (x :: q) a = None → strip_bytes (x :: q) (a ++ (x :: q) ++ c) = None.
Proof.
  intros Hq Ha Hn. destruct (strip_bytes _ (a ++ _)) as [r|] eqn:Hs; [exfalso|done].
  apply strip_bytes_Some in Hs. destruct a as [|b a]; [done|]. cbn in Hs. injection Hs as -> Hs.
  destruct (decide (length q ≤ length a)%nat) as [Hl|Hl].
  - assert (a = q ++ drop (length q) a) as Hd.
    { rewrite <- (take_drop (length q) a) at 1. f_equal.
      apply (f_equal (take (length q))) in Hs. by rewrite take_app_length, take_app_le in Hs by lia. }
    enough (strip_bytes (x :: q) (x :: a) = Some (drop (length q) a)) by congruence.
    apply strip_bytes_Some. cbn. by rewrite <- Hd.
  - apply Hq. apply (f_equal (.!! length a)) in Hs. rewrite list_lookup_middle in Hs by done.
    rewrite lookup_app_l in Hs by lia. symmetry in Hs. by eapply list_elem_of_lookup_2.
Qed.

Lemma split_once_here x q a c :
  x ∉ q → split_once_bytes (x :: q) a = None →
  split_once_bytes (x :: q) (a ++ (x :: q) ++ c) = Some (a, c).
Proof.
  intros Hq. induction a as [|b a IH]; intros Hn.
  - pose proof (proj2 (strip_bytes_Some (x :: q) _ c) eq_refl) as Hb. cbn [app] in Hb |- *.
    cbn [split_once_bytes]. by rewrite Hb.
  - cbn [split_once_bytes] in Hn. destruct (strip_bytes (x :: q) (b :: a)) eqn:Hs; [done|].
    cbn [app split_once_bytes].
    pose proof (strip_here_None x q (b :: a) c Hq ltac:(done) Hs) as Hb. cbn [app] in Hb. rewrite Hb.
    cbn [app] in IH. rewrite IH; [done|]. by destruct (split_once_bytes (x :: q) a).
Qed.

(** ** Text is read back *)

(** How XML text is written *)
Definition xml_escape_byte (b : byte) : list byte :=
  match b with
  | x26 => bytes_of "&amp;"
  | x3c => bytes_of "&lt;"
  | x3e => bytes_of "&gt;"
  | x22 => bytes_of "&quot;"
  | x27 => bytes_of "&apos;"
  | _ => [b]
  end.
Definition xml_escape (s : string) : string := str_of (flat_map xml_escape_byte (bytes_of s)).

Lemma decode_plain fuel b l :
  b ≠ x26 → decode_xml_loop (S fuel) (b :: l) = b :: decode_xml_loop (S fuel) l.
Proof.
  intros Hb. cbn [decode_xml_loop split_once_bytes strip_bytes]. rewrite bool_decide_false by done.
  destruct (split_once_bytes [x26] l) as [[before after]|]; [|done]. cbn.
  by destruct (split_once_bytes [x3b] after) as [[? ?]|].
Qed.

Lemma decode_entity fuel entity ch l :
  x3b ∉ entity → decode_xml_entity (str_of entity) = Some ch →
  decode_xml_loop (S fuel) (x26 :: entity ++ x3b :: l) = encode_char ch ++ decode_xml_loop fuel l.
Proof.
  intros He Hc. cbn [decode_xml_loop split_once_bytes strip_bytes]. rewrite bool_decide_true by done.
  by rewrite split_once_bytes_single, Hc.
Qed.

Lemma decode_escaped fuel l :
  (length (flat_map xml_escape_byte l) < fuel)%nat → decode_xml_loop fuel (flat_map xml_escape_byte l) = l.
Proof.
  revert fuel. induction l as [|b l IH]; intros [|fuel] Hf; cbn [flat_map] in *; try (cbn in *; lia); [done|].
  destruct (decide (b ∈ [x26; x3c; x3e; x22; x27])) as [Hb|Hb].
  - rewrite !elem_of_cons, elem_of_nil in Hb. rewrite length_app in Hf.
    destruct Hb as [->|[->|[->|[->|[->|[]]]]]]; cbn [xml_escape_byte] in *.
    all: [> change (bytes_of "&amp;") with (x26 :: bytes_of "amp" ++ [x3b]) in *
        | change (bytes_of "&lt;") with (x26 :: bytes_of "lt" ++ [x3b]) in *
        | change (bytes_of "&gt;") with (x26 :: bytes_of "gt" ++ [x3b]) in *
        | change (bytes_of "&quot;") with (x26 :: bytes_of "quot" ++ [x3b]) in *
        | change (bytes_of "&apos;") with (x26 :: bytes_of "apos" ++ [x3b]) in * ].
    all: cbn [app]; rewrite <- app_assoc; cbn [app]; erewrite decode_entity by (by_decide || reflexivity).
    all: rewrite IH by (cbn in Hf; lia); done.
  - assert (xml_escape_byte b = [b]) as Hx by (destruct b; try done; exfalso; apply Hb; by_decide).
    rewrite Hx in *. cbn [app] in *. rewrite decode_plain, IH; [done|cbn in Hf; lia|].
    intros ->. apply Hb. by left.
Qed.

(** Text whose markup characters are written as entities is decoded to what it was. *)
Theorem xml_text_roundtrip s : decode_xml_text (xml_escape s) = s.
Proof.
  unfold decode_xml_text, xml_escape. rewrite bytes_of_str_of, decode_escaped by lia.
  apply str_of_bytes_of.
Qed.

(** ** The cards of a document *)

(** A card as [nvidia-smi] writes it: what comes before its element, the rest of the opening
    tag, and the body *)
Record GpuElement := mkElement { ge_before : list byte; ge_attrs : list byte; ge_body : list byte }.
Definition element_bytes (e : GpuElement) : list byte :=
  ge_before e ++ bytes_of "<gpu" ++ ge_attrs e ++ x3e :: ge_body e ++ bytes_of "</gpu>".
Definition element_ok (e : GpuElement) : bool :=
  bool_decide (split_once_bytes (bytes_of "<gpu") (ge_before e) = None)
  && bool_decide (x3e ∉ ge_attrs e)
  && match ge_attrs e with [] => true | b :: _ => ends_tag_name b end
  && bool_decide (split_once_bytes (bytes_of "</gpu>") (ge_body e) = None).

Lemma find_open_tag a c :
  split_once_bytes (bytes_of "<gpu") a = None →
  split_once_bytes (bytes_of "<gpu") (a ++ bytes_of "<gpu" ++ c) = Some (a, c).
Proof. apply (split_once_here x3c (bytes_of "gpu")). by_decide. Qed.
Lemma find_close_tag a c :
  split_once_bytes (bytes_of "</gpu>") a = None →
  split_once_bytes (bytes_of "</gpu>") (a ++ bytes_of "</gpu>" ++ c) = Some (a, c).
Proof. apply (split_once_here x3c (bytes_of "/gpu>")). by_decide. Qed.

Lemma chunks_element fuel e rest :
  element_ok e = true →
  gpu_chunks_loop (S fuel) (element_bytes e ++ rest) = ge_body e :: gpu_chunks_loop fuel rest.
Proof.
  unfold element_ok. rewrite !andb_true_iff. intros [[[Hb Ha] Hn] Hc].
  apply bool_decide_eq_true in Hb, Ha, Hc.
  unfold element_bytes. rewrite <- !app_assoc. cbn [app]. rewrite <- app_assoc.
  cbn [gpu_chunks_loop]. rewrite find_open_tag by done.
  destruct (ge_attrs e) as [|b attrs]; cbn [app] in *.
  all: pose proof (split_once_bytes_single x3e _ (ge_body e ++ bytes_of "</gpu>" ++ rest) Ha) as Hs.
  all: cbn [app] in Hs; rewrite Hs, find_close_tag by done.
  - done.
  - by rewrite Hn.
Qed.

(** From a document with any number of cards, whatever stands between them, the scanner takes
    the body of each card's element, in order, and nothing else. *)
Theorem gpu_chunks_of_document es tail :
  forallb element_ok es = true → split_once_bytes (bytes_of "<gpu") tail = None →
  nvidia_gpu_xml_chunks (flat_map element_bytes es ++ tail) = ge_body <$> es.
Proof.
  intros Hes Ht. unfold nvidia_gpu_xml_chunks.
  set (fuel := S _). assert (length es < fuel)%nat as Hf.
  { subst fuel. rewrite length_app. enough (length es ≤ length (flat_map element_bytes es))%nat by lia.
    clear. induction es as [|e es IH]; cbn; [lia|]. rewrite length_app.
    assert (0 < length (element_bytes e))%nat; [|lia]. unfold element_bytes. rewrite !length_app. cbn. lia. }
  clearbody fuel. revert fuel Hf. induction es as [|e es IH]; intros [|fuel] Hf; cbn [length] in Hf; try lia.
  - cbn [flat_map app gpu_chunks_loop]. by rewrite Ht.
  - cbn [forallb] in Hes. apply andb_true_iff in Hes as [He Hes].
    cbn [flat_map fmap list_fmap]. rewrite <- app_assoc, chunks_element by done.
    f_equal. apply IH; [done|lia].
Qed.

Lemma gpu_chunks_of_document_witness :
  nvidia_gpu_xml_chunks (flat_map element_bytes
    [mkElement (bytes_of "<attached_gpus>2</attached_gpus>") [] (bytes_of "<gpu_util>1</gpu_util>");
     mkElement [x0a] (bytes_of " id=1") (bytes_of "b")] ++ bytes_of "</log>")
  = [bytes_of "<gpu_util>1</gpu_util>"; bytes_of "b"].
Proof. apply gpu_chunks_of_document; vm_compute; reflexivity. Defined.
