(* ===== verification/ProcSample.v ===== *)
(** * A sample of [/proc] ([src/src/linux_proc.rs])

    Load, uptime, processor ticks and processes, and the readers that put a sample together
    from the files of [/proc], with an error for each source that fails. *)
From S2P Require Import Prelude RustStd RustF64 NetStatic HostMetrics Task HostNames.
From Stdlib Require Import Strings.Byte.
From Stdlib Require Import Floats.SpecFloat.
From Stdlib Require Strings.String.
Local Open Scope N_scope.

(** ** Numbers *)

(** [str::parse::<iN>]: at most [neg] below zero and [pos] above *)
Definition parse_int (neg pos : N) (s : string) : option Z :=
  match bytes_of s with
  | x2d :: ((_ :: _) as l) => Z.opp ∘ Z.of_N <$> parse_digits neg 0 l
  | _ => Z.of_N <$> parse_uint pos s
  end.

(** [f64::floor] *)
Definition f_floor (x : float64) : float64 :=
  match x with
  | S754_finite s m e =>
      if (0 <=? e)%Z then x
      else
        match (cond_Zopp s (Z.pos m) / 2 ^ (- e))%Z with
        | Z0 => S754_zero s
        | q => binary_normalize F_PREC F_EMAX q 0 s
        end
  | _ => x
  end.

(** [x as i64] *)
Definition f_as_i64 (x : float64) : Z :=
  match x with
  | S754_finite true m e => Z.max (- Z.of_N (f_as_uint (2 ^ 63) (S754_finite false m e))) (- 2 ^ 63)
  | S754_infinity true => - 2 ^ 63
  | _ => Z.of_N (f_as_uint I64_MAX x)
  end.

(** ** Parsers *)

(** linux_proc.rs [LoadAverage] *)
Record LoadAverage := mkLoadAverage {
  la_load1 : float64; la_load5 : float64; la_load15 : float64; la_process_count : Z;
}.
(** linux_proc.rs [ProcStatCpuSample] *)
Record ProcStatCpuSample := mkCpuSample { cs_total : N; cs_idle : N }.
(** linux_proc.rs [ProcMetrics] *)
Record ProcMetrics := mkProcMetrics {
  pm_load1 : float64; pm_load5 : float64; pm_load15 : float64; pm_uptime : Z; pm_process_count : Z;
  pm_network : NetworkTotals; pm_tcp_connections : Z; pm_udp_connections : Z;
}.
(** linux_proc.rs [ProcMetricErrors] *)
Record ProcMetricErrors := mkProcErrors {
  pe_network_speed : option string; pe_connections : option string; pe_uptime : option string;
}.
(** linux_proc.rs [ProcMetricsSample] *)
Record ProcMetricsSample := mkProcSample { ps_metrics : ProcMetrics; ps_errors : ProcMetricErrors }.

(** linux_proc.rs [parse_loadavg] *)
Definition parse_loadavg (contents : string) : option LoadAverage :=
  match split_whitespace contents with
  | a :: b :: c :: rest =>
      load1 ← f_parse a; load5 ← f_parse b; load15 ← f_parse c;
      let process_count := default 0%Z
        (value ← head rest; '(_, total) ← split_once "/" value; parse_int (2 ^ 31) (2 ^ 31 - 1) total) in
      Some (mkLoadAverage load1 load5 load15 process_count)
  | _ => None
  end.

(** linux_proc.rs [parse_uptime] *)
Definition parse_uptime (contents : string) : option Z :=
  field ← head (split_whitespace contents);
  seconds ← f_parse field;
  Some (f_as_i64 (f_floor seconds)).

(** linux_proc.rs [parse_proc_stat_cpu_sample] 190-204: the ticks of the line *)
Definition cpu_ticks (fields : string) : result Empty_set (option ProcStatCpuSample) :=
  match mapM (parse_uint U64_MAX) (split_whitespace fields) with
  | None => Ok None
  | Some ticks =>
      match ticks with
      | _ :: _ :: _ :: t3 :: rest =>
          total ← sum_u64 ticks;
          if total =? 0 then Ok None
          else
            idle ← expect (checked_add U64_MAX t3 (default 0 (head rest)));
            Ok (Some (mkCpuSample total idle))
      | _ => Ok None
      end
  end.

(** linux_proc.rs [parse_proc_stat_cpu_sample] *)
Definition parse_proc_stat_cpu_sample (contents : string) : result Empty_set (option ProcStatCpuSample) :=
  match head (omap (fun line => strip_prefix "cpu " (trim line)) (lines contents)) with
  | Some fields => cpu_ticks fields
  | None => Ok None
  end.

(** linux_proc.rs [cpu_usage_percent_from_proc_stat_samples] *)
Definition cpu_usage_percent_from_proc_stat_samples (first second : ProcStatCpuSample) : option float64 :=
  if (cs_total second <=? cs_total first) || (cs_idle second <? cs_idle first) then None
  else
    let total_delta := cs_total second - cs_total first in
    if total_delta =? 0 then None
    else
      let idle_delta := cs_idle second - cs_idle first in
      if total_delta <? idle_delta then None
      else Some (f_mul (f_div (f_of_N (total_delta - idle_delta)) (f_of_N total_delta)) (f_of_N 100)).

(** linux_proc.rs [count_process_entries] *)
Definition count_process_entries (entry_names : list string) : Z :=
  as_i32 (Z.of_nat (length (filter
    (fun name => bool_decide (is_Some (parse_int (2 ^ 63) (2 ^ 63 - 1) name)) = true) entry_names))).

(** linux_proc.rs [proc_metrics_from_parts] *)
Definition proc_metrics_from_parts (load : LoadAverage) (uptime : Z) (network : NetworkTotals)
    (tcp_connections udp_connections process_count : Z) : ProcMetrics :=
  mkProcMetrics (la_load1 load) (la_load5 load) (la_load15 load) uptime process_count network
    tcp_connections udp_connections.

(** ** Readers *)

Section readers.
Context (h : Host).
(** The names of the entries of a directory *)
Context (read_dir : string → option (list string)).

(** linux_proc.rs [count_process_entries_in_dir] *)
Definition count_process_entries_in_dir (path : string) : Z :=
  default 0%Z (count_process_entries <$> read_dir path).

(** linux_proc.rs [proc_root_for] *)
Definition proc_root_for (path : string) : string :=
  let trimmed := trim path in
  if is_empty trimmed then "/proc"
  else if h_is_dir h trimmed then trimmed else "/proc".

(** linux_proc.rs [read_proc_stat_cpu_sample_with_proc_root] *)
Definition read_proc_stat_cpu_sample_with_proc_root (proc_root : string)
  : result Empty_set (option ProcStatCpuSample) :=
  match h_read h (path_join proc_root "stat") with
  | Some contents => parse_proc_stat_cpu_sample contents
  | None => Ok None
  end.

Definition NET_DEV_ERROR : string := "failed to get network IO counters: /proc/net/dev is not readable".

(** linux_proc.rs [collect_network_totals_with_filter_and_proc_root] *)
Definition collect_network_totals_with_filter_and_proc_root (proc_root : string) (filter : NetworkFilter)
  : result string NetworkTotals :=
  contents ← ok_or (h_read h (path_join (path_join proc_root "net") "dev")) NET_DEV_ERROR;
  interfaces ← map_err (fun _ => NET_DEV_ERROR) (parse_net_dev_interfaces_result contents filter);
  map_err (fun e : Empty_set => match e with end) (network_totals_from_interfaces interfaces).

(** linux_proc.rs [collect_network_interfaces_with_filter] *)
Definition collect_network_interfaces_with_filter (filter : NetworkFilter)
  : result Empty_set (option (list NetworkInterfaceTotals)) :=
  match h_read h "/proc/net/dev" with
  | None => Ok None
  | Some contents =>
      match parse_net_dev_interfaces_result contents filter with
      | Ok interfaces => Ok (Some interfaces)
      | Err _ => Ok None
      | Panic => Panic
      end
  end.

(** linux_proc.rs [collect_memory_selection_with_modes] *)
Definition collect_memory_selection_with_modes (include_cache report_raw_used : bool)
  : result Empty_set (option MemorySelection) :=
  match h_read h "/proc/meminfo" with
  | None => Ok None
  | Some contents =>
      Some <$> memory_selection_from_meminfo_with_modes (parse_meminfo contents) include_cache report_raw_used
  end.

(** [match r { Ok(a) => a, Err(e) => { errors.f = Some(g(e)); default } }] *)
Definition or_report {A} (r : result string A) (d : A) (g : string → string)
  : result Empty_set (A * option string) :=
  match r with
  | Ok a => Ok (a, None)
  | Err e => Ok (d, Some (g e))
  | Panic => Panic
  end.

(** linux_proc.rs [collect_proc_metrics_sample_with_filter_and_proc_root] *)
Definition collect_proc_metrics_sample_with_filter_and_proc_root (proc_root : string)
    (filter : NetworkFilter) : result Empty_set ProcMetricsSample :=
  let load := default (mkLoadAverage f_zero f_zero f_zero 0)
    (h_read h (path_join proc_root "loadavg") ≫= parse_loadavg) in
  '(uptime, uptime_error) ← or_report
    (ok_or (h_read h (path_join proc_root "uptime") ≫= parse_uptime)
       "/proc/uptime is not readable or invalid"%string) 0%Z id;
  '(network, network_error) ← or_report
    (collect_network_totals_with_filter_and_proc_root proc_root filter) (mkTotals 0 0)
    (fun _ => NET_DEV_ERROR);
  '(connections, connections_error) ← or_report
    (count_tcp_udp_sockets_in_proc_root (fun p => h_read h (path_join proc_root p))) (0, 0)%Z id;
  Ok (mkProcSample
    (proc_metrics_from_parts load uptime network connections.1 connections.2
       (count_process_entries_in_dir proc_root))
    (mkProcErrors network_error connections_error uptime_error)).

(** linux_proc.rs [collect_proc_metrics_sample_with_filter_and_host_proc] *)
Definition collect_proc_metrics_sample_with_filter_and_host_proc (filter : NetworkFilter) (host_proc : string)
  : result Empty_set ProcMetricsSample :=
  collect_proc_metrics_sample_with_filter_and_proc_root (proc_root_for host_proc) filter.
(** linux_proc.rs [collect_proc_metrics_with_filter_and_host_proc] *)
Definition collect_proc_metrics_with_filter_and_host_proc (filter : NetworkFilter) (host_proc : string)
  : result Empty_set ProcMetrics :=
  ps_metrics <$> collect_proc_metrics_sample_with_filter_and_host_proc filter host_proc.
(** linux_proc.rs [collect_proc_stat_cpu_sample_with_host_proc] *)
Definition collect_proc_stat_cpu_sample_with_host_proc (host_proc : string)
  : result Empty_set (option ProcStatCpuSample) :=
  read_proc_stat_cpu_sample_with_proc_root (proc_root_for host_proc).
(** linux_proc.rs [collect_network_totals_with_filter_and_host_proc] *)
Definition collect_network_totals_with_filter_and_host_proc (filter : NetworkFilter) (host_proc : string)
  : result string NetworkTotals :=
  collect_network_totals_with_filter_and_proc_root (proc_root_for host_proc) filter.

(** linux_proc.rs [collect_memory_values_with_modes] *)
Definition collect_memory_values_with_modes (include_cache report_raw_used : bool)
  : result Empty_set (option (MemoryValues * MemoryValues)) :=
  selection ← collect_memory_selection_with_modes include_cache report_raw_used;
  Ok (s ← selection; (fun ram => (ram, ms_swap s)) <$> ms_ram s).

(** linux_proc.rs [collect_proc_mount_options] *)
Definition collect_proc_mount_options : gmap string string :=
  default ∅ (parse_proc_mount_options <$> h_read h "/proc/mounts").
End readers.

(** ** The saved traffic *)

Section saved.
(** [serde_json] on the file of the traffic sampler: the entries of each interface *)
Context (totals_file : string → option (gmap string (list TrafficData))).

(** [a += b] on [i64], of numbers that are not negative *)
Definition add_i64 (a b : N) : result Empty_set N := expect (checked_add I64_MAX a b).

(** linux_proc.rs [parse_net_static_total_between] 1292-1299: the loop *)
Definition add_saved_entry (start stop : N) (totals : result Empty_set NetworkTotals) (e : TrafficData)
  : result Empty_set NetworkTotals :=
  totals ← totals;
  if entry_between start stop e then
    up ← add_i64 (total_up totals) (u64_to_i64 (td_tx e));
    down ← add_i64 (total_down totals) (u64_to_i64 (td_rx e));
    Ok (mkTotals up down)
  else Ok totals.

(** linux_proc.rs [parse_net_static_total_between] *)
Definition parse_net_static_total_between (contents : string) (start stop : N) (filter : NetworkFilter)
  : result Empty_set (option NetworkTotals) :=
  match totals_file contents with
  | None => Ok None
  | Some interfaces =>
      Some <$> foldl (fun totals '(name, entries) =>
        if should_include filter name then foldl (add_saved_entry start stop) totals entries else totals)
        (Ok (mkTotals 0 0)) (map_to_list interfaces)
  end.

(** linux_proc.rs [collect_net_static_total_between] *)
Definition collect_net_static_total_between (h : Host) (path : string) (start stop : N) (filter : NetworkFilter)
  : result Empty_set (option NetworkTotals) :=
  match h_read h path with
  | Some contents => parse_net_static_total_between contents start stop filter
  | None => Ok None
  end.
End saved.

(** linux_proc.rs [reset_timestamp_for_day]; [now] is the local date and the Unix time,
    [local_midnight] the time of the start of a day, when there is exactly one *)
Definition reset_timestamp_for_day (local_midnight : ymd → option Z) (reset_day : Z) (now : ymd * Z)
  : result Empty_set (option N) :=
  if negb ((1 <=? reset_day)%Z && (reset_day <=? 31)%Z) then Ok (Some (Z.to_N (Z.max now.2 0)))
  else
    day ← reset_date_ymd reset_day now.1.1.1 now.1.1.2 now.1.2;
    Ok ((fun t => Z.to_N (Z.max t 0)) <$> local_midnight day).

Example loadavg_example :
  parse_loadavg "0.50 0.25 1 2/345 678" = Some (mkLoadAverage (f_div f_one (f_of_N 2))
    (f_div f_one (f_of_N 4)) f_one 345).
Proof. vm_compute. reflexivity. Qed.
Example uptime_example : parse_uptime "123.99 4.5" = Some 123%Z.
Proof. vm_compute. reflexivity. Qed.
Example cpu_sample_example :
  parse_proc_stat_cpu_sample ("intr 1" +:+ newline +:+ "cpu  10 20 30 40 5" +:+ newline)
  = Ok (Some (mkCpuSample 105 45)).
Proof. vm_compute. reflexivity. Qed.
