(* ===== verification/System.v ===== *)
(** * A snapshot of the system ([src/src/system.rs])

    What the agent reports of its host, put together from the readers of [linux_proc.rs] (the
    files before [Host*.v], [Gpu.v] and [ProcSample.v]), the traffic sampler ([NetStatic.v]) and
    the [sysinfo] library.  A snapshot is taken over a second: the files are read before and
    after, so the model has two [Host]s.  What the library, the clock and the HTTP client answer
    are fields of [Observations]. *)
From S2P Require Import Prelude RustStd AsyncIo RustF64 NetStatic HostMetrics Task HostNames HostAddrs Gpu ProcSample Config Report.
From Stdlib Require Import Strings.Byte.
From Stdlib Require Import SpecFloat.
From Stdlib Require Strings.String.
Local Open Scope string_scope.
Local Open Scope list_scope.
Local Open Scope Z_scope.

(** ** The numbers of the traffic sampler *)

(** [f64] as the sampler uses it *)
#[export] Instance binary64 : F64 := {|
  f64 := float64;
  f64_is_zero x := bool_decide (f_cmp x f_zero = Some Eq);
  seconds_below n x := f_lt (f_of_N n) x;
  seconds_reach n x := f_le x (f_of_N n);
  days_as_seconds d :=
    f_as_uint U64_MAX (f_max (f_mul (f_mul (f_mul d (f_of_N 24)) (f_of_N 60)) (f_of_N 60)) f_zero);
  DEFAULT_DATA_PRESERVE_DAYS := f_of_N 31;
  DEFAULT_DETECT_INTERVAL_SECONDS := f_of_N 2;
  DEFAULT_SAVE_INTERVAL_SECONDS := f_of_N 600;
|}.

(** ** Data *)

(** system.rs [SystemSnapshot] *)
Record SystemSnapshot := mkSnapshot {
  ss_cpu_name : string; ss_cpu_cores : Z; ss_arch : string; ss_os : string; ss_kernel_version : string;
  ss_ipv4 : string; ss_ipv6 : string;
  ss_mem_total : Z; ss_mem_used : Z; ss_swap_total : Z; ss_swap_used : Z; ss_disk_total : Z; ss_disk_used : Z;
  ss_load1 : float64; ss_load5 : float64; ss_load15 : float64;
  ss_network_up : Z; ss_network_down : Z; ss_network_total_up : Z; ss_network_total_down : Z;
  ss_tcp_connections : Z; ss_udp_connections : Z; ss_uptime : Z; ss_process_count : Z; ss_cpu_usage : float64;
  ss_virtualization : string; ss_gpu_name : string; ss_message : string;
  ss_gpu_report : option GpuReport; ss_cn_connectivity : option string;
}.

(** system.rs [SystemMetricsOptions] *)
Record SystemMetricsOptions := mkMetricsOptions {
  mo_include_nics : string; mo_exclude_nics : string; mo_include_mountpoints : string;
  mo_custom_ipv4 : string; mo_custom_ipv6 : string; mo_custom_dns : string;
  mo_get_ip_addr_from_nic : bool; mo_memory_include_cache : bool; mo_memory_report_raw_used : bool;
  mo_enable_gpu : bool; mo_month_rotate : N; mo_host_proc : string; mo_public_ip_probe : bool;
  mo_net_static_path : string; mo_network_speed_sample_millis : N;
}.

(** system.rs [Default@SystemMetricsOptions::default] *)
Definition metrics_options_default : SystemMetricsOptions :=
  mkMetricsOptions "" "" "" "" "" "" false false false false 0 "" false "net_static.json" 1000.

(** system.rs [SystemMetricsOptions] 90-108: from the configuration *)
Definition metrics_options_from (config : AgentConfig) : SystemMetricsOptions :=
  mkMetricsOptions (cfg_include_nics config) (cfg_exclude_nics config) (cfg_include_mountpoints config)
    (cfg_custom_ipv4 config) (cfg_custom_ipv6 config) (cfg_custom_dns config)
    (cfg_get_ip_addr_from_nic config) (cfg_memory_include_cache config) (cfg_memory_report_raw_used config)
    (cfg_enable_gpu config) (cfg_month_rotate config) (cfg_host_proc config) true "net_static.json" 1000.

(** system.rs [SystemMetricsOptions::net_static_path] *)
Definition net_static_path (self : SystemMetricsOptions) : string :=
  if is_empty (mo_net_static_path self) then "net_static.json" else mo_net_static_path self.

(** ** What goes into a report *)

(** [iter().sum::<f64>()], up to the sign of a zero *)
Definition f_sum (l : list float64) : float64 := foldl f_add f_zero l.

(** system.rs [gpu_report_from_metrics] *)
Definition gpu_report_from_metrics (gpu_name : string) (metrics : list GpuMetric) : option GpuReport :=
  match metrics with
  | _ :: _ =>
      let count := N.of_nat (length metrics) in
      Some (mkGpu None (Some count) (Some (f_div (f_sum (gm_utilization <$> metrics)) (f_of_N count)))
        (Some ((fun m => mkGpuInfo (gm_name m) (gm_memory_total m) (gm_memory_used m) (gm_utilization m)
                           (gm_temperature m)) <$> metrics)))
  | [] =>
      if negb (bool_decide (gpu_name = "None")) && negb (is_empty gpu_name)
      then Some (mkGpu (Some [gpu_name]) None None None) else None
  end.

(** system.rs [append_report_error] *)
Definition append_report_error (message label error : string) : string :=
  message +:+ "failed to get " +:+ label +:+ ": " +:+ error +:+ newline.

(** system.rs [gpu_report_from_detailed_result] *)
Definition gpu_report_from_detailed_result (gpu_name : string) (r : string + list GpuMetric)
  : option GpuReport * string :=
  match r with
  | inr metrics => (gpu_report_from_metrics gpu_name metrics, "")
  | inl error => (gpu_report_from_metrics gpu_name [], append_report_error "" "detailed GPU info" error)
  end.

(** system.rs [gpu_report_from_detailed_results] *)
Definition gpu_report_from_detailed_results (r : string + list GpuMetric)
    (fallback_models : string + list string) : option GpuReport * string :=
  match r with
  | inr metrics => (gpu_report_from_metrics "" metrics, "")
  | inl error =>
      let message := append_report_error "" "detailed GPU info" error in
      let models := filter (fun model => is_empty model = false)
        (trim <$> match fallback_models with inr models => models | inl _ => [] end) in
      match models with
      | [] => (None, message)
      | _ => (Some (mkGpu (Some models) None None None), message)
      end
  end.

(** system.rs [proc_metric_errors_to_message] *)
Definition proc_metric_errors_to_message (errors : ProcMetricErrors) : string :=
  let add message label error :=
    match error with Some error => append_report_error message label error | None => message end in
  add (add (add "" "network speed" (pe_network_speed errors)) "connections" (pe_connections errors))
    "uptime" (pe_uptime errors).

(** 0.001 *)
Definition CPU_USAGE_MIN : float64 := f_of_decimal false 1 (-3).

(** system.rs [go_compatible_cpu_usage] *)
Definition go_compatible_cpu_usage (usage : float64) : float64 :=
  if f_le usage CPU_USAGE_MIN then CPU_USAGE_MIN else usage.

(** system.rs [cpu_usage_from_proc_stat_or_fallback] *)
Definition cpu_usage_from_proc_stat_or_fallback (first second : option ProcStatCpuSample) (fallback : float64)
  : float64 :=
  default fallback (f ← first; s ← second; cpu_usage_percent_from_proc_stat_samples f s).

(** system.rs [process_count_from_proc_metrics_or_fallback] *)
Definition process_count_from_proc_metrics_or_fallback (proc_metrics : option ProcMetrics) (fallback : Z) : Z :=
  default fallback (pm_process_count <$> proc_metrics).

(** system.rs [select_report_memory_values] *)
Definition select_report_memory_values (linux_memory : option MemorySelection)
    (memory_include_cache memory_report_raw_used : bool) (fallback_ram fallback_swap : MemoryValues)
  : MemoryValues * MemoryValues :=
  let raw_used_without_meminfo :=
    negb (bool_decide (is_Some linux_memory)) && memory_report_raw_used && negb memory_include_cache in
  let ram :=
    if raw_used_without_meminfo then HostMetrics.mkMemory 0 0
    else default fallback_ram (linux_memory ≫= ms_ram) in
  (ram, default fallback_swap (ms_swap <$> linux_memory)).

Definition has_address (a : IpAddresses) : bool := negb (is_empty (ipv4 a)) || negb (is_empty (ipv6 a)).

(** system.rs [select_basic_info_ip_addresses] *)
Definition select_basic_info_ip_addresses (get_ip_addr_from_nic : bool) (nic_addresses : option IpAddresses)
    (fallback_addresses : IpAddresses) (custom_ipv4 custom_ipv6 : string) : IpAddresses :=
  match (if get_ip_addr_from_nic then nic_addresses else None) with
  | Some addresses =>
      if has_address addresses then addresses
      else mkIps (if is_empty custom_ipv4 then ipv4 fallback_addresses else custom_ipv4)
                 (if is_empty custom_ipv6 then ipv6 fallback_addresses else custom_ipv6)
  | None => mkIps (if is_empty custom_ipv4 then ipv4 fallback_addresses else custom_ipv4)
                  (if is_empty custom_ipv6 then ipv6 fallback_addresses else custom_ipv6)
  end.

(** system.rs [SystemSnapshot::to_report] *)
Definition to_report (self : SystemSnapshot) : Report :=
  mkReport (mkCpu (go_compatible_cpu_usage (ss_cpu_usage self)))
    (Report.mkMemory (ss_mem_total self) (ss_mem_used self))
    (Report.mkMemory (ss_swap_total self) (ss_swap_used self))
    (mkLoad (ss_load1 self) (ss_load5 self) (ss_load15 self))
    (Report.mkDisk (ss_disk_total self) (ss_disk_used self))
    (mkNetwork (ss_network_up self) (ss_network_down self) (ss_network_total_up self) (ss_network_total_down self))
    (mkConnections (ss_tcp_connections self) (ss_udp_connections self))
    (ss_uptime self) (ss_process_count self) (ss_gpu_report self) (ss_cn_connectivity self) (ss_message self).

(** system.rs [SystemSnapshot::to_basic_info] *)
Definition to_basic_info (self : SystemSnapshot) (version : string) : BasicInfo :=
  mkBasicInfo (ss_cpu_name self) (ss_cpu_cores self) (go_runtime_arch_name (ss_arch self)) (ss_os self)
    (ss_kernel_version self) (ss_ipv4 self) (ss_ipv6 self) (ss_mem_total self) (ss_swap_total self)
    (ss_disk_total self) (ss_gpu_name self) (ss_virtualization self) version.

(** system.rs [parse_nics] *)
Definition parse_nics (value : string) : list string :=
  filter (fun item => is_empty item = false) (trim <$> split [[x2c]] value).

(** ** Collecting *)

(** [x as i64] of a [u64] *)
Definition as_i64 (n : N) : Z := (Z.of_N n + 2 ^ 63) mod 2 ^ 64 - 2 ^ 63.

(** A disk of [sysinfo] *)
Record SysDisk := mkSysDisk {
  sd_name : string; sd_mount_point : string; sd_file_system : string; sd_total_space : N; sd_available_space : N;
}.

(** What a call of [collect] sees *)
Record Observations := mkObservations {
  (** files and commands: at first, and after the pause *)
  ob_before : Host;
  ob_after : Host;
  ob_read_dir : string → option (list string);
  ob_exists : string → bool;
  ob_statvfs : string → option statvfs;
  ob_drm_cards : option (list (string * option string));
  ob_cpuid : bool * (N * N * N);
  ob_path : option string;
  (** [sysinfo]: each processor's brand and usage, disks, memory and swap, processes *)
  ob_cpus : list (string * float64);
  ob_disks : list SysDisk;
  ob_memory : N * N;
  ob_swap : N * N;
  ob_processes : N;
  (** the local date and the Unix time; the start of a day *)
  ob_now : ymd * Z;
  ob_local_midnight : ymd → option Z;
  (** the outcome of writing the sampler's file *)
  ob_saved : result string unit;
  ob_client_builder : option string → PublicIpProbeFamily → option (string → option string);
  ob_arch : string;
  (** JSON decoding and the Unicode tables *)
  ob_rocm_json : string → option (gmap string (option (gmap string string)));
  ob_totals_file : string → option (gmap string (list TrafficData));
  ob_to_lowercase : string → string;
}.

(** system.rs [SystemSnapshotCollector]; the sampler is the state that is kept *)
Record SystemSnapshotCollector := mkCollector {
  sc_metrics : SystemMetricsOptions;
  sc_net_static_sampler : option NetStaticSampler;
}.

(** system.rs [SystemSnapshotCollector::net_static_sampler_for_metrics]; the file's contents and
    the time are what the constructor of the sampler reads *)
Definition net_static_sampler_for_metrics (metrics : SystemMetricsOptions) (contents : FileContents) (now : N)
  : option NetStaticSampler :=
  if (mo_month_rotate metrics =? 0)%N then None
  else
    let d := net_config_default in
    Some (with_config (mkNetConfig (data_preserve_days d) (detect_interval_seconds d) (save_interval_seconds d)
            (parse_nics (mo_include_nics metrics))) contents now).

(** system.rs [SystemSnapshotCollector::with_metrics] *)
Definition with_metrics (metrics : SystemMetricsOptions) (contents : FileContents) (now : N)
  : SystemSnapshotCollector :=
  mkCollector metrics (net_static_sampler_for_metrics metrics contents now).

(** system.rs [SystemSnapshotCollector::from_config] *)
Definition collector_from_config (config : AgentConfig) (contents : FileContents) (now : N)
  : SystemSnapshotCollector := with_metrics (metrics_options_from config) contents now.

Section collect.
Context (o : Observations) (metrics : SystemMetricsOptions).

Definition now_unix : N := Z.to_N (Z.max (ob_now o).2 0).

(** system.rs [SystemSnapshotCollector::month_rotate_network_totals] *)
Definition month_rotate_network_totals (sampler : option NetStaticSampler) (network_filter : NetworkFilter)
  : result Empty_set (option NetworkTotals) :=
  if (mo_month_rotate metrics =? 0)%N then Ok None
  else
    start ← reset_timestamp_for_day (ob_local_midnight o) (Z.of_N (mo_month_rotate metrics)) (ob_now o);
    match start with
    | None => Ok None
    | Some start =>
        match sampler with
        | Some sampler => Ok (Some (total_between sampler start now_unix network_filter))
        | None =>
            collect_net_static_total_between (ob_totals_file o) (ob_after o) (net_static_path metrics)
              start now_unix network_filter
        end
    end.

(** system.rs [SystemSnapshotCollector::collect] 410-418: the usage [sysinfo] knows *)
Definition fallback_cpu_usage : float64 :=
  match ob_cpus o with
  | [] => CPU_USAGE_MIN
  | cpus => f_div (f_sum cpus.*2) (f_of_N (N.of_nat (length cpus)))
  end.

(** system.rs [SystemSnapshotCollector::collect] 420-441: the disks *)
Definition collect_disks : result Empty_set DiskValues :=
  let mount_options := collect_proc_mount_options (ob_before o) in
  let mount disk :=
    let total := as_i64 (sd_total_space disk) in
    mkMount (sd_name disk) (sd_mount_point disk) (sd_file_system disk)
      (default "" (mount_options !! sd_mount_point disk)) total
      (saturating_i64 (total - as_i64 (sd_available_space disk))) in
  collect_disk_values_with_mountpoints (ob_to_lowercase o)
    (fun path => disk_usage_of_statvfs <$> ob_statvfs o path)
    (mount <$> ob_disks o) (mo_include_mountpoints metrics).

(** system.rs [SystemSnapshotCollector::collect] 443-486: the samples after the pause; the speed,
    the ticks, and the message *)
Definition second_samples (proc_sample : ProcMetricsSample) (first_cpu_sample : option ProcStatCpuSample)
    (network_filter : NetworkFilter) (message : string)
  : result Empty_set (NetworkSpeedSample * option ProcStatCpuSample * string) :=
  let first_network := pm_network (ps_metrics proc_sample) in
  let unsampled := mkSpeed first_network (mkTotals 0 0) in
  let should_sample_network := negb (bool_decide (is_Some (pe_network_speed (ps_errors proc_sample)))) in
  if should_sample_network || bool_decide (is_Some first_cpu_sample) then
    second_cpu_sample ← collect_proc_stat_cpu_sample_with_host_proc (ob_after o) (mo_host_proc metrics);
    if should_sample_network then
      match collect_network_totals_with_filter_and_host_proc (ob_after o) network_filter (mo_host_proc metrics) with
      | Ok second_network =>
          Ok (network_speed_from_samples first_network second_network
                (f_div (f_of_N (mo_network_speed_sample_millis metrics)) (f_of_N 1000)),
              second_cpu_sample, message)
      | Err error => Ok (unsampled, second_cpu_sample, append_report_error message "network speed" error)
      | Panic => Panic
      end
    else Ok (unsampled, second_cpu_sample, message)
  else Ok (unsampled, None, message).

(** system.rs [SystemSnapshotCollector::collect] 494-517: the sampler's turn *)
Definition run_sampler (network_filter : NetworkFilter) (sampler : NetStaticSampler)
  : result Empty_set NetStaticSampler :=
  interfaces ← collect_network_interfaces_with_filter (ob_after o) network_filter;
  let sampler :=
    match interfaces with
    | Some interfaces =>
        let counters := (fun i => NetStatic.mkInterface (ni_name i) (ni_up i) (ni_down i)) <$> interfaces in
        sample now_unix counters (set_nics (ic_name <$> counters) sampler)
    | None => sampler
    end in
  match flush_if_due now_unix (ob_saved o) sampler with
  | (sampler, (Done _ | Fail _)) => Ok sampler
  | _ => Panic
  end.

(** system.rs [SystemSnapshotCollector::collect] 536-557: the addresses *)
Definition collect_addresses (network_filter : NetworkFilter) : IpAddresses :=
  let nic_addresses :=
    if mo_get_ip_addr_from_nic metrics then collect_ip_addresses_with_filter (ob_after o) network_filter else None in
  let nic_has_addresses := match nic_addresses with Some a => has_address a | None => false end in
  let fallback_addresses :=
    if mo_get_ip_addr_from_nic metrics && nic_has_addresses then no_ips
    else if mo_public_ip_probe metrics
    then collect_public_ip_addresses_with_dns (ob_client_builder o) (mo_custom_dns metrics)
    else no_ips in
  select_basic_info_ip_addresses (mo_get_ip_addr_from_nic metrics) nic_addresses fallback_addresses
    (mo_custom_ipv4 metrics) (mo_custom_ipv6 metrics).

(** system.rs [SystemSnapshotCollector::collect] 560-570: the graphics cards *)
Definition collect_gpu_report : option GpuReport * string :=
  if mo_enable_gpu metrics then
    let detailed_result := collect_detailed_gpu_metrics_result (ob_after o) (ob_path o) (ob_rocm_json o) in
    let fallback_models :=
      match detailed_result with
      | inl _ => collect_detailed_gpu_models_result (ob_after o) (ob_path o) (ob_rocm_json o)
      | inr _ => inr []
      end in
    gpu_report_from_detailed_results detailed_result fallback_models
  else (None, "").

(** system.rs [SystemSnapshotCollector::collect]; on Linux the sample of [/proc] is always there,
    so the values for a missing one are not used *)
Definition collect_with (sampler : option NetStaticSampler)
  : result Empty_set (SystemSnapshot * option NetStaticSampler) :=
  let network_filter := filter_from_csv (mo_include_nics metrics) (mo_exclude_nics metrics) in
  proc_sample ← collect_proc_metrics_sample_with_filter_and_host_proc (ob_before o) (ob_read_dir o) network_filter
    (mo_host_proc metrics);
  let proc_metrics := ps_metrics proc_sample in
  let message := proc_metric_errors_to_message (ps_errors proc_sample) in
  linux_memory ← collect_memory_selection_with_modes (ob_before o) (mo_memory_include_cache metrics)
    (mo_memory_report_raw_used metrics);
  first_cpu_sample ← collect_proc_stat_cpu_sample_with_host_proc (ob_before o) (mo_host_proc metrics);
  disk_values ← collect_disks;
  '(network_speed_sample, second_cpu_sample, message) ←
    second_samples proc_sample first_cpu_sample network_filter message;
  sampler ← match sampler with Some s => Some <$> run_sampler network_filter s | None => Ok None end;
  monthly_network ← month_rotate_network_totals sampler network_filter;
  let network_totals := default (sp_total network_speed_sample) monthly_network in
  let '(ram_values, swap_values) := select_report_memory_values linux_memory (mo_memory_include_cache metrics)
    (mo_memory_report_raw_used metrics)
    (HostMetrics.mkMemory (as_i64 (ob_memory o).1) (as_i64 (ob_memory o).2))
    (HostMetrics.mkMemory (as_i64 (ob_swap o).1) (as_i64 (ob_swap o).2)) in
  let ip_addresses := collect_addresses network_filter in
  let '(gpu_report, gpu_message) := collect_gpu_report in
  Ok ({|
    ss_cpu_name := collect_cpu_name (ob_before o) (head (ob_cpus o).*1);
    ss_cpu_cores := as_i32 (Z.max (Z.of_nat (length (ob_cpus o))) 1);
    ss_arch := go_runtime_arch_name (ob_arch o);
    ss_os := collect_os_name (ob_after o);
    ss_kernel_version := collect_kernel_version (ob_after o);
    ss_ipv4 := ipv4 ip_addresses;
    ss_ipv6 := ipv6 ip_addresses;
    ss_mem_total := mv_total ram_values;
    ss_mem_used := mv_used ram_values;
    ss_swap_total := mv_total swap_values;
    ss_swap_used := mv_used swap_values;
    ss_disk_total := dv_total disk_values;
    ss_disk_used := dv_used disk_values;
    ss_load1 := pm_load1 proc_metrics;
    ss_load5 := pm_load5 proc_metrics;
    ss_load15 := pm_load15 proc_metrics;
    ss_network_up := Z.of_N (total_up (sp_speed network_speed_sample));
    ss_network_down := Z.of_N (total_down (sp_speed network_speed_sample));
    ss_network_total_up := Z.of_N (total_up network_totals);
    ss_network_total_down := Z.of_N (total_down network_totals);
    ss_tcp_connections := pm_tcp_connections proc_metrics;
    ss_udp_connections := pm_udp_connections proc_metrics;
    ss_uptime := pm_uptime proc_metrics;
    ss_process_count := process_count_from_proc_metrics_or_fallback (Some proc_metrics)
      (as_i32 (Z.of_N (ob_processes o)));
    ss_cpu_usage := cpu_usage_from_proc_stat_or_fallback first_cpu_sample second_cpu_sample fallback_cpu_usage;
    ss_virtualization := detect_virtualization (ob_after o) (ob_exists o) (ob_cpuid o);
    ss_gpu_name := collect_gpu_name (ob_after o) (ob_drm_cards o);
    ss_message := message +:+ gpu_message;
    ss_gpu_report := gpu_report;
    ss_cn_connectivity := None;
  |}, sampler).
End collect.

(** system.rs [SystemSnapshotCollector::collect] *)
Definition collect (o : Observations) (self : SystemSnapshotCollector)
  : result Empty_set (SystemSnapshot * SystemSnapshotCollector) :=
  '(snapshot, sampler) ← collect_with o (sc_metrics self) (sc_net_static_sampler self);
  Ok (snapshot, mkCollector (sc_metrics self) sampler).

(** system.rs [ReportGenerator@SystemReportGenerator::generate] *)
Definition system_generate (o : Observations) (self : SystemSnapshotCollector)
  : result Empty_set (Report * SystemSnapshotCollector) :=
  '(snapshot, self) ← collect o self;
  Ok (to_report snapshot, self).

(** ** The message names what failed *)

Definition error_of {A} (r : result string A) : option string := match r with Err e => Some e | _ => None end.
Definition error_line (p : string * string) : string := append_report_error "" p.1 p.2.
Definition labelled (label : string) (e : option string) : list (string * string) :=
  match e with Some e => [(label, e)] | None => [] end.

(** The sources of a snapshot that fail, in the order they are read *)
Definition failed_sources (o : Observations) (metrics : SystemMetricsOptions) : list (string * string) :=
  let root := proc_root_for (ob_before o) (mo_host_proc metrics) in
  let nics := filter_from_csv (mo_include_nics metrics) (mo_exclude_nics metrics) in
  let first := collect_network_totals_with_filter_and_proc_root (ob_before o) root nics in
  let second := collect_network_totals_with_filter_and_host_proc (ob_after o) nics (mo_host_proc metrics) in
  labelled "network speed" ((fun _ => NET_DEV_ERROR) <$> error_of first)
  ++ labelled "connections"
       (error_of (count_tcp_udp_sockets_in_proc_root (fun p => h_read (ob_before o) (path_join root p))))
  ++ labelled "uptime"
       (match h_read (ob_before o) (path_join root "uptime") ≫= parse_uptime with
        | Some _ => None
        | None => Some "/proc/uptime is not readable or invalid"
        end)
  ++ labelled "network speed" (match first with Ok _ => error_of second | _ => None end)
  ++ labelled "detailed GPU info"
       (if mo_enable_gpu metrics then
          match collect_detailed_gpu_metrics_result (ob_after o) (ob_path o) (ob_rocm_json o) with
          | inl e => Some e
          | inr _ => None
          end
        else None).

Definition message_of (errors : list (string * string)) : string := foldr (fun p s => error_line p +:+ s) "" errors.

Lemma sapp_assoc (s t u : string) : (s +:+ t) +:+ u = s +:+ (t +:+ u).
Proof. induction s as [|c s IH]; [done|]. change (String.String c ((s +:+ t) +:+ u) = String.String c (s +:+ (t +:+ u))). by rewrite IH. Qed.
Lemma sapp_nil_r (s : string) : s +:+ "" = s.
Proof. induction s as [|c s IH]; [done|]. change (String.String c (s +:+ "") = String.String c s). by rewrite IH. Qed.
Lemma message_of_app l k : message_of (l ++ k) = message_of l +:+ message_of k.
Proof.
  induction l as [|p l IH]; [done|].
  change (error_line p +:+ message_of (l ++ k) = (error_line p +:+ message_of l) +:+ message_of k).
  by rewrite IH, sapp_assoc.
Qed.
Lemma append_error_line m label e : append_report_error m label e = m +:+ message_of [(label, e)].
Proof. cbn. by rewrite sapp_nil_r. Qed.

Lemma errors_message errors :
  proc_metric_errors_to_message errors
  = message_of (labelled "network speed" (pe_network_speed errors)
      ++ labelled "connections" (pe_connections errors) ++ labelled "uptime" (pe_uptime errors)).
Proof.
  destruct errors as [[n|] [c|] [u|]]; cbn; rewrite ?append_error_line; cbn; by rewrite ?sapp_assoc, ?sapp_nil_r.
Qed.

Lemma or_report_inv {A} (r : result string A) d g a e :
  or_report r d g = Ok (a, e) → e = g <$> error_of r ∧ r ≠ Panic ∧ (∀ b, r = Ok b → a = b).
Proof. destruct r; cbn; [..|done]; intros [= <- <-]; naive_solver. Qed.

Lemma sample_errors o metrics nics sample :
  collect_proc_metrics_sample_with_filter_and_host_proc (ob_before o) (ob_read_dir o) nics (mo_host_proc metrics)
    = Ok sample →
  let root := proc_root_for (ob_before o) (mo_host_proc metrics) in
  let first := collect_network_totals_with_filter_and_proc_root (ob_before o) root nics in
  ps_errors sample = mkProcErrors ((fun _ => NET_DEV_ERROR) <$> error_of first)
    (error_of (count_tcp_udp_sockets_in_proc_root (fun p => h_read (ob_before o) (path_join root p))))
    (match h_read (ob_before o) (path_join root "uptime") ≫= parse_uptime with
     | Some _ => None | None => Some "/proc/uptime is not readable or invalid" end)
  ∧ first ≠ Panic ∧ (∀ totals, first = Ok totals → pm_network (ps_metrics sample) = totals).
Proof.
  intros H root first. unfold collect_proc_metrics_sample_with_filter_and_host_proc,
    collect_proc_metrics_sample_with_filter_and_proc_root in H. fold root in H.
  apply bind_Ok in H as ([u ue] & Hu & H). apply bind_Ok in H as ([n ne] & Hn & H).
  apply bind_Ok in H as ([c ce] & Hc & H). apply (inj Ok) in H as <-.
  apply or_report_inv in Hu as [-> _], Hn as [-> Hp], Hc as [-> _]. split; [|done]. cbn.
  f_equal; [by destruct (error_of _)|by destruct (_ ≫= _)].
Qed.

Lemma second_message o metrics sample first_cpu nics message speed second_cpu message' :
  second_samples o metrics sample first_cpu nics message = Ok (speed, second_cpu, message') →
  message' = message +:+ message_of (labelled "network speed"
    (match pe_network_speed (ps_errors sample) with
     | None => error_of (collect_network_totals_with_filter_and_host_proc (ob_after o) nics (mo_host_proc metrics))
     | Some _ => None end)).
Proof.
  unfold second_samples. destruct (pe_network_speed _) as [e|]; cbn [negb orb].
  - rewrite bool_decide_true by done. cbn [negb orb]. rewrite sapp_nil_r.
    destruct (bool_decide _); [|by intros [= <- <- <-]].
    intros H. apply bind_Ok in H as (c & _ & H). by injection H as <- <- <-.
  - rewrite bool_decide_false by (by intros []). cbn [negb orb]. intros H.
    apply bind_Ok in H as (c & _ & H).
    destruct (collect_network_totals_with_filter_and_host_proc _ _ _); cbn in H; [..|done]; injection H as <- <- <-.
    + by rewrite sapp_nil_r.
    + apply append_error_line.
Qed.

Lemma gpu_message o metrics :
  (collect_gpu_report o metrics).2 = message_of (labelled "detailed GPU info"
    (if mo_enable_gpu metrics then
       match collect_detailed_gpu_metrics_result (ob_after o) (ob_path o) (ob_rocm_json o) with
       | inl e => Some e | inr _ => None end
     else None)).
Proof.
  unfold collect_gpu_report. destruct (mo_enable_gpu metrics); [|done].
  destruct (collect_detailed_gpu_metrics_result _ _ _) as [e|ms]; [|done].
  unfold gpu_report_from_detailed_results. destruct (filter _ _); cbn [snd]; apply append_error_line.
Qed.

(** The parts of a snapshot that was taken *)
Lemma collect_inv o self snapshot self' :
  let metrics := sc_metrics self in
  let nics := filter_from_csv (mo_include_nics metrics) (mo_exclude_nics metrics) in
  collect o self = Ok (snapshot, self') →
  ∃ sample cpu speed cpu2 message sampler monthly,
    collect_proc_metrics_sample_with_filter_and_host_proc (ob_before o) (ob_read_dir o) nics (mo_host_proc metrics)
      = Ok sample
    ∧ second_samples o metrics sample cpu nics (proc_metric_errors_to_message (ps_errors sample))
      = Ok (speed, cpu2, message)
    ∧ match sc_net_static_sampler self with Some s => Some <$> run_sampler o nics s | None => Ok None end = Ok sampler
    ∧ month_rotate_network_totals o metrics sampler nics = Ok monthly
    ∧ self' = mkCollector metrics sampler
    ∧ ss_message snapshot = message +:+ (collect_gpu_report o metrics).2
    ∧ ss_network_total_up snapshot = Z.of_N (total_up (default (sp_total speed) monthly))
    ∧ ss_network_total_down snapshot = Z.of_N (total_down (default (sp_total speed) monthly)).
Proof.
  intros metrics nics H. unfold collect in H. apply bind_Ok in H as ([snap sampler] & H & E).
  apply (inj Ok) in E. injection E as <- <-. unfold collect_with in H.
  apply bind_Ok in H as (sample & Hs & H). apply bind_Ok in H as (mem & _ & H).
  apply bind_Ok in H as (cpu & _ & H). apply bind_Ok in H as (disk & _ & H).
  apply bind_Ok in H as ([[speed cpu2] message] & H2 & H). apply bind_Ok in H as (s & H3 & H).
  apply bind_Ok in H as (monthly & H4 & H). destruct (select_report_memory_values _ _ _ _ _) as [ram swap].
  exists sample, cpu, speed, cpu2, message, sampler, monthly. unfold metrics.
  destruct (collect_gpu_report o (sc_metrics self)) as [gpu gm].
  apply (inj Ok) in H. injection H as <- <-. done.
Qed.


(** ** The traffic of a month *)

(** What a snapshot does to the sampler *)
Definition sampler_ops (o : Observations) (nics : NetworkFilter) : list net_op :=
  match collect_network_interfaces_with_filter (ob_after o) nics with
  | Ok (Some interfaces) =>
      let counters := (fun i => NetStatic.mkInterface (ni_name i) (ni_up i) (ni_down i)) <$> interfaces in
      [NetSetNics (ic_name <$> counters); NetSample (now_unix o) counters; NetFlushIfDue (now_unix o) (ob_saved o)]
  | _ => [NetFlushIfDue (now_unix o) (ob_saved o)]
  end.
(** The sampler after a sequence of calls; [None] is a panic *)
Definition net_apply_all (ops : list net_op) (s : NetStaticSampler) : option NetStaticSampler :=
  foldl (fun s op => s ≫= net_apply op) (Some s) ops.

(** Without failure of the first one, the totals of a speed sample are the latest that could be read. *)
Lemma second_totals o metrics nics sample cpu m speed cpu2 m' totals :
  collect_proc_metrics_sample_with_filter_and_host_proc (ob_before o) (ob_read_dir o) nics (mo_host_proc metrics)
    = Ok sample →
  second_samples o metrics sample cpu nics m = Ok (speed, cpu2, m') →
  collect_network_totals_with_filter_and_proc_root (ob_before o) (proc_root_for (ob_before o) (mo_host_proc metrics)) nics
    = Ok totals →
  sp_total speed = match collect_network_totals_with_filter_and_host_proc (ob_after o) nics (mo_host_proc metrics) with
                   | Ok second => second | _ => totals end.
Proof.
  intros Hs H2 Ht. apply sample_errors in Hs as (He & _ & Hn). specialize (Hn _ Ht). rewrite Ht in He.
  unfold second_samples in H2. rewrite He, Hn in H2. cbn in H2. apply bind_Ok in H2 as (c & _ & H2).
  destruct (collect_network_totals_with_filter_and_host_proc _ _ _); cbn in H2; [..|done]; by injection H2 as <- _ _.
Qed.

(** There is a sampler exactly when there is a reset day. *)
Definition collector_wf (c : SystemSnapshotCollector) : Prop :=
  is_Some (sc_net_static_sampler c) ↔ mo_month_rotate (sc_metrics c) ≠ 0%N.

Lemma with_metrics_wf metrics contents now : collector_wf (with_metrics metrics contents now).
Proof.
  unfold collector_wf, with_metrics, net_static_sampler_for_metrics. cbn.
  destruct (mo_month_rotate metrics =? 0)%N eqn:E; [apply N.eqb_eq in E|apply N.eqb_neq in E].
  - rewrite E. split; [by intros []|done].
  - split; [done|by eexists].
Qed.

Lemma run_sampler_ops o nics s s' :
  run_sampler o nics s = Ok s' → net_apply_all (sampler_ops o nics) s = Some s'.
Proof.
  unfold run_sampler, sampler_ops, net_apply_all. intros H. apply bind_Ok in H as (interfaces & -> & H).
  destruct interfaces as [interfaces|]; cbn [foldl mbind option_bind net_apply].
  all: destruct (flush_if_due _ _ _) as [s1 out]; destruct out; cbn in *; by inv_ok.
Qed.

(** The first day of the month, and the totals reported when there is one *)
Definition month_start (o : Observations) (metrics : SystemMetricsOptions) : result Empty_set (option N) :=
  reset_timestamp_for_day (ob_local_midnight o) (Z.of_N (mo_month_rotate metrics)) (ob_now o).
Definition reported_totals (snapshot : SystemSnapshot) : Z * Z :=
  (ss_network_total_up snapshot, ss_network_total_down snapshot).
Definition Z_totals (t : NetworkTotals) : Z * Z := (Z.of_N (total_up t), Z.of_N (total_down t)).


(** ** Witnesses *)
Module SystemDemo.
Definition line (s : string) : string := s +:+ newline.
(** A host of which only some files of [/proc] can be read *)
Definition host (files : list (string * string)) : Host :=
  mkHost (fun p => snd <$> head (filter (fun f => f.1 = p) files)) (fun _ => None) (fun _ => false) (fun _ => false)
    (fun _ _ => None).
Definition net_dev (received sent : string) : string * string :=
  ("/proc/net/dev", line "Inter-|   Receive" +:+ line " face |bytes" +:+
     line ("  eth0: " +:+ received +:+ " 0 0 0 0 0 0 0 " +:+ sent +:+ " 0 0 0 0 0 0 0")).
Definition observations : Observations := {|
  ob_before := host [net_dev "1000" "500"; ("/proc/uptime", "77.5 3")];
  ob_after := host [net_dev "4000" "700"];
  ob_read_dir _ := Some ["1"; "self"; "25"]; ob_exists _ := false; ob_statvfs _ := None; ob_drm_cards := None;
  ob_cpuid := (false, (0, 0, 0)%N); ob_path := None; ob_cpus := []; ob_disks := []; ob_memory := (100, 40)%N;
  ob_swap := (0, 0)%N; ob_processes := 9; ob_now := ((2024, 5, 20), 1716200000);
  ob_local_midnight _ := Some 1714521600; ob_saved := Ok tt; ob_client_builder _ _ := None; ob_arch := "x86_64";
  ob_rocm_json _ := None; ob_totals_file _ := None; ob_to_lowercase s := s |}.
(** Five minutes later *)
Definition later : Observations := {|
  ob_before := host [net_dev "4000" "700"]; ob_after := host [net_dev "9000" "1700"];
  ob_read_dir _ := None; ob_exists _ := false; ob_statvfs _ := None; ob_drm_cards := None;
  ob_cpuid := (false, (0, 0, 0)%N); ob_path := None; ob_cpus := []; ob_disks := []; ob_memory := (100, 40)%N;
  ob_swap := (0, 0)%N; ob_processes := 9; ob_now := ((2024, 5, 20), 1716200300);
  ob_local_midnight _ := Some 1714521600; ob_saved := Ok tt; ob_client_builder _ _ := None; ob_arch := "x86_64";
  ob_rocm_json _ := None; ob_totals_file _ := None; ob_to_lowercase s := s |}.
Definition collector (month_rotate : N) : SystemSnapshotCollector :=
  with_metrics (mkMetricsOptions "" "" "" "" "" "" false false false true month_rotate "" false "" 1000)
    FileMissing 1716200000.
Definition snapshot_of (r : result Empty_set (SystemSnapshot * SystemSnapshotCollector)) (c : SystemSnapshotCollector)
  : option SystemSnapshot * SystemSnapshotCollector :=
  match r with Ok (s, c) => (Some s, c) | _ => (None, c) end.
(** The collector after the first snapshot *)
Definition second_collector : SystemSnapshotCollector :=
  (snapshot_of (collect observations (collector 1)) (collector 1)).2.
End SystemDemo.

Example snapshot_example :
  (fun s => (ss_network_up s, ss_network_down s, ss_uptime s, ss_process_count s, reported_totals s))
    <$> (SystemDemo.snapshot_of (collect SystemDemo.observations (SystemDemo.collector 0)) (SystemDemo.collector 0)).1
  = Some (200, 3000, 77, 2, (700, 4000)).
Proof. vm_compute. reflexivity. Qed.


