(* ===== verification/CnConnectivity.v ===== *)
(** * The connectivity probe ([src/src/cn_connectivity.rs])

    The backend configures a list of targets; a thread probes them and stores the result,
    which the reports carry.  A probe runs without the lock: the configuration may change
    while it runs, and its result is then dropped.  The prober and the clock are
    parameters; [i32] settings are integers, the [u32] failure count panics on overflow. *)
From S2P Require Import Prelude RustStd AsyncIo Transport.
From Stdlib Require Import Strings.Byte.
From Stdlib Require Strings.String.
Local Open Scope N_scope.

(** cn_connectivity.rs [DEFAULT_INTERVAL_SECONDS] *)
Definition DEFAULT_INTERVAL_SECONDS : Z := 60.
(** cn_connectivity.rs [DEFAULT_RETRY_ATTEMPTS] *)
Definition DEFAULT_RETRY_ATTEMPTS : Z := 3.
(** cn_connectivity.rs [DEFAULT_RETRY_DELAY_SECONDS] *)
Definition DEFAULT_RETRY_DELAY_SECONDS : Z := 1.
(** cn_connectivity.rs [DEFAULT_TIMEOUT_SECONDS] *)
Definition DEFAULT_TIMEOUT_SECONDS : Z := 5.
(** cn_connectivity.rs [FAILURE_LIMIT] *)
Definition FAILURE_LIMIT : N := 2.

(** cn_connectivity.rs [positive_or_default] *)
Definition positive_or_default (value default : Z) : Z := if (0 <? value)%Z then value else default.

(** cn_connectivity.rs [CnConnectivityProbeConfig] *)
Record ProbeConfig := mkProbeConfig {
  pc_enabled : bool;
  pc_targets : list string;
  pc_targets_key : string;
  pc_interval_seconds : Z;
  pc_retry_attempts : Z;
  pc_retry_delay_seconds : Z;
  pc_timeout_seconds : Z;
}.
#[export] Instance ProbeConfig_eq_dec : EqDecision ProbeConfig.
Proof. solve_decision. Defined.

(** cn_connectivity.rs [CnConnectivityProbeConfig::default] *)
Definition probe_config_default : ProbeConfig :=
  mkProbeConfig false [] "" DEFAULT_INTERVAL_SECONDS DEFAULT_RETRY_ATTEMPTS DEFAULT_RETRY_DELAY_SECONDS
    DEFAULT_TIMEOUT_SECONDS.

(** cn_connectivity.rs [parse_targets] *)
Definition parse_targets (value : string) : list string :=
  foldl (fun targets target =>
    let target := trim target in
    if negb (is_empty target) && negb (existsb (fun existing => bool_decide (existing = target)) targets)
    then targets ++ [target] else targets)
    [] (split [[x0a]; [x0d]; [x2c]; [x3b]] value).

(** cn_connectivity.rs [CnConnectivityProbeConfig::from_backend] *)
Definition from_backend (enabled : bool) (target : option string)
    (interval_seconds retry_attempts retry_delay_seconds timeout_seconds : Z) : ProbeConfig :=
  let targets := parse_targets (default ""%string target) in
  mkProbeConfig (enabled && negb (bool_decide (targets = []))) targets
    (join (str_of [x0a]) targets)
    (positive_or_default interval_seconds DEFAULT_INTERVAL_SECONDS)
    (positive_or_default retry_attempts DEFAULT_RETRY_ATTEMPTS)
    (positive_or_default retry_delay_seconds DEFAULT_RETRY_DELAY_SECONDS)
    (positive_or_default timeout_seconds DEFAULT_TIMEOUT_SECONDS).

(** cn_connectivity.rs [CnConnectivityProbeResult] *)
Record ProbeResult := mkProbeResult {
  pr_status : string;
  pr_target : string;
  pr_latency : option Z;
  pr_message : string;
  pr_checked_at : option string;
  pr_consecutive_failures : option N;
}.

(** cn_connectivity.rs [CnConnectivityInner] *)
Record CnInner := mkCn { cn_config : ProbeConfig; cn_result : option ProbeResult; cn_failures : N }.

(** cn_connectivity.rs [CnConnectivityInner::default] *)
Definition cn_default : CnInner := mkCn probe_config_default None 0.

(** cn_connectivity.rs [CnConnectivityState::update_config] *)
Definition update_config (config : ProbeConfig) (inner : CnInner) : result unit CnInner :=
  if bool_decide (cn_config inner = config) then Ok inner else
  r ← (if pc_enabled config then
         target ← index (pc_targets config) 0;
         Ok (Some (mkProbeResult "unknown" target None "waiting for probe" None None))
       else Ok None);
  Ok (mkCn config r 0).

(** cn_connectivity.rs [CnConnectivityState::current_config] *)
Definition current_config (inner : CnInner) : ProbeConfig := cn_config inner.

(** cn_connectivity.rs [CnConnectivityState::store_probe_result] *)
Definition store_probe_result (config : ProbeConfig) (r : ProbeResult) (inner : CnInner)
    : result unit CnInner :=
  if bool_decide (cn_config inner ≠ config) || negb (pc_enabled (cn_config inner)) then Ok inner
  else if bool_decide (pr_status r = "ok"%string) then
    Ok (mkCn (cn_config inner)
          (Some (mkProbeResult (pr_status r) (pr_target r) (pr_latency r) (pr_message r) (pr_checked_at r) None)) 0)
  else
    failures ← expect (checked_add U32_MAX (cn_failures inner) 1);
    let status := if FAILURE_LIMIT <=? failures then "blocked_suspected"%string else "degraded"%string in
    Ok (mkCn (cn_config inner)
          (Some (mkProbeResult status (pr_target r) (pr_latency r) (pr_message r) (pr_checked_at r)
                   (Some failures))) failures).

(** ** Probing

    [answers n target] is the result of the [n]th call of the prober; the state counts the
    calls and the waits between retries. *)
Record Prober := mkProber { pb_calls : list string; pb_waits : nat }.

Section probe.
Context (answers : nat → string → Z + string) (now : string).
Abbreviation pact := (act Prober unit).

Definition call_prober (target : string) : pact (Z + string) := fun p =>
  (mkProber (pb_calls p ++ [target]) (pb_waits p), Done (answers (length (pb_calls p)) target)).
Definition wait_retry : pact unit := modify (fun p => mkProber (pb_calls p) (S (pb_waits p))).

(** cn_connectivity.rs [probe_target_with_retries] 328-347: the attempts that remain, and the last
    error *)
Fixpoint probe_attempts (remaining : nat) (target : string) (last_error : option string)
    : pact (Z + option string) :=
  match remaining with
  | O => mret (inr last_error)
  | S remaining =>
      a ← call_prober target;
      match a with
      | inl latency => mret (inl latency)
      | inr error =>
          _ ← (match remaining with O => mret tt | S _ => wait_retry end);
          probe_attempts remaining target (Some error)
      end
  end.

(** cn_connectivity.rs [probe_target_with_retries] *)
Definition probe_target_with_retries (target : string) (retry_attempts : Z) : pact ProbeResult :=
  let attempts := positive_or_default retry_attempts DEFAULT_RETRY_ATTEMPTS in
  r ← probe_attempts (Z.to_nat attempts) target None;
  match r with
  | inl latency => mret (mkProbeResult "ok" target (Some latency) "icmp reachable" (Some now) None)
  | inr last_error =>
      let message :=
        match last_error with
        | Some error =>
            if (attempts =? 1)%Z then error
            else error +:+ " after " +:+ pretty attempts +:+ " attempts"
        | None => "connectivity probe failed"%string
        end in
      mret (mkProbeResult "degraded" target None message (Some now) None)
  end.

(** cn_connectivity.rs [probe_targets_with_retries] 385-397: its loop *)
Fixpoint probe_targets_loop (retry_attempts : Z) (targets : list string) (failures : list string)
    : pact (ProbeResult + list string) :=
  match targets with
  | [] => mret (inr failures)
  | target :: targets =>
      r ← probe_target_with_retries target retry_attempts;
      if bool_decide (pr_status r = "ok"%string) then mret (inl r)
      else probe_targets_loop retry_attempts targets (failures ++ [target +:+ ": " +:+ pr_message r])
  end.

(** cn_connectivity.rs [probe_targets_with_retries] *)
Definition probe_targets_with_retries (config : ProbeConfig) : pact ProbeResult :=
  match pc_targets config with
  | [] => mret (mkProbeResult "degraded" "" None "no targets configured" (Some now) None)
  | _ =>
      r ← probe_targets_loop (pc_retry_attempts config) (pc_targets config) [];
      match r with
      | inl r => mret r
      | inr failures =>
          mret (mkProbeResult "degraded" (join ", " (pc_targets config)) None (join "; " failures)
                  (Some now) None)
      end
  end.

(** cn_connectivity.rs [CnConnectivityState::probe_once_with] ([meanwhile] is what the other
    threads do to the state during the probe) *)
Definition probe_once_with (meanwhile : CnInner → CnInner) (inner : CnInner) : result unit CnInner :=
  let config := current_config inner in
  if negb (pc_enabled config) then Ok inner else
  match probe_targets_with_retries config (mkProber [] 0) with
  | (_, Done r) => store_probe_result config r (meanwhile inner)
  | _ => Panic
  end.
End probe.

(** cn_connectivity.rs [ControlMessageHandler@CnConnectivityControlMessageHandler::handle] (the
    line it prints is not modelled) *)
Definition cn_handle (m : BackendMessage) (inner : CnInner) : result unit CnInner :=
  match m with
  | CnConnectivityProbeConfig enabled target interval attempts delay timeout =>
      update_config (from_backend enabled target interval attempts delay timeout) inner
  | _ => Ok inner
  end.

(** ** The reported status follows the probes *)

Inductive cn_event := Reconfigured | Stored (ok : bool) | Nothing.

(** The state, and the configuration of the probe under way *)
Definition cn_system : Type := CnInner * option ProbeConfig.

Inductive cn_step : cn_system → cn_event → cn_system → Prop :=
  | cn_message m inner inner' flight :
      cn_handle m inner = Ok inner' →
      cn_step (inner, flight)
        (if bool_decide (cn_config inner' = cn_config inner) then Nothing else Reconfigured) (inner', flight)
  | cn_start inner :
      pc_enabled (current_config inner) = true →
      cn_step (inner, None) Nothing (inner, Some (current_config inner))
  | cn_finish inner inner' c answers now p r :
      probe_targets_with_retries answers now c (mkProber [] 0) = (p, Done r) →
      store_probe_result c r inner = Ok inner' →
      cn_step (inner, Some c)
        (if bool_decide (cn_config inner = c) then Stored (bool_decide (pr_status r = "ok"%string)) else Nothing)
        (inner', None).

Inductive cn_reaches : list cn_event → cn_system → Prop :=
  | cn_reaches_init : cn_reaches [] (cn_default, None)
  | cn_reaches_step tr s e s' : cn_reaches tr s → cn_step s e s' → cn_reaches (tr ++ [e]) s'.

(** The failures in a row since the last success or change of configuration, once a probe
    has been stored *)
Definition after (a : option N) (e : cn_event) : option N :=
  match e with
  | Reconfigured => None
  | Stored true => Some 0
  | Stored false => Some (default 0 a + 1)
  | Nothing => a
  end.
Definition streak (tr : list cn_event) : option N := foldl after None tr.

Definition status_of (a : option N) : string :=
  match a with
  | None => "unknown"
  | Some n => if bool_decide (n = 0) then "ok" else if bool_decide (n = 1) then "degraded" else "blocked_suspected"
  end.

(** The report agrees with the streak. *)
Definition reports (a : option N) (inner : CnInner) : Prop :=
  cn_failures inner = default 0 a
  ∧ (pc_enabled (cn_config inner) = true → pc_targets (cn_config inner) ≠ [])
  ∧ match cn_result inner with
    | None => pc_enabled (cn_config inner) = false
    | Some r => pc_enabled (cn_config inner) = true ∧ pr_status r = status_of a
                ∧ pr_consecutive_failures r = (if bool_decide (cn_failures inner = 0) then None
                                               else Some (cn_failures inner))
    end.

Section status.
Lemma from_backend_targets e t i a d o :
  pc_enabled (from_backend e t i a d o) = true → pc_targets (from_backend e t i a d o) ≠ [].
Proof. cbn. rewrite andb_true_iff, negb_true_iff, bool_decide_eq_false. by intros [_ H]. Qed.

Lemma update_config_reports c a inner :
  (pc_enabled c = true → pc_targets c ≠ []) → reports a inner →
  ∃ inner', update_config c inner = Ok inner' ∧ cn_config inner' = c
    ∧ reports (if bool_decide (cn_config inner = c) then a else None) inner'.
Proof.
  intros Hc Hr. unfold update_config. case_bool_decide as E; [by exists inner|].
  destruct (pc_enabled c) eqn:He.
  - destruct (pc_targets c) as [|t ts] eqn:Ht; [by destruct (Hc eq_refl)|]. cbn.
    eexists. split; [done|]. split; [done|]. unfold reports. cbn. by rewrite He, Ht.
  - eexists. split; [done|]. split; [done|]. unfold reports. cbn. by rewrite He.
Qed.

Lemma handle_reports m a inner :
  reports a inner → ∃ inner', cn_handle m inner = Ok inner'
    ∧ reports (if bool_decide (cn_config inner' = cn_config inner) then a else None) inner'.
Proof.
  intros Hr. destruct m; cbn; try (exists inner; by rewrite bool_decide_true).
  edestruct update_config_reports as (inner' & Hu & Hc & Hr'); [apply from_backend_targets|exact Hr|].
  exists inner'. split; [exact Hu|]. rewrite Hc. erewrite bool_decide_ext; [exact Hr'|]. naive_solver.
Qed.

Lemma store_reports c r a inner inner' :
  pc_enabled c = true → reports a inner → store_probe_result c r inner = Ok inner' →
  reports (if bool_decide (cn_config inner = c) then after a (Stored (bool_decide (pr_status r = "ok"%string)))
           else a) inner'.
Proof.
  intros He (H1 & H2 & H3) H. unfold store_probe_result in H.
  destruct (decide (cn_config inner = c)) as [E|E].
  - rewrite (bool_decide_true (cn_config inner = c)) by done.
    rewrite (bool_decide_false (cn_config inner ≠ c)), E, He in H by (intros Hn; by destruct (Hn E)).
    cbn [orb negb] in H.
    destruct (decide (pr_status r = "ok"%string)) as [Ho|Ho].
    + rewrite bool_decide_true in H by done. injection H as <-. rewrite bool_decide_true by done.
      unfold reports. cbn. rewrite <- E in *. auto.
    + rewrite bool_decide_false in H by done. rewrite bool_decide_false by done.
      unfold checked_add in H. case_bool_decide; [|done]. cbn in H. injection H as <-.
      unfold reports. cbn. rewrite H1, <- E in *. split_and!; [done|done|done| |].
      * unfold FAILURE_LIMIT, status_of. rewrite bool_decide_false by lia.
        destruct (N.leb_spec 2 (default 0 a + 1)).
        -- by rewrite bool_decide_false by lia.
        -- by rewrite bool_decide_true by lia.
      * by rewrite bool_decide_false by lia.
  - rewrite (bool_decide_true (cn_config inner ≠ c)) in H by done. cbn in H. injection H as <-.
    by rewrite bool_decide_false.
Qed.

Lemma reaches_reports tr s :
  cn_reaches tr s → reports (streak tr) s.1 ∧ (∀ c, s.2 = Some c → pc_enabled c = true).
Proof.
  induction 1 as [|tr s e s' Hr [IH Hf] Hs]; [done|]. unfold streak. rewrite foldl_app. cbn [foldl].
  fold (streak tr).
  destruct Hs as [m inner inner' flight Hm|inner Hen|inner inner' c answers now p r Hp Hst]; cbn [fst snd] in *.
  - destruct (handle_reports m _ _ IH) as (i & Hi & Hrep). rewrite Hi in Hm. injection Hm as ->.
    split; [|done]. by case_bool_decide.
  - split; [done|]. by intros c [= <-].
  - split; [|done]. eapply store_reports in IH; [|by apply Hf|done]. by case_bool_decide.
Qed.
End status.

(** C38: The reported connectivity follows the probes: whatever configurations arrive, also while
    a probe runs, there is a report exactly when the probe is enabled; it says unknown until
    a probe of this configuration is stored, then ok, degraded or blocked_suspected for no,
    one or more failures in a row, with their number.  Configuration messages never panic,
    and a result is only refused for a full counter. *)
Theorem cn_status_tracks_streak tr inner flight :
  cn_reaches tr (inner, flight) →
  reports (streak tr) inner
  ∧ (∀ m, ∃ inner', cn_handle m inner = Ok inner')
  ∧ (∀ c r, default 0 (streak tr) < U32_MAX → ∃ inner', store_probe_result c r inner = Ok inner').
Proof.
  intros Hr. apply reaches_reports in Hr as [Hr _]. cbn in Hr. split_and!; [done| |].
  - intros m. destruct (handle_reports m _ _ Hr) as (i & Hi & _). by exists i.
  - intros c r Hlt. unfold store_probe_result. repeat case_match; eauto. destruct Hr as [Hf _].
    unfold checked_add. rewrite Hf, bool_decide_true by lia. eauto.
Qed.

(** ** What a probe calls *)
Section first_answer.
Context (answers : nat → string → Z + string) (now : string).

(** The first attempt of a plan that is answered, when its first call is call [i] *)
Fixpoint first_answer (i : nat) (plan : list string) : option (nat * string * Z) :=
  match plan with
  | [] => None
  | t :: rest =>
      match answers i t with
      | inl latency => Some (O, t, latency)
      | inr _ => (fun '(k, t, l) => (S k, t, l)) <$> first_answer (S i) rest
      end
  end.

Lemma first_answer_app i l k :
  first_answer i (l ++ k) =
  match first_answer i l with
  | Some x => Some x
  | None => (fun '(n, t, z) => (length l + n, t, z)%nat) <$> first_answer (i + length l) k
  end.
Proof.
  revert i. induction l as [|x l IH]; intros i; cbn.
  - rewrite Nat.add_0_r. by destruct (first_answer i k) as [[[] ]|].
  - destruct (answers i x); [done|]. rewrite IH.
    destruct (first_answer (S i) l) as [[[]]|]; [done|]. cbn.
    replace (i + S (length l))%nat with (S (i + length l))%nat by lia.
    by destruct (first_answer (S (i + length l)) k) as [[[]]|].
Qed.

Lemma first_answer_lt i plan k t z : first_answer i plan = Some (k, t, z) → (k < length plan)%nat.
Proof.
  revert i k. induction plan as [|x plan IH]; intros i k H; cbn in *; [done|].
  destruct (answers i x); [by injection H as <- _ _; lia|].
  destruct (first_answer (S i) plan) as [[[k' t'] z']|] eqn:E; [|done]. cbn in H.
  injection H as <- <- <-. apply IH in E. lia.
Qed.

(** What the calls of a plan come to: the calls made, and the answer *)
Definition planned_calls (p : Prober) (plan : list string) : list string :=
  pb_calls p ++ match first_answer (length (pb_calls p)) plan with
                | Some (k, _, _) => take (S k) plan
                | None => plan
                end.

Lemma planned_calls_none p plan :
  first_answer (length (pb_calls p)) plan = None → planned_calls p plan = pb_calls p ++ plan.
Proof. intros H. unfold planned_calls. by rewrite H. Qed.

Lemma attempts_spec n target err p :
  ∃ p' r, probe_attempts answers n target err p = (p', Done r)
  ∧ pb_calls p' = planned_calls p (replicate n target)
  ∧ match first_answer (length (pb_calls p)) (replicate n target) with
    | Some (_, t, z) => r = inl z ∧ t = target
    | None => ∃ e, r = inr e
    end.
Proof.
  revert err p. induction n as [|n IH]; intros err p.
  { eexists _, _. split; [done|]. unfold planned_calls. cbn. rewrite app_nil_r. eauto. }
  cbn [probe_attempts replicate]. unfold call_prober, mbind at 1, act_bind at 1, planned_calls.
  cbn [first_answer pb_calls pb_waits]. destruct (answers (length (pb_calls p)) target) as [z|e].
  { eexists _, _. split; [done|]. by cbn. }
  set (p1 := mkProber (pb_calls p ++ [target]) _).
  assert (∃ p2, match n with O => mret tt | S _ => wait_retry end p1 = (p2, Done (E:=unit) tt)
                ∧ pb_calls p2 = pb_calls p ++ [target]) as (p2 & Hw & Hc) by (destruct n; eauto).
  unfold mbind, act_bind. rewrite Hw. destruct (IH (Some e) p2) as (p' & r & Hr & Hcalls & Hm).
  exists p', r. split; [done|]. rewrite Hcalls. unfold planned_calls. rewrite Hc, length_app in *. cbn in *.
  rewrite Nat.add_1_r in *. destruct (first_answer (S (length (pb_calls p))) (replicate n target)) as [[[k t] z]|];
    cbn; by rewrite <- app_assoc.
Qed.

Lemma target_spec target attempts p :
  (0 < attempts)%Z →
  ∃ p' r, probe_target_with_retries answers now target attempts p = (p', Done r)
  ∧ pb_calls p' = planned_calls p (replicate (Z.to_nat attempts) target)
  ∧ match first_answer (length (pb_calls p)) (replicate (Z.to_nat attempts) target) with
    | Some (_, t, z) => r = mkProbeResult "ok" t (Some z) "icmp reachable" (Some now) None
    | None => pr_status r = "degraded"%string
    end.
Proof.
  intros Ha. unfold probe_target_with_retries, positive_or_default.
  rewrite (proj2 (Z.ltb_lt 0 attempts) Ha).
  destruct (attempts_spec (Z.to_nat attempts) target None p) as (p' & r & Hr & Hc & Hm).
  unfold mbind, act_bind. rewrite Hr.
  destruct (first_answer _ _) as [[[k t] z]|]; [destruct Hm as [-> ->]|destruct Hm as [e ->]];
    (eexists _, _; split; [done|]; by split).
Qed.

(** The plan of a probe: each target as often as it is tried *)
Definition probe_plan (targets : list string) (attempts : nat) : list string :=
  concat (replicate attempts <$> targets).

Lemma targets_spec targets attempts failures p :
  (0 < attempts)%Z →
  let plan := probe_plan targets (Z.to_nat attempts) in
  ∃ p' r, probe_targets_loop answers now attempts targets failures p = (p', Done r)
  ∧ pb_calls p' = planned_calls p plan
  ∧ match first_answer (length (pb_calls p)) plan with
    | Some (_, t, z) => r = inl (mkProbeResult "ok" t (Some z) "icmp reachable" (Some now) None)
    | None => ∃ fs, r = inr fs
    end.
Proof.
  intros Ha. revert failures p. induction targets as [|t targets IH]; intros failures p; cbn zeta.
  { eexists _, _. split; [done|]. unfold planned_calls. cbn. rewrite app_nil_r. eauto. }
  unfold probe_plan. cbn [fmap list_fmap concat]. fold (probe_plan targets (Z.to_nat attempts)).
  cbn [probe_targets_loop]. destruct (target_spec t attempts p Ha) as (p1 & r & Hr & Hc & Hm).
  unfold mbind, act_bind. rewrite Hr. unfold planned_calls in *. rewrite first_answer_app.
  destruct (first_answer (length (pb_calls p)) (replicate (Z.to_nat attempts) t)) as [[[k u] z]|] eqn:Hf.
  - rewrite Hm. eexists _, _. split; [done|]. split; [|done]. rewrite Hc. f_equal.
    rewrite take_app_le; [done|]. apply first_answer_lt in Hf. lia.
  - rewrite Hm. cbn. destruct (IH (failures ++ [t +:+ ": " +:+ pr_message r]) p1) as (p2 & r2 & H2 & Hc2 & Hm2).
    exists p2, r2. split; [done|]. rewrite Hc2, Hc, length_app in *.
    set (l := replicate (Z.to_nat attempts) t) in *.
    destruct (first_answer (length (pb_calls p) + length l) _) as [[[k u] z]|]; cbn; (split; [|done]);
      rewrite <- app_assoc; f_equal.
    rewrite take_app_ge by lia. do 2 f_equal. lia.
Qed.
End first_answer.

(** A probe is the first answer to its plan: the targets in order, each tried
    [retry_attempts] times, until one answers.  It ends; the prober is called exactly on the
    plan up to and including the first answered attempt, whose target and latency are
    reported as ok, or on the whole plan, and then the result is degraded with no latency. *)
Theorem probe_first_answer answers now config :
  pc_targets config ≠ [] → (0 < pc_retry_attempts config)%Z →
  let plan := probe_plan (pc_targets config) (Z.to_nat (pc_retry_attempts config)) in
  ∃ p r, probe_targets_with_retries answers now config (mkProber [] 0) = (p, Done r)
  ∧ match first_answer answers 0 plan with
    | Some (k, t, z) => pb_calls p = take (S k) plan
        ∧ r = mkProbeResult "ok" t (Some z) "icmp reachable" (Some now) None
    | None => pb_calls p = plan ∧ pr_status r = "degraded"%string ∧ pr_latency r = None
        ∧ pr_target r = join ", " (pc_targets config)
    end.
Proof.
  intros Ht Ha. unfold probe_targets_with_retries. destruct (pc_targets config) as [|t0 ts]; [done|].
  destruct (targets_spec answers now (t0 :: ts) (pc_retry_attempts config) [] (mkProber [] 0) Ha)
    as (p & r & Hr & Hc & Hm).
  unfold planned_calls in Hc. cbn [pb_calls length app] in Hc, Hm. cbv zeta.
  unfold mbind, act_bind. rewrite Hr.
  destruct (first_answer answers 0 _) as [[[k t] z]|]; [rewrite Hm|destruct Hm as [fs ->]]; by eexists _, _.
Qed.

(** ** Witnesses *)
Module CnDemo.
(** The second call is answered. *)
Definition answers (n : nat) (_ : string) : Z + string := if (n =? 1)%nat then inl 12%Z else inr "timeout"%string.
Definition message : BackendMessage := CnConnectivityProbeConfig true (Some "1.1.1.1, 8.8.8.8"%string) 0 2 0 0.
Definition config : ProbeConfig := from_backend true (Some "1.1.1.1, 8.8.8.8"%string) 0 2 0 0.
Definition dead (_ : nat) (_ : string) : Z + string := inr "timeout"%string.
Definition get_ok (r : result unit CnInner) : CnInner := match r with Ok i => i | _ => cn_default end.
Definition i1 : CnInner := get_ok (cn_handle message cn_default).
Definition bad : ProbeResult :=
  match (probe_targets_with_retries dead "t" config (mkProber [] 0)).2 with Done r => r
  | _ => mkProbeResult "" "" None "" None None end.
Definition i2 : CnInner := get_ok (store_probe_result config bad i1).
End CnDemo.

Lemma cn_status_tracks_streak_witness :
  cn_failures CnDemo.i2 = 1 ∧ pr_status <$> cn_result CnDemo.i2 = Some "degraded"%string
  ∧ reports (Some 1) CnDemo.i2.
Proof.
  split; [vm_compute; reflexivity|]. split; [vm_compute; reflexivity|].
  apply (cn_status_tracks_streak [Reconfigured; Nothing; Stored false] CnDemo.i2 None).
  apply (cn_reaches_step [Reconfigured; Nothing] (CnDemo.i1, Some CnDemo.config) (Stored false) (CnDemo.i2, None)).
  - apply (cn_reaches_step [Reconfigured] (CnDemo.i1, None) Nothing (CnDemo.i1, Some CnDemo.config)).
    + apply (cn_reaches_step [] (cn_default, None) Reconfigured (CnDemo.i1, None)); [constructor|].
      apply (cn_message CnDemo.message cn_default CnDemo.i1 None). vm_compute. reflexivity.
    + apply (cn_start CnDemo.i1). vm_compute. reflexivity.
  - apply (cn_finish CnDemo.i1 CnDemo.i2 CnDemo.config CnDemo.dead "t"
      (probe_targets_with_retries CnDemo.dead "t" CnDemo.config (mkProber [] 0)).1 CnDemo.bad); vm_compute; reflexivity.
Defined.

Lemma probe_first_answer_witness :
  ∃ p, probe_targets_with_retries CnDemo.answers "t" CnDemo.config (mkProber [] 0)
       = (p, Done (mkProbeResult "ok" "1.1.1.1" (Some 12%Z) "icmp reachable" (Some "t"%string) None))
    ∧ pb_calls p = ["1.1.1.1"; "1.1.1.1"]%string.
Proof.
  destruct (probe_first_answer CnDemo.answers "t" CnDemo.config) as (p & r & Hr & Hc & Hres);
    [vm_compute; discriminate|vm_compute; reflexivity|].
  exists p. rewrite Hr, Hres. split; [reflexivity|]. rewrite Hc. vm_compute. reflexivity.
Defined.
