(* ===== verification/Main.v ===== *)
(** * The entry point ([src/src/main.rs])

    What the program prints and starts, in order, and the status it exits with; and the two
    threads that keep the tunnel connected.  [main] is composed of the definitions of the other
    files; what the outside answers (the file system, the panel, the set-up of the HTTP
    clients) is the [Machine] it runs on. *)
From S2P Require Import Prelude RustStd RustF64 AsyncIo Transport TunnelControl TunnelAuth TunnelDiag TunnelData TunnelStats.
From S2P Require Import Config Report ReportLoop AutoDiscovery.
From Stdlib Require Import Strings.Byte.
From Stdlib Require Strings.String.
Local Open Scope string_scope.
Local Open Scope list_scope.
Local Open Scope N_scope.

(** ** The threads of the tunnel *)

(** main.rs [main] 199-200: the delay after the next one *)
Definition double_delay (retry_delay : N) : N := N.min (retry_delay + retry_delay) (from_secs 60).

(** main.rs [main] 177-200: an attempt of the control thread: what is printed, how long it
    sleeps, and the delay for the next one; [attempt] is the outcome of the session, or the
    error of its address *)
Definition control_attempt (attempt : string + unit) (retry_delay : N) : list string * N * N :=
  match attempt with
  | inr _ => ([], from_secs 15, double_delay (from_secs 15))
  | inl error => (["tunnel control warning: " +:+ error], retry_delay, double_delay retry_delay)
  end.

(** main.rs [main] 314-320: an attempt of the data thread *)
Definition data_attempt (attempt : string + unit) (retry_delay : N) : list string * N * N :=
  let '(sleep_delay, next_retry_delay) :=
    tunnel_data_reconnect_delay_after_attempt retry_delay (match attempt with inr _ => true | inl _ => false end) in
  (match attempt with inl error => ["tunnel data warning: " +:+ error] | inr _ => [] end,
   sleep_delay, next_retry_delay).

(** The delays of a thread that makes these attempts *)
Fixpoint thread_sleeps (attempt : string + unit → N → list string * N * N) (attempts : list (string + unit))
    (retry_delay : N) : list N :=
  match attempts with
  | [] => []
  | a :: attempts =>
      let '(_, sleep, next) := attempt a retry_delay in sleep :: thread_sleeps attempt attempts next
  end.

(** ** [main] *)

(** main.rs [version_requested] *)
Definition version_requested (args : list string) : bool :=
  existsb (fun arg => bool_decide (arg = "--version") || bool_decide (arg = "-V")) (drop 1 args).

(** What [main] does that can be seen *)
Inductive MainEvent :=
  | Stdout (line : string)
  | Stderr (line : string)
  | StartProbeLoop
  | ControlOnce (url : string) (sent : list TunnelControlClientMessage)
  | SpawnControl
  | SpawnData
  | ReportLoop (log : list Event).

(** The status a process ends with when it panics *)
Definition PANIC_STATUS : N := 101.

Section main.
(** JSON, IDNA and the formatting of numbers *)
Context (fmt_f64 : float64 → string) (config_from_json : string → string + FileConfig).
Context (domain_to_ascii : string → option string).
Context (cache_from_json : string → option AutoDiscoveryCache) (cache_to_json : AutoDiscoveryCache → string + string).
Context (raw_from_slice : list byte → result string RawBackendMessage).
Context (server_message_from_slice : list byte → result string TunnelControlServerMessage).
(** The rules the control session writes *)
Context {S : Type} `{Sink : !TunnelRuleStateSink S}.
(** [env!("CARGO_PKG_VERSION")] and [usize::MAX]; the fuel of the loop's sleeps *)
Context (version : string) (usize_max sleep_fuel : nat).

Record Machine := mkMachine {
  mc_args : list string;
  mc_env : string → option string;
  mc_read_to_string : string → string + string;
  (** the cache and the registrar, or the error of setting them up: at start and for recovery *)
  mc_discovery : result AutoDiscoveryError Discovery;
  mc_recovery : result AutoDiscoveryError Discovery;
  (** the HTTP clients *)
  mc_http : option TransportError;
  mc_uploader : option string;
  (** the control connection of a single run, and the rule state *)
  mc_control : result TransportError ControlSocket;
  mc_rules : S;
  (** what the panel answers the report loop *)
  mc_panel : World unit;
}.
Context (m : Machine).

(** auto_discovery.rs [resolve_auto_discovery] *)
Definition resolve_auto_discovery (config : AgentConfig) : AgentConfig * result AutoDiscoveryError bool :=
  if is_empty (trim (cfg_auto_discovery_key config)) then (config, Ok false)
  else
    match mc_discovery m with
    | Ok d =>
        let '(_, config, r) := resolve_auto_discovery_with domain_to_ascii cache_from_json cache_to_json d config in
        (config, r)
    | Err e => (config, Err e)
    | Panic => (config, Panic)
    end.

(** auto_discovery.rs [token_recovery_from_config] *)
Definition token_recovery_from_config (config : AgentConfig) : result AutoDiscoveryError (option Discovery) :=
  if is_empty (trim (cfg_auto_discovery_key config)) then Ok None else Some <$> mc_recovery m.

(** [result.ok()] of an address *)
Definition url_ok (r : result ProtocolError string) : option string :=
  match r with Ok url => Some url | _ => None end.

Definition ktp_tcp_enabled (config : AgentConfig) : bool := negb (is_empty (trim (cfg_tunnel_ktp_tcp_address config))).

(** main.rs [main] 72-83 *)
Definition control_line (config : AgentConfig) : string :=
  match url_ok (build_tunnel_control_ws_url domain_to_ascii (cfg_endpoint config) (cfg_token config)) with
  | Some url => tunnel_control_startup_line url (cfg_tunnel_control_enabled config)
  | None =>
      if cfg_tunnel_control_enabled config then "tunnel control: enabled url=invalid"
      else tunnel_control_startup_line "" false
  end.

(** main.rs [main] 84-109 *)
Definition data_line (config : AgentConfig) : string :=
  match url_ok (if ktp_tcp_enabled config then build_tunnel_data_ktp_tcp_url (cfg_tunnel_ktp_tcp_address config)
                else build_tunnel_data_ws_url domain_to_ascii (cfg_endpoint config) (cfg_token config)) with
  | Some url =>
      if ktp_tcp_enabled config
      then tunnel_data_startup_line_with_ktp_auth_version url (cfg_tunnel_data_enabled config)
             (cfg_tunnel_ktp_tcp_auth_version config)
      else tunnel_data_startup_line url (cfg_tunnel_data_enabled config)
  | None =>
      if cfg_tunnel_data_enabled config then "tunnel data: enabled url=invalid"
      else tunnel_data_startup_line "" false
  end.

(** main.rs [main] 150-204: the control session of a single run, or its thread *)
Definition start_control (config : AgentConfig) : outcome string (list MainEvent) :=
  if negb (cfg_tunnel_control_enabled config) then Done []
  else if cfg_once config then
    match url_ok (build_tunnel_control_ws_url domain_to_ascii (cfg_endpoint config) (cfg_token config)) with
    | None => Done []
    | Some url =>
        let '(_, sent, r) := run_tunnel_control_once server_message_from_slice (mc_control m) (mc_rules m) version
          (supported_tunnel_data_transports_for_ktp_tcp (ktp_tcp_enabled config)) in
        match r with
        | Done _ => Done [ControlOnce url sent]
        | Fail error => Done [ControlOnce url sent; Stderr ("tunnel control warning: " +:+ TransportError_to_string error)]
        | Wait => Wait
        | Crash => Crash
        end
    end
  else Done [SpawnControl].

(** The world of the report loop, with the recovery and the configuration [main] has *)
Definition with_recovery {R} (recovery : R) (config : AgentConfig) : World R :=
  let w := mc_panel m in
  mkWorld (w_uploads w) (w_connects w) (w_reads w) (w_sends w) (w_infos w) (w_reports w) (w_pongs w)
    recovery config [].
(** main.rs [main] 334-385: the report loop, single or not, with or without token recovery *)
Definition run_reports (config : AgentConfig) (recovery : option Discovery)
  : list Event * outcome RuntimeError unit :=
  match recovery with
  | Some d =>
      let recover := shared_recover (AutoDiscovery.recover_from_transport_error domain_to_ascii cache_from_json
                                       cache_to_json) in
      let w := with_recovery (mkSharedRecovery d (shared_new (cfg_token config)) []) config in
      let '(w, r) :=
        if cfg_once config
        then run_once_with_ping_and_token_recovery raw_from_slice domain_to_ascii recover w
        else run_report_cycles_with_ping_delay_and_token_recovery raw_from_slice domain_to_ascii recover
               sleep_fuel usize_max w in
      (w_log w, r)
  | None =>
      let w := with_recovery tt config in
      let '(w, r) :=
        if cfg_once config then run_once_with_ping raw_from_slice domain_to_ascii w
        else run_report_cycles_with_ping_delay raw_from_slice domain_to_ascii sleep_fuel usize_max w in
      (w_log w, r)
  end.

Definition USAGE : string :=
  "usage: kelicloud-agent-rs --endpoint https://panel.example.com (--token TOKEN | --auto-discovery KEY)".

(** main.rs [main] 325-393: from the recovery on *)
Definition main_loop (config : AgentConfig) (started : list MainEvent) : list MainEvent * option N :=
  match token_recovery_from_config config with
  | Err error => (started ++ [Stderr ("auto-discovery recovery error: " +:+ AutoDiscoveryError_to_string error)], Some 2)
  | Panic => (started, Some PANIC_STATUS)
  | Ok recovery =>
      let '(log, r) := run_reports config recovery in
      let started := started ++ [ReportLoop log] in
      match r with
      | Fail error => (started ++ [Stderr ("runtime error: " +:+ RuntimeError_to_string error)], Some 1)
      | Done _ => (started ++ [Stdout "agent loop: completed"], Some 0)
      | Wait => (started, None)
      | Crash => (started, Some PANIC_STATUS)
      end
  end.

(** main.rs [main] 67-149: with a configuration *)
Definition main_with (config : AgentConfig) : list MainEvent * option N :=
  let lines := [Stdout (startup_summary config); Stdout (control_line config); Stdout (data_line config)] in
  let lines := lines ++ [StartProbeLoop] in
  match mc_http m with
  | Some error => (lines ++ [Stderr ("transport error: " +:+ TransportError_to_string error)], Some 2)
  | None =>
      match mc_uploader m with
      | Some error => (lines ++ [Stderr ("task uploader error: " +:+ error)], Some 2)
      | None =>
          match start_control config with
          | Done control =>
              main_loop config (lines ++ control ++ (if cfg_tunnel_data_enabled config then [SpawnData] else []))
          | Fail _ | Wait => (lines, None)
          | Crash => (lines, Some PANIC_STATUS)
          end
      end
  end.

(** main.rs [main] 41-65; no status when a call does not return *)
Definition main : list MainEvent * option N :=
  if version_requested (mc_args m) then ([Stdout ("kelicloud-agent-rs " +:+ version)], Some 0)
  else
    match from_args_and_env fmt_f64 (mc_read_to_string m) config_from_json (mc_env m) (mc_args m) with
    | Err error => ([Stderr ("configuration error: " +:+ ConfigError_to_string error); Stderr USAGE], Some 2)
    | Panic => ([], Some PANIC_STATUS)
    | Ok config =>
        match resolve_auto_discovery config with
        | (_, Err error) => ([Stderr ("auto-discovery error: " +:+ AutoDiscoveryError_to_string error)], Some 2)
        | (_, Panic) => ([], Some PANIC_STATUS)
        | (config, Ok _) => main_with config
        end
    end.
End main.

(** ** The delays of the threads *)

Lemma attempts_agree a d :
  from_secs 5 ≤ d ≤ from_secs 60 →
  (data_attempt a d).1.2 = (control_attempt a d).1.2 ∧ (data_attempt a d).2 = (control_attempt a d).2
  ∧ from_secs 5 ≤ (control_attempt a d).1.2 ≤ from_secs 60 ∧ from_secs 5 ≤ (control_attempt a d).2 ≤ from_secs 60.
Proof.
  intros Hd. assert (from_secs 120 ≤ DURATION_MAX) by by_decide.
  unfold data_attempt, control_attempt, double_delay, tunnel_data_reconnect_delay_after_attempt, checked_add.
  rewrite (bool_decide_false (d = 0)) by (unfold from_secs in *; lia).
  destruct a; cbn [fst snd]; rewrite bool_decide_true by (unfold from_secs in *; lia); cbn [from_option id];
    unfold from_secs in *; lia.
Qed.

Lemma sleeps_agree l d :
  from_secs 5 ≤ d ≤ from_secs 60 →
  thread_sleeps data_attempt l d = thread_sleeps control_attempt l d
  ∧ Forall (fun t => from_secs 5 ≤ t ≤ from_secs 60) (thread_sleeps control_attempt l d).
Proof.
  revert d. induction l as [|a l IH]; intros d Hd; [done|]. cbn [thread_sleeps].
  destruct (attempts_agree a d Hd) as (H1 & H2 & H3 & H4).
  destruct (data_attempt a d) as [[w1 s1] n1], (control_attempt a d) as [[w2 s2] n2]. cbn [fst snd] in *. subst.
  destruct (IH n2 H4) as [-> Hf]. split; [done|by constructor].
Qed.

(** The delay of a thread after a sequence of attempts *)
Definition delay_after (l : list (string + unit)) (d : N) : N := foldl (fun d a => (control_attempt a d).2) d l.

Lemma sleeps_snoc l a d :
  thread_sleeps control_attempt (l ++ [a]) d
  = thread_sleeps control_attempt l d ++ [(control_attempt a (delay_after l d)).1.2].
Proof.
  revert d. induction l as [|b l IH]; intros d; cbn [app thread_sleeps].
  - by destruct (control_attempt a d) as [[w s] n] eqn:E; cbn; rewrite E.
  - unfold delay_after. cbn [foldl]. destruct (control_attempt b d) as [[w s] n]. cbn [snd]. by rewrite IH.
Qed.

Lemma delay_after_failures errors d :
  d ≤ from_secs 60 → delay_after (inl <$> errors) d = N.min (d * 2 ^ N.of_nat (length errors)) (from_secs 60).
Proof.
  revert d. induction errors as [|e errors IH]; intros d Hd; [cbn; unfold from_secs in *; lia|].
  change (delay_after (inl <$> e :: errors) d) with (delay_after (inl <$> errors) (double_delay d)).
  rewrite IH by (unfold double_delay; lia). cbn [length]. rewrite Nat2N.inj_succ, N.pow_succ_r'.
  assert (1 ≤ 2 ^ N.of_nat (length errors)) by (apply N.lt_pred_le, N.neq_0_lt_0, N.pow_nonzero; done).
  unfold double_delay. nia.
Qed.

Lemma delay_after_app l k d : delay_after (l ++ k) d = delay_after k (delay_after l d).
Proof. apply foldl_app. Qed.
Lemma delay_after_success l d : delay_after (l ++ [inr tt]) d = from_secs 30.
Proof. by rewrite delay_after_app. Qed.

(** C27: the tunnel threads back off alike: the control thread's own arithmetic and the data
    thread's function give the same delays, always between 5 and 60 seconds; after [k] failures in
    a row the delay is 5 s doubled [k] times when nothing succeeded before, 30 s doubled [k] times
    after a success, at most 60 s, and a success waits 15 s. *)
Theorem retry_delays :
  (∀ attempts, thread_sleeps data_attempt attempts (from_secs 5) = thread_sleeps control_attempt attempts (from_secs 5)
     ∧ Forall (fun t => from_secs 5 ≤ t ≤ from_secs 60) (thread_sleeps control_attempt attempts (from_secs 5)))
  ∧ (∀ before, last (thread_sleeps control_attempt (before ++ [inr tt]) (from_secs 5)) = Some (from_secs 15))
  ∧ (∀ errors e, last (thread_sleeps control_attempt ((inl <$> errors) ++ [inl e]) (from_secs 5))
       = Some (N.min (from_secs 5 * 2 ^ N.of_nat (length errors)) (from_secs 60)))
  ∧ (∀ before errors e,
       last (thread_sleeps control_attempt ((before ++ [inr tt]) ++ (inl <$> errors) ++ [inl e]) (from_secs 5))
       = Some (N.min (from_secs 30 * 2 ^ N.of_nat (length errors)) (from_secs 60))).
Proof.
  split_and!.
  - intros l. by apply sleeps_agree.
  - intros before. by rewrite sleeps_snoc, last_snoc.
  - intros errors e. rewrite sleeps_snoc, last_snoc. cbn [control_attempt fst snd].
    by rewrite delay_after_failures.
  - intros before errors e. rewrite app_assoc, sleeps_snoc, last_snoc. cbn [control_attempt fst snd].
    rewrite delay_after_app, delay_after_success, delay_after_failures; done.
Qed.

(** ** What is started *)

Section starts.
Context (fmt_f64 : float64 → string) (config_from_json : string → string + FileConfig).
Context (domain_to_ascii : string → option string).
Context (cache_from_json : string → option AutoDiscoveryCache) (cache_to_json : AutoDiscoveryCache → string + string).
Context (raw_from_slice : list byte → result string RawBackendMessage).
Context (server_message_from_slice : list byte → result string TunnelControlServerMessage).
Context {S : Type} `{Sink : !TunnelRuleStateSink S}.
Context (version : string) (usize_max sleep_fuel : nat) (m : Machine (S := S)).
Abbreviation run_main := (main fmt_f64 config_from_json domain_to_ascii cache_from_json cache_to_json raw_from_slice
  server_message_from_slice version usize_max sleep_fuel m).
Abbreviation load := (from_args_and_env fmt_f64 (mc_read_to_string m) config_from_json (mc_env m) (mc_args m)).
Abbreviation resolve := (resolve_auto_discovery domain_to_ascii cache_from_json cache_to_json m).

(** Which configurations have an event start something *)
Definition may_start (config : AgentConfig) (e : MainEvent) : Prop :=
  match e with
  | Stdout _ | Stderr _ => True
  | StartProbeLoop => True
  | ControlOnce _ _ => cfg_tunnel_control_enabled config = true ∧ cfg_once config = true
  | SpawnControl => cfg_tunnel_control_enabled config = true ∧ cfg_once config = false
  | SpawnData => cfg_tunnel_data_enabled config = true
  | ReportLoop _ => mc_http m = None ∧ mc_uploader m = None
  end.
Definition is_line (e : MainEvent) : Prop := match e with Stdout _ | Stderr _ => True | _ => False end.
Definition is_report (e : MainEvent) : Prop := match e with ReportLoop _ => True | _ => False end.
(** How a run ends *)
Definition ends_well (events : list MainEvent) (status : option N) : Prop :=
  match status with
  | Some 0 => ∃ started log, events = started ++ [ReportLoop log; Stdout "agent loop: completed"]
  | Some 1 => ∃ started log error, events = started ++ [ReportLoop log; Stderr ("runtime error: " +:+ error)]
  | Some 2 => (∃ started line, events = started ++ [Stderr line]) ∧ Forall (fun e => ~ is_report e) events
  | _ => True
  end.

Lemma start_control_events config control :
  start_control domain_to_ascii server_message_from_slice version m config = Done control →
  Forall (fun e => may_start config e ∧ ~ is_report e) control.
Proof.
  unfold start_control. destruct (cfg_tunnel_control_enabled config) eqn:Hc; cbn [negb];
    [|intros [= <-]; constructor].
  destruct (cfg_once config) eqn:Ho; [|intros [= <-]; repeat constructor; cbn; tauto].
  destruct (url_ok _) as [url|]; [|intros [= <-]; constructor].
  destruct (run_tunnel_control_once _ _ _ _ _) as [[sink sent] []]; intros [= <-]; repeat constructor; cbn; tauto.
Qed.

Lemma main_loop_events config started :
  mc_http m = None → mc_uploader m = None →
  Forall (fun e => may_start config e ∧ ~ is_report e) started →
  let '(events, status) := main_loop domain_to_ascii cache_from_json cache_to_json raw_from_slice usize_max sleep_fuel
                             m config started in
  Forall (may_start config) events ∧ ends_well events status.
Proof.
  intros Hh Hu Hs. assert (Forall (may_start config) started) as Hm by (eapply Forall_impl; [exact Hs|by intros ? []]).
  assert (Forall (fun e => ~ is_report e) started) as Hr by (eapply Forall_impl; [exact Hs|by intros ? []]).
  unfold main_loop. destruct (token_recovery_from_config m config) as [recovery|e|].
  - destruct (run_reports _ _ _ _ _ _ _ _ _) as [log [| | |]].
    all: split; [rewrite <- ?app_assoc; apply Forall_app; split; [done|repeat constructor; done]|cbn].
    + exists started, log. by rewrite <- app_assoc.
    + eexists started, log, _. by rewrite <- app_assoc.
    + done.
    + done.
  - split; [apply Forall_app; split; [done|repeat constructor]|]. cbn. split; [by eexists _, _|].
    apply Forall_app. split; [done|]. repeat constructor. cbn. tauto.
  - done.
Qed.

End starts.

(** A single run against a panel that answers, one without a token, and a version request *)
Module MainDemo.
Definition machine (args : list string) : Machine (S := unit) := {|
  mc_args := "kelicloud-agent-rs" :: args; mc_env _ := None; mc_read_to_string _ := inl "not found";
  mc_discovery := Err AdEmptyKey; mc_recovery := Err AdEmptyKey; mc_http := None; mc_uploader := None;
  mc_control := Err (RequestFailed "refused"); mc_rules := tt;
  mc_panel := mkWorld [None] [None] [inr None] [None; None] [minimal None "x86_64" "Linux" "1"] [static_report] [] tt
    (mkConfig "" "" "" false false false false "" "" V1 Fixed (mkTuning 0 0 0 0 0) f_one 0 0 0 "" "" "" "" "" "" "" "" false false
       false false 0 "" false) [] |}.
Definition run (args : list string) : list MainEvent * option N :=
  main (fun _ => "") (fun _ => inl "json") (fun s => Some s) (fun _ => None) (fun _ => inl "json") (fun _ => Err "json")
    (fun _ => Err "json") (Sink := NoopTunnelRuleStateSink) "1.0" 3 3 (machine args).
End MainDemo.
Example main_example :
  ((MainDemo.run ["--endpoint"; "https://panel.example.com"; "--token"; "secret-token"; "--once"]).2,
   (MainDemo.run ["--endpoint"; "https://panel.example.com"]).2, MainDemo.run ["-V"])
  = (Some 0, Some 2, ([Stdout "kelicloud-agent-rs 1.0"], Some 0)).
Proof. vm_compute. reflexivity. Qed.
