(* ===== verification/CarrierSummary.v ===== *)
(** * The gate on the carrier benchmarks ([src/src/bin/ktp-carrier-matrix-summary.rs])

    The tool reads the CSV of a benchmark run and passes or fails it.  The formatting of a
    number with a precision ([{:.3}]) is a parameter. *)
From S2P Require Import Prelude RustStd RustF64.
From Stdlib Require Import Strings.Byte.
From Stdlib Require Import SpecFloat.
From Stdlib Require Strings.String.
Local Open Scope string_scope.
Local Open Scope list_scope.
Local Open Scope N_scope.

(** ktp-carrier-matrix-summary.rs [SummaryError] *)
Record SummaryError := mkSummaryError { se_exit_code : N; se_message : string }.
(** ktp-carrier-matrix-summary.rs [SummaryError::usage] *)
Definition summary_usage (message : string) : SummaryError := mkSummaryError 2 message.
(** ktp-carrier-matrix-summary.rs [SummaryError::gate] *)
Definition summary_gate (failures : list string) : SummaryError := mkSummaryError 3 (join (str_of [x0a]) failures).

(** ktp-carrier-matrix-summary.rs [SummaryOptions] *)
Record SummaryOptions := mkSummaryOptions {
  so_require_ktp_aead : bool;
  so_require_batch_reuse : bool;
  so_require_positive_throughput : bool;
  so_min_batch_write_throughput_mib_s : option float64;
  so_min_batch_read_throughput_mib_s : option float64;
}.
Definition summary_options_default : SummaryOptions := mkSummaryOptions false false false None None.

(** ktp-carrier-matrix-summary.rs [CarrierRow] *)
Record CarrierRow := mkCarrierRow {
  cr_carrier : string;
  cr_crypto : string;
  cr_direction : string;
  cr_frames : N;
  cr_payload_bytes : N;
  cr_write_batch_frames : N;
  cr_write_batch_reused : N;
  cr_read_batch_frames : N;
  cr_read_batch_reused : N;
  cr_throughput_mib_s_median : float64;
}.

(** ktp-carrier-matrix-summary.rs [DIRECTION_CLIENT_TO_RELAY] *)
Definition DIRECTION_CLIENT_TO_RELAY : string := "client_to_relay".
(** ktp-carrier-matrix-summary.rs [DIRECTION_BATCH_WRITE] *)
Definition DIRECTION_BATCH_WRITE : string := "client_to_relay_batch_write".
(** ktp-carrier-matrix-summary.rs [DIRECTION_BATCH_READ] *)
Definition DIRECTION_BATCH_READ : string := "relay_to_client_batch_read".

(** ** Reading the table *)

(** The columns by name: of equal names the last one counts, as in a map that is collected *)
Definition column_index_by (separator : byte) (header name : string) : option nat :=
  fst <$> last (filter (fun p => p.2 = name) (imap pair (trim <$> split [[separator]] header))).
Definition column_index : string → string → option nat := column_index_by x2c.

(** ktp-carrier-matrix-summary.rs [field] *)
Definition carrier_field (columns : string → option nat) (fields : list string) (name : string) (line_index : N)
  : result SummaryError string :=
  column ← ok_or (columns name) (summary_usage ("missing required CSV column: " +:+ name));
  ok_or (fields !! column)
    (summary_usage ("line " +:+ pretty (line_index + 2) +:+ " missing value for required CSV column: " +:+ name)).

(** ktp-carrier-matrix-summary.rs [parse_u64_field] *)
Definition parse_u64_field (columns : string → option nat) (fields : list string) (name : string) (line_index : N)
  : result SummaryError N :=
  value ← carrier_field columns fields name line_index;
  ok_or (parse_uint U64_MAX value)
    (summary_usage ("line " +:+ pretty (line_index + 2) +:+ " column " +:+ name +:+ " must be an unsigned integer")).

(** ktp-carrier-matrix-summary.rs [parse_f64_field] *)
Definition parse_f64_field (columns : string → option nat) (fields : list string) (name : string) (line_index : N)
  : result SummaryError float64 :=
  value ← carrier_field columns fields name line_index;
  ok_or (f_parse value)
    (summary_usage ("line " +:+ pretty (line_index + 2) +:+ " column " +:+ name +:+ " must be a number")).

(** ktp-carrier-matrix-summary.rs [parse_rows] 231-258: one line *)
Definition carrier_row (columns : string → option nat) (line_index : N) (line : string)
  : result SummaryError CarrierRow :=
  let fields := trim <$> split [[x2c]] line in
  carrier ← carrier_field columns fields "carrier" line_index;
  crypto ← carrier_field columns fields "crypto" line_index;
  direction ← carrier_field columns fields "direction" line_index;
  frames ← parse_u64_field columns fields "frames" line_index;
  payload_bytes ← parse_u64_field columns fields "payload_bytes" line_index;
  write_batch_frames ← parse_u64_field columns fields "write_batch_frames" line_index;
  write_batch_reused ← parse_u64_field columns fields "write_batch_reused" line_index;
  read_batch_frames ← parse_u64_field columns fields "read_batch_frames" line_index;
  read_batch_reused ← parse_u64_field columns fields "read_batch_reused" line_index;
  throughput_mib_s_median ← parse_f64_field columns fields "throughput_mib_s_median" line_index;
  Ok (mkCarrierRow carrier crypto direction frames payload_bytes write_batch_frames write_batch_reused
        read_batch_frames read_batch_reused throughput_mib_s_median).

Fixpoint carrier_rows (columns : string → option nat) (line_index : N) (lines : list string)
  : result SummaryError (list CarrierRow) :=
  match lines with
  | [] => Ok []
  | line :: lines =>
      row ← carrier_row columns line_index line;
      rows ← carrier_rows columns (line_index + 1) lines;
      Ok (row :: rows)
  end.

(** ktp-carrier-matrix-summary.rs [parse_rows] *)
Definition parse_rows (content : string) : result SummaryError (list CarrierRow) :=
  match filter (fun line => is_empty (trim line) = false) (lines content) with
  | [] => Err (summary_usage "carrier matrix CSV is empty")
  | header :: lines =>
      rows ← carrier_rows (column_index header) 0 lines;
      match rows with
      | [] => Err (summary_usage "carrier matrix CSV has no rows")
      | _ => Ok rows
      end
  end.

(** ** The gate *)

(** ktp-carrier-matrix-summary.rs [row_context] *)
Definition row_context (row : CarrierRow) : string :=
  cr_direction row +:+ " frames=" +:+ pretty (cr_frames row) +:+ " payload_bytes=" +:+ pretty (cr_payload_bytes row).

(** ktp-carrier-matrix-summary.rs [required_rows]: the rows, and the failure when there is none *)
Definition required_rows (rows : list CarrierRow) (direction : string) : list CarrierRow * list string :=
  let matches := filter (fun row => cr_direction row = direction) rows in
  (matches, match matches with [] => ["missing carrier matrix row direction=" +:+ direction] | _ => [] end).

(** ktp-carrier-matrix-summary.rs [min_throughput_median] *)
Definition min_throughput_median (rows : list CarrierRow) : float64 :=
  foldl f_min (S754_infinity false) (cr_throughput_mib_s_median <$> rows).

(** A failure when a check is made and not met *)
Definition failure_if (b : bool) (message : string) : list string := if b then [message] else [].

Section summarize.
(** [format!("{:.3}", x)] *)
Context (fmt3 : float64 → string).

(** ktp-carrier-matrix-summary.rs [summarize_csv] 125-136 *)
Definition aead_failures (row : CarrierRow) : list string :=
  failure_if (negb (bool_decide (cr_carrier row = "ktp_tcp")) || negb (bool_decide (cr_crypto row = "ktp_aead")))
    (row_context row +:+ " expected carrier=ktp_tcp crypto=ktp_aead, got carrier=" +:+ cr_carrier row
     +:+ " crypto=" +:+ cr_crypto row).

(** ktp-carrier-matrix-summary.rs [summarize_csv] 138-147 *)
Definition positive_failures (row : CarrierRow) : list string :=
  failure_if (f_le (cr_throughput_mib_s_median row) f_zero)
    (row_context row +:+ " throughput_mib_s_median must be positive").

(** ktp-carrier-matrix-summary.rs [summarize_csv] 150-171: a row of batches, by the counters of
    its direction *)
Definition batch_failures (require_batch_reuse : bool) (min : option float64) (label : string)
    (batch_frames batch_reused : CarrierRow → N) (row : CarrierRow) : list string :=
  (if require_batch_reuse then
     failure_if (batch_frames row =? 0) (row_context row +:+ " " +:+ label +:+ "_batch_frames must be positive")
     ++ failure_if (negb (batch_reused row =? 1)) (row_context row +:+ " " +:+ label +:+ "_batch_reused is not 1")
   else [])
  ++ match min with
     | Some min =>
         failure_if (f_lt (cr_throughput_mib_s_median row) min)
           (row_context row +:+ " throughput_mib_s_median " +:+ fmt3 (cr_throughput_mib_s_median row)
            +:+ " below min " +:+ fmt3 min)
     | None => []
     end.

(** ktp-carrier-matrix-summary.rs [summarize_csv] 120-195: all the failures *)
Definition gate_failures (rows : list CarrierRow) (options : SummaryOptions) : list string :=
  let '(client_to_relay, missing1) := required_rows rows DIRECTION_CLIENT_TO_RELAY in
  let '(batch_write, missing2) := required_rows rows DIRECTION_BATCH_WRITE in
  let '(batch_read, missing3) := required_rows rows DIRECTION_BATCH_READ in
  missing1 ++ missing2 ++ missing3
  ++ (if so_require_ktp_aead options then rows ≫= aead_failures else [])
  ++ (if so_require_positive_throughput options then rows ≫= positive_failures else [])
  ++ (batch_write ≫= batch_failures (so_require_batch_reuse options) (so_min_batch_write_throughput_mib_s options)
        "write" cr_write_batch_frames cr_write_batch_reused)
  ++ (batch_read ≫= batch_failures (so_require_batch_reuse options) (so_min_batch_read_throughput_mib_s options)
        "read" cr_read_batch_frames cr_read_batch_reused).

(** ktp-carrier-matrix-summary.rs [summarize_csv] *)
Definition summarize_carrier_csv (content : string) (options : SummaryOptions) : result SummaryError string :=
  rows ← parse_rows content;
  match gate_failures rows options with
  | [] =>
      let nl := str_of [x0a] in
      let median direction := fmt3 (min_throughput_median (required_rows rows direction).1) in
      Ok ("ktp_carrier_matrix_summary rows=" +:+ pretty (N.of_nat (length rows)) +:+ " gate=pass"
          +:+ nl +:+ "client_to_relay_throughput_mib_s_median=" +:+ median DIRECTION_CLIENT_TO_RELAY
          +:+ nl +:+ "batch_write_throughput_mib_s_median=" +:+ median DIRECTION_BATCH_WRITE
          +:+ nl +:+ "batch_read_throughput_mib_s_median=" +:+ median DIRECTION_BATCH_READ
          +:+ nl +:+ "client_to_relay_min_throughput_mib_s_median=" +:+ median DIRECTION_CLIENT_TO_RELAY
          +:+ nl +:+ "batch_write_min_throughput_mib_s_median=" +:+ median DIRECTION_BATCH_WRITE
          +:+ nl +:+ "batch_read_min_throughput_mib_s_median=" +:+ median DIRECTION_BATCH_READ)
  | failures => Err (summary_gate failures)
  end.

(** ** Arguments *)

(** ktp-carrier-matrix-summary.rs [next_f64_arg] *)
Definition next_f64_arg (args : list string) (name : string) : result SummaryError (float64 * list string) :=
  match args with
  | [] => Err (summary_usage (name +:+ " value is required"))
  | value :: args =>
      parsed ← ok_or (f_parse value) (summary_usage (name +:+ " value must be a number"));
      if f_lt parsed f_zero then Err (summary_usage (name +:+ " value must be greater than or equal to zero"))
      else Ok (parsed, args)
  end.

(** ktp-carrier-matrix-summary.rs [run] 87-110: the loop; fuel above the number of arguments *)
Fixpoint carrier_args (fuel : nat) (args : list string) (options : SummaryOptions) (path : option string)
  : result SummaryError (SummaryOptions * option string) :=
  match fuel, args with
  | S fuel, arg :: args =>
      let '(mkSummaryOptions aead reuse positive write read) := options in
      if bool_decide (arg = "--require-ktp-aead")
      then carrier_args fuel args (mkSummaryOptions true reuse positive write read) path
      else if bool_decide (arg = "--require-batch-reuse")
      then carrier_args fuel args (mkSummaryOptions aead true positive write read) path
      else if bool_decide (arg = "--require-positive-throughput")
      then carrier_args fuel args (mkSummaryOptions aead reuse true write read) path
      else if bool_decide (arg = "--min-batch-write-throughput-mib-s") then
        '(min, args) ← next_f64_arg args "--min-batch-write-throughput-mib-s";
        carrier_args fuel args (mkSummaryOptions aead reuse positive (Some min) read) path
      else if bool_decide (arg = "--min-batch-read-throughput-mib-s") then
        '(min, args) ← next_f64_arg args "--min-batch-read-throughput-mib-s";
        carrier_args fuel args (mkSummaryOptions aead reuse positive write (Some min)) path
      else if is_empty (trim arg) then Err (summary_usage "empty argument is not allowed")
      else
        match path with
        | None => carrier_args fuel args options (Some arg)
        | Some _ => Err (summary_usage "unexpected extra argument")
        end
  | _, _ => Ok (options, path)
  end.

(** ktp-carrier-matrix-summary.rs [run]; a file is its contents or an error *)
Definition run_carrier_summary (read_to_string : string → string + string) (args : list string)
  : result SummaryError string :=
  '(options, path) ← carrier_args (length args) args summary_options_default None;
  path ← ok_or path (summary_usage "matrix CSV path is required");
  content ← match read_to_string path with
            | inr content => Ok content
            | inl error => Err (summary_usage ("failed to read " +:+ path +:+ ": " +:+ error))
            end;
  summarize_carrier_csv content options.
End summarize.

(** ** What a pass means *)

Definition in_direction (rows : list CarrierRow) (direction : string) (P : CarrierRow → Prop) : Prop :=
  ∀ row, row ∈ rows → cr_direction row = direction → P row.
Definition has_direction (rows : list CarrierRow) (direction : string) : Prop :=
  ∃ row, row ∈ rows ∧ cr_direction row = direction.
(** Comparisons with a NaN are false, so it fails no check. *)
Definition above (min x : float64) : Prop := x = S754_nan ∨ min = S754_nan ∨ f_le min x = true.
Definition positive (x : float64) : Prop := x = S754_nan ∨ f_lt f_zero x = true.

(** The demands of the options on the rows *)
Record gate_met (rows : list CarrierRow) (options : SummaryOptions) : Prop := mkGateMet {
  gm_complete : has_direction rows DIRECTION_CLIENT_TO_RELAY ∧ has_direction rows DIRECTION_BATCH_WRITE
    ∧ has_direction rows DIRECTION_BATCH_READ;
  gm_aead : so_require_ktp_aead options = true →
    ∀ row, row ∈ rows → cr_carrier row = "ktp_tcp" ∧ cr_crypto row = "ktp_aead";
  gm_positive : so_require_positive_throughput options = true →
    ∀ row, row ∈ rows → positive (cr_throughput_mib_s_median row);
  gm_reuse : so_require_batch_reuse options = true →
    in_direction rows DIRECTION_BATCH_WRITE (fun row => cr_write_batch_frames row ≠ 0 ∧ cr_write_batch_reused row = 1)
    ∧ in_direction rows DIRECTION_BATCH_READ (fun row => cr_read_batch_frames row ≠ 0 ∧ cr_read_batch_reused row = 1);
  gm_write : ∀ min, so_min_batch_write_throughput_mib_s options = Some min →
    in_direction rows DIRECTION_BATCH_WRITE (fun row => above min (cr_throughput_mib_s_median row));
  gm_read : ∀ min, so_min_batch_read_throughput_mib_s options = Some min →
    in_direction rows DIRECTION_BATCH_READ (fun row => above min (cr_throughput_mib_s_median row));
}.

Lemma f_cmp_antisym x y : f_cmp y x = CompOpp <$> f_cmp x y.
Proof.
  destruct x as [[]|[]| |], y as [[]|[]| |]; cbn [f_cmp fmap option_fmap option_map]; try done.
  all: by rewrite Z.compare_antisym.
Qed.
Lemma not_lt_above min x : f_lt x min = false ↔ above min x.
Proof.
  unfold above, f_le, f_lt. rewrite (f_cmp_antisym x min).
  destruct (f_cmp x min) as [[]|] eqn:E; cbn.
  - split; [|done]. intros _. by right; right.
  - split; [done|]. intros [->|[->|?]]; [done|by destruct x|done].
  - split; [|done]. intros _. by right; right.
  - split; [|done]. intros _. destruct x, min; try done; auto.
Qed.
Lemma not_le_positive x : f_le x f_zero = false ↔ positive x.
Proof.
  unfold positive, f_le, f_lt. rewrite (f_cmp_antisym x f_zero).
  destruct (f_cmp x f_zero) as [[]|] eqn:E; cbn; (split; [try done|]); intros H; try done.
  - destruct H as [->|?]; done.
  - destruct H as [->|?]; done.
  - by right.
  - left. by destruct x.
Qed.

Lemma bind_nil {A} (l : list A) (f : A → list string) : l ≫= f = [] ↔ ∀ x, x ∈ l → f x = [].
Proof.
  induction l as [|a l IH]; [by split; [intros _ x Hx; apply elem_of_nil in Hx|]|].
  change ((a :: l) ≫= f) with (f a ++ (l ≫= f)). rewrite app_nil, IH. set_solver.
Qed.
Lemma failure_if_nil b m : failure_if b m = [] ↔ b = false.
Proof. by destruct b. Qed.
Lemma required_nil rows direction : (required_rows rows direction).2 = [] ↔ has_direction rows direction.
Proof.
  unfold required_rows, has_direction. cbn.
  destruct (filter _ rows) as [|row matches] eqn:E; split; [done| |intros _|done].
  - intros (row & Hr & Hd). assert (row ∈ filter (fun row => cr_direction row = direction) rows) as Hf
      by (by apply list_elem_of_filter). rewrite E in Hf. by apply elem_of_nil in Hf.
  - exists row. assert (row ∈ filter (fun row => cr_direction row = direction) rows) as Hf by (rewrite E; left).
    apply list_elem_of_filter in Hf. tauto.
Qed.

Section gate_lemmas.
Context (fmt3 : float64 → string).

Lemma aead_nil row : aead_failures row = [] ↔ cr_carrier row = "ktp_tcp" ∧ cr_crypto row = "ktp_aead".
Proof.
  unfold aead_failures. rewrite failure_if_nil, orb_false_iff, !negb_false_iff, !bool_decide_eq_true. done.
Qed.
Lemma positive_nil row : positive_failures row = [] ↔ positive (cr_throughput_mib_s_median row).
Proof. unfold positive_failures. by rewrite failure_if_nil, not_le_positive. Qed.
Lemma batch_nil reuse min label frames reused row :
  batch_failures fmt3 reuse min label frames reused row = [] ↔
  (reuse = true → frames row ≠ 0 ∧ reused row = 1)
  ∧ (∀ m, min = Some m → above m (cr_throughput_mib_s_median row)).
Proof.
  unfold batch_failures. rewrite app_nil.
  apply Morphisms_Prop.and_iff_morphism; [destruct reuse|destruct min as [m|]].
  - rewrite app_nil, !failure_if_nil, N.eqb_neq, negb_false_iff, N.eqb_eq. tauto.
  - naive_solver.
  - rewrite failure_if_nil, not_lt_above. naive_solver.
  - naive_solver.
Qed.
End gate_lemmas.

Lemma gate_failures_nil fmt3 rows options : gate_failures fmt3 rows options = [] ↔ gate_met rows options.
Proof.
  unfold gate_failures.
  pose proof (required_nil rows DIRECTION_CLIENT_TO_RELAY) as H1.
  pose proof (required_nil rows DIRECTION_BATCH_WRITE) as H2.
  pose proof (required_nil rows DIRECTION_BATCH_READ) as H3.
  destruct (required_rows rows DIRECTION_CLIENT_TO_RELAY) as [c m1] eqn:Ec.
  destruct (required_rows rows DIRECTION_BATCH_WRITE) as [w m2] eqn:Ew.
  destruct (required_rows rows DIRECTION_BATCH_READ) as [r m3] eqn:Er. cbn [snd] in H1, H2, H3.
  assert (∀ row, row ∈ w ↔ row ∈ rows ∧ cr_direction row = DIRECTION_BATCH_WRITE) as Hw
    by (injection Ew as <- _; intros row; rewrite list_elem_of_filter; tauto).
  assert (∀ row, row ∈ r ↔ row ∈ rows ∧ cr_direction row = DIRECTION_BATCH_READ) as Hr
    by (injection Er as <- _; intros row; rewrite list_elem_of_filter; tauto).
  rewrite !app_nil, H1, H2, H3.
  assert (∀ (b : bool) (f : CarrierRow → list string),
            (if b then rows ≫= f else []) = [] ↔ (b = true → ∀ row, row ∈ rows → f row = [])) as Hif
    by (intros [] f; [rewrite bind_nil; naive_solver|naive_solver]).
  rewrite !Hif, !bind_nil. setoid_rewrite aead_nil. setoid_rewrite positive_nil. setoid_rewrite batch_nil.
  setoid_rewrite Hw. setoid_rewrite Hr. unfold in_direction. split.
  - intros (? & ? & ? & Ha & Hp & Hbw & Hbr). split; unfold in_direction.
    + done.
    + exact Ha.
    + exact Hp.
    + intros Hreuse. split; intros row Hin Hd; [by apply Hbw|by apply Hbr].
    + intros min Hm row Hin Hd. by apply (proj2 (Hbw row (conj Hin Hd))).
    + intros min Hm row Hin Hd. by apply (proj2 (Hbr row (conj Hin Hd))).
  - intros [(? & ? & ?) Ha Hp Hreuse Hmw Hmr]. unfold in_direction in *. split_and!; [done..| |].
    + intros row [Hin Hd]. split; [intros Hb; by apply (proj1 (Hreuse Hb))|intros min Hm; by apply (Hmw min)].
    + intros row [Hin Hd]. split; [intros Hb; by apply (proj2 (Hreuse Hb))|intros min Hm; by apply (Hmr min)].
Qed.

(** Reading fails with a usage error, and does not panic. *)
Definition usage_error {A} (r : result SummaryError A) : Prop :=
  match r with Ok _ => True | Err e => se_exit_code e = 2 | Panic => False end.
Lemma usage_bind {A B} (m : result SummaryError A) (k : A → result SummaryError B) :
  usage_error m → (∀ a, usage_error (k a)) → usage_error (m ≫= k).
Proof. destruct m; cbn; auto. Qed.
Lemma usage_ok_or {A} (o : option A) message : usage_error (ok_or o (summary_usage message)).
Proof. by destruct o. Qed.
#[local] Hint Resolve usage_ok_or : core.
Lemma carrier_field_usage columns fields name i : usage_error (carrier_field columns fields name i).
Proof. unfold carrier_field. apply usage_bind; auto. Qed.
Lemma u64_field_usage columns fields name i : usage_error (parse_u64_field columns fields name i).
Proof. unfold parse_u64_field. apply usage_bind; [apply carrier_field_usage|auto]. Qed.
Lemma f64_field_usage columns fields name i : usage_error (parse_f64_field columns fields name i).
Proof. unfold parse_f64_field. apply usage_bind; [apply carrier_field_usage|auto]. Qed.
Lemma carrier_rows_usage columns i lines : usage_error (carrier_rows columns i lines).
Proof.
  revert i. induction lines as [|line lines IH]; intros i; [done|]. cbn [carrier_rows].
  apply usage_bind; [|intros row; apply usage_bind; [apply IH|done]].
  unfold carrier_row.
  do 3 (apply usage_bind; [apply carrier_field_usage|intros ?]).
  do 6 (apply usage_bind; [apply u64_field_usage|intros ?]).
  apply usage_bind; [apply f64_field_usage|done].
Qed.
Lemma parse_rows_usage content : usage_error (parse_rows content).
Proof.
  unfold parse_rows. destruct (filter _ _) as [|header rest]; [done|].
  apply usage_bind; [apply carrier_rows_usage|]. by intros [|].
Qed.

(** The carrier gate passes a table exactly when it can be read, every direction is
    measured, and each row meets what the options demand of it; otherwise the exit status is 2 for
    a table that cannot be read and 3 for one that fails. *)
Theorem carrier_gate_exact fmt3 content options :
  match summarize_carrier_csv fmt3 content options with
  | Ok _ => ∃ rows, parse_rows content = Ok rows ∧ gate_met rows options
  | Err e =>
      (se_exit_code e = 2 ∧ parse_rows content = Err e)
      ∨ (se_exit_code e = 3 ∧ ∃ rows, parse_rows content = Ok rows ∧ ~ gate_met rows options)
  | Panic => False
  end.
Proof.
  unfold summarize_carrier_csv. destruct (parse_rows content) as [rows|e|] eqn:Hp; cbn [mbind result_bind].
  - pose proof (gate_failures_nil fmt3 rows options) as Hg.
    destruct (gate_failures fmt3 rows options) as [|f fs]; [exists rows; by split; [|apply Hg]|].
    right. split; [done|]. exists rows. split; [done|]. by intros H%Hg.
  - left. pose proof (parse_rows_usage content) as Hu. by rewrite Hp in Hu.
  - pose proof (parse_rows_usage content) as Hu. by rewrite Hp in Hu.
Qed.

(** A throughput that is not a number passes the check that demands a positive one and every
    minimum, and does not show in the reported minimum either. *)
Theorem nan_throughput_passes fmt3 reuse min label frames reused row rows :
  cr_throughput_mib_s_median row = S754_nan →
  positive_failures row = []
  ∧ batch_failures fmt3 reuse min label frames reused row = batch_failures fmt3 reuse None label frames reused row
  ∧ min_throughput_median (row :: rows) = min_throughput_median rows.
Proof.
  intros Hn. unfold positive_failures, batch_failures, min_throughput_median. cbn [fmap list_fmap foldl].
  rewrite Hn. split_and!; [done| |done]. by destruct min.
Qed.

(** ** Witnesses *)
Module CarrierDemo.
Definition line (s : string) : string := s +:+ str_of [x0a].
Definition header : string := line
  "carrier,crypto,direction,frames,payload_bytes,write_batch_frames,write_batch_reused,read_batch_frames,read_batch_reused,throughput_mib_s_median".
Definition table (throughput : string) : string :=
  header +:+ line "ktp_tcp,ktp_aead,client_to_relay,10,64,0,0,0,0,5.5"
  +:+ line ("ktp_tcp,ktp_aead,client_to_relay_batch_write,10,64,8,1,0,0," +:+ throughput)
  +:+ line "ktp_tcp,ktp_aead,relay_to_client_batch_read,10,64,0,0,8,1,7".
Definition options : SummaryOptions := mkSummaryOptions true true true (Some (f_of_N 3)) (Some (f_of_N 3)).
Definition verdict (throughput : string) : N :=
  match summarize_carrier_csv (fun _ => "") (table throughput) options with Ok _ => 0 | Err e => se_exit_code e | Panic => 101 end.
End CarrierDemo.
Example carrier_gate_example : CarrierDemo.verdict <$> ["6"; "2"; "-1"; "x"; "NaN"] = [0; 3; 3; 2; 0].
Proof. vm_compute. reflexivity. Qed.
