(* ===== verification/PolicySummary.v ===== *)
(** * The gate on the batch policies ([src/src/bin/ktp-policy-summary.rs])

    The tool compares, for each number of clients and batch size, the fixed with the adaptive
    policy of the relay, and fails a run whose adaptive rows exceed a limit.  The formatting of
    a number with two decimals is a parameter; an error is its text. *)
From S2P Require Import Prelude RustStd RustF64 HostMetrics CarrierSummary.
From Stdlib Require Import Strings.Byte.
From Stdlib Require Import SpecFloat.
From Stdlib Require Strings.String.
Local Open Scope string_scope.
Local Open Scope list_scope.
Local Open Scope N_scope.

(** ktp-policy-summary.rs [PolicyRow] *)
Record PolicyRow := mkPolicyRow {
  pw_clients : N;
  pw_relay_batch_frames : N;
  pw_policy : string;
  pw_effective_batch_frames : N;
  pw_throughput_mib_s_median : float64;
  pw_rtt_micros_p95 : float64;
  pw_client_p95_spread_micros : float64;
}.
(** ktp-policy-summary.rs [PolicyPair] *)
Record PolicyPair := mkPolicyPair { pp_fixed : option PolicyRow; pp_adaptive : option PolicyRow }.
(** ktp-policy-summary.rs [GateConfig] *)
Record GateConfig := mkGateConfig {
  gc_max_adaptive_rtt_p95_micros : option float64;
  gc_max_adaptive_client_p95_spread_micros : option float64;
}.
(** ktp-policy-summary.rs [SummaryReport]; [CsvSummary] has the same fields *)
Record SummaryReport := mkSummaryReport { sm_output : string; sm_gate_failures : list string }.
(** ktp-policy-summary.rs [CsvIndexes] *)
Record CsvIndexes := mkIndexes {
  ix_clients : nat;
  ix_relay_batch_frames : nat;
  ix_relay_batch_policy : nat;
  ix_relay_batch_frames_effective : nat;
  ix_throughput_mib_s_median : nat;
  ix_rtt_micros_p95 : nat;
  ix_rtt_client_p95_spread_micros : nat;
}.

(** ** Reading the table *)

(** ktp-policy-summary.rs [required_column] *)
Definition required_column (positions : string → option nat) (name : string) : result string nat :=
  ok_or (positions name) ("missing required column: " +:+ name).

(** ktp-policy-summary.rs [CsvIndexes::from_header] *)
Definition indexes_from_header (header : string) : result string CsvIndexes :=
  let positions := column_index header in
  clients ← required_column positions "clients";
  relay_batch_frames ← required_column positions "relay_batch_frames";
  relay_batch_policy ← required_column positions "relay_batch_policy";
  relay_batch_frames_effective ← required_column positions "relay_batch_frames_effective";
  throughput_mib_s_median ← required_column positions "throughput_mib_s_median";
  rtt_micros_p95 ← required_column positions "rtt_micros_p95";
  rtt_client_p95_spread_micros ← required_column positions "rtt_client_p95_spread_micros";
  Ok (mkIndexes clients relay_batch_frames relay_batch_policy relay_batch_frames_effective
        throughput_mib_s_median rtt_micros_p95 rtt_client_p95_spread_micros).

(** ktp-policy-summary.rs [field] *)
Definition policy_field (fields : list string) (index : nat) (name : string) : result string string :=
  ok_or (v ← fields !! index; if is_empty v then None else Some v) ("missing field " +:+ name).

(** ktp-policy-summary.rs [parse_field] for [usize] and [f64] *)
Definition parse_usize_field (fields : list string) (index : nat) (name : string) : result string N :=
  value ← policy_field fields index name;
  ok_or (parse_uint U64_MAX value) (parse_int_error U64_MAX value).
(** ktp-policy-summary.rs [parse_field] *)
Definition parse_float_field (fields : list string) (index : nat) (name : string) : result string float64 :=
  value ← policy_field fields index name;
  ok_or (f_parse value) "invalid float literal".

(** ktp-policy-summary.rs [parse_row] *)
Definition parse_policy_row (line : string) (indexes : CsvIndexes) : result string PolicyRow :=
  let fields := trim <$> split [[x2c]] line in
  clients ← parse_usize_field fields (ix_clients indexes) "clients";
  relay_batch_frames ← parse_usize_field fields (ix_relay_batch_frames indexes) "relay_batch_frames";
  policy ← policy_field fields (ix_relay_batch_policy indexes) "relay_batch_policy";
  effective_batch_frames ← parse_usize_field fields (ix_relay_batch_frames_effective indexes)
    "relay_batch_frames_effective";
  throughput_mib_s_median ← parse_float_field fields (ix_throughput_mib_s_median indexes) "throughput_mib_s_median";
  rtt_micros_p95 ← parse_float_field fields (ix_rtt_micros_p95 indexes) "rtt_micros_p95";
  client_p95_spread_micros ← parse_float_field fields (ix_rtt_client_p95_spread_micros indexes)
    "rtt_client_p95_spread_micros";
  Ok (mkPolicyRow clients relay_batch_frames policy effective_batch_frames throughput_mib_s_median rtt_micros_p95
        client_p95_spread_micros).

(** ** Comparing *)

(** ktp-policy-summary.rs [percent_delta] (a NaN has no sign here and counts as positive) *)
Definition percent_delta (candidate baseline : float64) : float64 :=
  let is_zero x := bool_decide (f_cmp x f_zero = Some Eq) in
  if is_zero baseline then
    if is_zero candidate then f_zero
    else match candidate with
         | S754_infinity true | S754_finite true _ _ => S754_infinity true
         | _ => S754_infinity false
         end
  else f_mul (f_div (f_sub candidate baseline) baseline) (f_of_N 100).

(** ktp-policy-summary.rs [verdict] *)
Definition verdict (fixed adaptive : PolicyRow) : string :=
  if pw_effective_batch_frames fixed =? pw_effective_batch_frames adaptive then "same_effective"
  else
    let throughput_improved := f_le (pw_throughput_mib_s_median fixed) (pw_throughput_mib_s_median adaptive) in
    let rtt_improved := f_le (pw_rtt_micros_p95 adaptive) (pw_rtt_micros_p95 fixed) in
    let spread_improved := f_le (pw_client_p95_spread_micros adaptive) (pw_client_p95_spread_micros fixed) in
    if throughput_improved && rtt_improved && spread_improved then "adaptive_better"
    else if negb throughput_improved && negb rtt_improved && negb spread_improved then "fixed_better"
    else "mixed".

(** ktp-policy-summary.rs [policy_recommendation] *)
Definition policy_recommendation (verdict : string) : string * string :=
  if bool_decide (verdict = "adaptive_better") then ("adaptive", "adaptive_not_worse")
  else if bool_decide (verdict = "fixed_better") then ("fixed", "fixed_not_worse")
  else if bool_decide (verdict = "same_effective") then ("fixed", "same_effective_keep_default")
  else ("manual_review", "metric_tradeoff").

(** ktp-policy-summary.rs [summarize_csv] 107-118: one line of the table *)
Definition enter_row (row : PolicyRow) (pairs : gmap (N * N) PolicyPair) : gmap (N * N) PolicyPair :=
  let key := (pw_clients row, pw_relay_batch_frames row) in
  let pair := default (mkPolicyPair None None) (pairs !! key) in
  <[key := if bool_decide (pw_policy row = "fixed") then mkPolicyPair (Some row) (pp_adaptive pair)
           else if bool_decide (pw_policy row = "adaptive") then mkPolicyPair (pp_fixed pair) (Some row)
           else pair]> pairs.

(** ktp-policy-summary.rs [summarize_csv] 107-118: the loop *)
Fixpoint enter_lines (indexes : CsvIndexes) (lines : list string) (pairs : gmap (N * N) PolicyPair)
  : result string (gmap (N * N) PolicyPair) :=
  match lines with
  | [] => Ok pairs
  | line :: lines => row ← parse_policy_row line indexes; enter_lines indexes lines (enter_row row pairs)
  end.

(** The order of the keys of the [BTreeMap] *)
Definition key_le (a b : (N * N) * PolicyPair) : bool :=
  (a.1.1 <? b.1.1) || ((a.1.1 =? b.1.1) && (a.1.2 <=? b.1.2)).
Definition ordered_pairs (pairs : gmap (N * N) PolicyPair) : list PolicyPair :=
  (sort_by key_le (map_to_list pairs)).*2.
(** The pairs that have both policies *)
Definition complete_pairs (pairs : gmap (N * N) PolicyPair) : list (PolicyRow * PolicyRow) :=
  omap (fun pair => f ← pp_fixed pair; a ← pp_adaptive pair; Some (f, a)) (ordered_pairs pairs).

Section summarize.
(** [format!("{:.2}", x)] *)
Context (fmt2 : float64 → string).

(** ktp-policy-summary.rs [collect_adaptive_gate_failures] *)
Definition adaptive_gate_failures (gate_config : GateConfig) (adaptive : PolicyRow) : list string :=
  let check max value name :=
    match max with
    | Some max =>
        if f_gt value max then
          ["adaptive " +:+ name +:+ " " +:+ fmt2 value +:+ "us exceeds max " +:+ fmt2 max +:+ "us for clients="
           +:+ pretty (pw_clients adaptive) +:+ " relay_batch_frames=" +:+ pretty (pw_relay_batch_frames adaptive)]
        else []
    | None => []
    end in
  check (gc_max_adaptive_rtt_p95_micros gate_config) (pw_rtt_micros_p95 adaptive) "rtt_micros_p95"
  ++ check (gc_max_adaptive_client_p95_spread_micros gate_config) (pw_client_p95_spread_micros adaptive)
       "rtt_client_p95_spread_micros".

(** ktp-policy-summary.rs [summarize_csv] 134-152: the lines of a pair *)
Definition pair_lines (pair : PolicyRow * PolicyRow) : string :=
  let '(fixed, adaptive) := pair in
  let v := verdict fixed adaptive in
  let '(recommended, reason) := policy_recommendation v in
  let nl := str_of [x0a] in
  let key := "clients=" +:+ pretty (pw_clients fixed) +:+ " relay_batch_frames="
             +:+ pretty (pw_relay_batch_frames fixed) in
  nl +:+ key +:+ " fixed_effective=" +:+ pretty (pw_effective_batch_frames fixed)
  +:+ " adaptive_effective=" +:+ pretty (pw_effective_batch_frames adaptive)
  +:+ " throughput_delta_pct="
  +:+ fmt2 (percent_delta (pw_throughput_mib_s_median adaptive) (pw_throughput_mib_s_median fixed))
  +:+ " rtt_p95_delta_pct=" +:+ fmt2 (percent_delta (pw_rtt_micros_p95 adaptive) (pw_rtt_micros_p95 fixed))
  +:+ " client_p95_spread_delta_pct="
  +:+ fmt2 (percent_delta (pw_client_p95_spread_micros adaptive) (pw_client_p95_spread_micros fixed))
  +:+ " verdict=" +:+ v
  +:+ nl +:+ "policy_recommend " +:+ key +:+ " recommended=" +:+ recommended +:+ " verdict=" +:+ v
  +:+ " reason=" +:+ reason.

(** ktp-policy-summary.rs [summarize_csv] *)
Definition summarize_policy_csv (content : string) (gate_config : GateConfig) : result string SummaryReport :=
  match filter (fun line => is_empty (trim line) = false) (lines content) with
  | [] => Err "CSV is empty"
  | header :: lines =>
      indexes ← indexes_from_header header;
      pairs ← enter_lines indexes lines ∅;
      match complete_pairs pairs with
      | [] => Err "no fixed/adaptive policy pairs found"
      | complete =>
          Ok (mkSummaryReport
                ("ktp_policy_summary rows=" +:+ pretty (N.of_nat (length lines))
                 +:+ " pairs=" +:+ pretty (N.of_nat (length complete))
                 +:+ foldr (fun p s => pair_lines p +:+ s) "" complete)
                (complete ≫= (fun p => adaptive_gate_failures gate_config p.2)))
      end
  end.

(** ktp-policy-summary.rs [next_positive_f64_arg] *)
Definition next_positive_f64_arg (args : list string) (flag : string) : result string (float64 * list string) :=
  match args with
  | [] => Err (flag +:+ " requires a value")
  | value :: args =>
      parsed ← ok_or (f_parse value)
        (if is_empty value then "cannot parse float from empty string" else "invalid float literal");
      if negb (f_is_finite parsed) || f_le parsed f_zero then Err (flag +:+ " must be a positive finite number")
      else Ok (parsed, args)
  end.

(** ktp-policy-summary.rs [run] 60-79: the loop; fuel above the number of arguments *)
Fixpoint policy_args (fuel : nat) (args : list string) (fail_on_fixed_better : bool) (gate_config : GateConfig)
    (path : option string) : result string (bool * GateConfig * option string) :=
  match fuel, args with
  | S fuel, arg :: args =>
      if bool_decide (arg = "--fail-on-fixed-better") then policy_args fuel args true gate_config path
      else if bool_decide (arg = "--max-adaptive-rtt-p95-micros") then
        '(max, args) ← next_positive_f64_arg args "--max-adaptive-rtt-p95-micros";
        policy_args fuel args fail_on_fixed_better
          (mkGateConfig (Some max) (gc_max_adaptive_client_p95_spread_micros gate_config)) path
      else if bool_decide (arg = "--max-adaptive-client-p95-spread-micros") then
        '(max, args) ← next_positive_f64_arg args "--max-adaptive-client-p95-spread-micros";
        policy_args fuel args fail_on_fixed_better
          (mkGateConfig (gc_max_adaptive_rtt_p95_micros gate_config) (Some max)) path
      else if is_empty (trim arg) then Err "empty argument is not allowed"
      else
        match path with
        | None => policy_args fuel args fail_on_fixed_better gate_config (Some arg)
        | Some _ => Err "unexpected extra argument"
        end
  | _, _ => Ok (fail_on_fixed_better, gate_config, path)
  end.

(** ktp-policy-summary.rs [run] *)
Definition run_policy_summary (read_to_string : string → string + string) (args : list string)
  : result string SummaryReport :=
  '(fail_on_fixed_better, gate_config, path) ← policy_args (length args) args false (mkGateConfig None None) None;
  path ← ok_or path "CSV path is required";
  content ← match read_to_string path with inr content => Ok content | inl error => Err error end;
  summary ← summarize_policy_csv content gate_config;
  Ok (mkSummaryReport (sm_output summary)
        (sm_gate_failures summary
         ++ (if fail_on_fixed_better && contains "verdict=fixed_better" (sm_output summary)
             then ["fixed_better verdict failed KTP policy gate"] else []))).

(** ktp-policy-summary.rs [main]: the exit status *)
Definition policy_exit_status (report : result string SummaryReport) : N :=
  match report with
  | Ok report => if bool_decide (sm_gate_failures report = []) then 0 else 3
  | Err _ => 2
  | Panic => 101
  end.
End summarize.

(** ** What a pass means *)

(** The row that counts for a key and a policy: the last one *)
Definition latest (rows : list PolicyRow) (key : N * N) (policy : string) : option PolicyRow :=
  last (filter (fun row => (pw_clients row, pw_relay_batch_frames row) = key ∧ pw_policy row = policy) rows).
Definition pairs_of (rows : list PolicyRow) : gmap (N * N) PolicyPair :=
  foldl (fun pairs row => enter_row row pairs) ∅ rows.

Lemma latest_snoc rows row key policy :
  latest (rows ++ [row]) key policy
  = if decide ((pw_clients row, pw_relay_batch_frames row) = key ∧ pw_policy row = policy)
    then Some row else latest rows key policy.
Proof.
  unfold latest. rewrite filter_app. case_decide as Hd.
  - rewrite filter_cons_True, filter_nil by done. by rewrite last_snoc.
  - rewrite filter_cons_False, filter_nil by done. by rewrite app_nil_r.
Qed.

Lemma pairs_latest rows key :
  (pairs_of rows !! key ≫= pp_fixed = latest rows key "fixed")
  ∧ (pairs_of rows !! key ≫= pp_adaptive = latest rows key "adaptive").
Proof.
  induction rows as [|row rows IH] using rev_ind; [done|]. destruct IH as [IHf IHa].
  rewrite !latest_snoc. unfold pairs_of. rewrite foldl_snoc. fold (pairs_of rows). unfold enter_row.
  destruct (decide ((pw_clients row, pw_relay_batch_frames row) = key)) as [->|Hne].
  - rewrite lookup_insert_eq. cbn [mbind option_bind].
    assert (pp_fixed (default (mkPolicyPair None None) (pairs_of rows !! key)) = pairs_of rows !! key ≫= pp_fixed)
      as Hf by (by destruct (pairs_of rows !! key)).
    assert (pp_adaptive (default (mkPolicyPair None None) (pairs_of rows !! key)) = pairs_of rows !! key ≫= pp_adaptive)
      as Ha by (by destruct (pairs_of rows !! key)).
    destruct (decide (pw_policy row = "fixed")) as [Hp|Hp].
    { rewrite Hp, bool_decide_true, decide_True, decide_False by (done || naive_solver). cbn. by rewrite Ha. }
    rewrite (bool_decide_false (pw_policy row = "fixed")), (decide_False (P := _ ∧ pw_policy row = "fixed")) by naive_solver.
    destruct (decide (pw_policy row = "adaptive")) as [Hq|Hq].
    { rewrite Hq, bool_decide_true, decide_True by done. cbn. by rewrite Hf. }
    rewrite bool_decide_false, decide_False by naive_solver. by rewrite Hf, Ha.
  - rewrite lookup_insert_ne, !decide_False by naive_solver. done.
Qed.

Lemma complete_pairs_latest rows fixed adaptive :
  (fixed, adaptive) ∈ complete_pairs (pairs_of rows) ↔
  ∃ key, latest rows key "fixed" = Some fixed ∧ latest rows key "adaptive" = Some adaptive.
Proof.
  unfold complete_pairs, ordered_pairs. rewrite list_elem_of_omap. split.
  - intros (pair & Hin & Hp). apply list_elem_of_fmap in Hin as ([key pair'] & -> & Hin). cbn in Hp.
    rewrite elem_of_sort_by, elem_of_map_to_list in Hin. exists key.
    destruct (pairs_latest rows key) as [<- <-]. rewrite Hin. cbn.
    destruct (pp_fixed pair'), (pp_adaptive pair'); naive_solver.
  - intros (key & Hf & Ha). destruct (pairs_latest rows key) as [Hf' Ha']. rewrite Hf in Hf'. rewrite Ha in Ha'.
    destruct (pairs_of rows !! key) as [pair|] eqn:Hk; [|done]. cbn in Hf', Ha'. exists pair.
    split; [|by rewrite Hf', Ha']. apply list_elem_of_fmap. exists (key, pair). split; [done|].
    by rewrite elem_of_sort_by, elem_of_map_to_list.
Qed.

(** The rows of a table *)
Definition rows_of (indexes : CsvIndexes) (lines : list string) : result string (list PolicyRow) :=
  foldr (fun line rows => row ← parse_policy_row line indexes; rows ← rows; Ok (row :: rows)) (Ok []) lines.

Lemma enter_lines_rows indexes lines pairs pairs' :
  enter_lines indexes lines pairs = Ok pairs' →
  ∃ rows, rows_of indexes lines = Ok rows ∧ pairs' = foldl (fun pairs row => enter_row row pairs) pairs rows.
Proof.
  revert pairs. induction lines as [|line lines IH]; intros pairs; cbn [enter_lines rows_of foldr].
  - intros [= <-]. by exists [].
  - intros H. apply bind_Ok in H as (row & -> & H). apply IH in H as (rows & Hr & ->).
    fold (rows_of indexes lines). rewrite Hr. cbn. by exists (row :: rows).
Qed.

(** Within the limits; a comparison with a NaN is false *)
Definition within (gate_config : GateConfig) (adaptive : PolicyRow) : Prop :=
  (∀ max, gc_max_adaptive_rtt_p95_micros gate_config = Some max → f_gt (pw_rtt_micros_p95 adaptive) max = false)
  ∧ (∀ max, gc_max_adaptive_client_p95_spread_micros gate_config = Some max →
       f_gt (pw_client_p95_spread_micros adaptive) max = false).
Lemma limit_nil (limit : option float64) value (message : float64 → list string) :
  (∀ max, message max ≠ []) →
  match limit with Some max => if f_gt value max then message max else [] | None => [] end = []
  ↔ ∀ max, limit = Some max → f_gt value max = false.
Proof.
  intros Hm. destruct limit as [m|]; [|done]. destruct (f_gt value m) eqn:E; split.
  - by intros ?%Hm.
  - intros H. specialize (H m eq_refl). congruence.
  - by intros _ max [= <-].
  - done.
Qed.
Lemma adaptive_nil fmt2 gate_config adaptive :
  adaptive_gate_failures fmt2 gate_config adaptive = [] ↔ within gate_config adaptive.
Proof.
  unfold adaptive_gate_failures, within. rewrite app_nil.
  apply Morphisms_Prop.and_iff_morphism; by apply limit_nil.
Qed.

(** A policy summary is made of the last fixed and the last adaptive row of each number of
    clients and batch size; there is at least one such pair, and the gate reports no failure exactly
    when the adaptive row of every pair keeps to the limits. *)
Theorem policy_gate_exact fmt2 content gate_config report :
  summarize_policy_csv fmt2 content gate_config = Ok report →
  ∃ header table indexes rows,
    filter (fun line => is_empty (trim line) = false) (lines content) = header :: table
    ∧ indexes_from_header header = Ok indexes ∧ rows_of indexes table = Ok rows
    ∧ (∃ key fixed adaptive, latest rows key "fixed" = Some fixed ∧ latest rows key "adaptive" = Some adaptive)
    ∧ (sm_gate_failures report = [] ↔
       ∀ key fixed adaptive, latest rows key "fixed" = Some fixed → latest rows key "adaptive" = Some adaptive →
         within gate_config adaptive).
Proof.
  unfold summarize_policy_csv. destruct (filter _ _) as [|header table]; [done|]. intros H.
  apply bind_Ok in H as (indexes & Hi & H). apply bind_Ok in H as (pairs & Hp & H).
  apply enter_lines_rows in Hp as (rows & Hr & ->). fold (pairs_of rows) in H.
  exists header, table, indexes, rows. split_and!; [done..| |].
  - destruct (complete_pairs (pairs_of rows)) as [|[f a] l] eqn:E; [done|].
    assert ((f, a) ∈ complete_pairs (pairs_of rows)) as Hin by (rewrite E; left).
    apply complete_pairs_latest in Hin as (key & ? & ?). by exists key, f, a.
  - assert (sm_gate_failures report
            = complete_pairs (pairs_of rows) ≫= (fun p => adaptive_gate_failures fmt2 gate_config p.2)) as ->.
    { destruct (complete_pairs (pairs_of rows)); [done|]. by apply (inj Ok) in H as <-. }
    rewrite bind_nil. setoid_rewrite adaptive_nil. split.
    + intros Hall key f a Hf Ha. apply (Hall (f, a)). apply complete_pairs_latest. by exists key.
    + intros Hall [f a] Hin. apply complete_pairs_latest in Hin as (key & Hf & Ha). by eapply Hall.
Qed.

(** ** Witnesses *)
Module PolicyDemo.
Definition line (s : string) : string := s +:+ str_of [x0a].
Definition table (rtt : string) : string :=
  line "clients,relay_batch_frames,relay_batch_policy,relay_batch_frames_effective,throughput_mib_s_median,rtt_micros_p95,rtt_client_p95_spread_micros"
  +:+ line "8,32,fixed,32,10,900,50" +:+ line ("8,32,adaptive,16,12," +:+ rtt +:+ ",40") +:+ line "4,32,fixed,32,9,1,1".
Definition limits : GateConfig := mkGateConfig (Some (f_of_N 1000)) None.
Definition status (rtt : string) : N :=
  policy_exit_status (summarize_policy_csv (fun _ => "") (table rtt) limits).
End PolicyDemo.
Example policy_gate_example : PolicyDemo.status <$> ["800"; "1001"; ""; "nan"] = [0; 3; 2; 0].
Proof. vm_compute. reflexivity. Qed.

Lemma policy_gate_exact_witness :
  ∃ report, summarize_policy_csv (fun _ => "") (PolicyDemo.table "800") PolicyDemo.limits = Ok report
    ∧ ∃ rows key fixed adaptive, latest rows key "fixed" = Some fixed ∧ latest rows key "adaptive" = Some adaptive
      ∧ within PolicyDemo.limits adaptive.
Proof.
  destruct (summarize_policy_csv (fun _ => "") (PolicyDemo.table "800") PolicyDemo.limits) as [report|e|] eqn:H;
    [|vm_compute in H; discriminate H|vm_compute in H; discriminate H].
  exists report. split; [reflexivity|].
  destruct (policy_gate_exact _ _ _ _ H) as (header & table & indexes & rows & _ & _ & _ & (key & f & a & Hf & Ha) & Hg).
  assert (sm_gate_failures report = []) as Hn.
  { assert (policy_exit_status (summarize_policy_csv (fun _ => "") (PolicyDemo.table "800") PolicyDemo.limits) = 0) as Hs
      by (vm_compute; reflexivity). rewrite H in Hs. cbn in Hs. by case_bool_decide. }
  exists rows, key, f, a. split_and!; [exact Hf|exact Ha|]. exact (proj1 Hg Hn key f a Hf Ha).
Defined.
