(* ===== verification/BackendMatrix.v ===== *)
(** * The gate on the local backend matrix ([src/src/bin/ktp-local-backend-matrix-summary.rs])

    The tool reads a table with one row per carrier, reports it and looks in it for evidence:
    a pass of the encrypted carrier, round-trip times, and those of several clients. *)
From S2P Require Import Prelude RustStd RustF64 HostMetrics CarrierSummary PolicySummary.
From Stdlib Require Import Strings.Byte.
From Stdlib Require Strings.String.
Local Open Scope string_scope.
Local Open Scope list_scope.
Local Open Scope N_scope.

(** ktp-local-backend-matrix-summary.rs [CarrierRow] *)
Record BackendRow := mkBackendRow {
  br_carrier : string;
  br_ktp_tcp : string;
  br_ktp_crypto : string;
  br_status : string;
  br_summary_file : string;
  br_ktp_evidence_file : string;
  br_tunnel_evidence_file : string;
  br_tunnel_profile : string;
  br_tunnel_clients : string;
  br_tunnel_rounds : string;
  br_tunnel_total_payload_bytes : string;
  br_rtt_micros_p50 : string;
  br_rtt_micros_p95 : string;
  br_rtt_micros_p99 : string;
  br_rtt_micros_max : string;
  br_rtt_client_p95_spread_micros : string;
}.
(** ktp-local-backend-matrix-summary.rs [CarrierReport] *)
Record CarrierReport := mkCarrierReport { ct_output : string; ct_gate_failures : list string }.
(** The options of [run] *)
Record BackendOptions := mkBackendOptions {
  bo_require_pass : bool;
  bo_require_ktp_aead : bool;
  bo_require_ktp_tunnel_rtt : bool;
  bo_require_ktp_rdp_like_rtt : bool;
  bo_max_ktp_rdp_like_rtt_p95_micros : option N;
  bo_max_ktp_rdp_like_client_p95_spread_micros : option N;
}.

(** ** Reading the table *)

(** ktp-local-backend-matrix-summary.rs [field] *)
Definition backend_field (fields : list string) (index : nat) (name : string) : result string string :=
  ok_or (v ← fields !! index; if is_empty v then None else Some v) ("missing field " +:+ name).
(** ktp-local-backend-matrix-summary.rs [optional_field] *)
Definition optional_field (fields : list string) (index : option nat) : string :=
  default "-" (i ← index; v ← fields !! i; if is_empty v then None else Some v).
(** ktp-local-backend-matrix-summary.rs [parse_u64_metric] *)
Definition parse_u64_metric (value : string) : option N :=
  if bool_decide (value = "-") then None else parse_uint U64_MAX value.

(** ktp-local-backend-matrix-summary.rs [CarrierIndexes] *)
Record CarrierIndexes := mkCarrierIndexes {
  ci_carrier : nat; ci_ktp_tcp : nat; ci_ktp_crypto : nat; ci_status : nat; ci_summary_file : nat;
  ci_ktp_evidence_file : nat;
  ci_tunnel_evidence_file : option nat; ci_tunnel_profile : option nat; ci_tunnel_clients : option nat;
  ci_tunnel_rounds : option nat; ci_tunnel_total_payload_bytes : option nat; ci_rtt_micros_p50 : option nat;
  ci_rtt_micros_p95 : option nat; ci_rtt_micros_p99 : option nat; ci_rtt_micros_max : option nat;
  ci_rtt_client_p95_spread_micros : option nat;
}.
(** ktp-local-backend-matrix-summary.rs [CarrierIndexes::from_header] *)
Definition carrier_indexes_from_header (header : string) : result string CarrierIndexes :=
  let positions := column_index_by x09 header in
  carrier ← required_column positions "carrier";
  ktp_crypto ← required_column positions "ktp_crypto";
  ktp_tcp ← required_column positions "ktp_tcp";
  status ← required_column positions "status";
  summary_file ← required_column positions "summary_file";
  ktp_evidence_file ← required_column positions "ktp_evidence_file";
  Ok (mkCarrierIndexes carrier ktp_tcp ktp_crypto status summary_file ktp_evidence_file
        (positions "tunnel_evidence_file") (positions "tunnel_profile") (positions "tunnel_clients")
        (positions "tunnel_rounds") (positions "tunnel_total_payload_bytes") (positions "rtt_micros_p50")
        (positions "rtt_micros_p95") (positions "rtt_micros_p99") (positions "rtt_micros_max")
        (positions "rtt_client_p95_spread_micros")).

(** ktp-local-backend-matrix-summary.rs [parse_row] *)
Definition parse_backend_row (line : string) (ix : CarrierIndexes) : result string BackendRow :=
  let fields := trim <$> split [[x09]] line in
  carrier ← backend_field fields (ci_carrier ix) "carrier";
  ktp_tcp ← backend_field fields (ci_ktp_tcp ix) "ktp_tcp";
  ktp_crypto ← backend_field fields (ci_ktp_crypto ix) "ktp_crypto";
  status ← backend_field fields (ci_status ix) "status";
  summary_file ← backend_field fields (ci_summary_file ix) "summary_file";
  ktp_evidence_file ← backend_field fields (ci_ktp_evidence_file ix) "ktp_evidence_file";
  let opt := optional_field fields in
  Ok (mkBackendRow carrier ktp_tcp ktp_crypto status summary_file ktp_evidence_file
        (opt (ci_tunnel_evidence_file ix)) (opt (ci_tunnel_profile ix)) (opt (ci_tunnel_clients ix))
        (opt (ci_tunnel_rounds ix)) (opt (ci_tunnel_total_payload_bytes ix)) (opt (ci_rtt_micros_p50 ix))
        (opt (ci_rtt_micros_p95 ix)) (opt (ci_rtt_micros_p99 ix)) (opt (ci_rtt_micros_max ix))
        (opt (ci_rtt_client_p95_spread_micros ix))).

Fixpoint parse_all_rows {R} (parse : string → result string R) (lines : list string) : result string (list R) :=
  match lines with
  | [] => Ok []
  | line :: lines => row ← parse line; rows ← parse_all_rows parse lines; Ok (row :: rows)
  end.

(** ** Reporting and evidence *)

Definition field_text (p : string * string) : string := p.1 +:+ "=" +:+ p.2.

(** ktp-local-backend-matrix-summary.rs [summarize_tsv] 150-168: the line of a row *)
Definition backend_row_line (row : BackendRow) : string :=
  join " " (field_text <$>
    [("carrier", br_carrier row); ("ktp_tcp", br_ktp_tcp row); ("ktp_crypto", br_ktp_crypto row);
     ("status", br_status row); ("summary_file", br_summary_file row);
     ("ktp_evidence_file", br_ktp_evidence_file row); ("tunnel_evidence_file", br_tunnel_evidence_file row);
     ("tunnel_profile", br_tunnel_profile row); ("tunnel_clients", br_tunnel_clients row);
     ("tunnel_rounds", br_tunnel_rounds row); ("tunnel_total_payload_bytes", br_tunnel_total_payload_bytes row);
     ("rtt_micros_p50", br_rtt_micros_p50 row); ("rtt_micros_p95", br_rtt_micros_p95 row);
     ("rtt_micros_p99", br_rtt_micros_p99 row); ("rtt_micros_max", br_rtt_micros_max row);
     ("rtt_client_p95_spread_micros", br_rtt_client_p95_spread_micros row)]).

Definition is_ktp_pass (row : BackendRow) : bool :=
  bool_decide (br_carrier row = "ktp_tcp") && bool_decide (br_ktp_tcp row = "true")
  && bool_decide (br_status row = "pass").
Definition present (value : string) : bool := negb (bool_decide (value = "-")).

(** ktp-local-backend-matrix-summary.rs [summarize_tsv] 171-177 *)
Definition is_aead_evidence (row : BackendRow) : bool :=
  is_ktp_pass row && bool_decide (br_ktp_crypto row = "ktp_aead") && present (br_ktp_evidence_file row).

(** ktp-local-backend-matrix-summary.rs [summarize_tsv] 191-205 *)
Definition is_rtt_evidence (row : BackendRow) : bool :=
  is_ktp_pass row && forallb present
    [br_tunnel_evidence_file row; br_tunnel_profile row; br_tunnel_clients row; br_tunnel_rounds row;
     br_tunnel_total_payload_bytes row; br_rtt_micros_p50 row; br_rtt_micros_p95 row; br_rtt_micros_p99 row;
     br_rtt_micros_max row; br_rtt_client_p95_spread_micros row].

Definition at_least (min : N) (value : string) : bool :=
  match parse_u64_metric value with Some v => min <=? v | None => false end.
(** ktp-local-backend-matrix-summary.rs [summarize_tsv] 226-239 *)
Definition is_rdp_like_evidence (row : BackendRow) : bool :=
  is_ktp_pass row && bool_decide (br_tunnel_profile row = "rdp-like")
  && at_least 2 (br_tunnel_clients row) && at_least 4 (br_tunnel_rounds row)
  && at_least 1 (br_tunnel_total_payload_bytes row) && at_least 1 (br_rtt_micros_p50 row)
  && at_least 1 (br_rtt_micros_p95 row) && at_least 1 (br_rtt_micros_p99 row) && at_least 1 (br_rtt_micros_max row)
  && at_least 0 (br_rtt_client_p95_spread_micros row).

Definition find_row (f : BackendRow → bool) (rows : list BackendRow) : option BackendRow :=
  head (filter (fun row => f row = true) rows).

(** ktp-local-backend-matrix-summary.rs [summarize_tsv] 250-269: a limit *)
Definition over_limit (metric : string) (value : string) (max : option N) : list string :=
  match parse_u64_metric value, max with
  | Some actual, Some max =>
      failure_if (max <? actual)
        ("ktp_tcp rdp-like " +:+ metric +:+ " " +:+ pretty actual +:+ " exceeds max " +:+ pretty max)
  | _, _ => []
  end.

Definition count_status (rows : list BackendRow) (status : string) : N :=
  N.of_nat (length (filter (fun row => br_status row = status) rows)).
Definition count_other (rows : list BackendRow) : N :=
  N.of_nat (length (filter (fun row => br_status row ∉ ["pass"; "fail"; "timeout"]) rows)).

(** ktp-local-backend-matrix-summary.rs [summarize_tsv] 117-139: the first line *)
Definition backend_head (rows : list BackendRow) : string :=
  let other := count_other rows in
  "ktp_local_backend_matrix_summary rows=" +:+ pretty (N.of_nat (length rows))
  +:+ " pass=" +:+ pretty (count_status rows "pass") +:+ " fail=" +:+ pretty (count_status rows "fail")
  +:+ " timeout=" +:+ pretty (count_status rows "timeout") +:+ " status="
  +:+ (if (count_status rows "fail" =? 0) && (count_status rows "timeout" =? 0) && (other =? 0) then "pass" else "fail")
  +:+ (if 0 <? other then " other=" +:+ pretty other else "").

(** ktp-local-backend-matrix-summary.rs [summarize_tsv] 171-280: the evidence: what is printed and
    what fails *)
Definition backend_evidence (rows : list BackendRow) (o : BackendOptions) : list string * list string :=
  let missing required message := failure_if required message in
  let '(l1, f1) :=
    match find_row is_aead_evidence rows with
    | Some _ => ("ktp_tcp_crypto=ktp_aead ktp_tcp_evidence=present", [])
    | None => ("ktp_tcp_crypto=- ktp_tcp_evidence=missing",
        missing (bo_require_ktp_aead o) "carrier matrix missing pass row with carrier=ktp_tcp ktp_crypto=ktp_aead")
    end in
  let '(l2, f2) :=
    match find_row is_rtt_evidence rows with
    | Some row => (join " " ("ktp_tcp_tunnel_rtt_evidence=present" :: (field_text <$>
        [("profile", br_tunnel_profile row); ("clients", br_tunnel_clients row); ("rounds", br_tunnel_rounds row);
         ("rtt_micros_p95", br_rtt_micros_p95 row);
         ("rtt_client_p95_spread_micros", br_rtt_client_p95_spread_micros row)])), [])
    | None => ("ktp_tcp_tunnel_rtt_evidence=missing",
        missing (bo_require_ktp_tunnel_rtt o) "carrier matrix missing pass row with carrier=ktp_tcp tunnel RTT evidence")
    end in
  let '(l3, f3) :=
    match find_row is_rdp_like_evidence rows with
    | Some row => (join " " ("ktp_tcp_rdp_like_rtt_evidence=present" :: (field_text <$>
        [("clients", br_tunnel_clients row); ("rounds", br_tunnel_rounds row);
         ("total_payload_bytes", br_tunnel_total_payload_bytes row); ("rtt_micros_p95", br_rtt_micros_p95 row);
         ("rtt_client_p95_spread_micros", br_rtt_client_p95_spread_micros row)])),
        over_limit "rtt_micros_p95" (br_rtt_micros_p95 row) (bo_max_ktp_rdp_like_rtt_p95_micros o)
        ++ over_limit "rtt_client_p95_spread_micros" (br_rtt_client_p95_spread_micros row)
             (bo_max_ktp_rdp_like_client_p95_spread_micros o))
    | None => ("ktp_tcp_rdp_like_rtt_evidence=missing",
        missing (bo_require_ktp_rdp_like_rtt o)
          "carrier matrix missing pass row with carrier=ktp_tcp rdp-like multi-client RTT evidence")
    end in
  ([l1; l2; l3], f1 ++ f2 ++ f3).

(** ktp-local-backend-matrix-summary.rs [summarize_tsv] 143-148 *)
Definition pass_failure (o : BackendOptions) (row : BackendRow) : list string :=
  failure_if (bo_require_pass o && negb (bool_decide (br_status row = "pass")))
    ("carrier matrix row carrier=" +:+ br_carrier row +:+ " status=" +:+ br_status row
     +:+ " failed require-pass gate").

(** ktp-local-backend-matrix-summary.rs [summarize_tsv] *)
Definition summarize_backend_tsv (content : string) (o : BackendOptions) : result string CarrierReport :=
  match filter (fun line => is_empty (trim line) = false) (lines content) with
  | [] => Err "matrix summary is empty"
  | header :: table =>
      indexes ← carrier_indexes_from_header header;
      rows ← parse_all_rows (fun line => parse_backend_row line indexes) table;
      let '(evidence, failures) := backend_evidence rows o in
      Ok (mkCarrierReport (join (str_of [x0a]) (backend_head rows :: (backend_row_line <$> rows) ++ evidence))
            ((rows ≫= pass_failure o) ++ failures))
  end.

(** ** Arguments *)

(** ktp-local-backend-matrix-summary.rs [next_u64_arg] *)
Definition next_u64_arg (args : list string) (name : string) : result string (N * list string) :=
  match args with
  | [] => Err (name +:+ " value is required")
  | value :: args =>
      if is_empty (trim value) then Err (name +:+ " value is empty")
      else
        v ← ok_or (parse_uint U64_MAX value) (name +:+ " value must be an unsigned integer");
        Ok (v, args)
  end.

(** ktp-local-backend-matrix-summary.rs [run] 62-84: the loop; fuel above the number of arguments *)
Fixpoint backend_args (fuel : nat) (args : list string) (o : BackendOptions) (path : option string)
  : result string (BackendOptions * option string) :=
  match fuel, args with
  | S fuel, arg :: args =>
      let '(mkBackendOptions pass aead rtt rdp max_rtt max_spread) := o in
      if bool_decide (arg = "--require-pass")
      then backend_args fuel args (mkBackendOptions true aead rtt rdp max_rtt max_spread) path
      else if bool_decide (arg = "--require-ktp-aead")
      then backend_args fuel args (mkBackendOptions pass true rtt rdp max_rtt max_spread) path
      else if bool_decide (arg = "--require-ktp-tunnel-rtt")
      then backend_args fuel args (mkBackendOptions pass aead true rdp max_rtt max_spread) path
      else if bool_decide (arg = "--require-ktp-rdp-like-rtt")
      then backend_args fuel args (mkBackendOptions pass aead rtt true max_rtt max_spread) path
      else if bool_decide (arg = "--max-ktp-rdp-like-rtt-p95-micros") then
        '(max, args) ← next_u64_arg args "--max-ktp-rdp-like-rtt-p95-micros";
        backend_args fuel args (mkBackendOptions pass aead rtt rdp (Some max) max_spread) path
      else if bool_decide (arg = "--max-ktp-rdp-like-client-p95-spread-micros") then
        '(max, args) ← next_u64_arg args "--max-ktp-rdp-like-client-p95-spread-micros";
        backend_args fuel args (mkBackendOptions pass aead rtt rdp max_rtt (Some max)) path
      else if is_empty (trim arg) then Err "empty argument is not allowed"
      else
        match path with
        | None => backend_args fuel args o (Some arg)
        | Some _ => Err "unexpected extra argument"
        end
  | _, _ => Ok (o, path)
  end.

(** ktp-local-backend-matrix-summary.rs [run] *)
Definition run_backend_summary (read_to_string : string → string + string) (args : list string)
  : result string CarrierReport :=
  '(o, path) ← backend_args (length args) args (mkBackendOptions false false false false None None) None;
  path ← ok_or path "matrix-summary.tsv path is required";
  content ← match read_to_string path with inr content => Ok content | inl error => Err error end;
  summarize_backend_tsv content o.

(** ** What a pass means *)

Lemma find_row_None f rows : find_row f rows = None ↔ ∀ row, row ∈ rows → f row = false.
Proof.
  unfold find_row. destruct (filter _ rows) as [|r l] eqn:E; cbn; split; try done.
  - intros _ row Hin. destruct (f row) eqn:Hf; [|done].
    assert (row ∈ filter (fun row => f row = true) rows) as H by (by apply list_elem_of_filter).
    rewrite E in H. by apply elem_of_nil in H.
  - intros H. assert (r ∈ filter (fun row => f row = true) rows) as Hr by (rewrite E; left).
    apply list_elem_of_filter in Hr as [Hf Hin]. by rewrite H in Hf.
Qed.
Lemma find_row_Some f rows row : find_row f rows = Some row → row ∈ rows ∧ f row = true.
Proof.
  unfold find_row. destruct (filter _ rows) as [|r l] eqn:E; [done|]. intros [= ->].
  assert (row ∈ filter (fun row => f row = true) rows) as Hr by (rewrite E; left).
  apply list_elem_of_filter in Hr. tauto.
Qed.

(** A value that is a number keeps to a limit *)
Definition in_limit (value : string) (max : option N) : Prop :=
  ∀ actual m, parse_u64_metric value = Some actual → max = Some m → actual ≤ m.
Lemma over_limit_nil metric value max : over_limit metric value max = [] ↔ in_limit value max.
Proof.
  unfold over_limit, in_limit. destruct (parse_u64_metric value) as [a|], max as [m|]; try naive_solver.
  rewrite failure_if_nil, N.ltb_ge. naive_solver.
Qed.

(** What the options demand; the limits are those of the first row with the evidence *)
Record backend_met (rows : list BackendRow) (o : BackendOptions) : Prop := mkBackendMet {
  bm_pass : bo_require_pass o = true → ∀ row, row ∈ rows → br_status row = "pass";
  bm_aead : bo_require_ktp_aead o = true → ∃ row, row ∈ rows ∧ is_aead_evidence row = true;
  bm_rtt : bo_require_ktp_tunnel_rtt o = true → ∃ row, row ∈ rows ∧ is_rtt_evidence row = true;
  bm_rdp : bo_require_ktp_rdp_like_rtt o = true → ∃ row, row ∈ rows ∧ is_rdp_like_evidence row = true;
  bm_limits : ∀ row, find_row is_rdp_like_evidence rows = Some row →
    in_limit (br_rtt_micros_p95 row) (bo_max_ktp_rdp_like_rtt_p95_micros o)
    ∧ in_limit (br_rtt_client_p95_spread_micros row) (bo_max_ktp_rdp_like_client_p95_spread_micros o);
}.

Lemma demand_nil (b : bool) m f rows :
  failure_if (match find_row f rows with Some _ => false | None => b end) m = [] ↔
  (b = true → ∃ row, row ∈ rows ∧ f row = true).
Proof.
  rewrite failure_if_nil. destruct (find_row f rows) as [row|] eqn:E.
  - apply find_row_Some in E. naive_solver.
  - rewrite find_row_None in E. destruct b; [|naive_solver]. split; [done|]. intros H.
    destruct (H eq_refl) as (row & Hin & Hf). by rewrite E in Hf.
Qed.

Lemma pass_nil o rows :
  rows ≫= pass_failure o = [] ↔ (bo_require_pass o = true → ∀ row, row ∈ rows → br_status row = "pass").
Proof.
  rewrite bind_nil. unfold pass_failure. setoid_rewrite failure_if_nil. destruct (bo_require_pass o); cbn.
  - setoid_rewrite negb_false_iff. setoid_rewrite bool_decide_eq_true. naive_solver.
  - naive_solver.
Qed.

Lemma evidence_nil rows o :
  (backend_evidence rows o).2 = [] ↔
  (bo_require_ktp_aead o = true → ∃ row, row ∈ rows ∧ is_aead_evidence row = true)
  ∧ (bo_require_ktp_tunnel_rtt o = true → ∃ row, row ∈ rows ∧ is_rtt_evidence row = true)
  ∧ (bo_require_ktp_rdp_like_rtt o = true → ∃ row, row ∈ rows ∧ is_rdp_like_evidence row = true)
  ∧ (∀ row, find_row is_rdp_like_evidence rows = Some row →
       in_limit (br_rtt_micros_p95 row) (bo_max_ktp_rdp_like_rtt_p95_micros o)
       ∧ in_limit (br_rtt_client_p95_spread_micros row) (bo_max_ktp_rdp_like_client_p95_spread_micros o)).
Proof.
  rewrite <- !(demand_nil _ ""). unfold backend_evidence.
  destruct (find_row is_aead_evidence rows) as [r1|], (find_row is_rtt_evidence rows) as [r2|],
    (find_row is_rdp_like_evidence rows) as [r3|]; cbn [snd]; rewrite !app_nil, ?over_limit_nil, !failure_if_nil;
    naive_solver.
Qed.

(** The gate reports no failure exactly when the rows meet what the options demand. *)
Theorem backend_gate_exact content o report :
  summarize_backend_tsv content o = Ok report →
  ∃ header table indexes rows,
    filter (fun line => is_empty (trim line) = false) (lines content) = header :: table
    ∧ carrier_indexes_from_header header = Ok indexes
    ∧ parse_all_rows (fun line => parse_backend_row line indexes) table = Ok rows
    ∧ (ct_gate_failures report = [] ↔ backend_met rows o).
Proof.
  unfold summarize_backend_tsv. destruct (filter _ _) as [|header table]; [done|]. intros H.
  apply bind_Ok in H as (indexes & Hi & H). apply bind_Ok in H as (rows & Hr & H).
  exists header, table, indexes, rows. split_and!; [done..|].
  pose proof (evidence_nil rows o) as He. destruct (backend_evidence rows o) as [evidence failures]. cbn [snd] in He.
  apply (inj Ok) in H as <-. cbn [ct_gate_failures]. rewrite app_nil, pass_nil, He. split.
  - intros (? & ? & ? & ? & ?). by split.
  - by intros [? ? ? ? ?].
Qed.

(** ** Where the gate is silent *)
Module BackendDemo.
Definition tab : string := str_of [x09].
Definition line (fields : list string) : string := join tab fields +:+ str_of [x0a].
Definition header : string := line
  ["carrier"; "ktp_tcp"; "ktp_crypto"; "status"; "summary_file"; "ktp_evidence_file"; "tunnel_evidence_file";
   "tunnel_profile"; "tunnel_clients"; "tunnel_rounds"; "tunnel_total_payload_bytes"; "rtt_micros_p50"; "rtt_micros_p95";
   "rtt_micros_p99"; "rtt_micros_max"; "rtt_client_p95_spread_micros"].
Definition row (rtt : string) : string := line
  ["ktp_tcp"; "true"; "ktp_aead"; "pass"; "s"; "e"; "t"; "rdp-like"; "2"; "4"; "100"; "10"; rtt; rtt; rtt; "5"].
Definition strict : BackendOptions := mkBackendOptions true true true true (Some 1000) (Some 1000).
Definition only_pass : BackendOptions := mkBackendOptions true false false false (Some 1000) None.
Definition failures (content : string) (o : BackendOptions) : option nat :=
  match summarize_backend_tsv content o with Ok r => Some (length (ct_gate_failures r)) | _ => None end.
End BackendDemo.

(** A table without rows passes the demand that every row passes, and a limit with it; and only
    the first row with the evidence is held against a limit: the same rows in another order pass
    or fail. *)
Theorem backend_gate_gaps :
  BackendDemo.failures BackendDemo.header BackendDemo.only_pass = Some 0%nat
  ∧ BackendDemo.failures (BackendDemo.header +:+ BackendDemo.row "900" +:+ BackendDemo.row "9000") BackendDemo.strict
    = Some 0%nat
  ∧ BackendDemo.failures (BackendDemo.header +:+ BackendDemo.row "9000" +:+ BackendDemo.row "900") BackendDemo.strict
    = Some 1%nat.
Proof. vm_compute. done. Qed.
