(* ===== verification/TunnelMatrix.v ===== *)
(** * The gate on the tunnel matrix ([src/src/bin/ktp-tunnel-matrix-summary.rs])

    The tool reads a table with a row for each batch policy, number of clients and version of the
    authentication, reports extremes, holds every row that passed against limits, checks that
    the expected rows are there and compares the policies.  The formatting of numbers with a
    precision is a parameter. *)
From S2P Require Import Prelude RustStd RustF64 HostMetrics CarrierSummary PolicySummary BackendMatrix.
From Stdlib Require Import Strings.Byte.
From Stdlib Require Import SpecFloat.
From Stdlib Require Strings.String.
Local Open Scope string_scope.
Local Open Scope list_scope.
Local Open Scope N_scope.

(** ktp-tunnel-matrix-summary.rs [MatrixRow] *)
Record MatrixRow := mkMatrixRow {
  mr_relay_batch_policy : string;
  mr_ktp_auth_version : string;
  mr_clients : string;
  mr_relay_adaptive_high_sessions : option string;
  mr_relay_adaptive_elevated_dwell_us : option string;
  mr_relay_adaptive_severe_dwell_us : option string;
  mr_relay_adaptive_elevated_cap : option string;
  mr_relay_adaptive_severe_cap : option string;
  mr_status : string;
  mr_elapsed_millis : N;
  mr_total_payload_bytes : option N;
  mr_echo_elapsed_micros : option N;
  mr_rtt_micros_p95 : option N;
  mr_client_p95_spread_micros : option N;
  mr_socket_read_max_batch_frames : option N;
  mr_socket_write_max_batch_frames : option N;
  mr_socket_write_batch_limit_max : option N;
  mr_socket_write_batch_limit_min : option N;
  mr_socket_write_batch_limit_last : option N;
  mr_backend_session_limit_count : option N;
  mr_backend_session_not_found_count : option N;
}.
(** ktp-tunnel-matrix-summary.rs [GateConfig] *)
Record MatrixGate := mkMatrixGate {
  mg_max_rtt_p95_micros : option N;
  mg_max_client_p95_spread_micros : option N;
  mg_min_throughput_mib_s : option float64;
  mg_min_echo_throughput_mib_s : option float64;
  mg_max_backend_session_limit_count : option N;
  mg_max_backend_session_not_found_count : option N;
  mg_expected_policies : list string;
  mg_expected_auth_versions : list string;
  mg_expected_clients : list string;
}.
(** ktp-tunnel-matrix-summary.rs [MatrixReport] *)
Record MatrixReport := mkMatrixReport { mx_output : string; mx_gate_failures : list string }.

(** ** Reading the table *)

(** ktp-tunnel-matrix-summary.rs [MatrixIndexes] *)
Record MatrixIndexes := mkMatrixIndexes {
  mi_relay_batch_policy : option nat; mi_ktp_auth_version : option nat; mi_clients : nat;
  mi_relay_adaptive_high_sessions : option nat; mi_relay_adaptive_elevated_dwell_us : option nat;
  mi_relay_adaptive_severe_dwell_us : option nat; mi_relay_adaptive_elevated_cap : option nat;
  mi_relay_adaptive_severe_cap : option nat; mi_status : nat; mi_elapsed_millis : nat;
  mi_total_payload_bytes : option nat; mi_echo_elapsed_micros : option nat; mi_rtt_micros_p95 : nat;
  mi_rtt_client_p95_spread_micros : nat; mi_socket_read_max_batch_frames : nat;
  mi_socket_write_max_batch_frames : option nat; mi_socket_write_batch_limit_max : option nat;
  mi_socket_write_batch_limit_min : option nat; mi_socket_write_batch_limit_last : option nat;
  mi_backend_session_limit_count : option nat; mi_backend_session_not_found_count : option nat;
}.
(** ktp-tunnel-matrix-summary.rs [MatrixIndexes::from_header] *)
Definition matrix_indexes_from_header (header : string) : result string MatrixIndexes :=
  let positions := column_index_by x09 header in
  clients ← required_column positions "clients";
  status ← required_column positions "status";
  elapsed_millis ← required_column positions "elapsed_millis";
  rtt_micros_p95 ← required_column positions "rtt_micros_p95";
  rtt_client_p95_spread_micros ← required_column positions "rtt_client_p95_spread_micros";
  socket_read_max_batch_frames ← required_column positions "socket_read_max_batch_frames";
  Ok (mkMatrixIndexes (positions "relay_batch_policy") (positions "ktp_auth_version") clients
        (positions "relay_adaptive_high_sessions") (positions "relay_adaptive_elevated_dwell_us")
        (positions "relay_adaptive_severe_dwell_us") (positions "relay_adaptive_elevated_cap")
        (positions "relay_adaptive_severe_cap") status elapsed_millis (positions "total_payload_bytes")
        (positions "echo_elapsed_micros") rtt_micros_p95 rtt_client_p95_spread_micros socket_read_max_batch_frames
        (positions "socket_write_max_batch_frames") (positions "socket_write_batch_limit_max")
        (positions "socket_write_batch_limit_min") (positions "socket_write_batch_limit_last")
        (positions "backend_session_limit_count") (positions "backend_session_not_found_count")).

(** ktp-tunnel-matrix-summary.rs [field] *)
Definition matrix_field (fields : list string) (index : nat) (name : string) : result string string :=
  ok_or (v ← fields !! index; if is_empty v then None else Some v) ("missing field " +:+ name).
(** ktp-tunnel-matrix-summary.rs [optional_text] *)
Definition optional_text (fields : list string) (index : option nat) : option string :=
  i ← index; v ← fields !! i; if is_empty v || bool_decide (v = "-") then None else Some v.
(** ktp-tunnel-matrix-summary.rs [parse_required_u64] *)
Definition parse_required_u64 (fields : list string) (index : nat) (name : string) : result string N :=
  value ← matrix_field fields index name;
  ok_or (parse_uint U64_MAX value) (parse_int_error U64_MAX value).
(** ktp-tunnel-matrix-summary.rs [parse_metric] *)
Definition parse_metric (fields : list string) (index : nat) (name : string) (required : bool) (line_number : N)
    (clients : string) : result string (option N) :=
  value ← matrix_field fields index name;
  if bool_decide (value = "-") then
    if required then Err ("missing required pass-row metric " +:+ name +:+ " at line " +:+ pretty line_number
                          +:+ " clients=" +:+ clients)
    else Ok None
  else Some <$> ok_or (parse_uint U64_MAX value) (parse_int_error U64_MAX value).
(** ktp-tunnel-matrix-summary.rs [parse_optional_metric] *)
Definition parse_optional_metric (fields : list string) (index : option nat) (name : string) (required : bool)
    (line_number : N) (clients : string) : result string (option N) :=
  match index with
  | None => Ok None
  | Some index => parse_metric fields index name required line_number clients
  end.

(** ktp-tunnel-matrix-summary.rs [parse_row] *)
Definition parse_matrix_row (line : string) (ix : MatrixIndexes) (line_number : N) : result string MatrixRow :=
  let fields := trim <$> split [[x09]] line in
  relay_batch_policy ← match mi_relay_batch_policy ix with
                       | Some index => matrix_field fields index "relay_batch_policy"
                       | None => Ok "fixed"
                       end;
  let ktp_auth_version := default "v1" (optional_text fields (mi_ktp_auth_version ix)) in
  clients ← matrix_field fields (mi_clients ix) "clients";
  status ← matrix_field fields (mi_status ix) "status";
  elapsed_millis ← parse_required_u64 fields (mi_elapsed_millis ix) "elapsed_millis";
  let pass_row := bool_decide (status = "pass") in
  let required index name := parse_metric fields index name pass_row line_number clients in
  let optional index name needed := parse_optional_metric fields index name needed line_number clients in
  total_payload_bytes ← optional (mi_total_payload_bytes ix) "total_payload_bytes" false;
  echo_elapsed_micros ← optional (mi_echo_elapsed_micros ix) "echo_elapsed_micros" false;
  rtt_micros_p95 ← required (mi_rtt_micros_p95 ix) "rtt_micros_p95";
  client_p95_spread_micros ← required (mi_rtt_client_p95_spread_micros ix) "rtt_client_p95_spread_micros";
  socket_read_max_batch_frames ← required (mi_socket_read_max_batch_frames ix) "socket_read_max_batch_frames";
  socket_write_max_batch_frames ←
    optional (mi_socket_write_max_batch_frames ix) "socket_write_max_batch_frames" pass_row;
  socket_write_batch_limit_max ← optional (mi_socket_write_batch_limit_max ix) "socket_write_batch_limit_max" pass_row;
  socket_write_batch_limit_min ← optional (mi_socket_write_batch_limit_min ix) "socket_write_batch_limit_min" pass_row;
  socket_write_batch_limit_last ←
    optional (mi_socket_write_batch_limit_last ix) "socket_write_batch_limit_last" pass_row;
  backend_session_limit_count ← optional (mi_backend_session_limit_count ix) "backend_session_limit_count" false;
  backend_session_not_found_count ←
    optional (mi_backend_session_not_found_count ix) "backend_session_not_found_count" false;
  let text := optional_text fields in
  Ok (mkMatrixRow relay_batch_policy ktp_auth_version clients
        (text (mi_relay_adaptive_high_sessions ix)) (text (mi_relay_adaptive_elevated_dwell_us ix))
        (text (mi_relay_adaptive_severe_dwell_us ix)) (text (mi_relay_adaptive_elevated_cap ix))
        (text (mi_relay_adaptive_severe_cap ix)) status elapsed_millis total_payload_bytes echo_elapsed_micros
        rtt_micros_p95 client_p95_spread_micros socket_read_max_batch_frames socket_write_max_batch_frames
        socket_write_batch_limit_max socket_write_batch_limit_min socket_write_batch_limit_last
        backend_session_limit_count backend_session_not_found_count).

(** ktp-tunnel-matrix-summary.rs [summarize_tsv] 222-224: the rows, with the number of their line *)
Fixpoint matrix_rows (ix : MatrixIndexes) (line_number : N) (lines : list string) : result string (list MatrixRow) :=
  match lines with
  | [] => Ok []
  | line :: lines =>
      row ← parse_matrix_row line ix line_number;
      rows ← matrix_rows ix (line_number + 1) lines;
      Ok (row :: rows)
  end.

(** ** Numbers *)

(** ktp-tunnel-matrix-summary.rs [throughput_mib_s] *)
Definition throughput_mib_s (row : MatrixRow) : option float64 :=
  total_payload_bytes ← mr_total_payload_bytes row;
  if mr_elapsed_millis row =? 0 then None
  else Some (f_div (f_div (f_div (f_of_N total_payload_bytes) (f_of_N 1024)) (f_of_N 1024))
                   (f_div (f_of_N (mr_elapsed_millis row)) (f_of_N 1000))).
(** ktp-tunnel-matrix-summary.rs [echo_throughput_mib_s] *)
Definition echo_throughput_mib_s (row : MatrixRow) : option float64 :=
  total_payload_bytes ← mr_total_payload_bytes row;
  echo_elapsed_micros ← mr_echo_elapsed_micros row;
  if echo_elapsed_micros =? 0 then None
  else Some (f_div (f_div (f_div (f_of_N total_payload_bytes) (f_of_N 1024)) (f_of_N 1024))
                   (f_div (f_of_N echo_elapsed_micros) (f_of_N 1000000))).

(** ktp-tunnel-matrix-summary.rs [percent_delta] *)
Definition matrix_percent_delta (candidate baseline : N) : float64 :=
  if baseline =? 0 then if candidate =? 0 then f_zero else f_of_N 100
  else f_mul (f_div (f_sub (f_of_N candidate) (f_of_N baseline)) (f_of_N baseline)) (f_of_N 100).

(** ktp-tunnel-matrix-summary.rs [metric_text] *)
Definition metric_text (value : option N) : string := default "-" (pretty <$> value).
(** ktp-tunnel-matrix-summary.rs [text_value] *)
Definition text_value (value : option string) : string := default "-" value.

(** ** Extremes *)

(** ktp-tunnel-matrix-summary.rs [MaxMetric]; [MinMetric] and [MinFloatMetric] have the same fields *)
Record Metric (A : Type) := mkExtreme {
  mt_value : option A; mt_policy : option string; mt_clients : option string; mt_auth_version : option string;
}.
Arguments mkExtreme {A} _ _ _ _.
Arguments mt_value {A} _.
Arguments mt_policy {A} _.
Arguments mt_clients {A} _.
Arguments mt_auth_version {A} _.
Definition no_metric {A} : Metric A := mkExtreme None None None None.

(** Keep the first value that no other is better than *)
Definition record_metric {A} (better : A → A → bool) (row : MatrixRow) (value : option A) (self : Metric A) : Metric A :=
  match value with
  | None => self
  | Some value =>
      if match mt_value self with None => true | Some current => better value current end
      then mkExtreme (Some value) (Some (mr_relay_batch_policy row)) (Some (mr_clients row))
             (Some (mr_ktp_auth_version row))
      else self
  end.
(** ktp-tunnel-matrix-summary.rs [MaxMetric::record] *)
Definition record_max : MatrixRow → option N → Metric N → Metric N := record_metric (fun value current => current <? value).
(** ktp-tunnel-matrix-summary.rs [MinMetric::record] *)
Definition record_min : MatrixRow → option N → Metric N → Metric N := record_metric (fun value current => value <? current).
(** ktp-tunnel-matrix-summary.rs [MinFloatMetric::record] *)
Definition record_min_float : MatrixRow → option float64 → Metric float64 → Metric float64 :=
  record_metric (fun value current => f_lt value current).

Definition is_pass (row : MatrixRow) : bool := bool_decide (mr_status row = "pass").
(** ktp-tunnel-matrix-summary.rs [summarize_tsv] 359-418: the extreme of a number over the rows that
    passed *)
Definition extreme {A} (record : MatrixRow → option A → Metric A → Metric A) (value : MatrixRow → option A)
    (rows : list MatrixRow) : Metric A :=
  foldl (fun m row => if is_pass row then record row (value row) m else m) no_metric rows.

(** ** Comparing policies *)

(** ktp-tunnel-matrix-summary.rs [PolicyVerdict] *)
Inductive PolicyVerdict := AdaptiveBetter | FixedBetter | Same | Mixed.
#[export] Instance PolicyVerdict_eq_dec : EqDecision PolicyVerdict.
Proof. solve_decision. Defined.

(** ktp-tunnel-matrix-summary.rs [PolicyComparison] *)
Record PolicyComparison := mkComparison {
  pc_auth_version : string; pc_clients : string;
  pc_fixed_elapsed_millis : N; pc_adaptive_elapsed_millis : N;
  pc_fixed_rtt_micros_p95 : N; pc_adaptive_rtt_micros_p95 : N;
  pc_fixed_spread_micros : N; pc_adaptive_spread_micros : N;
  pc_verdict : PolicyVerdict;
}.

(** ktp-tunnel-matrix-summary.rs [PolicyVerdict::from_metrics] *)
Definition verdict_from_metrics (fixed_elapsed adaptive_elapsed fixed_rtt adaptive_rtt fixed_spread adaptive_spread : N)
  : PolicyVerdict :=
  let adaptive_not_worse :=
    (adaptive_elapsed <=? fixed_elapsed) && (adaptive_rtt <=? fixed_rtt) && (adaptive_spread <=? fixed_spread) in
  let adaptive_strictly_better :=
    (adaptive_elapsed <? fixed_elapsed) || (adaptive_rtt <? fixed_rtt) || (adaptive_spread <? fixed_spread) in
  let fixed_not_worse :=
    (fixed_elapsed <=? adaptive_elapsed) && (fixed_rtt <=? adaptive_rtt) && (fixed_spread <=? adaptive_spread) in
  let fixed_strictly_better :=
    (fixed_elapsed <? adaptive_elapsed) || (fixed_rtt <? adaptive_rtt) || (fixed_spread <? adaptive_spread) in
  if adaptive_not_worse && adaptive_strictly_better then AdaptiveBetter
  else if fixed_not_worse && fixed_strictly_better then FixedBetter
  else if negb adaptive_strictly_better && negb fixed_strictly_better then Same
  else Mixed.
(** ktp-tunnel-matrix-summary.rs [PolicyVerdict::as_str] *)
Definition verdict_str (v : PolicyVerdict) : string :=
  match v with
  | AdaptiveBetter => "adaptive_better" | FixedBetter => "fixed_better" | Same => "same" | Mixed => "mixed"
  end.
(** ktp-tunnel-matrix-summary.rs [PolicyVerdict::recommendation] *)
Definition verdict_recommendation (v : PolicyVerdict) : string * string :=
  match v with
  | AdaptiveBetter => ("adaptive", "adaptive_not_worse")
  | FixedBetter => ("fixed", "fixed_not_worse")
  | Same => ("fixed", "same_metrics_keep_default")
  | Mixed => ("manual_review", "metric_tradeoff")
  end.

(** ktp-tunnel-matrix-summary.rs [PolicyPair] *)
Record MatrixPair := mkMatrixPair { mp_fixed : option MatrixRow; mp_adaptive : option MatrixRow }.

(** ktp-tunnel-matrix-summary.rs [policy_comparisons] 1027-1039: a row that passed *)
Definition enter_matrix_row (pairs : gmap (string * string) MatrixPair) (row : MatrixRow)
  : gmap (string * string) MatrixPair :=
  if negb (is_pass row) then pairs
  else
    let key := (mr_ktp_auth_version row, mr_clients row) in
    let pair := default (mkMatrixPair None None) (pairs !! key) in
    <[key := if bool_decide (mr_relay_batch_policy row = "fixed") then mkMatrixPair (Some row) (mp_adaptive pair)
             else if bool_decide (mr_relay_batch_policy row = "adaptive") then mkMatrixPair (mp_fixed pair) (Some row)
             else pair]> pairs.
(** ktp-tunnel-matrix-summary.rs [policy_comparisons] 1043-1068: a pair *)
Definition compare_pair (p : (string * string) * MatrixPair) : option PolicyComparison :=
  let '((auth_version, clients), both) := p in
  fixed ← mp_fixed both;
  adaptive ← mp_adaptive both;
  fixed_rtt ← mr_rtt_micros_p95 fixed;
  adaptive_rtt ← mr_rtt_micros_p95 adaptive;
  fixed_spread ← mr_client_p95_spread_micros fixed;
  adaptive_spread ← mr_client_p95_spread_micros adaptive;
  Some (mkComparison auth_version clients (mr_elapsed_millis fixed) (mr_elapsed_millis adaptive) fixed_rtt adaptive_rtt
          fixed_spread adaptive_spread
          (verdict_from_metrics (mr_elapsed_millis fixed) (mr_elapsed_millis adaptive) fixed_rtt adaptive_rtt
             fixed_spread adaptive_spread)).

(** The order of the keys of the [BTreeMap] *)
Definition text_key_le (a b : (string * string) * MatrixPair) : bool :=
  match str_cmp a.1.1 b.1.1 with Lt => true | Eq => leb_of str_cmp a.1.2 b.1.2 | Gt => false end.
(** ktp-tunnel-matrix-summary.rs [policy_comparisons] *)
Definition policy_comparisons (rows : list MatrixRow) : list PolicyComparison :=
  omap compare_pair (sort_by text_key_le (map_to_list (foldl enter_matrix_row ∅ rows))).

(** ** The report and the gate *)

Section report.
(** [format!("{:.2}", x)], with three and with six decimals *)
Context (fmt2 fmt3 fmt6 : float64 → string).

(** ktp-tunnel-matrix-summary.rs [format_float_metric] *)
Definition format_float_metric (value : float64) : string :=
  let magnitude := match value with S754_finite _ m e => S754_finite false m e | S754_infinity _ => S754_infinity false | v => v end in
  if negb (bool_decide (f_cmp value f_zero = Some Eq)) && f_lt magnitude (f_of_decimal false 1 (-3))
  then fmt6 value else fmt3 value.
(** ktp-tunnel-matrix-summary.rs [float_metric_text] *)
Definition float_metric_text (value : option float64) : string := default "-" (format_float_metric <$> value).

(** ktp-tunnel-matrix-summary.rs [PolicyComparison::report_line] *)
Definition report_line (c : PolicyComparison) : string :=
  join " " ("policy_compare" :: (field_text <$>
    [("clients", pc_clients c);
     ("fixed_elapsed_millis", pretty (pc_fixed_elapsed_millis c));
     ("adaptive_elapsed_millis", pretty (pc_adaptive_elapsed_millis c));
     ("elapsed_delta_pct", fmt2 (matrix_percent_delta (pc_adaptive_elapsed_millis c) (pc_fixed_elapsed_millis c)));
     ("fixed_rtt_micros_p95", pretty (pc_fixed_rtt_micros_p95 c));
     ("adaptive_rtt_micros_p95", pretty (pc_adaptive_rtt_micros_p95 c));
     ("rtt_p95_delta_pct", fmt2 (matrix_percent_delta (pc_adaptive_rtt_micros_p95 c) (pc_fixed_rtt_micros_p95 c)));
     ("fixed_rtt_client_p95_spread_micros", pretty (pc_fixed_spread_micros c));
     ("adaptive_rtt_client_p95_spread_micros", pretty (pc_adaptive_spread_micros c));
     ("spread_delta_pct", fmt2 (matrix_percent_delta (pc_adaptive_spread_micros c) (pc_fixed_spread_micros c)));
     ("verdict", verdict_str (pc_verdict c)); ("auth_version", pc_auth_version c)])).
(** ktp-tunnel-matrix-summary.rs [PolicyComparison::recommendation_line] *)
Definition recommendation_line (c : PolicyComparison) : string :=
  let '(recommended, reason) := verdict_recommendation (pc_verdict c) in
  join " " ("policy_recommend" :: (field_text <$>
    [("clients", pc_clients c); ("recommended", recommended); ("verdict", verdict_str (pc_verdict c));
     ("reason", reason); ("auth_version", pc_auth_version c)])).

(** ktp-tunnel-matrix-summary.rs [summarize_tsv] 270-314: the line of a row *)
Definition matrix_row_line (row : MatrixRow) : string :=
  join " " (field_text <$>
    [("policy", mr_relay_batch_policy row); ("clients", mr_clients row); ("status", mr_status row);
     ("elapsed_millis", pretty (mr_elapsed_millis row));
     ("total_payload_bytes", metric_text (mr_total_payload_bytes row));
     ("throughput_mib_s", float_metric_text (throughput_mib_s row));
     ("echo_elapsed_micros", metric_text (mr_echo_elapsed_micros row));
     ("echo_throughput_mib_s", float_metric_text (echo_throughput_mib_s row));
     ("rtt_micros_p95", metric_text (mr_rtt_micros_p95 row));
     ("rtt_client_p95_spread_micros", metric_text (mr_client_p95_spread_micros row));
     ("socket_read_max_batch_frames", metric_text (mr_socket_read_max_batch_frames row));
     ("socket_write_max_batch_frames", metric_text (mr_socket_write_max_batch_frames row));
     ("socket_write_batch_limit_max", metric_text (mr_socket_write_batch_limit_max row));
     ("socket_write_batch_limit_min", metric_text (mr_socket_write_batch_limit_min row));
     ("socket_write_batch_limit_last", metric_text (mr_socket_write_batch_limit_last row));
     ("backend_session_limit_count", metric_text (mr_backend_session_limit_count row));
     ("backend_session_not_found_count", metric_text (mr_backend_session_not_found_count row));
     ("relay_adaptive_high_sessions", text_value (mr_relay_adaptive_high_sessions row));
     ("relay_adaptive_elevated_dwell_us", text_value (mr_relay_adaptive_elevated_dwell_us row));
     ("relay_adaptive_severe_dwell_us", text_value (mr_relay_adaptive_severe_dwell_us row));
     ("relay_adaptive_elevated_cap", text_value (mr_relay_adaptive_elevated_cap row));
     ("relay_adaptive_severe_cap", text_value (mr_relay_adaptive_severe_cap row));
     ("auth_version", mr_ktp_auth_version row)]).

(** The line of an extreme *)
Definition extreme_line {A} (name : string) (show : option A → string) (m : Metric A) : string :=
  join " " (field_text <$>
    [(name, show (mt_value m)); ("policy", text_value (mt_policy m)); ("clients", text_value (mt_clients m));
     ("auth_version", text_value (mt_auth_version m))]).
(** ktp-tunnel-matrix-summary.rs [summarize_tsv] 422-540: the extremes are printed *)
Definition extreme_lines (rows : list MatrixRow) : list string :=
  let max name value := extreme_line name metric_text (extreme record_max value rows) in
  let min_float name value := extreme_line name float_metric_text (extreme record_min_float value rows) in
  [max "max_rtt_micros_p95" mr_rtt_micros_p95;
   max "max_rtt_client_p95_spread_micros" mr_client_p95_spread_micros;
   max "max_socket_read_max_batch_frames" mr_socket_read_max_batch_frames;
   max "max_socket_write_max_batch_frames" mr_socket_write_max_batch_frames;
   max "max_socket_write_batch_limit_max" mr_socket_write_batch_limit_max;
   extreme_line "min_socket_write_batch_limit_min" metric_text
     (extreme record_min mr_socket_write_batch_limit_min rows);
   min_float "min_throughput_mib_s" throughput_mib_s;
   min_float "min_echo_throughput_mib_s" echo_throughput_mib_s;
   max "max_backend_session_limit_count" mr_backend_session_limit_count;
   max "max_backend_session_not_found_count" mr_backend_session_not_found_count].

Definition row_name (row : MatrixRow) : string :=
  "tunnel matrix row policy=" +:+ mr_relay_batch_policy row +:+ " clients=" +:+ mr_clients row.
(** ktp-tunnel-matrix-summary.rs [record_max_gate_failure] *)
Definition record_max_gate_failure (row : MatrixRow) (metric_name : string) (value max : option N) : list string :=
  match max with
  | None => []
  | Some max =>
      let tail := " auth_version=" +:+ mr_ktp_auth_version row in
      match value with
      | Some value =>
          failure_if (max <? value) (row_name row +:+ " " +:+ metric_name +:+ "=" +:+ pretty value
                                     +:+ " exceeds max " +:+ pretty max +:+ tail)
      | None => [row_name row +:+ " " +:+ metric_name +:+ " missing for max " +:+ pretty max +:+ tail]
      end
  end.
(** ktp-tunnel-matrix-summary.rs [record_min_throughput_gate_failure] *)
Definition record_min_throughput_gate_failure (row : MatrixRow) (metric_name : string) (value min : option float64)
  : list string :=
  match min with
  | None => []
  | Some min =>
      let tail := " auth_version=" +:+ mr_ktp_auth_version row in
      match value with
      | Some value =>
          failure_if (f_lt value min) (row_name row +:+ " " +:+ metric_name +:+ "=" +:+ fmt3 value
                                       +:+ " below min " +:+ fmt3 min +:+ tail)
      | None => [row_name row +:+ " " +:+ metric_name +:+ " missing for min " +:+ fmt3 min +:+ tail]
      end
  end.

(** ktp-tunnel-matrix-summary.rs [summarize_tsv] 263-358: what fails about a row *)
Definition row_failures (require_pass : bool) (gate : MatrixGate) (row : MatrixRow) : list string :=
  failure_if (require_pass && negb (is_pass row))
    (row_name row +:+ " status=" +:+ mr_status row +:+ " failed require-pass gate auth_version="
     +:+ mr_ktp_auth_version row)
  ++ if is_pass row then
       record_max_gate_failure row "rtt_micros_p95" (mr_rtt_micros_p95 row) (mg_max_rtt_p95_micros gate)
       ++ record_max_gate_failure row "rtt_client_p95_spread_micros" (mr_client_p95_spread_micros row)
            (mg_max_client_p95_spread_micros gate)
       ++ record_min_throughput_gate_failure row "throughput_mib_s" (throughput_mib_s row) (mg_min_throughput_mib_s gate)
       ++ record_min_throughput_gate_failure row "echo_throughput_mib_s" (echo_throughput_mib_s row)
            (mg_min_echo_throughput_mib_s gate)
       ++ record_max_gate_failure row "backend_session_limit_count" (mr_backend_session_limit_count row)
            (mg_max_backend_session_limit_count gate)
       ++ record_max_gate_failure row "backend_session_not_found_count" (mr_backend_session_not_found_count row)
            (mg_max_backend_session_not_found_count gate)
     else [].

(** ktp-tunnel-matrix-summary.rs [record_expected_matrix_failures]; as many are missing *)
Definition expected_matrix_failures (rows : list MatrixRow) (policies auth_versions clients : list string) : list string :=
  match auth_versions with
  | [] =>
      policies ≫= fun policy => clients ≫= fun c =>
        failure_if (negb (existsb (fun row => bool_decide (mr_relay_batch_policy row = policy)
                                              && bool_decide (mr_clients row = c)) rows))
          ("missing tunnel matrix row policy=" +:+ policy +:+ " clients=" +:+ c)
  | _ =>
      policies ≫= fun policy => auth_versions ≫= fun v => clients ≫= fun c =>
        failure_if (negb (existsb (fun row => bool_decide (mr_relay_batch_policy row = policy)
                                              && bool_decide (mr_ktp_auth_version row = v)
                                              && bool_decide (mr_clients row = c)) rows))
          ("missing tunnel matrix row policy=" +:+ policy +:+ " auth_version=" +:+ v +:+ " clients=" +:+ c)
  end.

Definition count_matrix (rows : list MatrixRow) (status : string) : N :=
  N.of_nat (length (filter (fun row => mr_status row = status) rows)).
(** ktp-tunnel-matrix-summary.rs [summarize_tsv] 226-248: the first line *)
Definition matrix_head (rows : list MatrixRow) : string :=
  let other := N.of_nat (length (filter (fun row => mr_status row ∉ ["pass"; "fail"; "timeout"]) rows)) in
  "ktp_tunnel_matrix_summary rows=" +:+ pretty (N.of_nat (length rows))
  +:+ " pass=" +:+ pretty (count_matrix rows "pass") +:+ " fail=" +:+ pretty (count_matrix rows "fail")
  +:+ " timeout=" +:+ pretty (count_matrix rows "timeout") +:+ " status="
  +:+ (if (count_matrix rows "fail" =? 0) && (count_matrix rows "timeout" =? 0) && (other =? 0) then "pass" else "fail")
  +:+ (if 0 <? other then " other=" +:+ pretty other else "").

(** ktp-tunnel-matrix-summary.rs [summarize_tsv] 542-569: the expected rows *)
Definition expected_line (gate : MatrixGate) (missing : N) : string :=
  join " " ("expected_matrix" :: (field_text <$>
    ("policies", join "," (mg_expected_policies gate))
    :: match mg_expected_auth_versions gate with [] => [] | v => [("auth_versions", join "," v)] end
    ++ [("clients", join "," (mg_expected_clients gate)); ("status", if missing =? 0 then "pass" else "fail");
        ("missing", pretty missing)])).

(** ktp-tunnel-matrix-summary.rs [summarize_tsv] *)
Definition summarize_matrix_tsv (content : string) (require_pass fail_on_fixed_better : bool) (gate : MatrixGate)
  : result string MatrixReport :=
  match filter (fun line => is_empty (trim line) = false) (lines content) with
  | [] => Err "matrix summary is empty"
  | header :: table =>
      indexes ← matrix_indexes_from_header header;
      rows ← matrix_rows indexes 2 table;
      let expected :=
        match mg_expected_policies gate with
        | [] => []
        | policies => expected_matrix_failures rows policies (mg_expected_auth_versions gate) (mg_expected_clients gate)
        end in
      let comparisons := policy_comparisons rows in
      Ok (mkMatrixReport
            (join (str_of [x0a])
               (matrix_head rows :: (matrix_row_line <$> rows) ++ extreme_lines rows
                ++ match mg_expected_policies gate with
                   | [] => []
                   | _ => [expected_line gate (N.of_nat (length expected))]
                   end
                ++ (comparisons ≫= fun c => [report_line c; recommendation_line c])))
            ((rows ≫= row_failures require_pass gate) ++ expected
             ++ (comparisons ≫= fun c => failure_if (fail_on_fixed_better && bool_decide (pc_verdict c = FixedBetter))
                   ("fixed_better tunnel matrix verdict failed KTP tunnel policy gate for clients=" +:+ pc_clients c
                    +:+ " auth_version=" +:+ pc_auth_version c))))
  end.
End report.

(** ** Arguments *)

Definition flag_value (args : list string) (flag : string) : result string (string * list string) :=
  match args with
  | [] => Err (flag +:+ " requires a value")
  | value :: args => Ok (value, args)
  end.
(** ktp-tunnel-matrix-summary.rs [next_u64_arg] *)
Definition matrix_u64_arg (args : list string) (flag : string) (allow_zero : bool) : result string (N * list string) :=
  '(value, args) ← flag_value args flag;
  if is_empty (trim value) then Err (flag +:+ " requires a non-empty value")
  else
    parsed ← ok_or (parse_uint U64_MAX value)
      (flag +:+ " invalid integer '" +:+ value +:+ "': " +:+ parse_int_error U64_MAX value);
    if negb allow_zero && (parsed =? 0) then Err (flag +:+ " must be greater than 0") else Ok (parsed, args).
(** ktp-tunnel-matrix-summary.rs [next_f64_arg] *)
Definition matrix_f64_arg (args : list string) (flag : string) : result string (float64 * list string) :=
  '(value, args) ← flag_value args flag;
  if is_empty (trim value) then Err (flag +:+ " requires a non-empty value")
  else
    parsed ← ok_or (f_parse value) (flag +:+ " invalid number '" +:+ value +:+ "': invalid float literal");
    if f_lt parsed f_zero then Err (flag +:+ " must be greater than or equal to 0") else Ok (parsed, args).

(** Each item once, where it comes first *)
Fixpoint first_occurrences (seen l : list string) : list string :=
  match l with
  | [] => []
  | x :: l => if bool_decide (x ∈ seen) then first_occurrences seen l else x :: first_occurrences (x :: seen) l
  end.
(** ktp-tunnel-matrix-summary.rs [parse_list_arg] *)
Definition parse_list_arg (value : string) : list string :=
  first_occurrences [] (filter (fun item => is_empty item = false)
    (trim <$> split ([x2c] :: white_space) value)).
(** ktp-tunnel-matrix-summary.rs [next_list_arg] *)
Definition next_list_arg (args : list string) (flag : string) : result string (list string * list string) :=
  '(value, args) ← flag_value args flag;
  match parse_list_arg value with
  | [] => Err (flag +:+ " requires at least one value")
  | values => Ok (values, args)
  end.

(** The options of [run] *)
Record MatrixArgs := mkMatrixArgs {
  ma_require_pass : bool; ma_fail_on_fixed_better : bool; ma_gate : MatrixGate; ma_path : option string;
}.
Definition set_gate (g : MatrixGate → MatrixGate) (a : MatrixArgs) : MatrixArgs :=
  mkMatrixArgs (ma_require_pass a) (ma_fail_on_fixed_better a) (g (ma_gate a)) (ma_path a).

(** ktp-tunnel-matrix-summary.rs [run] 77-123: an option, with the arguments after it; [None] is an
    argument that is not one *)
Definition matrix_option (arg : string) (args : list string) (a : MatrixArgs)
  : option (result string (MatrixArgs * list string)) :=
  let number allow_zero (set : option N → MatrixGate → MatrixGate) :=
    Some ('(v, rest) ← matrix_u64_arg args arg allow_zero; Ok (set_gate (set (Some v)) a, rest)) in
  let float (set : option float64 → MatrixGate → MatrixGate) :=
    Some ('(v, rest) ← matrix_f64_arg args arg; Ok (set_gate (set (Some v)) a, rest)) in
  let list (set : list string → MatrixGate → MatrixGate) :=
    Some ('(v, rest) ← next_list_arg args arg; Ok (set_gate (set v) a, rest)) in
  if bool_decide (arg = "--require-pass")
  then Some (Ok (mkMatrixArgs true (ma_fail_on_fixed_better a) (ma_gate a) (ma_path a), args))
  else if bool_decide (arg = "--fail-on-fixed-better")
  then Some (Ok (mkMatrixArgs (ma_require_pass a) true (ma_gate a) (ma_path a), args))
  else if bool_decide (arg = "--max-rtt-p95-micros") then
    number false (fun v '(mkMatrixGate _ b c d e f g h i) => mkMatrixGate v b c d e f g h i)
  else if bool_decide (arg = "--max-client-p95-spread-micros") then
    number true (fun v '(mkMatrixGate x _ c d e f g h i) => mkMatrixGate x v c d e f g h i)
  else if bool_decide (arg = "--min-throughput-mib-s") then
    float (fun v '(mkMatrixGate x b _ d e f g h i) => mkMatrixGate x b v d e f g h i)
  else if bool_decide (arg = "--min-echo-throughput-mib-s") then
    float (fun v '(mkMatrixGate x b c _ e f g h i) => mkMatrixGate x b c v e f g h i)
  else if bool_decide (arg = "--max-backend-session-limit-count") then
    number true (fun v '(mkMatrixGate x b c d _ f g h i) => mkMatrixGate x b c d v f g h i)
  else if bool_decide (arg = "--max-backend-session-not-found-count") then
    number true (fun v '(mkMatrixGate x b c d e _ g h i) => mkMatrixGate x b c d e v g h i)
  else if bool_decide (arg = "--expect-policies") then
    list (fun v '(mkMatrixGate x b c d e f _ h i) => mkMatrixGate x b c d e f v h i)
  else if bool_decide (arg = "--expect-auth-versions") then
    list (fun v '(mkMatrixGate x b c d e f g _ i) => mkMatrixGate x b c d e f g v i)
  else if bool_decide (arg = "--expect-clients") then
    list (fun v '(mkMatrixGate x b c d e f g h _) => mkMatrixGate x b c d e f g h v)
  else None.

(** ktp-tunnel-matrix-summary.rs [run] 77-128: the loop; fuel above the number of arguments *)
Fixpoint matrix_args (fuel : nat) (args : list string) (a : MatrixArgs) : result string MatrixArgs :=
  match fuel, args with
  | S fuel, arg :: args =>
      match matrix_option arg args a with
      | Some r => '(a, args) ← r; matrix_args fuel args a
      | None =>
          if is_empty (trim arg) then Err "empty argument is not allowed"
          else
            match ma_path a with
            | None => matrix_args fuel args (mkMatrixArgs (ma_require_pass a) (ma_fail_on_fixed_better a) (ma_gate a) (Some arg))
            | Some _ => Err "unexpected extra argument"
            end
      end
  | _, _ => Ok a
  end.

Definition no_gate : MatrixGate := mkMatrixGate None None None None None None [] [] [].
Definition is_nil {A} (l : list A) : bool := match l with [] => true | _ => false end.

(** ktp-tunnel-matrix-summary.rs [run] *)
Definition run_matrix_summary (fmt2 fmt3 fmt6 : float64 → string) (read_to_string : string → string + string)
    (args : list string) : result string MatrixReport :=
  a ← matrix_args (length args) args (mkMatrixArgs false false no_gate None);
  let gate := ma_gate a in
  if xorb (is_nil (mg_expected_policies gate)) (is_nil (mg_expected_clients gate))
  then Err "--expect-policies and --expect-clients must be provided together"
  else if negb (is_nil (mg_expected_auth_versions gate))
          && (is_nil (mg_expected_policies gate) || is_nil (mg_expected_clients gate))
  then Err "--expect-auth-versions requires --expect-policies and --expect-clients"
  else
    path ← ok_or (ma_path a) "matrix-summary.tsv path is required";
    content ← match read_to_string path with inr content => Ok content | inl error => Err error end;
    summarize_matrix_tsv fmt2 fmt3 fmt6 content (ma_require_pass a) (ma_fail_on_fixed_better a) gate.

(** ** What the extremes and the verdict are *)

(** A value of a row that passed, with what is reported of the row *)
Definition passed_with {A} (value : MatrixRow → option A) (rows : list MatrixRow) (row : MatrixRow) (v : A) : Prop :=
  row ∈ rows ∧ is_pass row = true ∧ value row = Some v.
Definition labels {A} (m : Metric A) : option string * option string * option string :=
  (mt_policy m, mt_clients m, mt_auth_version m).
Definition labels_of (row : MatrixRow) : option string * option string * option string :=
  (Some (mr_relay_batch_policy row), Some (mr_clients row), Some (mr_ktp_auth_version row)).

Section extremes.
Context {A : Type} (better : A → A → bool) (value : MatrixRow → option A).
Context (better_trans : ∀ x y z, better x y = true → better z y = false → better z x = false).
Context (better_irrefl : ∀ x, better x x = false).

(** What an extreme says of the rows it was taken over *)
Definition extreme_ok (rows : list MatrixRow) (m : Metric A) : Prop :=
  match mt_value m with
  | None => labels m = (None, None, None) ∧ ∀ row v, ~ passed_with value rows row v
  | Some best =>
      (∃ row, passed_with value rows row best ∧ labels m = labels_of row)
      ∧ ∀ row v, passed_with value rows row v → better v best = false
  end.

Lemma passed_snoc rows r row v :
  passed_with value (rows ++ [r]) row v ↔ passed_with value rows row v ∨ (row = r ∧ is_pass r = true ∧ value r = Some v).
Proof. unfold passed_with. rewrite elem_of_app, list_elem_of_singleton. naive_solver. Qed.

Lemma extreme_sound rows : extreme_ok rows (extreme (record_metric better) value rows).
Proof.
  unfold extreme. induction rows as [|r rows IH] using rev_ind.
  { split; [done|]. intros row v [Hin _]. by apply elem_of_nil in Hin. }
  rewrite foldl_snoc. set (m := foldl _ _ rows) in *. clearbody m.
  destruct (is_pass r) eqn:Hp; [destruct (value r) as [v|] eqn:Hv|].
  - unfold record_metric. unfold extreme_ok in IH. destruct (mt_value m) as [best|] eqn:Hm.
    + destruct IH as [(row & Hrow & Hl) Hbest]. destruct (better v best) eqn:Hb; unfold extreme_ok; cbn [mt_value].
      * split; [exists r; split; [by apply passed_snoc; right|done]|].
        intros row' w [Hw|(-> & _ & Hw)]%passed_snoc; [by eapply better_trans, Hbest|].
        rewrite Hv in Hw. injection Hw as ->. apply better_irrefl.
      * rewrite Hm. split; [exists row; split; [by apply passed_snoc; left|done]|].
        intros row' w [Hw|(-> & _ & Hw)]%passed_snoc; [by eapply Hbest|]. rewrite Hv in Hw. by injection Hw as ->.
    + destruct IH as [_ Hnone]. unfold extreme_ok. cbn [mt_value].
      split; [exists r; split; [by apply passed_snoc; right|done]|].
      intros row' w [Hw|(-> & _ & Hw)]%passed_snoc; [by apply Hnone in Hw|].
      rewrite Hv in Hw. injection Hw as ->. apply better_irrefl.
  - unfold record_metric, extreme_ok in *. destruct (mt_value m) as [best|].
    + destruct IH as [(row & Hrow & Hl) Hbest]. split; [exists row; split; [by apply passed_snoc; left|done]|].
      intros row' w [Hw|(-> & _ & Hw)]%passed_snoc; [by eapply Hbest|congruence].
    + destruct IH as [Hl Hnone]. split; [done|]. intros row w [Hw|(-> & _ & Hw)]%passed_snoc; [by apply Hnone in Hw|congruence].
  - unfold extreme_ok in *. destruct (mt_value m) as [best|].
    + destruct IH as [(row & Hrow & Hl) Hbest]. split; [exists row; split; [by apply passed_snoc; left|done]|].
      intros row' w [Hw|(-> & Hw & _)]%passed_snoc; [by eapply Hbest|congruence].
    + destruct IH as [Hl Hnone]. split; [done|]. intros row w [Hw|(-> & Hw & _)]%passed_snoc; [by apply Hnone in Hw|congruence].
Qed.
End extremes.

(** The maximum that is reported of a number is the largest of the rows that passed, with the
    policy, the clients and the version of a row that has it; nothing is reported when no row that
    passed has the number. *)
Theorem matrix_maximum value rows :
  extreme_ok (fun v best => best <? v) value rows (extreme record_max value rows).
Proof. apply extreme_sound; intros; rewrite ?N.ltb_ge, ?N.ltb_lt in *; lia. Qed.

(** The minimum likewise *)
Theorem matrix_minimum value rows :
  extreme_ok (fun v best => v <? best) value rows (extreme record_min value rows).
Proof. apply extreme_sound; intros; rewrite ?N.ltb_ge, ?N.ltb_lt in *; lia. Qed.

(** One triple of numbers is nowhere larger than another *)
Definition dominates (a b : N * N * N) : Prop := a.1.1 ≤ b.1.1 ∧ a.1.2 ≤ b.1.2 ∧ a.2 ≤ b.2.
Definition verdict_of (fixed adaptive : N * N * N) : PolicyVerdict :=
  verdict_from_metrics fixed.1.1 adaptive.1.1 fixed.1.2 adaptive.1.2 fixed.2 adaptive.2.

(** The verdict is the Pareto order of elapsed time, round-trip time and spread: a policy is better
    when it is nowhere worse and not the same, and the numbers are mixed when neither is. *)
Theorem verdict_pareto fixed adaptive :
  (verdict_of fixed adaptive = AdaptiveBetter ↔ dominates adaptive fixed ∧ adaptive ≠ fixed)
  ∧ (verdict_of fixed adaptive = FixedBetter ↔ dominates fixed adaptive ∧ adaptive ≠ fixed)
  ∧ (verdict_of fixed adaptive = Same ↔ adaptive = fixed)
  ∧ (verdict_of fixed adaptive = Mixed ↔ ~ dominates adaptive fixed ∧ ~ dominates fixed adaptive).
Proof.
  destruct fixed as [[a b] c], adaptive as [[x y] z]. unfold verdict_of, dominates. cbn [fst snd].
  assert ((x, y, z) = (a, b, c) ↔ x = a ∧ y = b ∧ z = c) as -> by naive_solver.
  unfold verdict_from_metrics. rewrite !N.leb_antisym.
  destruct (N.ltb_spec x a), (N.ltb_spec y b), (N.ltb_spec z c), (N.ltb_spec a x), (N.ltb_spec b y), (N.ltb_spec c z);
    cbn [andb orb negb]; try lia; split_and!; (split; [try discriminate; lia|]); intros; try reflexivity; lia.
Qed.
